(** * AmbuSched: the assignment engine, the return-course generator and the
      fallback solver, embedded from the JavaScript sources

    The development follows the three source units the scheduler is made of:

    - the return-course generator ([calculateExitTime], [generateReturnCourse],
      [generateReturnCourses], [processCoursesWithReturns]);
    - the scoring model and the assignment engine ([calculateOptimizationScore],
      [findBestVehicleAssignment], [resolveConflicts], [optimizeMultipleTrips]);
    - the fallback solver ([checkTimeConflicts], [findBestVehicleForTrip],
      [apply2OptImprovement], [fallbackVRPSolver]).

    JavaScript numbers that carry fractions (distances, speeds, scores) are
    IEEE binary64 values, the kernel's primitive floats.  Whole minute counts
    read from "HH:MM" text are [option Z], [None] standing for NaN.  A call
    that may raise returns a [completion]. *)

From Stdlib Require Import ZArith List String Ascii Bool Lia Permutation.
From Stdlib Require Import DecimalString DecimalN DecimalPos.
From Stdlib Require Import Floats.

Import ListNotations.

Set Warnings "-inexact-float".

#[local] Open Scope string_scope.
#[local] Open Scope Z_scope.

(* ================================================================== *)
(** * The JavaScript fragment the sources rely on *)
(* ================================================================== *)

Module JS.

(** The outcome of evaluating a call: a value, or a raised exception (its
    message). *)
Inductive completion (A : Type) : Type :=
| Normal (a : A)
| Throw (e : string).

Arguments Normal {A} a.
Arguments Throw {A} e.

Definition bind {A B : Type} (c : completion A) (k : A -> completion B)
  : completion B :=
  match c with
  | Normal a => k a
  | Throw e => Throw e
  end.

(** [try { body } catch (error) { handler }]. *)
Definition try_catch {A : Type} (body : completion A)
  (handler : string -> completion A) : completion A :=
  match body with
  | Normal a => Normal a
  | Throw e => handler e
  end.

(** Truthiness of an optional string field: [undefined], [null] and the empty
    string are falsy. *)
Definition truthy (s : option string) : bool :=
  match s with
  | Some EmptyString => false
  | Some _ => true
  | None => false
  end.

(** [a || b] on optional string fields. *)
Definition or_else (a b : option string) : option string :=
  if truthy a then a else b.

(** [a || d] where [d] is a string literal. *)
Definition or_default (a : option string) (d : string) : string :=
  match a with
  | Some EmptyString => d
  | Some s => s
  | None => d
  end.

(** Strict equality [a === lit] of a field with a string literal. *)
Definition is_lit (a : option string) (lit : string) : bool :=
  match a with
  | Some s => String.eqb s lit
  | None => false
  end.

(** Strict equality [a === b] of two fields holding strings or [undefined]. *)
Definition strict_eq (a b : option string) : bool :=
  match a, b with
  | Some x, Some y => String.eqb x y
  | None, None => true
  | _, _ => false
  end.

(** [s.split(':')]. *)
Fixpoint split_colon (s : string) : list string :=
  match s with
  | EmptyString => [EmptyString]
  | String c r =>
      if Ascii.eqb c ":" then EmptyString :: split_colon r
      else match split_colon r with
           | h :: t => String c h :: t
           | [] => [String c EmptyString]
           end
  end.

(** [Number(s)] on the parts of a clock text written in digits: a run of
    decimal digits reads as its value and the empty string as 0.  This is
    the whole domain of the definition: [Number] of the language also reads
    blanks around the digits, signs, fractions, exponents, other bases and
    [Infinity], and those texts are not covered here, where they fall with
    the texts that are no number at all.  Statements that depend on a text
    being read therefore name the value it reads to. *)
Definition Number (s : string) : option Z :=
  option_map (fun d => Z.of_N (N.of_uint d)) (NilEmpty.uint_of_string s).

(** Arithmetic on whole numbers with NaN. *)
Definition nadd (a b : option Z) : option Z :=
  match a, b with
  | Some x, Some y => Some (x + y)
  | _, _ => None
  end.

Definition nsub (a b : option Z) : option Z :=
  match a, b with
  | Some x, Some y => Some (x - y)
  | _, _ => None
  end.

Definition nmul (a b : option Z) : option Z :=
  match a, b with
  | Some x, Some y => Some (x * y)
  | _, _ => None
  end.

(** [a < b]: false as soon as one side is NaN. *)
Definition nlt (a b : option Z) : bool :=
  match a, b with
  | Some x, Some y => x <? y
  | _, _ => false
  end.

Definition nabs (a : option Z) : option Z := option_map Z.abs a.

(** [Math.max(a, b)] and [Math.min(a, b)]: NaN when one argument is NaN. *)
Definition Math_max (a b : option Z) : option Z :=
  match a, b with
  | Some x, Some y => Some (Z.max x y)
  | _, _ => None
  end.

Definition Math_min (a b : option Z) : option Z :=
  match a, b with
  | Some x, Some y => Some (Z.min x y)
  | _, _ => None
  end.

(** [Math.floor(a / 60)] and [a % 60] on whole numbers: the quotient rounds
    down, the remainder takes the sign of the dividend. *)
Definition floor_div (a : option Z) (k : Z) : option Z :=
  option_map (fun x => x / k) a.

Definition rem (a : option Z) (k : Z) : option Z :=
  option_map (fun x => Z.rem x k) a.

(** [n.toString()] for a whole number or NaN. *)
Definition toString (a : option Z) : string :=
  match a with
  | None => "NaN"
  | Some z =>
      let digits := NilEmpty.string_of_uint (N.to_uint (Z.abs_N z)) in
      if z <? 0 then String "-" digits else digits
  end.

(** [s.padStart(2, '0')]. *)
Definition padStart2 (s : string) : string :=
  match s with
  | EmptyString => "00"
  | String c EmptyString => String "0" (String c EmptyString)
  | _ => s
  end.

(** The two numbers a clock text destructures to:
    [const [hours, minutes] = s.split(':').map(Number)], a missing second
    part being [undefined]. *)
Definition hours_of (s : string) : option Z :=
  match split_colon s with
  | h :: _ => Number h
  | [] => None
  end.

Definition minutes_of (s : string) : option Z :=
  match split_colon s with
  | _ :: m :: _ => Number m
  | _ => None
  end.

(** [hours * 60 + minutes]. *)
Definition clock_minutes (s : string) : option Z :=
  nadd (nmul (hours_of s) (Some 60)) (minutes_of s).

(** The names every object literal inherits from [Object.prototype]:
    reading one of them from a table that does not define it gives a
    function, and the prototype itself under ["__proto__"]. *)
Definition prototype_names : list string :=
  [ "constructor"; "__defineGetter__"; "__defineSetter__"; "hasOwnProperty";
    "__lookupGetter__"; "__lookupSetter__"; "isPrototypeOf";
    "propertyIsEnumerable"; "toString"; "valueOf"; "__proto__";
    "toLocaleString" ].

Definition is_prototype_name (key : string) : bool :=
  existsb (String.eqb key) prototype_names.

(** The property key of a field that may be missing: [table[undefined]]
    reads the key ["undefined"]. *)
Definition property_key (key : option string) : string :=
  match key with
  | Some k => k
  | None => "undefined"
  end.

End JS.

Notation "x <- c ;; k" := (JS.bind c (fun x => k))
  (at level 61, c at next level, right associativity).

(* ================================================================== *)
(** * The data model *)
(* ================================================================== *)

(** A trip (course).  Every field the sources read is present; a field that a
    JavaScript object may lack is an [option]. *)
Module Trip.
Record t : Type := mk {
  id : Z;
  patient : string;
  pickup : option string;
  destination : option string;
  coordinates : option (list float);
  destinationCoords : option (list float);
  appointmentTime : option string;
  pickupTime : option string;
  time : option string;
  duration : option Z;
  returnTime : option string;
  isReturnTrip : bool;
  originalCourseId : option Z;
  vehicleType : option string;
  priority : option string;
  status : option string;
  exitTime : option string;
  earliestPickupTime : option string;
  maxWaitTime : option Z;
  estimatedDuration : option float
}.
End Trip.

(* ================================================================== *)
(** * The return-course generator *)
(* ================================================================== *)

Module ReturnCourses.

Import JS.

(** The "HH:MM" text of a minute count, as both clock helpers print it. *)
Definition format_clock (total : option Z) : string :=
  padStart2 (toString (floor_div total 60)) ++ ":" ++
  padStart2 (toString (rem total 60)).

(** [calculateExitTime(appointmentTime, duration)]: [appointmentTime.split]
    raises on a missing appointment time. *)
Definition calculateExitTime (appointmentTime : option string)
  (duration : option Z) : completion string :=
  match appointmentTime with
  | None => Throw "TypeError: cannot read properties of undefined (reading 'split')"
  | Some a =>
      let appointmentMinutes := clock_minutes a in
      let exitMinutes := nadd appointmentMinutes duration in
      Normal (format_clock exitMinutes)
  end.

(** [calculateReturnPickupTime(exitTime, bufferMinutes)]. *)
Definition calculateReturnPickupTime (exitTime : string) (bufferMinutes : Z)
  : string :=
  let exitMinutes := clock_minutes exitTime in
  let returnMinutes := nadd exitMinutes (Some bufferMinutes) in
  format_clock returnMinutes.

(** [[...a]]: spreading a missing array raises. *)
Definition spread (a : option (list float)) : completion (list float) :=
  match a with
  | Some l => Normal l
  | None => Throw "TypeError: undefined is not iterable"
  end.

Definition generateReturnCourse (originalCourse : Trip.t) (newId : Z)
  : completion Trip.t :=
  exitTime <-
    (if truthy (Trip.returnTime originalCourse)
     then Normal (or_default (Trip.returnTime originalCourse) "")
     else calculateExitTime (Trip.appointmentTime originalCourse)
                            (Trip.duration originalCourse)) ;;
  let returnPickupTime := calculateReturnPickupTime exitTime 15 in
  coords <- spread (Trip.destinationCoords originalCourse) ;;
  destCoords <- spread (Trip.coordinates originalCourse) ;;
  Normal {|
    Trip.id := newId;
    Trip.patient := Trip.patient originalCourse;
    Trip.pickup := Trip.destination originalCourse;
    Trip.destination := Trip.pickup originalCourse;
    Trip.coordinates := Some coords;
    Trip.destinationCoords := Some destCoords;
    Trip.appointmentTime := Some exitTime;
    Trip.pickupTime := None;
    Trip.time := None;
    Trip.duration := Some 30;
    Trip.returnTime := None;
    Trip.isReturnTrip := true;
    Trip.originalCourseId := Some (Trip.id originalCourse);
    Trip.vehicleType := Some (or_default (Trip.vehicleType originalCourse) "VSL");
    Trip.priority := None;
    Trip.status := None;
    Trip.exitTime := Some exitTime;
    Trip.earliestPickupTime := Some returnPickupTime;
    Trip.maxWaitTime := Some 240;
    Trip.estimatedDuration := None
  |}.

(** [course.duration && course.duration > 0]. *)
Definition hasValidDuration (course : Trip.t) : bool :=
  match Trip.duration course with
  | Some d => d >? 0
  | None => false
  end.

(** [course.returnTime && course.returnTime !== '00:00' &&
     course.returnTime !== '0:00']. *)
Definition hasValidReturnTime (course : Trip.t) : bool :=
  truthy (Trip.returnTime course)
  && negb (is_lit (Trip.returnTime course) "00:00")
  && negb (is_lit (Trip.returnTime course) "0:00").

(** The generation condition of the [forEach] body. *)
Definition qualifies (course : Trip.t) : bool :=
  negb (Trip.isReturnTrip course)
  && (hasValidDuration course || hasValidReturnTime course).

(** The [forEach] loop: [maxId] and [returnCourses] are the loop state. *)
Fixpoint generate_loop (courses : list Trip.t) (maxId : Z)
  (returnCourses : list Trip.t) : completion (list Trip.t) :=
  match courses with
  | [] => Normal returnCourses
  | course :: rest =>
      if qualifies course then
        returnCourse <- generateReturnCourse course (maxId + 1) ;;
        generate_loop rest (maxId + 1) (returnCourses ++ [returnCourse])%list
      else generate_loop rest maxId returnCourses
  end.

(** [Math.max(...courses.map(c => c.id), 0)]. *)
Definition max_id (courses : list Trip.t) : Z :=
  fold_right (fun c m => Z.max (Trip.id c) m) 0 courses.

Definition generateReturnCourses (courses : list Trip.t)
  : completion (list Trip.t) :=
  generate_loop courses (max_id courses) [].

Definition processCoursesWithReturns (courses : list Trip.t)
  : completion (list Trip.t) :=
  returnCourses <- generateReturnCourses courses ;;
  Normal (courses ++ returnCourses)%list.

End ReturnCourses.

(* ================================================================== *)
(** * Numbers with fractions, and the host's built-in functions *)
(* ================================================================== *)

Module Num.

#[local] Open Scope float_scope.

(** The float of a whole number (exact below 2^53). *)
Definition of_Z (z : Z) : float :=
  if (z <? 0)%Z then - of_uint63 (Uint63.of_Z (- z)) else of_uint63 (Uint63.of_Z z).

(** The whole number a float holds; [None] for NaN, the infinities and values
    with a fractional part. *)
Definition whole (x : float) : option Z :=
  match Prim2SF x with
  | S754_zero _ => Some 0%Z
  | S754_finite s m e =>
      let num := if s then Z.neg m else Z.pos m in
      if (0 <=? e)%Z then Some (num * 2 ^ e)%Z
      else if (Z.pos m mod 2 ^ (- e) =? 0)%Z then Some (num / 2 ^ (- e))%Z
      else None
  | _ => None
  end.

(** [Math.round(x)]: the nearest whole number, a tie going towards +infinity;
    NaN, the infinities and the zeros are returned unchanged, and a negative
    value that rounds to zero gives -0. *)
Definition Math_round (x : float) : float :=
  match Prim2SF x with
  | S754_finite s m e =>
      if (0 <=? e)%Z then x
      else
        let num := if s then Z.neg m else Z.pos m in
        let k := (- e)%Z in
        let z := ((2 * num + 2 ^ k) / 2 ^ (k + 1))%Z in
        if (z =? 0)%Z && s then (-0) else of_Z z
  | _ => x
  end.

(** [Math.max(a, b)]: NaN when one argument is NaN, and +0 above -0. *)
Definition Math_max (a b : float) : float :=
  if is_nan a || is_nan b then nan
  else if a <? b then b
  else if b <? a then a
  else if get_sign a then b else a.

Definition Math_abs (x : float) : float := abs x.

(** [x || d] on a number: 0, -0 and NaN are falsy. *)
Definition or_number (x d : float) : float :=
  if is_nan x || is_zero x then d else x.

Definition Math_PI : float := 3.141592653589793.

End Num.

(** The host functions the sources call that the kernel's floats and strings
    do not provide: they are parameters of the engine. *)
Class Host : Type := {
  Math_sin : float -> float;
  Math_cos : float -> float;
  Math_atan2 : float -> float -> float;
  (** [s.toLowerCase()]. *)
  toLowerCase : string -> string;
  (** [a.localeCompare(b)]: negative, zero or positive. *)
  localeCompare : string -> string -> Z;
  (** [prototype_member name key]: the member [key] of what an object
      literal inherits under [name] (a function of [Object.prototype], or
      the prototype itself), as the number it counts for when it is truthy;
      [None] when it is [undefined] or falsy. *)
  prototype_member : string -> string -> option float
}.

(** A vehicle. *)
Module Vehicle.
Record t : Type := mk {
  id : Z;
  name : string;
  type : option string;
  status : option string;
  currentLocation : option string;
  coordinates : option (list float);
  trips : option (list Trip.t)
}.
End Vehicle.

(* ================================================================== *)
(** * The scoring model and the single-trip assignment resolver *)
(* ================================================================== *)

Module Engine.

Import JS.

#[local] Open Scope float_scope.

(** [Array.prototype.sort(compare)]: the stable sort; [compare a b > 0] puts
    [a] after [b]. *)
Fixpoint sort_insert {A : Type} (compare : A -> A -> float) (x : A)
  (sorted : list A) : list A :=
  match sorted with
  | [] => [x]
  | y :: rest =>
      if 0 <? compare x y then y :: sort_insert compare x rest
      else x :: y :: rest
  end.

Definition Array_sort {A : Type} (compare : A -> A -> float) (l : list A)
  : list A :=
  fold_right (sort_insert compare) [] l.

(** [a.slice(from, to)]. *)
Definition slice {A : Type} (from to : nat) (l : list A) : list A :=
  firstn (to - from) (skipn from l).

(** [s.includes(key)]. *)
Fixpoint includes (s key : string) : bool :=
  String.prefix key s ||
  match s with
  | EmptyString => false
  | String _ r => includes r key
  end.

(** The own property [key] of an object literal, [None] when the literal
    does not define it. *)
Fixpoint lookup {A : Type} (table : list (string * A)) (key : string)
  : option A :=
  match table with
  | [] => None
  | (k, v) :: rest => if String.eqb k key then Some v else lookup rest key
  end.

(** What [table[key]] reads on an object literal: its own property, else
    what it inherits from [Object.prototype] under that name (a function, or
    the prototype), else [undefined]. *)
Inductive Member (A : Type) : Type :=
| own (a : A)
| inherited (name : string)
| missing.

Arguments own {A} a.
Arguments inherited {A} name.
Arguments missing {A}.

Definition get {A : Type} (table : list (string * A)) (key : option string)
  : Member A :=
  let name := property_key key in
  match lookup table name with
  | Some v => own v
  | None => if is_prototype_name name then inherited name else missing
  end.

(** [x || d] where [x] is a number or [undefined]. *)
Definition or_num (x : option float) (d : float) : float :=
  match x with
  | Some v => Num.or_number v d
  | None => d
  end.

(** [table[key] || d] as a number, on a table of numbers: an inherited
    function is truthy, so the default is not taken, and it counts for NaN
    wherever the result is used. *)
Definition member_or (x : Member float) (d : float) : float :=
  match x with
  | own v => Num.or_number v d
  | inherited _ => nan
  | missing => d
  end.

(** [table[key] || d] on a table of arrays, which are all truthy: an array of
    the table or the default, or the function the table inherits under the
    name. *)
Inductive Read (A : Type) : Type :=
| value (a : A)
| builtin (name : string).

Arguments value {A} a.
Arguments builtin {A} name.

Definition read_or {A : Type} (x : Member A) (d : A) : Read A :=
  match x with
  | own a => value a
  | inherited name => builtin name
  | missing => value d
  end.

(** A whole number or NaN as a float. *)
Definition to_float (a : option Z) : float :=
  match a with
  | Some z => Num.of_Z z
  | None => nan
  end.

(** [parseInt(s)] on clock text written in digits: the leading run of
    decimal digits, read as its value.  This is the whole domain of the
    definition: [parseInt] of the language also skips blanks before the
    number and reads a sign and, after [0x], hexadecimal digits; those texts
    are not covered here, where they fall with the texts that start with no
    number at all. *)
Fixpoint digit_prefix (s : string) : string :=
  match s with
  | String c r =>
      if (Ascii.leb "0" c && Ascii.leb c "9")%bool
      then String c (digit_prefix r) else EmptyString
  | EmptyString => EmptyString
  end.

Definition parseInt (s : string) : option Z :=
  match digit_prefix s with
  | EmptyString => None
  | d => Number d
  end.

Record Coords : Type := { lat : float; lng : float }.

Inductive Severity : Type := severity_high | severity_medium.

Record Conflict : Type := {
  conflictingTrip : Trip.t;
  timeDifference : option Z;
  severity : Severity
}.

Record ScoreDetails : Type := {
  vehicleTypeScore : float;
  timeSlotScore : float;
  distanceScore : float;
  priorityScore : float;
  distanceToPickup : float;
  tripDistance : float;
  totalDistance : float;
  timeToPickup : float;
  tripDuration : float;
  totalTime : float;
  estimatedArrival : option string;
  fuelCost : float;
  conflicts : list Conflict
}.

(** The [details] object: the full detail, or [{ error }]. *)
Inductive Details : Type :=
| DetailsOk (d : ScoreDetails)
| DetailsError (error : string).

Record Optimization : Type := {
  score : float;
  originalScore : option float;
  details : Details
}.

Inductive TimeOfDay : Type := morning | afternoon | evening | night.

Section WithHost.

Context {host : Host}.

(** [table[key1]?.[key2] || d] as a number, on a table of tables of numbers.
    When [table[key1]] is what the table inherits under that name, its
    member is the host's. *)
Definition member2_or (table : list (string * list (string * float)))
  (key1 key2 : option string) (d : float) : float :=
  match get table key1 with
  | own row => member_or (get row key2) d
  | inherited name =>
      match prototype_member name (property_key key2) with
      | Some x => x
      | None => d
      end
  | missing => d
  end.

Definition mockCoordinates : list (string * Coords) :=
  [ ("hyères", {| lat := 43.1205; lng := 6.1286 |});
    ("toulon", {| lat := 43.1242; lng := 5.9282 |});
    ("la seyne-sur-mer", {| lat := 43.1042; lng := 5.8785 |});
    ("six-fours-les-plages", {| lat := 43.0939; lng := 5.8372 |});
    ("ollioules", {| lat := 43.1395; lng := 5.8475 |});
    ("sanary-sur-mer", {| lat := 43.1196; lng := 5.7998 |});
    ("bandol", {| lat := 43.1356; lng := 5.7531 |});
    ("le pradet", {| lat := 43.0817; lng := 6.0269 |});
    ("carqueiranne", {| lat := 43.0947; lng := 6.0783 |});
    ("carpentras", {| lat := 44.0550; lng := 5.0481 |});
    ("carpentras centre", {| lat := 44.0550; lng := 5.0481 |});
    ("avignon", {| lat := 43.9493; lng := 4.8055 |});
    ("avignon centre", {| lat := 43.9493; lng := 4.8055 |});
    ("monteux", {| lat := 44.0333; lng := 5.0067 |});
    ("pernes-les-fontaines", {| lat := 44.0061; lng := 5.0572 |});
    ("l'isle-sur-la-sorgue", {| lat := 43.9186; lng := 5.0506 |});
    ("vedène", {| lat := 44.0000; lng := 4.9000 |});
    ("sarrians", {| lat := 44.0833; lng := 4.9667 |});
    ("aubignan", {| lat := 44.0833; lng := 5.0333 |});
    ("saint-didier", {| lat := 44.0167; lng := 5.1000 |});
    ("mazan", {| lat := 44.0667; lng := 5.1167 |});
    ("mormoiron", {| lat := 44.0667; lng := 5.1833 |});
    ("entraigues-sur-la-sorgue", {| lat := 44.0000; lng := 4.9167 |});
    ("sorgues", {| lat := 44.0167; lng := 4.8667 |});
    ("le thor", {| lat := 43.9333; lng := 5.0000 |});
    ("châteauneuf-du-pape", {| lat := 44.0556; lng := 4.8306 |});
    ("hôpital", {| lat := 43.9493; lng := 4.8055 |});
    ("chu", {| lat := 43.9493; lng := 4.8055 |});
    ("clinique", {| lat := 43.9493; lng := 4.8055 |});
    ("ehpad", {| lat := 43.9493; lng := 4.8055 |});
    ("centre hospitalier", {| lat := 43.9493; lng := 4.8055 |});
    ("polyclinique", {| lat := 43.9493; lng := 4.8055 |});
    ("default", {| lat := 43.1205; lng := 6.1286 |}) ].

(** [geocodeAddress(address)]: [address.toLowerCase()] raises on a missing
    address; the first key of the table the address includes gives the
    coordinates, the default ones otherwise. *)
Definition geocodeAddress (address : option string) : completion Coords :=
  match address with
  | None => Throw "TypeError: cannot read properties of undefined (reading 'toLowerCase')"
  | Some a =>
      let normalizedAddress := toLowerCase a in
      match find (fun kv => includes normalizedAddress (fst kv)) mockCoordinates with
      | Some (_, c) => Normal c
      | None => Normal {| lat := 43.1205; lng := 6.1286 |}
      end
  end.

(** [calculateDistance(point1, point2)]: the Haversine formula. *)
Definition calculateDistance (point1 point2 : Coords) : float :=
  let R := 6371 in
  let dLat := (lat point2 - lat point1) * Num.Math_PI / 180 in
  let dLng := (lng point2 - lng point1) * Num.Math_PI / 180 in
  let a :=
    Math_sin (dLat / 2) * Math_sin (dLat / 2) +
    Math_cos (lat point1 * Num.Math_PI / 180) * Math_cos (lat point2 * Num.Math_PI / 180) *
    Math_sin (dLng / 2) * Math_sin (dLng / 2) in
  let c := 2 * Math_atan2 (sqrt a) (sqrt (1 - a)) in
  R * c.

Definition trafficMultiplier (t : TimeOfDay) : float :=
  match t with
  | morning => 1.3
  | afternoon => 1.0
  | evening => 1.4
  | night => 0.8
  end.

(** [estimateTravelTime(distance, timeOfDay)], the road type being its
    default, 'mixed' (40 km/h). *)
Definition estimateTravelTime (distance : float) (timeOfDay : TimeOfDay) : float :=
  let speed := 40 * Num.or_number (trafficMultiplier timeOfDay) 1.0 in
  let timeInHours := distance / speed in
  Num.Math_round (timeInHours * 60).

Definition getVehicleTypeScore (requiredType vehicleType : option string) : float :=
  if strict_eq requiredType vehicleType then 100
  else
    let compatibility :=
      [ ("Ambulance", [ ("VSL", 60); ("Taxi", 20) ]);
        ("VSL", [ ("Ambulance", 90); ("Taxi", 70) ]);
        ("Taxi", [ ("Ambulance", 85); ("VSL", 80) ]) ] in
    member2_or compatibility requiredType vehicleType 30.

Definition getPriorityScore (priority : option string) : float :=
  let priorityScores :=
    [ ("urgent", 100); ("high", 85); ("normal", 60); ("low", 40) ] in
  member_or (get priorityScores priority) 60.

Definition calculateDistanceScore (totalDistance : float) : float :=
  if totalDistance <=? 10 then 100
  else if totalDistance <=? 20 then 80
  else if totalDistance <=? 40 then 60
  else if totalDistance <=? 60 then 40
  else 20.

(** [convertTimeToMinutes(timeStr)]. *)
Definition convertTimeToMinutes (timeStr : string) : option Z :=
  match timeStr with
  | EmptyString => Some 540%Z
  | _ => clock_minutes timeStr
  end.

(** [trip.pickupTime || trip.time || '09:00']. *)
Definition trip_time (trip : Trip.t) : string :=
  or_default (or_else (Trip.pickupTime trip) (Trip.time trip)) "09:00".

(** The test both [calculateTimeSlotScore] and [detectConflicts] apply to an
    existing trip: [Math.abs(tripMinutes - existingMinutes)]. *)
Definition time_diff (tripMinutes : option Z) (existingTrip : Trip.t) : option Z :=
  let existingMinutes := convertTimeToMinutes (trip_time existingTrip) in
  nabs (nsub tripMinutes existingMinutes).

Definition calculateTimeSlotScore (trip : Trip.t) (vehicle : Vehicle.t)
  (existingTrips : list Trip.t) : float :=
  let tripMinutes := convertTimeToMinutes (trip_time trip) in
  let conflicts :=
    filter (fun existingTrip => nlt (time_diff tripMinutes existingTrip) (Some 30%Z))
           existingTrips in
  match List.length conflicts with
  | 0%nat => 100
  | 1%nat => 60
  | 2%nat => 30
  | _ => 10
  end.

Definition detectConflicts (trip : Trip.t) (existingTrips : list Trip.t)
  : list Conflict :=
  let tripMinutes := convertTimeToMinutes (trip_time trip) in
  flat_map (fun existingTrip =>
    let timeDiff := time_diff tripMinutes existingTrip in
    if nlt timeDiff (Some 30%Z)
    then [ {| conflictingTrip := existingTrip;
              timeDifference := timeDiff;
              severity := if nlt timeDiff (Some 15%Z)
                          then severity_high else severity_medium |} ]
    else []) existingTrips.

(** [calculateEstimatedArrival(startTime, travelMinutes)]: [None] is the
    [null] of an empty start time. *)
Definition calculateEstimatedArrival (startTime : string) (travelMinutes : float)
  : option string :=
  match startTime with
  | EmptyString => None
  | _ =>
      let startMinutes := convertTimeToMinutes startTime in
      let arrivalMinutes := nadd startMinutes (Num.whole travelMinutes) in
      let hours := rem (floor_div arrivalMinutes 60) 24 in
      let minutes := rem arrivalMinutes 60 in
      Some (padStart2 (toString hours) ++ ":" ++ padStart2 (toString minutes))%string
  end.

Definition calculateFuelCost (distance : float) : float :=
  let fuelPricePerKm := 0.15 in
  Num.Math_round (distance * fuelPricePerKm * 100) / 100.

Definition getTimeOfDay (timeStr : string) : TimeOfDay :=
  let hour := parseInt (hd EmptyString (split_colon timeStr)) in
  match hour with
  | Some h =>
      if ((7 <=? h) && (h <? 9))%Z then morning
      else if ((9 <=? h) && (h <? 17))%Z then afternoon
      else if ((17 <=? h) && (h <? 20))%Z then evening
      else night
  | None => night
  end.

(** The body of the [try] block of [calculateOptimizationScore]. *)
Definition score_body (trip : Trip.t) (vehicle : Vehicle.t)
  (existingTrips : list Trip.t) : completion Optimization :=
  pickupCoords <- geocodeAddress (Trip.pickup trip) ;;
  destinationCoords <- geocodeAddress (Trip.destination trip) ;;
  vehicleCoords <-
    geocodeAddress (Some (or_default (Vehicle.currentLocation vehicle) "hyères")) ;;
  let distanceToPickup := calculateDistance vehicleCoords pickupCoords in
  let tripDistance := calculateDistance pickupCoords destinationCoords in
  let totalDistance := distanceToPickup + tripDistance in
  let tripTime := trip_time trip in
  let timeToPickup := estimateTravelTime distanceToPickup (getTimeOfDay tripTime) in
  let tripDuration := estimateTravelTime tripDistance (getTimeOfDay tripTime) in
  let totalTime := timeToPickup + tripDuration in
  let vehicleTypeScore :=
    getVehicleTypeScore (Trip.vehicleType trip) (Vehicle.type vehicle) in
  let timeSlotScore := calculateTimeSlotScore trip vehicle existingTrips in
  let distanceScore := calculateDistanceScore totalDistance in
  let priorityScore := getPriorityScore (Trip.priority trip) in
  let finalScore :=
    vehicleTypeScore * 0.3 +
    timeSlotScore * 0.25 +
    distanceScore * 0.25 +
    priorityScore * 0.2 in
  Normal {|
    score := Num.Math_round finalScore;
    originalScore := None;
    details := DetailsOk {|
      vehicleTypeScore := vehicleTypeScore;
      timeSlotScore := timeSlotScore;
      distanceScore := distanceScore;
      priorityScore := priorityScore;
      distanceToPickup := Num.Math_round (distanceToPickup * 10) / 10;
      tripDistance := Num.Math_round (tripDistance * 10) / 10;
      totalDistance := Num.Math_round (totalDistance * 10) / 10;
      timeToPickup := timeToPickup;
      tripDuration := tripDuration;
      totalTime := totalTime;
      estimatedArrival := calculateEstimatedArrival tripTime timeToPickup;
      fuelCost := calculateFuelCost totalDistance;
      conflicts := detectConflicts trip existingTrips
    |}
  |}.

(** [calculateOptimizationScore(trip, vehicle, existingTrips)]: the [catch]
    block turns every exception of the body into a zero score with an error
    detail, so the call itself always returns. *)
Definition calculateOptimizationScore (trip : Trip.t) (vehicle : Vehicle.t)
  (existingTrips : list Trip.t) : Optimization :=
  match score_body trip vehicle existingTrips with
  | Normal r => r
  | Throw _ =>
      {| score := 0;
         originalScore := None;
         details := DetailsError "Failed to calculate route optimization" |}
  end.

(** ** The single-trip assignment resolver *)

Record CompatibilityDetails : Type := {
  exactTypeMatch : bool;
  typeCompatibility : float;
  priorityBoost : float;
  statusPenalty : float;
  availabilityBonus : float
}.

Record Evaluation : Type := {
  vehicle : Vehicle.t;
  optimization : Optimization;
  isAvailable : bool;
  isBusy : bool;
  compatibilityDetails : option CompatibilityDetails;
  hasError : bool
}.

(** The [message] of an assignment result, kept as its parts:
    - [Véhicule assigné: name (Score: score/100)],
    - [Assignation forcée: name (Score très faible: score/100)],
    - [Aucun véhicule disponible (tous en maintenance)],
    - [Impossible d'assigner ce trajet]. *)
Inductive Message : Type :=
| msg_assigned (name : string) (score : float)
| msg_forced (name : string) (score : float)
| msg_all_in_maintenance
| msg_impossible.

Record AssignmentResult : Type := {
  success : bool;
  recommended : option Evaluation;
  alternatives : list Evaluation;
  message : Message;
  lowScore : option bool;
  forceAssigned : option bool;
  forced : bool;
  warning : option string;
  debugInfo : list (string * float * option string)
}.

Definition calculateEnhancedCompatibilityScore (trip : Trip.t)
  (vehicle : Vehicle.t) (baseScore : float) : float :=
  let enhancedScore := baseScore in
  let enhancedScore :=
    if strict_eq (Trip.vehicleType trip) (Vehicle.type vehicle)
    then enhancedScore + 10 else enhancedScore in
  let crossTypeCompatibility :=
    [ ("Ambulance", [ ("VSL", 0.8); ("Taxi", 0.4) ]);
      ("VSL", [ ("Ambulance", 0.9); ("Taxi", 0.7) ]);
      ("Taxi", [ ("Ambulance", 0.6); ("VSL", 0.8) ]) ] in
  let enhancedScore :=
    if negb (strict_eq (Trip.vehicleType trip) (Vehicle.type vehicle)) then
      let compatibility :=
        member2_or crossTypeCompatibility (Trip.vehicleType trip)
                   (Vehicle.type vehicle) 0.3 in
      Num.Math_max (enhancedScore * compatibility) 20
    else enhancedScore in
  let enhancedScore :=
    if is_lit (Trip.priority trip) "urgent" then enhancedScore + 15
    else if is_lit (Trip.priority trip) "high" then enhancedScore + 8
    else enhancedScore in
  let enhancedScore :=
    if is_lit (Vehicle.status vehicle) "busy"
    then Num.Math_max (enhancedScore * 0.8) 25 else enhancedScore in
  let enhancedScore :=
    if is_lit (Vehicle.status vehicle) "available"
    then Num.Math_max enhancedScore 15 else enhancedScore in
  Num.Math_round enhancedScore.

Definition getCompatibilityDetails (trip : Trip.t) (vehicle : Vehicle.t)
  : CompatibilityDetails :=
  {| exactTypeMatch := strict_eq (Trip.vehicleType trip) (Vehicle.type vehicle);
     typeCompatibility :=
       getVehicleTypeScore (Trip.vehicleType trip) (Vehicle.type vehicle);
     priorityBoost :=
       if is_lit (Trip.priority trip) "urgent" then 15
       else if is_lit (Trip.priority trip) "high" then 8 else 0;
     statusPenalty := if is_lit (Vehicle.status vehicle) "busy" then 20 else 0;
     availabilityBonus :=
       if is_lit (Vehicle.status vehicle) "available" then 10 else 0 |}.

(** [vehicle.trips || []]. *)
Definition trips_of (vehicle : Vehicle.t) : list Trip.t :=
  match Vehicle.trips vehicle with
  | Some l => l
  | None => []
  end.

(** One turn of the evaluation loop: the [try] body, and the [catch] block
    that records the vehicle with the minimal fallback score. *)
Definition evaluate_vehicle (trip : Trip.t) (vehicle : Vehicle.t)
  : completion Evaluation :=
  try_catch
    (let optimization :=
       calculateOptimizationScore trip vehicle (trips_of vehicle) in
     let enhancedScore :=
       calculateEnhancedCompatibilityScore trip vehicle (score optimization) in
     Normal {|
       vehicle := vehicle;
       optimization := {| score := enhancedScore;
                          originalScore := Some (score optimization);
                          details := details optimization |};
       isAvailable := is_lit (Vehicle.status vehicle) "available";
       isBusy := is_lit (Vehicle.status vehicle) "busy";
       compatibilityDetails := Some (getCompatibilityDetails trip vehicle);
       hasError := false
     |})
    (fun error =>
     Normal {|
       vehicle := vehicle;
       optimization := {| score := 10;
                          originalScore := None;
                          details := DetailsError error |};
       isAvailable := is_lit (Vehicle.status vehicle) "available";
       isBusy := is_lit (Vehicle.status vehicle) "busy";
       compatibilityDetails := None;
       hasError := true
     |}).

(** The [for ... of candidateVehicles] loop pushing onto [evaluations]. *)
Fixpoint evaluate_all (trip : Trip.t) (candidateVehicles : list Vehicle.t)
  : completion (list Evaluation) :=
  match candidateVehicles with
  | [] => Normal []
  | vehicle :: rest =>
      e <- evaluate_vehicle trip vehicle ;;
      es <- evaluate_all trip rest ;;
      Normal (e :: es)
  end.

(** The comparison function of [evaluations.sort]. *)
Definition compare_evaluations (a b : Evaluation) : float :=
  let scoreDiff := score (optimization b) - score (optimization a) in
  if (Num.Math_abs scoreDiff <? 5) && negb (Bool.eqb (isAvailable a) (isAvailable b))
  then (if isAvailable a then -1 else 1)
  else scoreDiff.

Definition findBestVehicleAssignment (trip : Trip.t) (vehicles : list Vehicle.t)
  : completion AssignmentResult :=
  let candidateVehicles :=
    filter (fun vehicle => negb (is_lit (Vehicle.status vehicle) "maintenance"))
           vehicles in
  match candidateVehicles with
  | [] =>
      Normal {| success := false;
                recommended := None;
                alternatives := [];
                message := msg_all_in_maintenance;
                lowScore := None;
                forceAssigned := None;
                forced := false;
                warning := None;
                debugInfo := [] |}
  | _ =>
      evaluations <- evaluate_all trip candidateVehicles ;;
      let evaluations := Array_sort compare_evaluations evaluations in
      let alternatives := slice 1 5 evaluations in
      match evaluations with
      | bestAssignment :: _ =>
          if 5 <? score (optimization bestAssignment) then
            Normal {| success := true;
                      recommended := Some bestAssignment;
                      alternatives := alternatives;
                      message := msg_assigned (Vehicle.name (vehicle bestAssignment))
                                              (score (optimization bestAssignment));
                      lowScore := Some (score (optimization bestAssignment) <? 50);
                      forceAssigned := Some (score (optimization bestAssignment) <? 30);
                      forced := false;
                      warning := None;
                      debugInfo := [] |}
          else
            Normal {| success := true;
                      recommended := Some bestAssignment;
                      alternatives := alternatives;
                      message := msg_forced (Vehicle.name (vehicle bestAssignment))
                                            (score (optimization bestAssignment));
                      lowScore := None;
                      forceAssigned := None;
                      forced := true;
                      warning := Some "Cette assignation pourrait ne pas être optimale";
                      debugInfo := [] |}
      | [] =>
          Normal {| success := false;
                    recommended := None;
                    alternatives := slice 0 3 evaluations;
                    message := msg_impossible;
                    lowScore := None;
                    forceAssigned := None;
                    forced := false;
                    warning := None;
                    debugInfo :=
                      map (fun e => (Vehicle.name (vehicle e),
                                     score (optimization e),
                                     Vehicle.status (vehicle e))) evaluations |}
      end
  end.

(** ** The conflict resolver *)

(** [{ ...trip, pickupTime: t, time: t }]. *)
Definition with_times (trip : Trip.t) (t : string) : Trip.t :=
  {| Trip.id := Trip.id trip;
     Trip.patient := Trip.patient trip;
     Trip.pickup := Trip.pickup trip;
     Trip.destination := Trip.destination trip;
     Trip.coordinates := Trip.coordinates trip;
     Trip.destinationCoords := Trip.destinationCoords trip;
     Trip.appointmentTime := Trip.appointmentTime trip;
     Trip.pickupTime := Some t;
     Trip.time := Some t;
     Trip.duration := Trip.duration trip;
     Trip.returnTime := Trip.returnTime trip;
     Trip.isReturnTrip := Trip.isReturnTrip trip;
     Trip.originalCourseId := Trip.originalCourseId trip;
     Trip.vehicleType := Trip.vehicleType trip;
     Trip.priority := Trip.priority trip;
     Trip.status := Trip.status trip;
     Trip.exitTime := Trip.exitTime trip;
     Trip.earliestPickupTime := Trip.earliestPickupTime trip;
     Trip.maxWaitTime := Trip.maxWaitTime trip;
     Trip.estimatedDuration := Trip.estimatedDuration trip |}.

(** [{ ...trip, estimatedDuration: d }]. *)
Definition with_estimatedDuration (trip : Trip.t) (d : float) : Trip.t :=
  {| Trip.id := Trip.id trip;
     Trip.patient := Trip.patient trip;
     Trip.pickup := Trip.pickup trip;
     Trip.destination := Trip.destination trip;
     Trip.coordinates := Trip.coordinates trip;
     Trip.destinationCoords := Trip.destinationCoords trip;
     Trip.appointmentTime := Trip.appointmentTime trip;
     Trip.pickupTime := Trip.pickupTime trip;
     Trip.time := Trip.time trip;
     Trip.duration := Trip.duration trip;
     Trip.returnTime := Trip.returnTime trip;
     Trip.isReturnTrip := Trip.isReturnTrip trip;
     Trip.originalCourseId := Trip.originalCourseId trip;
     Trip.vehicleType := Trip.vehicleType trip;
     Trip.priority := Trip.priority trip;
     Trip.status := Trip.status trip;
     Trip.exitTime := Trip.exitTime trip;
     Trip.earliestPickupTime := Trip.earliestPickupTime trip;
     Trip.maxWaitTime := Trip.maxWaitTime trip;
     Trip.estimatedDuration := Some d |}.

(** [{ ...vehicle, trips: l }]. *)
Definition with_trips (v : Vehicle.t) (l : option (list Trip.t)) : Vehicle.t :=
  {| Vehicle.id := Vehicle.id v;
     Vehicle.name := Vehicle.name v;
     Vehicle.type := Vehicle.type v;
     Vehicle.status := Vehicle.status v;
     Vehicle.currentLocation := Vehicle.currentLocation v;
     Vehicle.coordinates := Vehicle.coordinates v;
     Vehicle.trips := l |}.

(** [details.conflicts.length]: reading [length] of the missing [conflicts]
    of an error detail raises. *)
Definition conflicts_length (d : Details) : completion nat :=
  match d with
  | DetailsOk sd => Normal (List.length (conflicts sd))
  | DetailsError _ =>
      Throw "TypeError: cannot read properties of undefined (reading 'length')"
  end.

(** [details.tripDuration], [details.fuelCost] and [details.estimatedArrival]
    ([undefined] on an error detail; for the arrival [None] is [null] as
    well). *)
Definition details_tripDuration (d : Details) : float :=
  match d with
  | DetailsOk sd => tripDuration sd
  | DetailsError _ => nan
  end.

Definition details_fuelCost (d : Details) : option float :=
  match d with
  | DetailsOk sd => Some (fuelCost sd)
  | DetailsError _ => None
  end.

Definition details_estimatedArrival (d : Details) : option string :=
  match d with
  | DetailsOk sd => estimatedArrival sd
  | DetailsError _ => None
  end.

Record TimeOption : Type := {
  to_newTime : string;
  to_vehicle : string;
  to_optimizationScore : float;
  to_timeShift : option Z;
  to_estimatedArrival : option string;
  to_impact : string
}.

Record VehicleOption : Type := {
  vo_vehicle : string;
  vo_vehicleType : option string;
  vo_currentStatus : option string;
  vo_optimizationScore : float;
  vo_conflicts : nat;
  vo_estimatedCost : option float;
  vo_requiresRescheduling : bool
}.

Record TripToReschedule : Type := {
  tr_patient : string;
  tr_oldTime : option string;
  tr_newTime : string
}.

Record ReschedulingOption : Type := {
  ro_vehicle : string;
  ro_tripToReschedule : TripToReschedule;
  ro_newTripScore : float;
  ro_impact : string
}.

(** The outcome of [evaluateCombinedTrips]: [{ feasible: false }] or the
    combined route. *)
Record CombinedTrips : Type := {
  ct_vehicle : string;
  ct_estimatedTime : float;
  ct_costSavings : float;
  ct_combinedRoute : string
}.

Record MultiVehicle : Type := {
  mv_primaryVehicle : string;
  mv_supportVehicle : string;
  mv_strategy : string;
  mv_estimatedTime : float
}.

Inductive OptimizationOption : Type :=
| combine_trips (description : string) (details : CombinedTrips)
    (estimatedSavings : float)
| multi_vehicle (description : string) (details : MultiVehicle).

(** A resolution strategy: its [type] with the ranked [options] of that
    type. *)
Inductive ResolutionStrategy : Type :=
| time_adjustment (options : list TimeOption)
| vehicle_change (options : list VehicleOption)
| reschedule_existing (options : list ReschedulingOption)
| trip_optimization (options : list OptimizationOption).

Definition strategy_description (s : ResolutionStrategy) : string :=
  match s with
  | time_adjustment _ => "Modifier l'heure de prise en charge"
  | vehicle_change _ => "Utiliser un véhicule différent"
  | reschedule_existing _ => "Réorganiser les courses existantes"
  | trip_optimization _ => "Optimiser l'organisation des courses"
  end.

Record ConflictResolution : Type := {
  originalTrip : Trip.t;
  hasConflicts : bool;
  resolutionStrategies : list ResolutionStrategy;
  recommendedStrategy : option ResolutionStrategy
}.

Definition calculateTimeShift (originalTime newTime : string) : option Z :=
  let originalMinutes := convertTimeToMinutes originalTime in
  let newMinutes := convertTimeToMinutes newTime in
  nsub newMinutes originalMinutes.

(** [a <= k], false on NaN. *)
Definition nle (a : option Z) (k : Z) : bool :=
  match a with
  | Some x => (x <=? k)%Z
  | None => false
  end.

Definition calculateTimeChangeImpact (originalTime newTime : string) : string :=
  let shift := nabs (calculateTimeShift originalTime newTime) in
  if nle shift 30 then "minimal"
  else if nle shift 60 then "low"
  else if nle shift 120 then "medium"
  else "high".

(** [for (const x of l) { ... }] over a body that may raise and that extends
    an accumulator. *)
Fixpoint for_each {A S : Type} (l : list A) (body : S -> A -> completion S)
  (acc : S) : completion S :=
  match l with
  | [] => Normal acc
  | x :: rest => acc' <- body acc x ;; for_each rest body acc'
  end.

Definition timeSlots : list string :=
  [ "07:00"; "07:30"; "08:00"; "08:30"; "09:00"; "09:30";
    "10:00"; "10:30"; "11:00"; "11:30"; "12:00"; "12:30";
    "13:00"; "13:30"; "14:00"; "14:30"; "15:00"; "15:30";
    "16:00"; "16:30"; "17:00"; "17:30"; "18:00"; "18:30" ].

Definition findAlternativeTimeSlots (trip : Trip.t) (vehicles : list Vehicle.t)
  : completion (list TimeOption) :=
  let originalTime := trip_time trip in
  alternatives <-
    for_each timeSlots (fun alternatives timeSlot =>
      if String.eqb timeSlot originalTime then Normal alternatives
      else
        let modifiedTrip := with_times trip timeSlot in
        for_each vehicles (fun alternatives vehicle =>
          if is_lit (Vehicle.status vehicle) "available"
             || is_lit (Vehicle.status vehicle) "busy"
          then
            let optimization :=
              calculateOptimizationScore modifiedTrip vehicle (trips_of vehicle) in
            if 0 <? score optimization then
              n <- conflicts_length (details optimization) ;;
              if Nat.eqb n 0 then
                Normal (alternatives ++
                  [ {| to_newTime := timeSlot;
                       to_vehicle := Vehicle.name vehicle;
                       to_optimizationScore := score optimization;
                       to_timeShift := calculateTimeShift originalTime timeSlot;
                       to_estimatedArrival :=
                         details_estimatedArrival (details optimization);
                       to_impact :=
                         calculateTimeChangeImpact originalTime timeSlot |} ])%list
              else Normal alternatives
            else Normal alternatives
          else Normal alternatives) alternatives) [] ;;
  Normal (slice 0 3
    (Array_sort (fun a b =>
       let scoreDiff := to_optimizationScore b - to_optimizationScore a in
       if Num.Math_abs scoreDiff <? 10
       then to_float (nsub (nabs (to_timeShift a)) (nabs (to_timeShift b)))
       else scoreDiff) alternatives)).

Definition findAlternativeVehicles (trip : Trip.t) (vehicles : list Vehicle.t)
  : completion (list VehicleOption) :=
  alternatives <-
    for_each vehicles (fun alternatives vehicle =>
      if is_lit (Vehicle.status vehicle) "maintenance" then Normal alternatives
      else
        let optimization :=
          calculateOptimizationScore trip vehicle (trips_of vehicle) in
        if 30 <? score optimization then
          n <- conflicts_length (details optimization) ;;
          Normal (alternatives ++
            [ {| vo_vehicle := Vehicle.name vehicle;
                 vo_vehicleType := Vehicle.type vehicle;
                 vo_currentStatus := Vehicle.status vehicle;
                 vo_optimizationScore := score optimization;
                 vo_conflicts := n;
                 vo_estimatedCost := details_fuelCost (details optimization);
                 vo_requiresRescheduling := Nat.ltb 0 n |} ])%list
        else Normal alternatives) [] ;;
  Normal (slice 0 4
    (Array_sort (fun a b =>
       if negb (Nat.eqb (vo_conflicts a) (vo_conflicts b))
       then Num.of_Z (Z.of_nat (vo_conflicts a) - Z.of_nat (vo_conflicts b))
       else vo_optimizationScore b - vo_optimizationScore a) alternatives)).

(** [l.filter(t => t !== l[i])]: the list without its element at index [i]
    (a trip list holds distinct objects). *)
Fixpoint remove_at {A : Type} (i : nat) (l : list A) : list A :=
  match l, i with
  | [], _ => []
  | _ :: rest, O => rest
  | x :: rest, S j => x :: remove_at j rest
  end.

(** A list with the index of each element. *)
Definition indexed {A : Type} (l : list A) : list (nat * A) :=
  combine (seq 0 (List.length l)) l.

Definition rescheduleSlots : list string :=
  [ "07:00"; "08:00"; "09:00"; "10:00"; "11:00";
    "14:00"; "15:00"; "16:00"; "17:00" ].

Definition suggestRescheduling (newTrip : Trip.t) (vehicles : list Vehicle.t)
  (existingTrips : list Trip.t) : completion (list ReschedulingOption) :=
  reschedulingOptions <-
    for_each vehicles (fun options vehicle =>
      for_each (indexed (trips_of vehicle)) (fun options ie =>
        let existingTrip := snd ie in
        if is_lit (Trip.priority existingTrip) "urgent" then Normal options
        else
          for_each rescheduleSlots (fun options newTime =>
            let rescheduledTrip := with_times existingTrip newTime in
            let remainingTrips := remove_at (fst ie) (trips_of vehicle) in
            let rescheduledOptimization :=
              calculateOptimizationScore rescheduledTrip vehicle remainingTrips in
            if 60 <? score rescheduledOptimization then
              n <- conflicts_length (details rescheduledOptimization) ;;
              if Nat.eqb n 0 then
                let newTripOptimization :=
                  calculateOptimizationScore newTrip vehicle
                    (remainingTrips ++ [rescheduledTrip])%list in
                if 60 <? score newTripOptimization then
                  m <- conflicts_length (details newTripOptimization) ;;
                  if Nat.eqb m 0 then
                    Normal (options ++
                      [ {| ro_vehicle := Vehicle.name vehicle;
                           ro_tripToReschedule :=
                             {| tr_patient := Trip.patient existingTrip;
                                tr_oldTime := or_else (Trip.time existingTrip)
                                                      (Trip.pickupTime existingTrip);
                                tr_newTime := newTime |};
                           ro_newTripScore := score newTripOptimization;
                           ro_impact := "low" |} ])%list
                  else Normal options
                else Normal options
              else Normal options
            else Normal options) options) options) [] ;;
  Normal (slice 0 3
    (Array_sort (fun a b => ro_newTripScore b - ro_newTripScore a)
                reschedulingOptions)).

(** [s.toLowerCase()] of a field that may be missing. *)
Definition lower (s : option string) : completion string :=
  match s with
  | Some x => Normal (toLowerCase x)
  | None =>
      Throw "TypeError: cannot read properties of undefined (reading 'toLowerCase')"
  end.

Definition findNearbyTrips (trip : Trip.t) (allTrips : list Trip.t)
  : completion (list Trip.t) :=
  let others :=
    filter (fun t => negb (Trip.id t =? Trip.id trip)%Z
                     && negb (is_lit (Trip.status t) "completed")) allTrips in
  near <-
    for_each others (fun kept t =>
      tripLocation <- lower (Trip.pickup trip) ;;
      otherLocation <- lower (Trip.pickup t) ;;
      if (includes tripLocation "hyères" && includes otherLocation "hyères")
         || (includes tripLocation "toulon" && includes otherLocation "toulon")
         || (includes tripLocation "la seyne" && includes otherLocation "la seyne")
      then Normal (kept ++ [t])%list else Normal kept) [] ;;
  Normal (slice 0 3 near).

Definition canCombineTrips (trip1 trip2 : Trip.t) : bool :=
  let time1 := convertTimeToMinutes (trip_time trip1) in
  let time2 := convertTimeToMinutes (trip_time trip2) in
  let timeDiff := nabs (nsub time1 time2) in
  nle timeDiff 60
  && strict_eq (Trip.vehicleType trip1) (Trip.vehicleType trip2)
  && negb (is_lit (Trip.priority trip1) "urgent")
  && negb (is_lit (Trip.priority trip2) "urgent").

(** [`${x}`] of a field that may be missing. *)
Definition template (s : option string) : string :=
  match s with
  | Some x => x
  | None => "undefined"
  end.

(** [evaluateCombinedTrips]: [None] is [{ feasible: false }]. *)
Definition evaluateCombinedTrips (trip1 trip2 : Trip.t) (vehicles : list Vehicle.t)
  : option CombinedTrips :=
  let compatibleVehicles :=
    filter (fun v => strict_eq (Vehicle.type v) (Trip.vehicleType trip1)) vehicles in
  match compatibleVehicles with
  | [] => None
  | v :: _ =>
      Some {| ct_vehicle := Vehicle.name v;
              ct_estimatedTime := 90;
              ct_costSavings := 15;
              ct_combinedRoute :=
                (template (Trip.pickup trip1) ++ " → " ++
                 template (Trip.destination trip1) ++ " → " ++
                 template (Trip.pickup trip2) ++ " → " ++
                 template (Trip.destination trip2))%string |}
  end.

(** [evaluateMultiVehicleCoordination]: [None] is [{ feasible: false }]. *)
Definition evaluateMultiVehicleCoordination (trip : Trip.t)
  (vehicles : list Vehicle.t) : option MultiVehicle :=
  let availableVehicles :=
    filter (fun v => is_lit (Vehicle.status v) "available") vehicles in
  match availableVehicles with
  | v0 :: v1 :: _ =>
      Some {| mv_primaryVehicle := Vehicle.name v0;
              mv_supportVehicle := Vehicle.name v1;
              mv_strategy := "Relay transport";
              mv_estimatedTime := 60 |}
  | _ => None
  end.

Definition suggestTripOptimizations (trip : Trip.t) (vehicles : list Vehicle.t)
  (allTrips : list Trip.t) : completion (list OptimizationOption) :=
  nearbyTrips <- findNearbyTrips trip allTrips ;;
  let optimizations :=
    flat_map (fun nearbyTrip =>
      if canCombineTrips trip nearbyTrip then
        match evaluateCombinedTrips trip nearbyTrip vehicles with
        | Some combinedOptimization =>
            [ combine_trips
                ("Combiner avec la course de " ++ Trip.patient nearbyTrip)%string
                combinedOptimization
                (ct_costSavings combinedOptimization) ]
        | None => []
        end
      else []) nearbyTrips in
  let optimizations :=
    if is_lit (Trip.priority trip) "urgent" || is_lit (Trip.priority trip) "high"
    then match evaluateMultiVehicleCoordination trip vehicles with
         | Some multiVehicleOption =>
             (optimizations ++
              [ multi_vehicle "Coordination multi-véhicules" multiVehicleOption ])%list
         | None => optimizations
         end
    else optimizations in
  Normal (slice 0 2 optimizations).

(** [resolutionStrategies.push(...)] guarded by [options.length > 0]. *)
Definition push_if_any {A : Type} (strategies : list ResolutionStrategy)
  (mk : list A -> ResolutionStrategy) (options : list A)
  : list ResolutionStrategy :=
  match options with
  | [] => strategies
  | _ => (strategies ++ [mk options])%list
  end.

Definition resolveConflicts (trip : Trip.t) (vehicles : list Vehicle.t)
  (allTrips : list Trip.t) : completion ConflictResolution :=
  let resolutionStrategies := [] in
  timeAlternatives <- findAlternativeTimeSlots trip vehicles ;;
  let resolutionStrategies :=
    push_if_any resolutionStrategies time_adjustment timeAlternatives in
  vehicleAlternatives <- findAlternativeVehicles trip vehicles ;;
  let resolutionStrategies :=
    push_if_any resolutionStrategies vehicle_change vehicleAlternatives in
  reschedulingOptions <- suggestRescheduling trip vehicles allTrips ;;
  let resolutionStrategies :=
    push_if_any resolutionStrategies reschedule_existing reschedulingOptions in
  optimizationOptions <- suggestTripOptimizations trip vehicles allTrips ;;
  let resolutionStrategies :=
    push_if_any resolutionStrategies trip_optimization optimizationOptions in
  Normal {| originalTrip := trip;
            hasConflicts := true;
            resolutionStrategies := resolutionStrategies;
            recommendedStrategy := hd_error resolutionStrategies |}.

(** ** The multi-trip batch optimizer *)

(** A [Map] keyed by vehicle id, in insertion order: [set] on a present key
    replaces its value in place. *)
Definition IdMap (V : Type) : Type := list (Z * V).

Fixpoint map_set {V : Type} (k : Z) (v : V) (m : IdMap V) : IdMap V :=
  match m with
  | [] => [(k, v)]
  | (k', v') :: rest =>
      if (k' =? k)%Z then (k, v) :: rest else (k', v') :: map_set k v rest
  end.

Fixpoint map_get {V : Type} (k : Z) (m : IdMap V) : option V :=
  match m with
  | [] => None
  | (k', v') :: rest => if (k' =? k)%Z then Some v' else map_get k rest
  end.

(** [a.push(x)] on the array stored under [k]; pushing onto a missing entry
    raises. *)
Definition map_push (k : Z) (x : Trip.t) (m : IdMap (list Trip.t))
  : completion (IdMap (list Trip.t)) :=
  match map_get k m with
  | Some currentTrips => Normal (map_set k (currentTrips ++ [x])%list m)
  | None => Throw "TypeError: cannot read properties of undefined (reading 'push')"
  end.

Inductive Status : Type := assigned | unassigned.

(** The [assignment] of a result: the recommended evaluation of the first
    pass, or the [{ vehicle, optimization }] pair of an applied resolution.
    (The [trips] of the vehicle it holds is the list at the time of the
    assignment.) *)
Inductive Assignment : Type :=
| of_evaluation (e : Evaluation)
| of_resolution (vehicle : Vehicle.t) (optimization : Optimization).

Definition assignment_optimization (a : Assignment) : Optimization :=
  match a with
  | of_evaluation e => optimization e
  | of_resolution _ o => o
  end.

Inductive ResolutionDetails : Type :=
| rd_time (oldTime : option string) (newTime : string) (impact : string)
| rd_vehicle (newVehicle : string) (conflicts : nat)
| rd_rescheduling (rescheduledTrip : TripToReschedule) (impact : string)
| rd_optimization (savings : float).

Record BatchEntry : Type := {
  be_trip : Trip.t;
  be_assignment : option Assignment;
  be_status : Status;
  be_resolutionApplied : option ResolutionStrategy;
  be_resolutionDetails : option ResolutionDetails;
  be_reason : option string;
  be_availableStrategies : list string
}.

(** The outcome of applying a strategy: [{ success: true, assignment,
    resolutionDetails }] or [{ success: false, reason }]. *)
Inductive Applied : Type :=
| applied (assignment : Assignment) (resolutionDetails : ResolutionDetails)
| not_applied (reason : string).

Definition find_by_name (vehicles : list Vehicle.t) (name : string)
  : option Vehicle.t :=
  find (fun v => String.eqb (Vehicle.name v) name) vehicles.

(** The existing trips handed to the scorer: the default [[]] stands in for a
    missing entry. *)
Definition current_or_empty (c : option (list Trip.t)) : list Trip.t :=
  match c with
  | Some l => l
  | None => []
  end.

Definition applyTimeAdjustment (trip : Trip.t) (timeOption : TimeOption)
  (vehicles : list Vehicle.t) (vehicleAssignments : IdMap (list Trip.t))
  : completion (Applied * IdMap (list Trip.t)) :=
  let adjustedTrip := with_times trip (to_newTime timeOption) in
  match find_by_name vehicles (to_vehicle timeOption) with
  | None => Normal (not_applied "Véhicule cible non trouvé", vehicleAssignments)
  | Some targetVehicle =>
      let currentTrips := map_get (Vehicle.id targetVehicle) vehicleAssignments in
      let optimization :=
        calculateOptimizationScore adjustedTrip targetVehicle
                                   (current_or_empty currentTrips) in
      if 60 <? score optimization then
        n <- conflicts_length (details optimization) ;;
        if Nat.eqb n 0 then
          m <- map_push (Vehicle.id targetVehicle)
                 (with_estimatedDuration adjustedTrip
                    (details_tripDuration (details optimization) / 60))
                 vehicleAssignments ;;
          Normal (applied (of_resolution targetVehicle optimization)
                          (rd_time (or_else (Trip.pickupTime trip) (Trip.time trip))
                                   (to_newTime timeOption) (to_impact timeOption)),
                  m)
        else Normal (not_applied "Ajustement horaire non viable", vehicleAssignments)
      else Normal (not_applied "Ajustement horaire non viable", vehicleAssignments)
  end.

Definition applyVehicleChange (trip : Trip.t) (vehicleOption : VehicleOption)
  (vehicles : list Vehicle.t) (vehicleAssignments : IdMap (list Trip.t))
  : completion (Applied * IdMap (list Trip.t)) :=
  match find_by_name vehicles (vo_vehicle vehicleOption) with
  | None => Normal (not_applied "Véhicule alternatif non trouvé", vehicleAssignments)
  | Some targetVehicle =>
      let currentTrips := map_get (Vehicle.id targetVehicle) vehicleAssignments in
      let optimization :=
        calculateOptimizationScore trip targetVehicle
                                   (current_or_empty currentTrips) in
      if 30 <? score optimization then
        m <- map_push (Vehicle.id targetVehicle)
               (with_estimatedDuration trip
                  (details_tripDuration (details optimization) / 60))
               vehicleAssignments ;;
        n <- conflicts_length (details optimization) ;;
        Normal (applied (of_resolution targetVehicle optimization)
                        (rd_vehicle (vo_vehicle vehicleOption) n),
                m)
      else Normal (not_applied "Changement de véhicule non viable", vehicleAssignments)
  end.

(** The index of the first element satisfying [f]. *)
Fixpoint find_index {A : Type} (f : A -> bool) (l : list A) : option nat :=
  match l with
  | [] => None
  | x :: rest => if f x then Some O else option_map S (find_index f rest)
  end.

Definition applyRescheduling (trip : Trip.t) (reschedulingOption : ReschedulingOption)
  (vehicles : list Vehicle.t) (vehicleAssignments : IdMap (list Trip.t))
  : completion (Applied * IdMap (list Trip.t)) :=
  match find_by_name vehicles (ro_vehicle reschedulingOption) with
  | None =>
      Normal (not_applied "Véhicule pour réorganisation non trouvé", vehicleAssignments)
  | Some targetVehicle =>
      match map_get (Vehicle.id targetVehicle) vehicleAssignments with
      | None => Throw "TypeError: cannot read properties of undefined (reading 'find')"
      | Some currentTrips =>
          let same_patient t :=
            String.eqb (Trip.patient t)
                       (tr_patient (ro_tripToReschedule reschedulingOption)) in
          match find_index same_patient currentTrips with
          | None =>
              Normal (not_applied "Course à réorganiser non trouvée", vehicleAssignments)
          | Some i =>
              let tripToReschedule := nth i currentTrips trip in
              let updatedTrips := remove_at i currentTrips in
              let rescheduledTrip :=
                with_times tripToReschedule
                           (tr_newTime (ro_tripToReschedule reschedulingOption)) in
              let updatedTrips :=
                (updatedTrips ++ [rescheduledTrip]
                              ++ [with_estimatedDuration trip 1])%list in
              let vehicleAssignments :=
                map_set (Vehicle.id targetVehicle) updatedTrips vehicleAssignments in
              let optimization :=
                calculateOptimizationScore trip targetVehicle updatedTrips in
              Normal (applied (of_resolution targetVehicle optimization)
                              (rd_rescheduling
                                 (ro_tripToReschedule reschedulingOption) "medium"),
                      vehicleAssignments)
          end
      end
  end.

Definition applyTripOptimization (trip : Trip.t)
  (optimizationOption : OptimizationOption)
  (vehicles : list Vehicle.t) (vehicleAssignments : IdMap (list Trip.t))
  : completion (Applied * IdMap (list Trip.t)) :=
  let failure :=
    Normal (not_applied "Optimisation des courses non viable", vehicleAssignments) in
  match optimizationOption with
  | combine_trips _ combined estimatedSavings =>
      match find_by_name vehicles (ct_vehicle combined) with
      | Some targetVehicle =>
          let currentTrips := map_get (Vehicle.id targetVehicle) vehicleAssignments in
          let optimization :=
            calculateOptimizationScore trip targetVehicle
                                       (current_or_empty currentTrips) in
          if 40 <? score optimization then
            m <- map_push (Vehicle.id targetVehicle)
                   (with_estimatedDuration trip (ct_estimatedTime combined / 60))
                   vehicleAssignments ;;
            Normal (applied (of_resolution targetVehicle optimization)
                            (rd_optimization estimatedSavings),
                    m)
          else failure
      | None => failure
      end
  | multi_vehicle _ _ => failure
  end.

(** [strategy.options[0]]: reading a field of the missing first option
    raises. *)
Definition first_option {A : Type} (options : list A) : completion A :=
  match options with
  | o :: _ => Normal o
  | [] => Throw "TypeError: cannot read properties of undefined"
  end.

Definition applyResolutionStrategy (trip : Trip.t) (strategy : ResolutionStrategy)
  (vehicles : list Vehicle.t) (vehicleAssignments : IdMap (list Trip.t))
  : completion (Applied * IdMap (list Trip.t)) :=
  match strategy with
  | time_adjustment options =>
      o <- first_option options ;;
      applyTimeAdjustment trip o vehicles vehicleAssignments
  | vehicle_change options =>
      o <- first_option options ;;
      applyVehicleChange trip o vehicles vehicleAssignments
  | reschedule_existing options =>
      o <- first_option options ;;
      applyRescheduling trip o vehicles vehicleAssignments
  | trip_optimization options =>
      o <- first_option options ;;
      applyTripOptimization trip o vehicles vehicleAssignments
  end.

(** The comparison function of the trip sort: priority first, then the time
    text under [localeCompare]. *)
Definition priority_rank (priority : option string) : float :=
  member_or (get [ ("urgent", 4); ("high", 3); ("normal", 2); ("low", 1) ] priority) 2.

Definition compare_trips (a b : Trip.t) : float :=
  let priorityDiff :=
    priority_rank (Trip.priority b) - priority_rank (Trip.priority a) in
  if negb (priorityDiff =? 0) then priorityDiff
  else Num.of_Z (localeCompare (trip_time a) (trip_time b)).

(** [vehicles.map(vehicle => ({ ...vehicle, trips: vehicleAssignments.get(vehicle.id) }))]. *)
Definition updated_vehicles (vehicles : list Vehicle.t)
  (vehicleAssignments : IdMap (list Trip.t)) : list Vehicle.t :=
  map (fun v => with_trips v (map_get (Vehicle.id v) vehicleAssignments)) vehicles.

(** The state the two passes share. *)
Record BatchState : Type := {
  st_results : list BatchEntry;
  st_vehicleAssignments : IdMap (list Trip.t);
  st_unresolvableConflicts : list Trip.t
}.

(** One turn of the first pass. *)
Definition first_pass_step (vehicles : list Vehicle.t) (st : BatchState)
  (trip : Trip.t) : completion BatchState :=
  let updatedVehicles := updated_vehicles vehicles (st_vehicleAssignments st) in
  assignment <- findBestVehicleAssignment trip updatedVehicles ;;
  let defer :=
    Normal {| st_results := st_results st;
              st_vehicleAssignments := st_vehicleAssignments st;
              st_unresolvableConflicts :=
                (st_unresolvableConflicts st ++ [trip])%list |} in
  if success assignment then
    match recommended assignment with
    | None => Throw "TypeError: cannot read properties of undefined (reading 'optimization')"
    | Some best =>
        n <- conflicts_length (details (optimization best)) ;;
        if Nat.eqb n 0 then
          let vehicleId := Vehicle.id (vehicle best) in
          m <- map_push vehicleId
                 (with_estimatedDuration trip
                    (details_tripDuration (details (optimization best)) / 60))
                 (st_vehicleAssignments st) ;;
          Normal {| st_results :=
                      (st_results st ++
                       [ {| be_trip := trip;
                            be_assignment := Some (of_evaluation best);
                            be_status := assigned;
                            be_resolutionApplied := None;
                            be_resolutionDetails := None;
                            be_reason := None;
                            be_availableStrategies := [] |} ])%list;
                    st_vehicleAssignments := m;
                    st_unresolvableConflicts := st_unresolvableConflicts st |}
        else defer
    end
  else defer.

(** One turn of the second pass. *)
Definition second_pass_step (trips : list Trip.t) (vehicles : list Vehicle.t)
  (st : BatchState) (conflictTrip : Trip.t) : completion BatchState :=
  let updatedVehicles := updated_vehicles vehicles (st_vehicleAssignments st) in
  conflictResolution <- resolveConflicts conflictTrip updatedVehicles trips ;;
  match recommendedStrategy conflictResolution with
  | Some strategy =>
      r <- applyResolutionStrategy conflictTrip strategy updatedVehicles
             (st_vehicleAssignments st) ;;
      match fst r with
      | applied assignment resolutionDetails =>
          Normal {| st_results :=
                      (st_results st ++
                       [ {| be_trip := conflictTrip;
                            be_assignment := Some assignment;
                            be_status := assigned;
                            be_resolutionApplied := Some strategy;
                            be_resolutionDetails := Some resolutionDetails;
                            be_reason := None;
                            be_availableStrategies := [] |} ])%list;
                    st_vehicleAssignments := snd r;
                    st_unresolvableConflicts := st_unresolvableConflicts st |}
      | not_applied _ =>
          Normal {| st_results :=
                      (st_results st ++
                       [ {| be_trip := conflictTrip;
                            be_assignment := None;
                            be_status := unassigned;
                            be_resolutionApplied := None;
                            be_resolutionDetails := None;
                            be_reason :=
                              Some "Conflicts non résolus malgré les stratégies disponibles";
                            be_availableStrategies :=
                              map strategy_description
                                  (resolutionStrategies conflictResolution) |} ])%list;
                    st_vehicleAssignments := snd r;
                    st_unresolvableConflicts := st_unresolvableConflicts st |}
      end
  | None =>
      Normal {| st_results :=
                  (st_results st ++
                   [ {| be_trip := conflictTrip;
                        be_assignment := None;
                        be_status := unassigned;
                        be_resolutionApplied := None;
                        be_resolutionDetails := None;
                        be_reason := Some "Aucune stratégie de résolution disponible";
                        be_availableStrategies := [] |} ])%list;
                st_vehicleAssignments := st_vehicleAssignments st;
                st_unresolvableConflicts := st_unresolvableConflicts st |}
  end.

Record ConflictSummary : Type := {
  totalConflicts : nat;
  resolvedConflicts : nat;
  unresolvedConflicts : nat;
  resolutionRate : float
}.

Record BatchSummary : Type := {
  totalTrips : nat;
  assignedTrips : nat;
  unassignedTrips : nat;
  assignmentRate : float;
  sum_totalDistance : float;
  sum_totalTime : float;
  averageOptimizationScore : float;
  estimatedFuelCost : float
}.

Record BatchResult : Type := {
  results : list BatchEntry;
  conflictResolution : ConflictSummary;
  summary : BatchSummary
}.

Definition is_assigned (r : BatchEntry) : bool :=
  match be_status r with
  | assigned => true
  | unassigned => false
  end.

Definition of_nat (n : nat) : float := Num.of_Z (Z.of_nat n).

(** [r.assignment.optimization.details.totalDistance || 0] and
    [... .totalTime || 0] of an assigned result. *)
Definition entry_totalDistance (r : BatchEntry) : float :=
  match be_assignment r with
  | Some a =>
      match details (assignment_optimization a) with
      | DetailsOk d => Num.or_number (totalDistance d) 0
      | DetailsError _ => 0
      end
  | None => 0
  end.

Definition entry_totalTime (r : BatchEntry) : float :=
  match be_assignment r with
  | Some a =>
      match details (assignment_optimization a) with
      | DetailsOk d => Num.or_number (totalTime d) 0
      | DetailsError _ => 0
      end
  | None => 0
  end.

Definition entry_score (r : BatchEntry) : float :=
  match be_assignment r with
  | Some a => score (assignment_optimization a)
  | None => nan
  end.

Definition optimizeMultipleTrips (trips : list Trip.t) (vehicles : list Vehicle.t)
  : completion BatchResult :=
  let vehicleAssignments :=
    fold_left (fun m v => map_set (Vehicle.id v) (trips_of v) m) vehicles [] in
  let sortedTrips := Array_sort compare_trips trips in
  st <- for_each sortedTrips (first_pass_step vehicles)
          {| st_results := [];
             st_vehicleAssignments := vehicleAssignments;
             st_unresolvableConflicts := [] |} ;;
  st <- for_each (st_unresolvableConflicts st) (second_pass_step trips vehicles) st ;;
  let results := st_results st in
  let unresolvableConflicts := st_unresolvableConflicts st in
  let assignedResults := filter is_assigned results in
  let unassignedResults := filter (fun r => negb (is_assigned r)) results in
  let resolvedConflictCount :=
    List.length (filter (fun r => match be_resolutionApplied r with
                                  | Some _ => true
                                  | None => false
                                  end) results) in
  let totalDistance :=
    fold_left (fun sum r => sum + entry_totalDistance r) assignedResults 0 in
  let totalTime :=
    fold_left (fun sum r => sum + entry_totalTime r) assignedResults 0 in
  let averageScore :=
    fold_left (fun sum r => sum + entry_score r) assignedResults 0
    / of_nat (Nat.max (List.length assignedResults) 1) in
  Normal {|
    results := results;
    conflictResolution := {|
      totalConflicts := List.length unresolvableConflicts;
      resolvedConflicts := resolvedConflictCount;
      unresolvedConflicts := List.length unassignedResults;
      resolutionRate :=
        Num.Math_round
          (of_nat resolvedConflictCount
           / of_nat (Nat.max (List.length unresolvableConflicts) 1) * 100)
    |};
    summary := {|
      totalTrips := List.length trips;
      assignedTrips := List.length assignedResults;
      unassignedTrips := List.length unassignedResults;
      assignmentRate :=
        Num.Math_round
          (of_nat (List.length assignedResults) / of_nat (List.length trips) * 100);
      sum_totalDistance := Num.Math_round (totalDistance * 10) / 10;
      sum_totalTime := Num.Math_round totalTime;
      averageOptimizationScore := Num.Math_round averageScore;
      estimatedFuelCost := Num.Math_round (totalDistance * 0.15 * 100) / 100
    |}
  |}.

End WithHost.

End Engine.

(* ================================================================== *)
(** * The fallback solver *)
(* ================================================================== *)

Module Fallback.

Import JS.

#[local] Open Scope float_scope.

(** The fields of the time-window configuration the solver reads; a missing
    number is [None]. *)
Record TimeWindowConfig : Type := {
  bufferBetweenAppointments : option Z;
  bufferBetweenReturns : option Z;
  bufferMixed : option Z;
  allowConflictPenalty : bool;
  conflictPenaltyScore : option float;
  minAssignmentScore : option float
}.

(** The configuration [fallbackVRPSolver] uses when it is given none. *)
Definition default_config : TimeWindowConfig :=
  {| bufferBetweenAppointments := Some 20%Z;
     bufferBetweenReturns := Some 10%Z;
     bufferMixed := Some 15%Z;
     allowConflictPenalty := true;
     conflictPenaltyScore := Some 50;
     minAssignmentScore := Some 15 |}.

(** [timeToMinutes(timeStr)]. *)
Definition timeToMinutes (timeStr : option string) : option Z :=
  if truthy timeStr then clock_minutes (or_default timeStr "") else Some 0%Z.

Inductive BoundsType : Type := bt_return | bt_appointment.

Record TimeBounds : Type := {
  startTime : option Z;
  endTime : option Z;
  tb_duration : option Z;
  tb_type : BoundsType
}.

(** [trip.duration || 60]. *)
Definition duration_or_60 (d : option Z) : Z :=
  match d with
  | Some 0%Z => 60%Z
  | Some x => x
  | None => 60%Z
  end.

(** [getTimeBounds(trip)]: [None] is [null]. *)
Definition getTimeBounds (trip : Trip.t) : option TimeBounds :=
  let clamp (startTime endTime : option Z) :=
    let startTime := Math_max (Some (6 * 60)%Z) startTime in
    let endTime := Math_min (Some (22 * 60)%Z) endTime in
    Some {| startTime := startTime;
            endTime := endTime;
            tb_duration := nsub endTime startTime;
            tb_type := if Trip.isReturnTrip trip then bt_return else bt_appointment |} in
  if Trip.isReturnTrip trip then
    if truthy (Trip.earliestPickupTime trip) then
      let startTime := timeToMinutes (Trip.earliestPickupTime trip) in
      clamp startTime (nadd startTime (Some 60%Z))
    else None
  else
    if truthy (Trip.appointmentTime trip) then
      let appointmentMinutes := timeToMinutes (Trip.appointmentTime trip) in
      let duration := duration_or_60 (Trip.duration trip) in
      clamp (nsub appointmentMinutes (Some 30%Z))
            (nadd (nadd appointmentMinutes (Some duration)) (Some 30%Z))
    else if truthy (or_else (Trip.pickupTime trip) (Trip.time trip)) then
      let pickupMinutes :=
        timeToMinutes (or_else (Trip.pickupTime trip) (Trip.time trip)) in
      clamp pickupMinutes (nadd pickupMinutes (Some 90%Z))
    else None.

(** [formatMinutes(minutes)]. *)
Definition formatMinutes (minutes : option Z) : string :=
  let minutes := if nlt minutes (Some 0%Z) then Some 0%Z else minutes in
  let minutes := if nlt (Some 1439%Z) minutes then Some 1439%Z else minutes in
  (padStart2 (toString (floor_div minutes 60)) ++ ":" ++
   padStart2 (toString (rem minutes 60)))%string.

Record Overlap : Type := {
  hasOverlap : bool;
  overlap_details : option string
}.

(** The buffer [checkTimeOverlap] picks for two kinds of bounds. *)
Definition buffer_for (config : TimeWindowConfig) (type1 type2 : BoundsType)
  : option Z :=
  match type1, type2 with
  | bt_appointment, bt_appointment => bufferBetweenAppointments config
  | bt_return, bt_return => bufferBetweenReturns config
  | _, _ => bufferMixed config
  end.

(** [checkTimeOverlap(time1, time2, timeWindowConfig)]. *)
Definition checkTimeOverlap (time1 time2 : TimeBounds)
  (timeWindowConfig : option TimeWindowConfig) : Overlap :=
  let config :=
    match timeWindowConfig with
    | Some c => c
    | None => {| bufferBetweenAppointments := Some 20%Z;
                 bufferBetweenReturns := Some 10%Z;
                 bufferMixed := Some 15%Z;
                 allowConflictPenalty := false;
                 conflictPenaltyScore := None;
                 minAssignmentScore := None |}
    end in
  let bufferMinutes := buffer_for config (tb_type time1) (tb_type time2) in
  let adjustedTime1End := nadd (endTime time1) bufferMinutes in
  let adjustedTime2End := nadd (endTime time2) bufferMinutes in
  let overlap :=
    nlt (startTime time1) adjustedTime2End && nlt (startTime time2) adjustedTime1End in
  if overlap then
    {| hasOverlap := true;
       overlap_details :=
         Some (formatMinutes (startTime time1) ++ "-" ++ formatMinutes (endTime time1)
               ++ " overlaps with "
               ++ formatMinutes (startTime time2) ++ "-" ++ formatMinutes (endTime time2)
               ++ " (buffer: " ++ toString bufferMinutes ++ "min)")%string |}
  else {| hasOverlap := false; overlap_details := None |}.

Record TimeConflict : Type := {
  hasConflict : bool;
  reason : option string;
  conflictingTrip : option Trip.t
}.

(** The loop of [checkTimeConflicts] over the existing trips. *)
Fixpoint conflict_loop (newTripTime : TimeBounds) (existingTrips : list Trip.t)
  (timeWindowConfig : option TimeWindowConfig) : TimeConflict :=
  match existingTrips with
  | [] => {| hasConflict := false; reason := None; conflictingTrip := None |}
  | existingTrip :: rest =>
      match getTimeBounds existingTrip with
      | None => conflict_loop newTripTime rest timeWindowConfig
      | Some existingTripTime =>
          let overlap := checkTimeOverlap newTripTime existingTripTime timeWindowConfig in
          if hasOverlap overlap then
            {| hasConflict := true;
               reason :=
                 Some ("Time overlap with trip "
                       ++ toString (Some (Trip.id existingTrip)) ++ ": "
                       ++ or_default (overlap_details overlap) "undefined")%string;
               conflictingTrip := Some existingTrip |}
          else conflict_loop newTripTime rest timeWindowConfig
      end
  end.

(** [checkTimeConflicts(newTrip, existingTrips, timeWindowConfig)]. *)
Definition checkTimeConflicts (newTrip : Trip.t) (existingTrips : list Trip.t)
  (timeWindowConfig : option TimeWindowConfig) : TimeConflict :=
  match existingTrips with
  | [] => {| hasConflict := false; reason := None; conflictingTrip := None |}
  | _ =>
      match getTimeBounds newTrip with
      | None => {| hasConflict := false;
                   reason := Some "New trip has no time constraints";
                   conflictingTrip := None |}
      | Some newTripTime => conflict_loop newTripTime existingTrips timeWindowConfig
      end
  end.

Definition getVehicleTypeCompatibility {host : Host}
  (requiredType vehicleType : option string) : float :=
  let compatibility :=
    [ ("Ambulance", [ ("Ambulance", 100); ("VSL", 30); ("Taxi", 10) ]);
      ("VSL", [ ("Ambulance", 80); ("VSL", 100); ("Taxi", 50) ]);
      ("Taxi", [ ("Ambulance", 90); ("VSL", 80); ("Taxi", 100) ]) ] in
  Engine.member2_or compatibility requiredType vehicleType 50.

Definition getVehicleSkills (vehicle : Vehicle.t) : list Z :=
  if is_lit (Vehicle.type vehicle) "Ambulance" then [1; 2; 3]%Z
  else if is_lit (Vehicle.type vehicle) "VSL" then [2; 3]%Z
  else if is_lit (Vehicle.type vehicle) "Taxi" then [3]%Z
  else [].

(** [skillRequirements[trip.vehicleType] || [1, 2, 3]]: a list of skills, or
    the function the table inherits under the name of the type. *)
Definition getTripRequiredSkills (trip : Trip.t) : Engine.Read (list Z) :=
  let skillRequirements :=
    [ ("Ambulance", [1]%Z); ("VSL", [1; 2]%Z); ("Taxi", [1; 2; 3]%Z) ] in
  Engine.read_or (Engine.get skillRequirements (Trip.vehicleType trip))
                 [1; 2; 3]%Z.

(** [calculateEstimatedArrival(pickupTime, additionalMinutes)]: [None] is
    [null]. *)
Definition calculateEstimatedArrival (pickupTime : option string)
  (additionalMinutes : Z) : option string :=
  if truthy pickupTime then
    let s := or_default pickupTime "" in
    let totalMinutes :=
      nadd (nadd (nmul (hours_of s) (Some 60%Z)) (minutes_of s))
           (Some additionalMinutes) in
    let newHours := rem (floor_div totalMinutes 60) 24 in
    let newMinutes := rem totalMinutes 60 in
    Some (padStart2 (toString newHours) ++ ":" ++ padStart2 (toString newMinutes))%string
  else None.

Record RouteMetrics : Type := {
  additionalDistance : float;
  additionalDuration : float;
  estimatedArrival : option string
}.

(** The metrics kept for the best vehicle: those of [calculateRouteMetrics],
    or the [{ distance: 50, duration: 90, score }] object of an assignment
    made despite a conflict, which has no [additionalDistance]. *)
Inductive Metrics : Type :=
| route_metrics (m : RouteMetrics)
| conflict_metrics (distance duration score : float).

(** [m.additionalDistance], [m.additionalDuration] and [m.estimatedArrival],
    [undefined] where the object lacks the field. *)
Definition metrics_additionalDistance (m : Metrics) : option float :=
  match m with
  | route_metrics r => Some (additionalDistance r)
  | conflict_metrics _ _ _ => None
  end.

Definition metrics_additionalDuration (m : Metrics) : option float :=
  match m with
  | route_metrics r => Some (additionalDuration r)
  | conflict_metrics _ _ _ => None
  end.

Definition metrics_estimatedArrival (m : Metrics) : option string :=
  match m with
  | route_metrics r => estimatedArrival r
  | conflict_metrics _ _ _ => None
  end.

Inductive RouteStop : Type :=
| stop_pickup (location : option string) (trip : Trip.t) (time : option string)
| stop_delivery (location : option string) (trip : Trip.t).

Record VehicleAssignment : Type := {
  va_vehicle : Vehicle.t;
  va_trips : list Trip.t;
  va_totalDistance : float;
  va_totalDuration : float;
  va_route : list RouteStop
}.

Definition calculateRouteMetrics (trip : Trip.t)
  (vehicleAssignment : VehicleAssignment) : RouteMetrics :=
  let baseDistance := 10 in
  let baseDuration := 30 in
  let utilizationPenalty :=
    Engine.of_nat (List.length (va_trips vehicleAssignment)) * 0.1 in
  {| additionalDistance := baseDistance * (1 + utilizationPenalty);
     additionalDuration := baseDuration * (1 + utilizationPenalty);
     estimatedArrival :=
       calculateEstimatedArrival
         (or_else (Trip.pickupTime trip) (Trip.time trip)) 30 |}.

Definition calculateTripAssignmentScore {host : Host} (trip : Trip.t)
  (vehicle : Vehicle.t) (routeMetrics : RouteMetrics) (currentTripCount : nat)
  : float :=
  let vehicleTypeScore :=
    getVehicleTypeCompatibility (Trip.vehicleType trip) (Vehicle.type vehicle) in
  let utilizationScore :=
    Num.Math_max 0 (100 - Engine.of_nat currentTripCount * 15) in
  let efficiencyScore :=
    Num.Math_max 0 (100 - additionalDistance routeMetrics * 2) in
  vehicleTypeScore * 0.5 + utilizationScore * 0.3 + efficiencyScore * 0.2.

(** The state of the search loop of [findBestVehicleForTrip]. *)
Record Best : Type := {
  bestVehicle : option Z;
  bestScore : float;
  bestMetrics : option Metrics
}.

(** One turn of the loop over the entries of the assignment map.  When the
    required skills are not a list but an inherited function,
    [requiredSkills.some] raises a TypeError; the [catch] block of the turn
    logs it and goes on to the next vehicle. *)
Definition consider {host : Host} (trip : Trip.t)
  (timeWindowConfig : option TimeWindowConfig)
  (best : Best) (entry : Z * VehicleAssignment) : Best :=
  let vehicleId := fst entry in
  let assignment := snd entry in
  let vehicleTypeScore :=
    getVehicleTypeCompatibility (Trip.vehicleType trip)
                                (Vehicle.type (va_vehicle assignment)) in
  if vehicleTypeScore <? 50 then best
  else
    let vehicleSkills := getVehicleSkills (va_vehicle assignment) in
    match getTripRequiredSkills trip with
    | Engine.builtin _ => best
    | Engine.value requiredSkills =>
    let skillsMatch :=
      existsb (fun skill => existsb (Z.eqb skill) vehicleSkills) requiredSkills in
    if negb skillsMatch then best
    else
      let timeConflict :=
        checkTimeConflicts trip (va_trips assignment) timeWindowConfig in
      if hasConflict timeConflict then
        match timeWindowConfig with
        | Some cfg =>
            if allowConflictPenalty cfg then
              let conflictPenalty := Engine.or_num (conflictPenaltyScore cfg) 50 in
              let minScore := Engine.or_num (minAssignmentScore cfg) 20 in
              let adjustedScore := vehicleTypeScore - conflictPenalty in
              if (bestScore best <? adjustedScore) && (minScore <? adjustedScore) then
                {| bestVehicle := Some vehicleId;
                   bestScore := adjustedScore;
                   bestMetrics := Some (conflict_metrics 50 90 adjustedScore) |}
              else best
            else best
        | None => best
        end
      else
        let routeMetrics := calculateRouteMetrics trip assignment in
        let score :=
          calculateTripAssignmentScore trip (va_vehicle assignment) routeMetrics
            (List.length (va_trips assignment)) in
        if bestScore best <? score then
          {| bestVehicle := Some vehicleId;
             bestScore := score;
             bestMetrics := Some (route_metrics routeMetrics) |}
        else best
    end.

Inductive Found : Type :=
| found (vehicleId : Z) (score : float) (additionalDistance : option float)
    (additionalDuration : option float) (estimatedArrival : option string)
| not_found (roundedBestScore : float).

(** [findBestVehicleForTrip]: a vehicle id of 0 is falsy and is never
    returned. *)
Definition findBestVehicleForTrip {host : Host} (trip : Trip.t)
  (vehicleAssignments : Engine.IdMap VehicleAssignment)
  (timeWindowConfig : option TimeWindowConfig) : Found :=
  let best :=
    fold_left (consider trip timeWindowConfig) vehicleAssignments
      {| bestVehicle := None; bestScore := -1; bestMetrics := None |} in
  match bestVehicle best, bestMetrics best with
  | Some vehicleId, Some metrics =>
      if negb (vehicleId =? 0)%Z && (15 <? bestScore best) then
        found vehicleId (Num.Math_round (bestScore best))
              (metrics_additionalDistance metrics)
              (metrics_additionalDuration metrics)
              (metrics_estimatedArrival metrics)
      else not_found (Num.Math_round (bestScore best))
  | _, _ => not_found (Num.Math_round (bestScore best))
  end.

(** ** The route-improvement pass *)

(** [Math.random()]: the draws of a run are the values of [random] at 0, 1,
    2, ...; a computation that draws takes the index of the next draw and
    returns the index after its last one. *)
Definition Rand (A : Type) : Type := nat -> A * nat.

(** [calculateRouteDistance(trips)]. *)
Definition calculateRouteDistance (random : nat -> float) (trips : list Trip.t)
  : Rand float :=
  fun n => (Engine.of_nat (List.length trips) * 10 + random n * 5, S n).

(** The list with its segment from index [i] to index [j] reversed:
    [newTrips.splice(i, j - i + 1, ...newTrips.slice(i, j + 1).reverse())]. *)
Definition reverse_segment {A : Type} (i j : nat) (l : list A) : list A :=
  (firstn i l ++ rev (firstn (j + 1 - i) (skipn i l)) ++ skipn (j + 1) l)%list.

Record Improvement : Type := {
  improved : bool;
  imp_trips : list Trip.t;
  imp_totalDistance : float;
  imp_totalDuration : float
}.

(** The state of the two nested loops of [apply2OptImprovement]. *)
Record TwoOpt : Type := {
  bestTrips : list Trip.t;
  bestDistance : float;
  wasImproved : bool
}.

(** One candidate swap. *)
Definition try_swap (random : nat -> float) (trips : list Trip.t)
  (st : TwoOpt) (ij : nat * nat) : Rand TwoOpt :=
  fun n =>
    let newTrips := reverse_segment (fst ij) (snd ij) trips in
    let (newDistance, n') := calculateRouteDistance random newTrips n in
    if newDistance <? bestDistance st
    then ({| bestTrips := newTrips; bestDistance := newDistance; wasImproved := true |}, n')
    else (st, n').

(** The index pairs the loops visit, in order:
    [i] from 1 to [len - 2], [j] from [i + 1] to [len - 1]. *)
Definition swap_pairs (len : nat) : list (nat * nat) :=
  flat_map (fun i => map (fun j => (i, j)) (seq (i + 1) (len - 1 - i)))
           (seq 1 (len - 2)).

Fixpoint rand_fold {A S : Type} (f : S -> A -> Rand S) (l : list A) (acc : S)
  : Rand S :=
  fun n =>
    match l with
    | [] => (acc, n)
    | x :: rest => let (acc', n') := f acc x n in rand_fold f rest acc' n'
    end.

Definition apply2OptImprovement (random : nat -> float) (trips : list Trip.t)
  : Rand Improvement :=
  fun n =>
    if Nat.leb (List.length trips) 2 then
      ({| improved := false; imp_trips := trips;
          imp_totalDistance := 0; imp_totalDuration := 0 |}, n)
    else
      let (d0, n0) := calculateRouteDistance random trips n in
      let (st, n') :=
        rand_fold (try_swap random trips) (swap_pairs (List.length trips))
          {| bestTrips := trips; bestDistance := d0; wasImproved := false |} n0 in
      ({| improved := wasImproved st;
          imp_trips := bestTrips st;
          imp_totalDistance := bestDistance st;
          imp_totalDuration := bestDistance st / 40 * 60 |}, n').

(** ** The solver *)

Inductive Status : Type := status_assigned | status_unassigned.

Record FallbackDetails : Type := {
  fd_totalDistance : option float;
  fd_totalTime : option float;
  fd_estimatedArrival : option string;
  fd_fuelCost : float
}.

Record FallbackEntry : Type := {
  fe_trip : Trip.t;
  (** The vehicle, the rounded score and the details of an assigned trip. *)
  fe_assignment : option (Vehicle.t * float * FallbackDetails);
  fe_status : Status;
  (** The rounded best score quoted in the reason of an unassigned trip. *)
  fe_reason : option float
}.

Inductive Step : Type :=
| step_start (location : list float)
| step_pickup (id job : Z) (location : list float) (arrival duration : Z)
| step_delivery (id job : Z) (location : list float) (arrival duration : Z)
| step_end (location : list float).

Record Route : Type := {
  r_vehicle : Z;
  r_steps : list Step;
  r_distance : float;
  r_duration : float;
  r_cost : float
}.

Record FallbackSummary : Type := {
  totalTrips : nat;
  assignedTrips : nat;
  unassignedTrips : nat;
  assignmentRate : float;
  totalDistance : float;
  totalDuration : float;
  averageOptimizationScore : float;
  estimatedFuelCost : float
}.

Record FallbackResult : Type := {
  results : list FallbackEntry;
  vehicleAssignments : list VehicleAssignment;
  summary : FallbackSummary;
  routes : list Route;
  unassigned : list (Z * Z * option float)
}.

(** [x + y] where [y] may be [undefined]. *)
Definition add_opt (x : float) (y : option float) : float :=
  match y with
  | Some v => x + v
  | None => nan
  end.

(** [y * 0.15] where [y] may be [undefined]. *)
Definition fuel_of (y : option float) : float :=
  match y with
  | Some v => v * 0.15
  | None => nan
  end.

(** The entry of a map, replaced in place. *)
Definition map_update (k : Z) (f : VehicleAssignment -> VehicleAssignment)
  (m : Engine.IdMap VehicleAssignment) : Engine.IdMap VehicleAssignment :=
  match Engine.map_get k m with
  | Some a => Engine.map_set k (f a) m
  | None => m
  end.

(** One turn of the assignment loop. *)
Definition assign_step {host : Host} (config : TimeWindowConfig)
  (st : list FallbackEntry * Engine.IdMap VehicleAssignment) (trip : Trip.t)
  : list FallbackEntry * Engine.IdMap VehicleAssignment :=
  let (results, vehicleAssignments) := st in
  match findBestVehicleForTrip trip vehicleAssignments (Some config) with
  | found vehicleId score additionalDistance additionalDuration estimatedArrival =>
      match Engine.map_get vehicleId vehicleAssignments with
      | Some assignment =>
          let assignment' :=
            {| va_vehicle := va_vehicle assignment;
               va_trips := (va_trips assignment ++ [trip])%list;
               va_totalDistance :=
                 add_opt (va_totalDistance assignment) additionalDistance;
               va_totalDuration :=
                 add_opt (va_totalDuration assignment) additionalDuration;
               va_route :=
                 (va_route assignment ++
                  [ stop_pickup (Trip.pickup trip) trip
                      (or_else (Trip.pickupTime trip) (Trip.time trip));
                    stop_delivery (Trip.destination trip) trip ])%list |} in
          ((results ++
            [ {| fe_trip := trip;
                 fe_assignment :=
                   Some (va_vehicle assignment, score,
                         {| fd_totalDistance := additionalDistance;
                            fd_totalTime := additionalDuration;
                            fd_estimatedArrival := estimatedArrival;
                            fd_fuelCost := fuel_of additionalDistance |});
                 fe_status := status_assigned;
                 fe_reason := None |} ])%list,
           Engine.map_set vehicleId assignment' vehicleAssignments)
      | None => (results, vehicleAssignments)
      end
  | not_found roundedBestScore =>
      ((results ++
        [ {| fe_trip := trip;
             fe_assignment := None;
             fe_status := status_unassigned;
             fe_reason := Some roundedBestScore |} ])%list,
       vehicleAssignments)
  end.

(** One turn of the improvement loop over the entries of the map. *)
Definition improve_step (random : nat -> float)
  (done : list (Z * VehicleAssignment)) (entry : Z * VehicleAssignment)
  : Rand (list (Z * VehicleAssignment)) :=
  fun n =>
    let assignment := snd entry in
    if Nat.ltb 2 (List.length (va_trips assignment)) then
      let (improvedRoute, n') := apply2OptImprovement random (va_trips assignment) n in
      if improved improvedRoute then
        ((done ++
          [ (fst entry,
             {| va_vehicle := va_vehicle assignment;
                va_trips := imp_trips improvedRoute;
                va_totalDistance := imp_totalDistance improvedRoute;
                va_totalDuration := imp_totalDuration improvedRoute;
                va_route := va_route assignment |}) ])%list, n')
      else ((done ++ [entry])%list, n')
    else ((done ++ [entry])%list, n).

Definition is_assigned (r : FallbackEntry) : bool :=
  match fe_status r with
  | status_assigned => true
  | status_unassigned => false
  end.

Definition entry_score (r : FallbackEntry) : float :=
  match fe_assignment r with
  | Some (_, score, _) => score
  | None => nan
  end.

Definition default_location : list float := [6.1286; 43.1205].

Definition location_or_default (c : option (list float)) : list float :=
  match c with
  | Some l => l
  | None => default_location
  end.

Definition route_of (assignment : VehicleAssignment) : Route :=
  {| r_vehicle := Vehicle.id (va_vehicle assignment);
     r_steps :=
       ([ step_start (location_or_default (Vehicle.coordinates (va_vehicle assignment))) ]
        ++ flat_map (fun trip =>
             [ step_pickup (Trip.id trip * 10 + 1)%Z (Trip.id trip)
                 (location_or_default (Trip.coordinates trip)) 0%Z 600%Z;
               step_delivery (Trip.id trip * 10 + 2)%Z (Trip.id trip)
                 (location_or_default (Trip.destinationCoords trip)) 1800%Z 600%Z ])
             (va_trips assignment)
        ++ [ step_end (location_or_default (Vehicle.coordinates (va_vehicle assignment))) ])%list;
     r_distance := Num.Math_round (va_totalDistance assignment * 1000);
     r_duration := Num.Math_round (va_totalDuration assignment * 60);
     r_cost := Num.Math_round (va_totalDistance assignment * 0.15 * 100) |}.

(** The assignment map the solver starts from: an empty entry for every
    vehicle that is not in maintenance. *)
Definition initial_assignments (vehicles : list Vehicle.t)
  : Engine.IdMap VehicleAssignment :=
  fold_left (fun m vehicle =>
    if negb (is_lit (Vehicle.status vehicle) "maintenance") then
      Engine.map_set (Vehicle.id vehicle)
        {| va_vehicle := vehicle; va_trips := [];
           va_totalDistance := 0; va_totalDuration := 0; va_route := [] |} m
    else m) vehicles [].

Section WithHost.

Context {host : Host}.

(** The comparison function of the trip sort: priority, then appointments
    before return trips, then the time text under [localeCompare]. *)
Definition fallback_time (trip : Trip.t) : string :=
  or_default (or_else (or_else (Trip.appointmentTime trip) (Trip.pickupTime trip))
                      (Trip.time trip)) "09:00".

Definition compare_trips (a b : Trip.t) : float :=
  let priorityDiff :=
    Engine.priority_rank (Trip.priority b) - Engine.priority_rank (Trip.priority a) in
  if negb (priorityDiff =? 0) then priorityDiff
  else
    let typeScoreA := if Trip.isReturnTrip a then 1 else 2 in
    let typeScoreB := if Trip.isReturnTrip b then 1 else 2 in
    if negb (typeScoreA =? typeScoreB) then typeScoreB - typeScoreA
    else Num.of_Z (localeCompare (fallback_time a) (fallback_time b)).

(** [fallbackVRPSolver(trips, vehicles, distanceMatrix, durationMatrix,
    timeWindowConfig)].  The two matrices are accepted and never read. *)
Definition fallbackVRPSolver (random : nat -> float)
  (trips : list Trip.t) (vehicles : list Vehicle.t)
  (distanceMatrix durationMatrix : list (list float))
  (timeWindowConfig : option TimeWindowConfig) : Rand FallbackResult :=
  fun n =>
    let config :=
      match timeWindowConfig with
      | Some c => c
      | None => default_config
      end in
    let vehicleAssignments := initial_assignments vehicles in
    let sortedTrips := Engine.Array_sort compare_trips trips in
    let (results, vehicleAssignments) :=
      fold_left (assign_step config) sortedTrips ([], vehicleAssignments) in
    let (vehicleAssignments, n') :=
      rand_fold (improve_step random) vehicleAssignments [] n in
    let assignedResults := filter is_assigned results in
    let values := map snd vehicleAssignments in
    let totalDistance := fold_left (fun sum v => sum + va_totalDistance v) values 0 in
    let totalDuration := fold_left (fun sum v => sum + va_totalDuration v) values 0 in
    ({| results := results;
        vehicleAssignments := values;
        summary := {|
          totalTrips := List.length trips;
          assignedTrips := List.length assignedResults;
          unassignedTrips := List.length results - List.length assignedResults;
          assignmentRate :=
            Num.Math_round
              (Engine.of_nat (List.length assignedResults)
               / Engine.of_nat (List.length trips) * 100);
          totalDistance := Num.Math_round (totalDistance * 10) / 10;
          totalDuration := Num.Math_round totalDuration;
          averageOptimizationScore :=
            fold_left (fun sum r => sum + entry_score r) assignedResults 0
            / Engine.of_nat (Nat.max (List.length assignedResults) 1);
          estimatedFuelCost := Num.Math_round (totalDistance * 0.15 * 100) / 100
        |};
        routes := map route_of values;
        unassigned :=
          map (fun r => (Trip.id (fe_trip r), 1%Z, fe_reason r))
              (filter (fun r => negb (is_assigned r)) results) |}, n').

End WithHost.

End Fallback.

(* ================================================================== *)
(** * Vocabulary of the statements *)
(* ================================================================== *)

Module Props.

Import JS.

#[local] Open Scope float_scope.

(** The data [generateReturnCourse] reads from a course: both coordinate
    arrays, and a return time or an appointment time. *)
Definition has_return_data (c : Trip.t) : Prop :=
  Trip.coordinates c <> None /\ Trip.destinationCoords c <> None /\
  (truthy (Trip.returnTime c) = true \/ Trip.appointmentTime c <> None).

(** A return time that is zero: the text 00:00, also written 0:00. *)
Definition zero_time (t : string) : bool :=
  String.eqb t "00:00" || String.eqb t "0:00".

(** The generation condition in the words of the specification: a course
    that is not a return trip, with a duration above 0 or with a return time
    that is given and is not zero.  [ReturnCourses.qualifies] is the test of
    the code. *)
Definition expects_return (c : Trip.t) : bool :=
  negb (Trip.isReturnTrip c)
  && ((match Trip.duration c with
       | Some d => (0 <? d)%Z
       | None => false
       end)
      || (match Trip.returnTime c with
          | Some t => negb (String.eqb t "") && negb (zero_time t)
          | None => false
          end)).

(** A float that is a whole number between two bounds. *)
Definition whole_between (lo hi : Z) (x : float) : Prop :=
  exists z : Z, (lo <= z <= hi)%Z /\ x = Num.of_Z z.

(** The test that a float of a list is a whole number between 0 and 100. *)
Definition is_percentage (y : float) : bool :=
  match Num.whole y with
  | Some z => (0 <=? z)%Z && (z <=? 100)%Z && PrimFloat.Leibniz.eqb y (Num.of_Z z)
  | None => false
  end.

(** The values the four sub-scores take. *)
Definition vehicleTypeScores : list float := [100; 60; 20; 90; 70; 85; 80; 30].
Definition timeSlotScores : list float := [100; 60; 30; 10].
Definition distanceScores : list float := [100; 80; 60; 40; 20].
Definition priorityScores : list float := [100; 85; 60; 40].

(** [calculateEnhancedCompatibilityScore] as a function of the outcome of its
    tests. *)
Definition enhanced_core (sameType : bool) (compatibility : float)
  (urgent high busy available : bool) (baseScore : float) : float :=
  let e := baseScore in
  let e := if sameType then e + 10 else e in
  let e := if negb sameType then Num.Math_max (e * compatibility) 20 else e in
  let e := if urgent then e + 15 else if high then e + 8 else e in
  let e := if busy then Num.Math_max (e * 0.8) 25 else e in
  let e := if available then Num.Math_max e 15 else e in
  Num.Math_round e.

(** The cross-type factor of a trip type and a vehicle type, and the values
    it takes. *)
Definition cross_factor {host : Host} (tripType vehicleType : option string)
  : float :=
  Engine.member2_or [ ("Ambulance", [ ("VSL", 0.8); ("Taxi", 0.4) ]);
                      ("VSL", [ ("Ambulance", 0.9); ("Taxi", 0.7) ]);
                      ("Taxi", [ ("Ambulance", 0.6); ("VSL", 0.8) ]) ]%string
                    tripType vehicleType 0.3.

Definition crossTypeFactors : list float := [0.8; 0.4; 0.9; 0.7; 0.6; 0.3].

(** The whole base scores from 0 to 100. *)
Definition base_scores : list Z := map Z.of_nat (seq 0 101).

Definition bools : list bool := [true; false].

(** A vehicle that is not in maintenance. *)
Definition in_service (v : Vehicle.t) : Prop :=
  is_lit (Vehicle.status v) "maintenance" = false.

(** What holds of every evaluation the resolver builds for a trip: its
    score is the enhanced score of the scorer's score, and its detail is the
    scorer's. *)
Definition evaluated {host : Host} (trip : Trip.t) (e : Engine.Evaluation) : Prop :=
  Engine.score (Engine.optimization e)
  = Engine.calculateEnhancedCompatibilityScore trip (Engine.vehicle e)
      (Engine.score
         (Engine.calculateOptimizationScore trip (Engine.vehicle e)
            (Engine.trips_of (Engine.vehicle e)))) /\
  Engine.details (Engine.optimization e)
  = Engine.details
      (Engine.calculateOptimizationScore trip (Engine.vehicle e)
         (Engine.trips_of (Engine.vehicle e))).

(** A key that is not a name of [Object.prototype]: a table reads it as its
    own property or as [undefined]. *)
Definition plain (key : option string) : Prop :=
  is_prototype_name (property_key key) = false.

(** A key that is a name of [Object.prototype]. *)
Definition inherited_name (key : option string) : Prop :=
  is_prototype_name (property_key key) = true.

(** The candidate vehicles of [findBestVehicleAssignment]. *)
Definition candidates (vehicles : list Vehicle.t) : list Vehicle.t :=
  filter (fun vehicle => negb (is_lit (Vehicle.status vehicle) "maintenance")) vehicles.

(** The trips of a batch state: those with a result, then those deferred. *)
Definition settled (st : Engine.BatchState) : list Trip.t :=
  (map Engine.be_trip (Engine.st_results st)
   ++ Engine.st_unresolvableConflicts st)%list.

Definition map_in_service (m : Engine.IdMap Fallback.VehicleAssignment) : Prop :=
  Forall (fun kv => in_service (Fallback.va_vehicle (snd kv))) m.

Definition results_in_service (rs : list Fallback.FallbackEntry) : Prop :=
  Forall (fun e => forall v s d,
            Fallback.fe_assignment e = Some (v, s, d) -> in_service v) rs.

(** The number of trips of each entry of an assignment map. *)
Definition trip_counts (m : list (Z * Fallback.VehicleAssignment)) : list nat :=
  map (fun kv => List.length (Fallback.va_trips (snd kv))) m.

(** The identifiers of the trips of each vehicle, in route order. *)
Definition trip_order (r : Fallback.FallbackResult) : list (list Z) :=
  map (fun a => map Trip.id (Fallback.va_trips a)) (Fallback.vehicleAssignments r).

(** The position of a float that is not NaN in the order of the floats:
    class, then exponent, then mantissa. *)
Definition key (f : spec_float) : Z * Z * Z :=
  match f with
  | S754_infinity true => (-2, 0, 0)%Z
  | S754_finite true m e => (-1, - e, Z.neg m)%Z
  | S754_zero _ => (0, 0, 0)%Z
  | S754_finite false m e => (1, e, Z.pos m)%Z
  | S754_infinity false => (2, 0, 0)%Z
  | S754_nan => (0, 0, 0)%Z
  end.

Definition is_number (f : spec_float) : Prop := f <> S754_nan.

Definition lex_le (a b : Z * Z * Z) : Prop :=
  let '(a1, a2, a3) := a in
  let '(b1, b2, b3) := b in
  (a1 < b1 \/ (a1 = b1 /\ (a2 < b2 \/ (a2 = b2 /\ a3 <= b3))))%Z.

Definition lex_lt (a b : Z * Z * Z) : Prop :=
  let '(a1, a2, a3) := a in
  let '(b1, b2, b3) := b in
  (a1 < b1 \/ (a1 = b1 /\ (a2 < b2 \/ (a2 = b2 /\ a3 < b3))))%Z.

Ltac order_cases :=
  repeat match goal with
  | b : bool |- _ => destruct b
  | |- context [Z.compare ?a ?b] => destruct (Z.compare_spec a b)
  | |- context [Pos.compare_cont Eq ?a ?b] =>
      change (Pos.compare_cont Eq a b) with (Pos.compare a b);
      destruct (Pos.compare_spec a b)
  end.

Ltac in_list := cbn; repeat (first [left; reflexivity | right]).

Ltac split_eqb :=
  repeat (cbn -[String.eqb];
          match goal with
          | |- context [String.eqb ?a ?b] => destruct (String.eqb a b)
          end).

(** The same on the keys of a table, the reading of the table kept folded. *)
Ltac split_keys :=
  repeat (cbn -[String.eqb Engine.get is_prototype_name];
          match goal with
          | |- context [String.eqb ?a ?b] => destruct (String.eqb a b)
          end).

End Props.

(* ================================================================== *)
(** * Concrete inputs *)
(* ================================================================== *)

Module Examples.

#[local] Open Scope float_scope.

Definition lower_ascii (c : ascii) : ascii :=
  let n := nat_of_ascii c in
  if (Nat.leb 65 n && Nat.leb n 90)%bool then ascii_of_nat (n + 32) else c.

Fixpoint lower (s : string) : string :=
  match s with
  | EmptyString => EmptyString
  | String c r => String (lower_ascii c) (lower r)
  end.

Definition compare_code_units (a b : string) : Z :=
  match String.compare a b with
  | Lt => (-1)%Z
  | Eq => 0%Z
  | Gt => 1%Z
  end.

(** A host to run the examples on: lower-casing of the ASCII letters, the
    order of the code units for [localeCompare] (which agrees with it on
    zero-padded clock text), the small-angle values of the trigonometric
    functions, and inherited functions and a prototype that hold the
    members of [Object.prototype] only. *)
Definition example_host : Host :=
  {| Math_sin := fun x => x;
     Math_cos := fun _ => 1;
     Math_atan2 := fun y x => y / x;
     toLowerCase := lower;
     localeCompare := compare_code_units;
     prototype_member := fun _ key =>
       if JS.is_prototype_name key then Some nan else None |}.

(** A VSL trip for one patient at a given time. *)
Definition trip_at (id : Z) (pickup : option string) (t : string) : Trip.t :=
  {| Trip.id := id;
     Trip.patient := "Patient";
     Trip.pickup := pickup;
     Trip.destination := Some "Toulon";
     Trip.coordinates := Some [6.1286; 43.1205];
     Trip.destinationCoords := Some [5.9282; 43.1242];
     Trip.appointmentTime := Some t;
     Trip.pickupTime := Some t;
     Trip.time := None;
     Trip.duration := Some 45%Z;
     Trip.returnTime := None;
     Trip.isReturnTrip := false;
     Trip.originalCourseId := None;
     Trip.vehicleType := Some "VSL";
     Trip.priority := Some "normal";
     Trip.status := None;
     Trip.exitTime := None;
     Trip.earliestPickupTime := None;
     Trip.maxWaitTime := None;
     Trip.estimatedDuration := None |}.

(** The trip of the scenarios: Hyères to Toulon at 09:00, 45 minutes. *)
Definition trip_1 : Trip.t := trip_at 1 (Some "Hyères") "09:00".

(** The same trip with no pickup address. *)
Definition trip_without_pickup : Trip.t := trip_at 1 None "09:00".

(** The same trip with no duration and no return time. *)
Definition trip_no_return : Trip.t :=
  {| Trip.id := 1;
     Trip.patient := "Patient";
     Trip.pickup := Some "Hyères";
     Trip.destination := Some "Toulon";
     Trip.coordinates := Some [6.1286; 43.1205];
     Trip.destinationCoords := Some [5.9282; 43.1242];
     Trip.appointmentTime := Some "09:00";
     Trip.pickupTime := Some "09:00";
     Trip.time := None;
     Trip.duration := Some 0%Z;
     Trip.returnTime := None;
     Trip.isReturnTrip := false;
     Trip.originalCourseId := None;
     Trip.vehicleType := Some "VSL";
     Trip.priority := Some "normal";
     Trip.status := None;
     Trip.exitTime := None;
     Trip.earliestPickupTime := None;
     Trip.maxWaitTime := None;
     Trip.estimatedDuration := None |}.

Definition vsl_1 : Vehicle.t :=
  {| Vehicle.id := 1;
     Vehicle.name := "VSL 1";
     Vehicle.type := Some "VSL";
     Vehicle.status := Some "available";
     Vehicle.currentLocation := None;
     Vehicle.coordinates := None;
     Vehicle.trips := None |}.

(** A course from Hyères to Toulon with an appointment at a given time, with
    or without its coordinates. *)
Definition course (id : Z) (located : bool) (t : string) (duration : Z)
  (returnTime : option string) (vehicleType priority : string) : Trip.t :=
  {| Trip.id := id;
     Trip.patient := "Patient";
     Trip.pickup := Some "Hyères";
     Trip.destination := Some "Toulon";
     Trip.coordinates := if located then Some [6.1286; 43.1205] else None;
     Trip.destinationCoords := if located then Some [5.9282; 43.1242] else None;
     Trip.appointmentTime := Some t;
     Trip.pickupTime := Some t;
     Trip.time := None;
     Trip.duration := Some duration;
     Trip.returnTime := returnTime;
     Trip.isReturnTrip := false;
     Trip.originalCourseId := None;
     Trip.vehicleType := Some vehicleType;
     Trip.priority := Some priority;
     Trip.status := None;
     Trip.exitTime := None;
     Trip.earliestPickupTime := None;
     Trip.maxWaitTime := None;
     Trip.estimatedDuration := None |}.

(** The scenario trip with the priority 'constructor'. *)
Definition trip_inherited_priority : Trip.t :=
  course 1 true "09:00" 45 None "VSL" "constructor".

(** The scenario trip for an ambulance, and a vehicle of type 'constructor'. *)
Definition ambulance_trip : Trip.t :=
  course 1 true "09:00" 45 None "Ambulance" "normal".

Definition unit_constructor : Vehicle.t :=
  {| Vehicle.id := 2;
     Vehicle.name := "Unit 2";
     Vehicle.type := Some "constructor";
     Vehicle.status := Some "available";
     Vehicle.currentLocation := None;
     Vehicle.coordinates := None;
     Vehicle.trips := None |}.

(** The scenario trip without its coordinates, and a second course with no
    duration and a return time at 11:30. *)
Definition trip_without_coordinates : Trip.t :=
  course 1 false "09:00" 45 None "VSL" "normal".

Definition trip_with_return_time : Trip.t :=
  course 2 true "10:00" 0 (Some "11:30") "VSL" "normal".

(** Three trips far enough apart to go on one vehicle. *)
Definition three_trips : list Trip.t :=
  [ trip_at 1 (Some "Hyères") "08:00";
    trip_at 2 (Some "Hyères") "11:00";
    trip_at 3 (Some "Hyères") "14:00" ].

(** Two runs of random draws: 0.9 then 0.1 for ever, and 0.1 then 0.9 for
    ever. *)
Definition draws_a (n : nat) : float :=
  match n with
  | O => 0.9
  | S _ => 0.1
  end.

Definition draws_b (n : nat) : float :=
  match n with
  | O => 0.1
  | S _ => 0.9
  end.

(** The fallback solver on the three trips and the one vehicle. *)
Definition fallback_run (random : nat -> float) : Fallback.FallbackResult :=
  fst (@Fallback.fallbackVRPSolver example_host random three_trips [vsl_1]
         [] [] None 0%nat).

End Examples.

(* ================================================================== *)
(** * Vocabulary of the statements on the fallback solver *)
(* ================================================================== *)

Module FallbackProps.

Import JS Fallback.

#[local] Open Scope float_scope.

(** The two tests of [findBestVehicleForTrip] a vehicle passes before its
    schedule is looked at: a type compatibility of at least 50 and one of the
    required skills. *)
Definition considered {host : Host} (trip : Trip.t) (v : Vehicle.t) : bool :=
  negb (getVehicleTypeCompatibility (Trip.vehicleType trip) (Vehicle.type v) <? 50)
  && match getTripRequiredSkills trip with
     | Engine.value requiredSkills =>
         existsb (fun skill => existsb (Z.eqb skill) (getVehicleSkills v))
                 requiredSkills
     | Engine.builtin _ => false
     end.

(** The keys of a [Map], in insertion order. *)
Definition keys {V : Type} (m : Engine.IdMap V) : list Z := map fst m.

(** Every entry of the assignment map is stored under the id of its
    vehicle. *)
Definition keyed_by_vehicle (m : Engine.IdMap VehicleAssignment) : Prop :=
  Forall (fun kv => fst kv = Vehicle.id (va_vehicle (snd kv))) m.

(** [checkTimeConflicts(A, [B], config).hasConflict]. *)
Definition conflicts_with (config : option TimeWindowConfig) (A B : Trip.t) : bool :=
  hasConflict (checkTimeConflicts A [B] config).

(** Two trips that do not conflict, whichever is checked against the
    other. *)
Definition compatible (config : option TimeWindowConfig) (A B : Trip.t) : Prop :=
  conflicts_with config A B = false /\ conflicts_with config B A = false.

(** The trips carried by a list of vehicle assignments. *)
Definition carried (l : list VehicleAssignment) : list Trip.t :=
  List.concat (map va_trips l).

(** The trips of the results with status 'assigned'. *)
Definition assigned_trips (rs : list FallbackEntry) : list Trip.t :=
  map fe_trip (filter is_assigned rs).

(** What holds of a result of the assignment loop: an assigned trip is on
    a vehicle that passed both tests, whose id is not 0. *)
Definition well_assigned {host : Host} (e : FallbackEntry) : Prop :=
  match fe_assignment e with
  | Some (v, _, _) =>
      fe_status e = status_assigned /\
      considered (fe_trip e) v = true /\ Vehicle.id v <> 0%Z
  | None => fe_status e = status_unassigned
  end.

(** What holds of the vehicle [findBestVehicleForTrip] keeps as the best
    one: it is an entry of the map that passed both tests, and either the
    trip conflicts with none of its trips or the configuration allows an
    assignment despite a conflict. *)
Definition picked_from {host : Host} (trip : Trip.t)
  (config : option TimeWindowConfig)
  (m : Engine.IdMap VehicleAssignment) (best : Best) : Prop :=
  forall k, bestVehicle best = Some k ->
    exists a, In (k, a) m /\
      considered trip (va_vehicle a) = true /\
      (hasConflict (checkTimeConflicts trip (va_trips a) config) = false \/
       exists c, config = Some c /\ allowConflictPenalty c = true).

(** The invariant of the assignment loop, after the trips [processed]. *)
Definition loop_invariant {host : Host} (config : TimeWindowConfig)
  (vehicles : list Vehicle.t) (processed : list Trip.t)
  (st : list FallbackEntry * Engine.IdMap VehicleAssignment) : Prop :=
  let (rs, m) := st in
  NoDup (keys m) /\
  keyed_by_vehicle m /\
  Forall (fun kv => In (va_vehicle (snd kv)) vehicles) m /\
  Forall well_assigned rs /\
  Forall (fun e => forall v s d, fe_assignment e = Some (v, s, d) -> In v vehicles) rs /\
  map fe_trip rs = processed /\
  Permutation (carried (map snd m)) (assigned_trips rs) /\
  Forall (fun kv => Vehicle.id (va_vehicle (snd kv)) = 0%Z -> va_trips (snd kv) = []) m /\
  (allowConflictPenalty config = false ->
   Forall (fun kv => ForallOrdPairs (compatible (Some config)) (va_trips (snd kv))) m).

(** An entry of the assignment map before and after the improvement pass:
    the same key and vehicle, the same trips in another order, the first
    trip in place. *)
Definition reordered (e e' : Z * VehicleAssignment) : Prop :=
  fst e' = fst e /\
  va_vehicle (snd e') = va_vehicle (snd e) /\
  Permutation (va_trips (snd e')) (va_trips (snd e)) /\
  hd_error (va_trips (snd e')) = hd_error (va_trips (snd e)).

(** Rewrites the tests on strings whose outcome is known. *)
Ltac known_eqb :=
  repeat match goal with
  | H : String.eqb _ _ = false |- _ => rewrite H
  | |- context [String.eqb ?a ?b] =>
      let v := eval vm_compute in (String.eqb a b) in
      match v with
      | true => change (String.eqb a b) with true
      | false => change (String.eqb a b) with false
      end
  end.

End FallbackProps.

(* ================================================================== *)
(** * More concrete inputs *)
(* ================================================================== *)

Module Scenarios.

Import Examples.

#[local] Open Scope float_scope.

(** The default time-window configuration with the conflict penalty off. *)
Definition strict_config : Fallback.TimeWindowConfig :=
  {| Fallback.bufferBetweenAppointments := Some 20%Z;
     Fallback.bufferBetweenReturns := Some 10%Z;
     Fallback.bufferMixed := Some 15%Z;
     Fallback.allowConflictPenalty := false;
     Fallback.conflictPenaltyScore := Some 50;
     Fallback.minAssignmentScore := Some 15 |}.

(** Two appointments ten minutes apart. *)
Definition close_trips : list Trip.t :=
  [ trip_at 1 (Some "Hyères") "08:00"; trip_at 2 (Some "Hyères") "08:10" ].

End Scenarios.

(* ================================================================== *)
(** * Waiting times of return courses *)
(* ================================================================== *)

Module Waiting.

Import JS.

(** [calculateWaitingTime(returnCourse, actualPickupTime)] for an actual
    pickup time that is a string: a whole number of minutes, or NaN. *)
Definition calculateWaitingTime (returnCourse : Trip.t) (actualPickupTime : string)
  : option Z :=
  if negb (Trip.isReturnTrip returnCourse) || negb (truthy (Trip.exitTime returnCourse))
  then Some 0
  else
    let exitTotalMinutes := clock_minutes (or_default (Trip.exitTime returnCourse) "") in
    let pickupTotalMinutes := clock_minutes actualPickupTime in
    Math_max (Some 0) (nsub pickupTotalMinutes exitTotalMinutes).

(** [returnCourse.maxWaitTime || 60]. *)
Definition maxWaitTime_or_60 (returnCourse : Trip.t) : Z :=
  match Trip.maxWaitTime returnCourse with
  | Some 0 => 60
  | Some x => x
  | None => 60
  end.

(** [isWaitTimeExcessive(returnCourse, actualPickupTime)]. *)
Definition isWaitTimeExcessive (returnCourse : Trip.t) (actualPickupTime : string)
  : bool :=
  let waitTime := calculateWaitingTime returnCourse actualPickupTime in
  nlt (Some (maxWaitTime_or_60 returnCourse)) waitTime.

End Waiting.

(* ================================================================== *)
(** * Vocabulary of the statements on the engine *)
(* ================================================================== *)

Module EngineProps.

Import JS Engine.

#[local] Open Scope float_scope.

(** The test [calculateTimeSlotScore] and [detectConflicts] apply to an
    existing trip: less than 30 minutes from the new trip. *)
Definition within_30 (trip existingTrip : Trip.t) : bool :=
  nlt (time_diff (convertTimeToMinutes (trip_time trip)) existingTrip) (Some 30%Z).


(** What holds of a batch result assigned in the first pass: the assignment
    is the recommended evaluation, on a vehicle of the fleet that is not in
    maintenance, with a full detail that reports no conflict: no trip then on
    the vehicle lies within 30 minutes of the new one. *)
Definition first_pass_entry (vehicles : list Vehicle.t) (e : BatchEntry) : Prop :=
  be_resolutionApplied e = None -> be_status e = assigned ->
  exists best d,
    be_assignment e = Some (of_evaluation best) /\
    Props.in_service (vehicle best) /\
    (exists v, In v vehicles /\
               Vehicle.id v = Vehicle.id (vehicle best) /\
               Vehicle.name v = Vehicle.name (vehicle best)) /\
    details (optimization best) = DetailsOk d /\
    conflicts d = [] /\
    Forall (fun t => within_30 (be_trip e) t = false) (trips_of (vehicle best)).

(** The test that a float is a whole number between two bounds. *)
Definition whole_in (lo hi : Z) (y : float) : bool :=
  match Num.whole y with
  | Some z => (lo <=? z)%Z && (z <=? hi)%Z && PrimFloat.Leibniz.eqb y (Num.of_Z z)
  | None => false
  end.

(** The trips of a vehicle after [applyRescheduling]: the trip of the named
    patient moved to the end with its new time, then the new trip with the
    estimated duration 1. *)
Definition rescheduled_trips (trip : Trip.t) (option : ReschedulingOption)
  (current : list Trip.t) (i : nat) : list Trip.t :=
  (remove_at i current
   ++ [ with_times (nth i current trip) (tr_newTime (ro_tripToReschedule option));
        with_estimatedDuration trip 1 ])%list.

(** The test [applyRescheduling] finds the trip to move with. *)
Definition same_patient (option : ReschedulingOption) (t : Trip.t) : bool :=
  String.eqb (Trip.patient t) (tr_patient (ro_tripToReschedule option)).

(** A fleet entirely in maintenance. *)
Definition all_in_maintenance (vehicles : list Vehicle.t) : Prop :=
  Forall (fun v => is_lit (Vehicle.status v) "maintenance" = true) vehicles.

(** The two strategies that do not test the status of a vehicle. *)
Definition moves_or_combines (s : ResolutionStrategy) : Prop :=
  match s with
  | reschedule_existing _ | trip_optimization _ => True
  | time_adjustment _ | vehicle_change _ => False
  end.

(** What holds of a batch result when the whole fleet is in maintenance: a
    trip that is assigned was assigned by a rescheduling or a combination,
    on a vehicle in maintenance. *)
Definition assigned_in_maintenance (e : BatchEntry) : Prop :=
  be_status e = assigned ->
  exists v o s,
    be_assignment e = Some (of_resolution v o) /\
    is_lit (Vehicle.status v) "maintenance" = true /\
    be_resolutionApplied e = Some s /\ moves_or_combines s.

End EngineProps.

Module EngineScenarios.

Import Examples.

(** A VSL in maintenance that already carries the scenario trip. *)
Definition vsl_in_maintenance : Vehicle.t :=
  {| Vehicle.id := 1;
     Vehicle.name := "VSL 1";
     Vehicle.type := Some "VSL";
     Vehicle.status := Some "maintenance";
     Vehicle.currentLocation := None;
     Vehicle.coordinates := None;
     Vehicle.trips := Some [trip_1] |}.

(** Moving the trip of "Patient" on "VSL 1" to 07:00. *)
Definition move_to_7 : Engine.ReschedulingOption :=
  {| Engine.ro_vehicle := "VSL 1";
     Engine.ro_tripToReschedule :=
       {| Engine.tr_patient := "Patient";
          Engine.tr_oldTime := Some "09:00";
          Engine.tr_newTime := "07:00" |};
     Engine.ro_newTripScore := 92%float;
     Engine.ro_impact := "low" |}.

(** A second trip at 09:00. *)
Definition trip_2 : Trip.t := trip_at 2 (Some "Hyères") "09:00".

End EngineScenarios.

(* ================================================================== *)
(** * Minute counts back to clock text *)
(* ================================================================== *)

Module Clock.

Import JS.

(** [convertMinutesToTime(minutes)] on a whole number of minutes or NaN. *)
Definition convertMinutesToTime (minutes : option Z) : string :=
  let hours := floor_div minutes 60 in
  let mins := rem minutes 60 in
  padStart2 (toString hours) ++ ":" ++ padStart2 (toString mins).

(** The clock text of an hour and a minute, each padded to two digits. *)
Definition clock_text (h m : Z) : string :=
  padStart2 (toString (Some h)) ++ ":" ++ padStart2 (toString (Some m)).

End Clock.

(* ================================================================== *)
(** * Helpers of the VROOM format conversion *)
(* ================================================================== *)

Module Vroom.

Import JS.

#[local] Open Scope float_scope.

(** [VROOM_CONFIG.maxJobs] and [VROOM_CONFIG.maxVehicles]. *)
Definition maxJobs : nat := 100.
Definition maxVehicles : nat := 20.

(** The three arrays [validateVRPData] reads, [None] for a missing one. *)
Record VRPData (V J S : Type) : Type := {
  vehicles : option (list V);
  jobs : option (list J);
  shipments : option (list S)
}.

Arguments vehicles {V J S} _.
Arguments jobs {V J S} _.
Arguments shipments {V J S} _.

(** [a && a.length > 0] and [a.length] behind that test. *)
Definition size {A : Type} (a : option (list A)) : nat :=
  match a with
  | Some l => List.length l
  | None => 0
  end.

Definition number (n : nat) : string := toString (Some (Z.of_nat n)).

(** [validateVRPData(vrpData)]: returns nothing, or raises. *)
Definition validateVRPData {V J S : Type} (vrpData : VRPData V J S)
  : completion unit :=
  if Nat.eqb (size (vehicles vrpData)) 0 then
    Throw "At least one vehicle is required"
  else
    let hasJobs := Nat.ltb 0 (size (jobs vrpData)) in
    let hasShipments := Nat.ltb 0 (size (shipments vrpData)) in
    if negb hasJobs && negb hasShipments then
      Throw "At least one job or shipment is required"
    else if hasJobs && Nat.ltb maxJobs (size (jobs vrpData)) then
      Throw ("Too many jobs (" ++ number (size (jobs vrpData))
             ++ "). Maximum: " ++ number maxJobs)
    else if hasShipments && Nat.ltb maxJobs (size (shipments vrpData)) then
      Throw ("Too many shipments (" ++ number (size (shipments vrpData))
             ++ "). Maximum: " ++ number maxJobs)
    else if Nat.ltb maxVehicles (size (vehicles vrpData)) then
      Throw ("Too many vehicles (" ++ number (size (vehicles vrpData))
             ++ "). Maximum: " ++ number maxVehicles)
    else Normal tt.

(** [coord[k]] as a number: a missing component is [undefined], NaN in
    arithmetic. *)
Definition axis (coord : list float) (k : nat) : float := nth k coord nan.

(** The test of [findCoordinateIndex]: both components within 0.001. *)
Definition close_to (coordinate coord : list float) : bool :=
  (abs (axis coord 0 - axis coordinate 0) <? 0.001)
  && (abs (axis coord 1 - axis coordinate 1) <? 0.001).

(** [findCoordinateIndex(coordinate, coordinates)]: the index of the first
    coordinate within tolerance, 0 when there is none. *)
Definition findCoordinateIndex (coordinate : list float)
  (coordinates : list (list float)) : nat :=
  match Engine.find_index (close_to coordinate) coordinates with
  | Some i => i
  | None => 0%nat
  end.

(** The distance written for an unknown connection. *)
Definition unknown : float := 999999.

(** [row[i] = v] for an index within the row. *)
Fixpoint set_at (i : nat) (v : float) (row : list float) : list float :=
  match row, i with
  | [], _ => []
  | _ :: rest, O => v :: rest
  | x :: rest, S j => x :: set_at j v rest
  end.

(** [for (i = 0; i < targetSize; i++) m[i][i] = 0] over a matrix of
    [targetSize] rows, counted from row [i]. *)
Fixpoint zero_diagonal (i : nat) (rows : list (list float)) : list (list float) :=
  match rows with
  | [] => []
  | row :: rest => set_at i 0 row :: zero_diagonal (S i) rest
  end.

(** [ensureMatrixSize(matrix, targetSize)]: [None] is a missing matrix.
    When the matrix is padded every row has at least [targetSize] entries
    before the diagonal is written, so each write is within its row. *)
Definition ensureMatrixSize (matrix : option (list (list float))) (targetSize : nat)
  : list (list float) :=
  match matrix with
  | None | Some [] => repeat (repeat unknown targetSize) targetSize
  | Some m =>
      let currentSize := List.length m in
      if Nat.leb targetSize currentSize then m
      else
        let paddedMatrix :=
          map (fun row => (row ++ repeat unknown (targetSize - List.length row))%list) m in
        let paddedMatrix :=
          (paddedMatrix
           ++ repeat (repeat unknown targetSize) (targetSize - currentSize))%list in
        zero_diagonal 0 paddedMatrix
  end.

(** The entry of a matrix at a row and a column. *)
Definition entry (m : list (list float)) (i j : nat) : option float :=
  match nth_error m i with
  | Some row => nth_error row j
  | None => None
  end.

End Vroom.

(* ================================================================== *)
(** * The conversion to the VROOM format *)
(* ================================================================== *)

Module VroomFormat.

Import JS Engine Vroom.

#[local] Open Scope float_scope.

(** The fields of the time-window configuration the conversion reads. *)
Record WorkingHours : Type := { wh_start : option float; wh_end : option float }.

Record Config : Type := {
  appointmentBufferBefore : option float;
  appointmentBufferAfter : option float;
  workingHours : option WorkingHours
}.

Definition default_timeWindowConfig : Config :=
  {| appointmentBufferBefore := Some 30;
     appointmentBufferAfter := Some 30;
     workingHours := Some {| wh_start := Some 6; wh_end := Some 22 |} |}.

(** The fields of the routing data the conversion reads. *)
Record RoutingData : Type := {
  coordinatesProvided : bool;
  addresses : option (list string)
}.

(** A number that may be [undefined], in arithmetic. *)
Definition num (x : option float) : float :=
  match x with
  | Some v => v
  | None => nan
  end.

(** The [Map] from addresses to indices: a key is a string or [undefined];
    [set] on a present key replaces its value in place. *)
Definition AddressMap : Type := list (option string * nat).

Fixpoint address_set (k : option string) (v : nat) (m : AddressMap) : AddressMap :=
  match m with
  | [] => [(k, v)]
  | (k', v') :: rest =>
      if strict_eq k' k then (k, v) :: rest else (k', v') :: address_set k v rest
  end.

Fixpoint address_get (k : option string) (m : AddressMap) : option nat :=
  match m with
  | [] => None
  | (k', v') :: rest => if strict_eq k' k then Some v' else address_get k rest
  end.

(** [addressToIndex.get(address) || 0]. *)
Definition index_of (m : AddressMap) (address : option string) : nat :=
  match address_get address m with
  | Some i => i
  | None => 0%nat
  end.

(** [[...new Set(addresses)]]: the first occurrence of each address. *)
Fixpoint unique (addresses seen : list (option string)) : list (option string) :=
  match addresses with
  | [] => []
  | a :: rest =>
      if existsb (strict_eq a) seen then unique rest seen
      else a :: unique rest (a :: seen)
  end.

(** [l.forEach((address, index) => addressToIndex.set(address, index))]. *)
Definition index_all (l : list (option string)) : AddressMap :=
  fold_left (fun m ia => address_set (snd ia) (fst ia) m) (indexed l) [].

Record VroomVehicle : Type := {
  vv_id : Z;
  vv_start : nat;
  vv_end : nat;
  vv_capacity : float;
  vv_skills : list Z;
  vv_time_window : float * float;
  vv_profile : string;
  vv_description : string
}.

Definition getVehicleCapacity (vehicle : Vehicle.t) : float :=
  member_or (get [ ("Ambulance", 2); ("VSL", 3); ("Taxi", 4); ("Minibus", 8) ]
                 (Vehicle.type vehicle)) 1.

Definition getVehicleTimeWindow (vehicle : Vehicle.t) : float * float :=
  (6 * 3600, 21 * 3600).

Definition getTripServiceTime (trip : Trip.t) : float :=
  member_or (get [ ("urgent", 300); ("high", 240); ("normal", 180); ("low", 120) ]
                 (Trip.priority trip)) 180.

(** [getTripTimeWindow(trip)]: [None] is [null]. *)
Definition getTripTimeWindow (trip : Trip.t) : option (float * float) :=
  let timeStr :=
    or_else (or_else (Trip.pickupTime trip) (Trip.time trip))
            (Trip.appointmentTime trip) in
  if truthy timeStr then
    let s := or_default timeStr "" in
    let timeInSeconds :=
      to_float (nadd (nmul (hours_of s) (Some 3600%Z)) (nmul (minutes_of s) (Some 60%Z))) in
    Some (timeInSeconds - 1800, timeInSeconds + 1800)
  else None.

(** [x || index + 1] on an identifier. *)
Definition id_or (x : Z) (index : nat) : Z :=
  if (x =? 0)%Z then Z.of_nat index + 1 else x.

(** [trip.maxWaitTime || 240]. *)
Definition maxWaitTime_or_240 (trip : Trip.t) : Z :=
  match Trip.maxWaitTime trip with
  | Some 0%Z => 240
  | Some x => x
  | None => 240
  end.

Record Stop : Type := {
  stop_id : Z;
  location_index : nat;
  time_windows : option (list (float * float));
  service : float;
  stop_description : string
}.

Record ReturnInfo : Type := {
  ri_originalCourseId : option Z;
  ri_exitTime : option string;
  ri_maxWaitTime : Z
}.

Record Shipment : Type := {
  sh_id : Z;
  sh_priority : float;
  sh_pickup : Stop;
  sh_delivery : Stop;
  sh_amount : list Z;
  sh_skills : Read (list Z);
  sh_description : string;
  (** The fields [type: 'return', originalCourseId, exitTime, maxWaitTime]
      spread into the shipment of a return trip. *)
  sh_return : option ReturnInfo
}.

(** The windows and the priority of a shipment:
    [pickupTimeWindow], [deliveryTimeWindow], [shipmentPriority]. *)
Definition windows (config : Config) (trip : Trip.t)
  : completion (option (float * float) * option (list (float * float)) * float) :=
  let timeWindow := getTripTimeWindow trip in
  if Trip.isReturnTrip trip then
    if truthy (Trip.exitTime trip) && truthy (Trip.earliestPickupTime trip) then
      let earliestPickupMinutes :=
        to_float (Fallback.timeToMinutes (Trip.earliestPickupTime trip)) in
      let maxWaitMinutes := Num.of_Z (maxWaitTime_or_240 trip) in
      let startSeconds := earliestPickupMinutes * 60 in
      let endSeconds := (earliestPickupMinutes + maxWaitMinutes) * 60 in
      if (0 <=? startSeconds) && (startSeconds <? endSeconds)
         && (endSeconds <=? 24 * 3600)
      then Normal (Some (startSeconds, endSeconds), None, 500)
      else Normal (Some (8 * 3600, 20 * 3600), None, 500)
    else Normal (Some (8 * 3600, 20 * 3600), None, 500)
  else
    if truthy (Trip.appointmentTime trip) then
      let appointmentMinutes :=
        to_float (Fallback.timeToMinutes (Trip.appointmentTime trip)) in
      let appointmentSeconds := appointmentMinutes * 60 in
      let bufferBeforeSeconds := num (appointmentBufferBefore config) * 60 in
      let bufferAfterSeconds := num (appointmentBufferAfter config) * 60 in
      let maxPickupAdvanceHours :=
        Num.Math_max 2 (num (appointmentBufferBefore config) / 30) * 3600 in
      match workingHours config with
      | None =>
          Throw "TypeError: cannot read properties of undefined (reading 'start')"
      | Some hours =>
          let pickupStart :=
            Num.Math_max (num (wh_start hours) * 3600)
                         (appointmentSeconds - maxPickupAdvanceHours) in
          let pickupEnd := appointmentSeconds - bufferBeforeSeconds in
          let deliveryStart := appointmentSeconds - bufferBeforeSeconds in
          let deliveryEnd := appointmentSeconds + bufferAfterSeconds in
          Normal (Some (pickupStart, pickupEnd),
                  Some [(deliveryStart, deliveryEnd)],
                  member_or (get [ ("urgent", 1000); ("high", 800);
                                   ("normal", 600); ("low", 400) ]
                                 (Trip.priority trip)) 600)
      end
    else
      Normal (timeWindow,
              match timeWindow with
              | Some (a, b) => Some [(a + 1800, b)]
              | None => None
              end,
              600).

(** The body of [trips.map((trip, index) => ...)]. *)
Definition shipment_of (config : Config) (addressToIndex : AddressMap)
  (index : nat) (trip : Trip.t) : completion Shipment :=
  let pickupIndex := index_of addressToIndex (Trip.pickup trip) in
  let deliveryIndex := index_of addressToIndex (Trip.destination trip) in
  let isReturnTrip := Trip.isReturnTrip trip in
  w <- windows config trip ;;
  let pickupTimeWindow := fst (fst w) in
  let deliveryTimeWindow := snd (fst w) in
  let shipmentPriority := snd w in
  let prefix := if isReturnTrip then "Return " else "" in
  Normal {|
    sh_id := id_or (Trip.id trip) index;
    sh_priority := shipmentPriority;
    sh_pickup := {|
      stop_id := id_or (Trip.id trip) index * 10 + 1;
      location_index := pickupIndex;
      time_windows := option_map (fun tw => [tw]) pickupTimeWindow;
      service := getTripServiceTime trip;
      stop_description :=
        prefix ++ "Pickup: " ++ Trip.patient trip ++ " at " ++ template (Trip.pickup trip)
    |};
    sh_delivery := {|
      stop_id := id_or (Trip.id trip) index * 10 + 2;
      location_index := deliveryIndex;
      time_windows := deliveryTimeWindow;
      service := getTripServiceTime trip;
      stop_description :=
        prefix ++ "Delivery: " ++ Trip.patient trip ++ " to "
        ++ template (Trip.destination trip)
    |};
    sh_amount := [1%Z];
    sh_skills := Fallback.getTripRequiredSkills trip;
    sh_description :=
      (if isReturnTrip then "🔄 RETOUR - " else "🏥 RDV - ")
      ++ Trip.patient trip ++ " - " ++ template (Trip.pickup trip)
      ++ " → " ++ template (Trip.destination trip);
    sh_return :=
      if isReturnTrip then
        Some {| ri_originalCourseId := Trip.originalCourseId trip;
                ri_exitTime := Trip.exitTime trip;
                ri_maxWaitTime := maxWaitTime_or_240 trip |}
      else None
  |}.

(** [l.map((x, index) => f(index, x))] over a body that may raise. *)
Fixpoint map_indexed {A B : Type} (f : nat -> A -> completion B) (index : nat)
  (l : list A) : completion (list B) :=
  match l with
  | [] => Normal []
  | x :: rest =>
      y <- f index x ;;
      ys <- map_indexed f (S index) rest ;;
      Normal (y :: ys)
  end.

(** The body of [vehicles.filter(...).map((vehicle, index) => ...)]. *)
Definition vehicle_of (addressToIndex : AddressMap) (index : nat)
  (vehicle : Vehicle.t) : VroomVehicle :=
  let vehicleAddress := Some (or_default (Vehicle.currentLocation vehicle) "Base Hyères") in
  let startIndex := index_of addressToIndex vehicleAddress in
  {| vv_id := id_or (Vehicle.id vehicle) index;
     vv_start := startIndex;
     vv_end := startIndex;
     vv_capacity := getVehicleCapacity vehicle;
     vv_skills := Fallback.getVehicleSkills vehicle;
     vv_time_window := getVehicleTimeWindow vehicle;
     vv_profile := "driving";
     vv_description :=
       Vehicle.name vehicle ++ " (" ++ template (Vehicle.type vehicle) ++ ")" |}.

Record VroomData : Type := {
  vd_vehicles : list VroomVehicle;
  vd_shipments : list Shipment;
  vd_durations : list (list float);
  vd_distances : list (list float)
}.

(** [a.length] of an array that may be missing. *)
Definition length_of {A : Type} (a : option (list A)) : completion nat :=
  match a with
  | Some l => Normal (List.length l)
  | None => Throw "TypeError: cannot read properties of undefined (reading 'length')"
  end.

(** [convertToVROOMFormat(trips, vehicles, distanceMatrix, durationMatrix,
    coordinates, routingData, timeWindowConfig)].  Its [catch] block logs
    the exception and raises it again.  [uniqueAddresses] is declared inside
    the [else] block that builds the address map, so the name is not bound
    where the matrix size is computed: evaluating it raises a
    ReferenceError. *)
Definition convertToVROOMFormat (trips : list Trip.t) (vehicles : list Vehicle.t)
  (distanceMatrix durationMatrix coordinates : option (list (list float)))
  (routingData : option RoutingData) (timeWindowConfig : option Config)
  : completion VroomData :=
  coordinatesLength <- length_of coordinates ;;
  distanceMatrixLength <- length_of distanceMatrix ;;
  let config :=
    match timeWindowConfig with
    | Some c => c
    | None => default_timeWindowConfig
    end in
  addressToIndex <-
    (let from_trips :=
       let allAddresses :=
         (map Trip.pickup trips ++ map Trip.destination trips
          ++ map (fun vehicle =>
                    Some (or_default (Vehicle.currentLocation vehicle) "Base Hyères"))
                 vehicles)%list in
       let uniqueAddresses := unique allAddresses [] in
       Normal (index_all uniqueAddresses) in
     match routingData with
     | Some rd =>
         if coordinatesProvided rd then
           match addresses rd with
           | Some l => Normal (index_all (map Some l))
           | None =>
               Throw "TypeError: cannot read properties of undefined (reading 'forEach')"
           end
         else from_trips
     | None => from_trips
     end) ;;
  let vroomVehicles :=
    map (fun iv => vehicle_of addressToIndex (fst iv) (snd iv))
        (indexed (filter (fun vehicle =>
                            negb (is_lit (Vehicle.status vehicle) "maintenance"))
                         vehicles)) in
  vroomShipments <- map_indexed (shipment_of config addressToIndex) 0 trips ;;
  uniqueAddresses <-
    (Throw "ReferenceError: uniqueAddresses is not defined"
     : completion (list (option string))) ;;
  let matrixSize := Nat.max coordinatesLength (List.length uniqueAddresses) in
  let paddedDistanceMatrix := ensureMatrixSize distanceMatrix matrixSize in
  let paddedDurationMatrix := ensureMatrixSize durationMatrix matrixSize in
  Normal {| vd_vehicles := vroomVehicles;
            vd_shipments := vroomShipments;
            vd_durations := paddedDurationMatrix;
            vd_distances := paddedDistanceMatrix |}.

End VroomFormat.

(* ================================================================== *)
(** * Routes: the savings heuristic and its 2-opt pass *)
(* ================================================================== *)

Module Routes.

Import JS Engine.

#[local] Open Scope float_scope.

(** The distance matrix of [calculateDistanceMatrix]: an object keyed by
    location whose values are objects keyed by location.  Reading it at a
    missing location reads the key "undefined". *)
Definition Matrix : Type := list (string * list (string * float)).

(** [distanceMatrix[from]?.[to] || 0]. *)
Definition distance {host : Host} (distanceMatrix : Matrix)
  (from to : option string) : float :=
  member2_or distanceMatrix from to 0.

(** [calculateSavings(trip1, trip2, distanceMatrix)]. *)
Definition calculateSavings {host : Host}
  (trip1 trip2 : Trip.t) (distanceMatrix : Matrix) : float :=
  let depot := Some "Base" in
  let distanceToTrip1 := distance distanceMatrix depot (Trip.pickup trip1) in
  let distanceToTrip2 := distance distanceMatrix depot (Trip.pickup trip2) in
  let distanceBetweenTrips :=
    distance distanceMatrix (Trip.pickup trip1) (Trip.pickup trip2) in
  distanceToTrip1 + distanceToTrip2 - distanceBetweenTrips.

(** [findCompatibleVehicle(trips, vehicles)]: [None] is [undefined]. *)
Definition findCompatibleVehicle {host : Host} (trips : list Trip.t)
  (vehicles : list Vehicle.t) : option Vehicle.t :=
  find (fun vehicle =>
          forallb (fun trip =>
                     80 <? getVehicleTypeScore (Trip.vehicleType trip)
                                               (Vehicle.type vehicle)) trips)
       vehicles.

(** The loop of [calculateRouteDistance] over consecutive trips. *)
Fixpoint legs {host : Host}
  (distanceMatrix : Matrix) (trips : list Trip.t) (totalDistance : float)
  : float :=
  match trips with
  | from :: ((to :: _) as rest) =>
      legs distanceMatrix rest
        (totalDistance
         + distance distanceMatrix (Trip.destination from) (Trip.pickup to))
  | _ => totalDistance
  end.

(** [calculateRouteDistance(trips, distanceMatrix)]. *)
Definition calculateRouteDistance {host : Host}
  (trips : list Trip.t) (distanceMatrix : Matrix)
  : float :=
  match trips with
  | [] => 0
  | [trip] => distance distanceMatrix (Some "Base") (Trip.pickup trip)
  | trip :: _ =>
      legs distanceMatrix trips
        (distance distanceMatrix (Some "Base") (Trip.pickup trip))
  end.

(** [twoOptSwap(trips, i, j)] for [i < j]: the trips after index [i] up to
    index [j] are reversed. *)
Definition twoOptSwap (trips : list Trip.t) (i j : nat) : list Trip.t :=
  Fallback.reverse_segment (S i) j trips.

(** A route: [totalDistance] is [undefined] on a single-trip route built
    from an error detail. *)
Record Route : Type := {
  vehicle : Vehicle.t;
  trips : list Trip.t;
  totalDistance : option float;
  savings : float
}.

(** A distance that may be [undefined], in a comparison. *)
Definition number_of (x : option float) : float :=
  match x with
  | Some v => v
  | None => nan
  end.

(** The index pairs the two loops of [twoOptImprovement] visit, in order:
    [i] from 0 to [len - 2], [j] from [i + 2] to [len - 1]. *)
Definition two_opt_pairs (len : nat) : list (nat * nat) :=
  flat_map (fun i => map (fun j => (i, j)) (seq (i + 2) (len - (i + 2))))
           (seq 0 (len - 1)).

(** One candidate: the swap is always taken from the trips of the route the
    pass was given. *)
Definition try_pair {host : Host}
  (distanceMatrix : Matrix) (route : Route) (st : Route * bool)
  (ij : nat * nat) : Route * bool :=
  let bestRoute := fst st in
  let newTripsOrder := twoOptSwap (trips route) (fst ij) (snd ij) in
  let newDistance := calculateRouteDistance newTripsOrder distanceMatrix in
  if newDistance <? number_of (totalDistance bestRoute) then
    ({| vehicle := vehicle bestRoute;
        trips := newTripsOrder;
        totalDistance := Some newDistance;
        savings := savings bestRoute |}, true)
  else st.

(** One turn of the [while (improved)] loop: [improved] starts at [false]. *)
Definition sweep {host : Host}
  (distanceMatrix : Matrix) (route bestRoute : Route) : Route * bool :=
  fold_left (try_pair distanceMatrix route)
            (two_opt_pairs (List.length (trips route))) (bestRoute, false).

(** The [while (improved)] loop, with a bound on its number of turns:
    [None] when the bound is reached. *)
Fixpoint improve {host : Host}
  (fuel : nat) (distanceMatrix : Matrix) (route bestRoute : Route)
  : option Route :=
  match fuel with
  | O => None
  | S fuel' =>
      let (bestRoute', improved) := sweep distanceMatrix route bestRoute in
      if improved then improve fuel' distanceMatrix route bestRoute'
      else Some bestRoute'
  end.

(** [twoOptImprovement(routes, distanceMatrix)], each route with the same
    bound. *)
Fixpoint twoOptImprovement {host : Host}
  (fuel : nat) (routes : list Route) (distanceMatrix : Matrix)
  : option (list Route) :=
  match routes with
  | [] => Some []
  | route :: rest =>
      match (if Nat.leb (List.length (trips route)) 2 then Some route
             else improve fuel distanceMatrix route route),
            twoOptImprovement fuel rest distanceMatrix with
      | Some r, Some rs => Some (r :: rs)
      | _, _ => None
      end
  end.

(** [{ ...vehicle, status: s }]. *)
Definition with_status (s : option string) (v : Vehicle.t) : Vehicle.t :=
  {| Vehicle.id := Vehicle.id v;
     Vehicle.name := Vehicle.name v;
     Vehicle.type := Vehicle.type v;
     Vehicle.status := s;
     Vehicle.currentLocation := Vehicle.currentLocation v;
     Vehicle.coordinates := Vehicle.coordinates v;
     Vehicle.trips := Vehicle.trips v |}.

(** A vehicle whose type scores above 80 for every trip of a route. *)
Definition handles_all {host : Host} (trips : list Trip.t) (v : Vehicle.t) : Prop :=
  Forall (fun trip =>
            (80 <? getVehicleTypeScore (Trip.vehicleType trip) (Vehicle.type v))
            = true) trips.

(** A route and what the 2-opt pass makes of it. *)
Definition improved_from {host : Host} (distanceMatrix : Matrix)
  (route best : Route) : Prop :=
  vehicle best = vehicle route /\
  savings best = savings route /\
  Permutation (trips best) (trips route) /\
  hd_error (trips best) = hd_error (trips route) /\
  (best = route \/
   exists i j, In (i, j) (two_opt_pairs (List.length (trips route))) /\
               trips best = twoOptSwap (trips route) i j /\
               totalDistance best
               = Some (calculateRouteDistance (trips best) distanceMatrix)) /\
  ((3 <= List.length (trips route))%nat ->
   forall i j, In (i, j) (two_opt_pairs (List.length (trips route))) ->
     (calculateRouteDistance (twoOptSwap (trips route) i j) distanceMatrix
      <? number_of (totalDistance best)) = false).

(** ** The savings heuristic *)

(** An entry of the [savings] array. *)
Module Saving.
Record t : Type := mk {
  trip1 : Trip.t;
  trip2 : Trip.t;
  saving : float;
  i : nat;
  j : nat
}.
End Saving.

(** The inner loop over [j], from [i + 1]: a pair is kept when its saving
    is above 0. *)
Fixpoint savings_row {host : Host}
  (trip1 : Trip.t) (i : nat) (rest : list Trip.t) (j : nat)
  (distanceMatrix : Matrix) : list Saving.t :=
  match rest with
  | [] => []
  | trip2 :: rest' =>
      let saving := calculateSavings trip1 trip2 distanceMatrix in
      ((if 0 <? saving
        then [ {| Saving.trip1 := trip1; Saving.trip2 := trip2;
                  Saving.saving := saving; Saving.i := i; Saving.j := j |} ]
        else [])
       ++ savings_row trip1 i rest' (S j) distanceMatrix)%list
  end.

(** The outer loop over [i]. *)
Fixpoint savings_from {host : Host}
  (trips : list Trip.t) (i : nat) (distanceMatrix : Matrix)
  : list Saving.t :=
  match trips with
  | [] => []
  | trip1 :: rest =>
      (savings_row trip1 i rest (S i) distanceMatrix
       ++ savings_from rest (S i) distanceMatrix)%list
  end.

(** The [Set] of assigned identifiers. *)
Definition has (assigned : list Z) (id : Z) : bool := existsb (Z.eqb id) assigned.

Definition add (assigned : list Z) (id : Z) : list Z :=
  if has assigned id then assigned else (assigned ++ [id])%list.

(** The body of the loop over the sorted savings. *)
Definition pair_step {host : Host} (vehicles : list Vehicle.t) (distanceMatrix : Matrix)
  (st : list Route * list Z) (s : Saving.t) : list Route * list Z :=
  let (routes, assigned) := st in
  let trip1 := Saving.trip1 s in
  let trip2 := Saving.trip2 s in
  if negb (has assigned (Trip.id trip1)) && negb (has assigned (Trip.id trip2)) then
    match findCompatibleVehicle [trip1; trip2] vehicles with
    | Some compatibleVehicle =>
        ((routes ++ [ {| vehicle := compatibleVehicle;
                         trips := [trip1; trip2];
                         totalDistance :=
                           Some (calculateRouteDistance [trip1; trip2] distanceMatrix);
                         savings := Saving.saving s |} ])%list,
         add (add assigned (Trip.id trip1)) (Trip.id trip2))
    | None => st
    end
  else st.

(** [details.totalDistance], [undefined] on an error detail. *)
Definition details_totalDistance (d : Details) : option float :=
  match d with
  | DetailsOk sd => Some (Engine.totalDistance sd)
  | DetailsError _ => None
  end.

Section WithHost.

Context {host : Host}.

(** The body of the loop over the remaining single trips; the set of
    assigned identifiers is not updated here. *)
Definition single_step (vehicles : list Vehicle.t) (assigned : list Z)
  (routes : list Route) (trip : Trip.t) : completion (list Route) :=
  if negb (has assigned (Trip.id trip)) then
    vehicle <- findBestVehicleAssignment trip vehicles ;;
    if success vehicle then
      match recommended vehicle with
      | Some recommended =>
          Normal (routes ++ [ {| vehicle := Engine.vehicle recommended;
                                 trips := [trip];
                                 totalDistance :=
                                   details_totalDistance
                                     (details (optimization recommended));
                                 savings := 0 |} ])%list
      | None =>
          Throw "TypeError: cannot read properties of undefined (reading 'vehicle')"
      end
    else Normal routes
  else Normal routes.

(** [clarkeWrightOptimization(trips, vehicles, distanceMatrix)]. *)
Definition clarkeWrightOptimization (trips : list Trip.t) (vehicles : list Vehicle.t)
  (distanceMatrix : Matrix) : completion (list Route) :=
  let savings := savings_from trips 0 distanceMatrix in
  let savings :=
    Array_sort (fun a b => Saving.saving b - Saving.saving a) savings in
  let (routes, assigned) :=
    fold_left (pair_step vehicles distanceMatrix) savings ([], []) in
  for_each trips (single_step vehicles assigned) routes.

End WithHost.

(** The trips of a list of routes, in order. *)
Definition route_trips (routes : list Route) : list Trip.t :=
  List.concat (map trips routes).

(** A route built from a pair of the savings list. *)
Definition pair_route {host : Host} (all : list Trip.t) (vehicles : list Vehicle.t)
  (distanceMatrix : Matrix) (r : Route) : Prop :=
  exists trip1 trip2,
    trips r = [trip1; trip2] /\ In trip1 all /\ In trip2 all /\
    savings r = calculateSavings trip1 trip2 distanceMatrix /\
    (0 <? savings r) = true /\
    totalDistance r = Some (calculateRouteDistance [trip1; trip2] distanceMatrix) /\
    findCompatibleVehicle [trip1; trip2] vehicles = Some (vehicle r).

(** A route built for a single trip. *)
Definition single_route (all : list Trip.t) (vehicles : list Vehicle.t)
  (r : Route) : Prop :=
  exists trip,
    trips r = [trip] /\ In trip all /\
    In (vehicle r) vehicles /\ Props.in_service (vehicle r) /\ savings r = 0.

End Routes.

Module RouteScenarios.

#[local] Open Scope float_scope.

(** A matrix that knows one distance: 10 km from the base to Hyères. *)
Definition base_to_hyeres : Routes.Matrix := [ ("Base", [ ("Hyères", 10) ]) ].

End RouteScenarios.

(* ================================================================== *)
(** * The fitness of the genetic algorithm *)
(* ================================================================== *)

Module Genetic.

Import JS Engine.

#[local] Open Scope float_scope.

(** An entry of [solution.assignments]; [vehicle] is [undefined] when the
    solution was drawn from an empty vehicle list. *)
Record GeneAssignment : Type := {
  ga_trip : Trip.t;
  ga_vehicle : option Vehicle.t;
  ga_time : string
}.

(** The three running totals of [calculateSolutionFitness]. *)
Record Totals : Type := {
  totalScore : float;
  conflicts : float;
  totalDistance : float
}.

Section WithHost.

Context {host : Host}.

(** [await calculateOptimizationScore(assignment.trip, assignment.vehicle, [])].
    On an [undefined] vehicle reading [vehicle.currentLocation] raises inside
    the [try] block of the scorer, which then returns its error result. *)
Definition score_of (assignment : GeneAssignment) : Optimization :=
  match ga_vehicle assignment with
  | Some vehicle => calculateOptimizationScore (ga_trip assignment) vehicle []
  | None =>
      {| score := 0;
         originalScore := None;
         details := DetailsError "Failed to calculate route optimization" |}
  end.

(** The body of the loop over [solution.assignments]. *)
Definition fitness_step (t : Totals) (assignment : GeneAssignment)
  : completion Totals :=
  let optimization := score_of assignment in
  let totalScore := totalScore t + score optimization in
  n <- conflicts_length (details optimization) ;;
  let conflicts := conflicts t + of_nat n in
  let totalDistance :=
    totalDistance t
    + Routes.number_of (Routes.details_totalDistance (details optimization)) in
  Normal {| totalScore := totalScore;
            conflicts := conflicts;
            totalDistance := totalDistance |}.

(** [calculateSolutionFitness(solution)], on [solution.assignments]. *)
Definition calculateSolutionFitness (assignments : list GeneAssignment)
  : completion float :=
  t <- for_each assignments fitness_step
         {| totalScore := 0; conflicts := 0; totalDistance := 0 |} ;;
  let averageScore := totalScore t / of_nat (List.length assignments) in
  let conflictPenalty := conflicts t * 10 in
  let distancePenalty := totalDistance t * 0.1 in
  Normal (Num.Math_max 0 (averageScore - conflictPenalty - distancePenalty)).

(** The sums of the scores and of the distances of a list of assignments,
    added from the left. *)
Definition sum_scores (assignments : list GeneAssignment) (from : float) : float :=
  fold_left (fun acc a => acc + score (score_of a)) assignments from.

Definition sum_distances (assignments : list GeneAssignment) (from : float) : float :=
  fold_left (fun acc a =>
               acc + Routes.number_of
                       (Routes.details_totalDistance (details (score_of a))))
            assignments from.

(** An assignment the scorer could score. *)
Definition scored (assignment : GeneAssignment) : Prop :=
  exists d, details (score_of assignment) = DetailsOk d.

End WithHost.

End Genetic.

Module GeneticScenarios.

(** The scenario trip on the scenario vehicle, and the trip without pickup
    address on the same vehicle. *)
Definition good : Genetic.GeneAssignment :=
  {| Genetic.ga_trip := Examples.trip_1;
     Genetic.ga_vehicle := Some Examples.vsl_1;
     Genetic.ga_time := "09:00" |}.

Definition without_pickup : Genetic.GeneAssignment :=
  {| Genetic.ga_trip := Examples.trip_without_pickup;
     Genetic.ga_vehicle := Some Examples.vsl_1;
     Genetic.ga_time := "09:00" |}.

End GeneticScenarios.

(* ================================================================== *)
(** * The return-course generator: clock text and generated returns *)
(* ================================================================== *)

Module ReturnCoursesFacts.

Import JS ReturnCourses Props.

Lemma digit_not_colon c d d' :
  uint_of_char c (Some d) = Some d' -> Ascii.eqb c ":" = false.
Proof.
  intros H. apply uint_of_char_spec in H.
  destruct H as [[-> _]|[[-> _]|[[-> _]|[[-> _]|[[-> _]|[[-> _]|[[-> _]|[[-> _]|[[-> _]|[-> _]]]]]]]]]];
    reflexivity.
Qed.

Lemma split_colon_digits h :
  Number h <> None -> split_colon h = [h].
Proof.
  unfold Number. induction h as [|c h IH]; simpl; intros H; [reflexivity|].
  destruct (NilEmpty.uint_of_string h) as [d|] eqn:E; [|now destruct H].
  destruct (uint_of_char c (Some d)) as [d'|] eqn:Ec; [|now destruct H].
  rewrite (digit_not_colon _ _ _ Ec), IH; [reflexivity|discriminate].
Qed.

Lemma split_colon_app h r :
  Number h <> None ->
  split_colon (h ++ ":" ++ r) = h :: split_colon r.
Proof.
  unfold Number. induction h as [|c h IH]; simpl; intros H; [reflexivity|].
  destruct (NilEmpty.uint_of_string h) as [d|] eqn:E; [|now destruct H].
  destruct (uint_of_char c (Some d)) as [d'|] eqn:Ec; [|now destruct H].
  rewrite (digit_not_colon _ _ _ Ec).
  simpl in IH. rewrite IH; [reflexivity|discriminate].
Qed.

Lemma Number_padStart2 s : Number (padStart2 s) = Number s.
Proof.
  destruct s as [|c [|c' s]]; try reflexivity.
  unfold Number, padStart2.
  change (NilEmpty.uint_of_string (String "0" (String c "")))
    with (uint_of_char "0" (NilEmpty.uint_of_string (String c ""))).
  destruct (NilEmpty.uint_of_string (String c "")); reflexivity.
Qed.

Lemma Number_toString n : 0 <= n -> Number (toString (Some n)) = Some n.
Proof.
  intros Hn. unfold toString, Number.
  destruct (Z.ltb_spec n 0); [lia|].
  rewrite NilEmpty.usu. simpl.
  rewrite DecimalN.Unsigned.of_to, N2Z.inj_abs_N, Z.abs_eq; auto.
Qed.

Lemma Number_nonneg s v : Number s = Some v -> 0 <= v.
Proof.
  unfold Number. destruct (NilEmpty.uint_of_string s); simpl; intros [= <-]. lia.
Qed.

Lemma clock_minutes_nonneg s x : clock_minutes s = Some x -> 0 <= x.
Proof.
  unfold clock_minutes, hours_of, minutes_of.
  destruct (split_colon s) as [|h [|m l]]; simpl; try discriminate.
  - destruct (Number h); discriminate.
  - destruct (Number h) as [a|] eqn:Ea; destruct (Number m) as [b|] eqn:Eb;
      simpl; try discriminate.
    intros [= <-]. apply Number_nonneg in Ea, Eb. lia.
Qed.

(** Reading back the clock text of a minute count gives the count. *)
Lemma clock_minutes_format t :
  0 <= t -> clock_minutes (format_clock (Some t)) = Some t.
Proof.
  intros Ht. unfold format_clock, clock_minutes, hours_of, minutes_of.
  cbn [floor_div rem option_map].
  assert (Hh : Number (padStart2 (toString (Some (t / 60)))) = Some (t / 60)).
  { rewrite Number_padStart2. apply Number_toString. apply Z.div_pos; lia. }
  assert (Hm : Number (padStart2 (toString (Some (Z.rem t 60)))) = Some (Z.rem t 60)).
  { rewrite Number_padStart2. apply Number_toString. apply Z.rem_nonneg; lia. }
  rewrite split_colon_app by (rewrite Hh; discriminate).
  rewrite split_colon_digits by (rewrite Hm; discriminate).
  rewrite Hh, Hm. simpl. f_equal.
  rewrite Z.rem_mod_nonneg by lia.
  pose proof (Z.div_mod t 60). lia.
Qed.

Lemma truthy_or_default s : truthy s = true -> s = Some (or_default s "").
Proof. destruct s as [[|c r]|]; simpl; congruence. Qed.

(** C4: for a trip that is not a return trip and meets the generation
    condition, whose coordinates are present and whose return time (when it
    has one) or appointment time (otherwise) is clock text,
    [generateReturnCourse] returns a trip with pickup and destination and
    their coordinates swapped, [isReturnTrip = true], [originalCourseId]
    equal to the source identifier, [maxWaitTime = 240], an exit time that is
    the return time when the trip has one and otherwise the appointment time
    plus the duration, and an earliest pickup time 15 minutes after the exit
    time. *)
Theorem generateReturnCourse_swaps_and_times :
  forall (course : Trip.t) (newId : Z) (coords dest : list float),
    qualifies course = true ->
    Trip.coordinates course = Some coords ->
    Trip.destinationCoords course = Some dest ->
    (truthy (Trip.returnTime course) = true ->
     exists x, clock_minutes (or_default (Trip.returnTime course) "") = Some x) ->
    (truthy (Trip.returnTime course) = false ->
     exists a x d, Trip.appointmentTime course = Some a /\
                   clock_minutes a = Some x /\ Trip.duration course = Some d) ->
    exists (r : Trip.t) (exit earliest : string) (x : Z),
      generateReturnCourse course newId = Normal r /\
      Trip.id r = newId /\
      Trip.pickup r = Trip.destination course /\
      Trip.destination r = Trip.pickup course /\
      Trip.coordinates r = Trip.destinationCoords course /\
      Trip.destinationCoords r = Trip.coordinates course /\
      Trip.isReturnTrip r = true /\
      Trip.originalCourseId r = Some (Trip.id course) /\
      Trip.maxWaitTime r = Some 240 /\
      Trip.exitTime r = Some exit /\
      Trip.appointmentTime r = Some exit /\
      Trip.earliestPickupTime r = Some earliest /\
      (truthy (Trip.returnTime course) = true ->
       Trip.returnTime course = Some exit) /\
      (truthy (Trip.returnTime course) = false ->
       exists a, Trip.appointmentTime course = Some a /\
                 Some x = nadd (clock_minutes a) (Trip.duration course)) /\
      clock_minutes exit = Some x /\
      clock_minutes earliest = Some (x + 15).
Proof.
  intros course newId coords dest Hq Hc Hd Hrt Happt.
  unfold generateReturnCourse. rewrite Hc, Hd.
  destruct (truthy (Trip.returnTime course)) eqn:Et.
  - destruct (Hrt eq_refl) as [x Hx].
    cbn [bind spread].
    eexists _, (or_default (Trip.returnTime course) ""), _, x.
    split; [reflexivity|]. cbn.
    repeat (split; [reflexivity|]).
    split; [intros _; now apply truthy_or_default|].
    split; [discriminate|].
    split; [exact Hx|].
    unfold calculateReturnPickupTime. rewrite Hx. cbn [nadd].
    apply clock_minutes_format. apply clock_minutes_nonneg in Hx. lia.
  - destruct (Happt eq_refl) as (a & x & d & Ha & Hx & Hdur).
    assert (Hpos : 0 < d).
    { unfold qualifies, hasValidDuration, hasValidReturnTime in Hq.
      rewrite Et, Hdur in Hq. cbn in Hq.
      rewrite orb_false_r in Hq. apply andb_true_iff in Hq. destruct Hq as [_ Hq].
      lia. }
    pose proof (clock_minutes_nonneg _ _ Hx) as Hx0.
    unfold calculateExitTime. rewrite Ha, Hdur, Hx. cbn [bind spread nadd].
    eexists _, (format_clock (Some (x + d))), _, (x + d).
    split; [reflexivity|]. cbn.
    repeat (split; [reflexivity|]).
    split; [discriminate|].
    split; [intros _; exists a; rewrite Hx; auto|].
    split; [apply clock_minutes_format; lia|].
    unfold calculateReturnPickupTime.
    rewrite clock_minutes_format by lia. cbn [nadd].
    apply clock_minutes_format; lia.
Qed.

Lemma generateReturnCourse_returns c k :
  has_return_data c -> exists r, generateReturnCourse c k = Normal r.
Proof.
  intros (Hc & Hd & Ht). unfold generateReturnCourse.
  destruct (Trip.coordinates c) as [co|]; [|now destruct Hc].
  destruct (Trip.destinationCoords c) as [de|]; [|now destruct Hd].
  destruct (truthy (Trip.returnTime c)).
  - cbn. eauto.
  - destruct Ht as [Ht|Ht]; [discriminate|].
    destruct (Trip.appointmentTime c) as [a|]; [|now destruct Ht].
    cbn. eauto.
Qed.

Lemma generateReturnCourse_fields c k r :
  generateReturnCourse c k = Normal r ->
  Trip.originalCourseId r = Some (Trip.id c) /\ Trip.isReturnTrip r = true.
Proof.
  unfold generateReturnCourse.
  destruct (if truthy (Trip.returnTime c) then _ else _) as [e|]; [|discriminate].
  destruct (spread (Trip.destinationCoords c)); [|discriminate].
  destruct (spread (Trip.coordinates c)); [|discriminate].
  cbn. intros [= <-]. auto.
Qed.

Lemma generateReturnCourse_any_id c k k' r :
  generateReturnCourse c k = Normal r ->
  exists r', generateReturnCourse c k' = Normal r' /\
             Trip.originalCourseId r' = Trip.originalCourseId r.
Proof.
  unfold generateReturnCourse.
  destruct (if truthy (Trip.returnTime c) then _ else _) as [e|]; [|discriminate].
  destruct (spread (Trip.destinationCoords c)); [|discriminate].
  destruct (spread (Trip.coordinates c)); [|discriminate].
  cbn. intros [= <-]. eauto.
Qed.

Lemma qualifies_return_trip r :
  Trip.isReturnTrip r = true -> qualifies r = false.
Proof. unfold qualifies. now intros ->. Qed.

Lemma generate_loop_returns_only rs m acc :
  Forall (fun r => Trip.isReturnTrip r = true) rs ->
  generate_loop rs m acc = Normal acc.
Proof.
  induction 1 as [|r rs Hr _ IH]; cbn; [reflexivity|].
  now rewrite (qualifies_return_trip _ Hr).
Qed.

Lemma generate_loop_app cs rs m acc :
  Forall (fun r => Trip.isReturnTrip r = true) rs ->
  generate_loop (cs ++ rs) m acc = generate_loop cs m acc.
Proof.
  intros Hrs. revert m acc.
  induction cs as [|c cs IH]; intros m acc; cbn.
  - now apply generate_loop_returns_only.
  - destruct (qualifies c); [|apply IH].
    destruct (generateReturnCourse c (m + 1)); cbn; [apply IH|reflexivity].
Qed.

(** What the loop appends: one return course per qualifying course, in
    order, whatever the identifiers it starts from. *)
Lemma generate_loop_spec cs :
  forall m acc out,
    generate_loop cs m acc = Normal out ->
    exists gen,
      out = (acc ++ gen)%list /\
      map Trip.originalCourseId gen
        = map (fun c => Some (Trip.id c)) (filter qualifies cs) /\
      Forall (fun r => Trip.isReturnTrip r = true) gen /\
      forall m' acc', exists gen',
        generate_loop cs m' acc' = Normal (acc' ++ gen')%list /\
        map Trip.originalCourseId gen' = map Trip.originalCourseId gen.
Proof.
  induction cs as [|c cs IH]; intros m acc out H; cbn in H.
  - injection H as <-. exists []. rewrite app_nil_r.
    repeat split; auto. intros m' acc'. exists []. now rewrite app_nil_r.
  - cbn [filter]. destruct (qualifies c) eqn:Eq.
    + destruct (generateReturnCourse c (m + 1)) as [r|] eqn:Er; [|discriminate].
      cbn in H. apply IH in H. destruct H as (gen & -> & Hids & Hret & Hany).
      destruct (generateReturnCourse_fields _ _ _ Er) as [Ho Hr].
      exists (r :: gen). rewrite <- app_assoc. cbn.
      repeat split; auto.
      * now rewrite Ho, Hids.
      * intros m' acc'.
        destruct (generateReturnCourse_any_id c (m + 1) (m' + 1) r Er)
          as (r' & Er' & Ho').
        destruct (Hany (m' + 1) (acc' ++ [r'])%list) as (gen' & Hg & Hm).
        exists (r' :: gen'). cbn. rewrite Eq, Er'. cbn.
        rewrite Hg, <- app_assoc. cbn. now rewrite Ho', Hm.
    + apply IH in H. destruct H as (gen & -> & Hids & Hret & Hany).
      exists gen. repeat split; auto.
      intros m' acc'. destruct (Hany m' acc') as (gen' & Hg & Hm).
      exists gen'. cbn. now rewrite Eq.
Qed.

Lemma generate_loop_total cs :
  Forall has_return_data cs ->
  forall m acc, exists out, generate_loop cs m acc = Normal out.
Proof.
  induction 1 as [|c cs Hc _ IH]; intros m acc; cbn; [eauto|].
  destruct (qualifies c); [|apply IH].
  destruct (generateReturnCourse_returns c (m + 1) Hc) as [r ->]. cbn. apply IH.
Qed.

(** The test of the code is the generation condition of the specification. *)
Lemma qualifies_expects_return c : qualifies c = expects_return c.
Proof.
  unfold qualifies, expects_return, hasValidDuration, hasValidReturnTime,
    zero_time, truthy, is_lit.
  destruct (Trip.isReturnTrip c); cbn [negb andb]; [reflexivity|].
  f_equal.
  - destruct (Trip.duration c) as [d|]; [|reflexivity].
    now rewrite Z.gtb_ltb.
  - destruct (Trip.returnTime c) as [[|ch t]|]; cbn [String.eqb negb andb orb];
      [reflexivity| |reflexivity].
    now rewrite negb_orb.
Qed.

Lemma filter_qualifies cs : filter qualifies cs = filter expects_return cs.
Proof. apply filter_ext. intros c. apply qualifies_expects_return. Qed.

(** The loop on courses that carry the data of the courses it expands. *)
Lemma generate_loop_total_on_expected cs :
  Forall (fun c => expects_return c = true -> has_return_data c) cs ->
  forall m acc, exists out, generate_loop cs m acc = Normal out.
Proof.
  induction 1 as [|c cs Hc _ IH]; intros m acc; cbn; [eauto|].
  destruct (qualifies c) eqn:Eq; [|apply IH].
  rewrite qualifies_expects_return in Eq.
  destruct (generateReturnCourse_returns c (m + 1) (Hc Eq)) as [r ->]. cbn. apply IH.
Qed.

(** [generateReturnCourse] returns only on a course that carries its data. *)
Lemma generateReturnCourse_needs_data c k r :
  generateReturnCourse c k = Normal r -> has_return_data c.
Proof.
  unfold generateReturnCourse, has_return_data, calculateExitTime.
  destruct (truthy (Trip.returnTime c)).
  - cbn [bind].
    destruct (Trip.destinationCoords c); [|discriminate].
    destruct (Trip.coordinates c); [|discriminate].
    intros _. repeat split; try discriminate. now left.
  - destruct (Trip.appointmentTime c); [|discriminate]. cbn [bind].
    destruct (Trip.destinationCoords c); [|discriminate].
    destruct (Trip.coordinates c); [|discriminate].
    intros _. repeat split; try discriminate. right. discriminate.
Qed.

(** The loop raises as soon as a course it expands lacks its data. *)
Lemma generate_loop_raises cs :
  Exists (fun c => expects_return c = true /\ ~ has_return_data c) cs ->
  forall m acc, exists e, generate_loop cs m acc = Throw e.
Proof.
  induction cs as [|c cs IH]; intros Hex m acc; [inversion Hex|].
  cbn [generate_loop]. rewrite qualifies_expects_return.
  destruct (expects_return c) eqn:Eq.
  - destruct (generateReturnCourse c (m + 1)) as [r|e] eqn:Er; cbn [bind]; [|eauto].
    apply IH. inversion Hex as [? ? [_ Hbad]|]; [|assumption].
    exfalso. apply Hbad. exact (generateReturnCourse_needs_data _ _ _ Er).
  - apply IH. inversion Hex as [? ? [Hq _]|]; [congruence|assumption].
Qed.

(** C5: a trip with duration 0 and no return time yields no return course.
    When every course of the list that the specification expands (a course
    that is not a return trip, with a duration above 0 or a return time that
    is given and not zero) carries its coordinates and a return time or an
    appointment time, [generateReturnCourses] returns exactly one return
    course per such course, in order, each carrying the identifier of its
    source and [isReturnTrip = true]; when one of them lacks that data,
    [generateReturnCourses] raises and returns no list.  On a list already
    expanded by [processCoursesWithReturns], it generates nothing for the
    return courses and again one return course per expanded original
    course. *)
Theorem generateReturnCourses_expansion :
  (forall T : Trip.t,
      Trip.duration T = Some 0 -> Trip.returnTime T = None ->
      generateReturnCourses [T] = Normal [])
  /\
  (forall courses : list Trip.t,
      Forall (fun c => expects_return c = true -> has_return_data c) courses ->
      exists returns,
        generateReturnCourses courses = Normal returns /\
        map Trip.originalCourseId returns
          = map (fun c => Some (Trip.id c)) (filter expects_return courses) /\
        List.length returns = List.length (filter expects_return courses) /\
        Forall (fun r => Trip.isReturnTrip r = true) returns)
  /\
  (forall courses : list Trip.t,
      Exists (fun c => expects_return c = true /\ ~ has_return_data c) courses ->
      exists e, generateReturnCourses courses = Throw e)
  /\
  (forall courses expanded : list Trip.t,
      processCoursesWithReturns courses = Normal expanded ->
      exists returns again,
        expanded = (courses ++ returns)%list /\
        generateReturnCourses returns = Normal [] /\
        generateReturnCourses expanded = Normal again /\
        map Trip.originalCourseId again
          = map (fun c => Some (Trip.id c)) (filter expects_return courses) /\
        List.length again = List.length returns).
Proof.
  split; [|split; [|split]].
  - intros T Hd Hr. unfold generateReturnCourses. cbn.
    unfold qualifies, hasValidDuration, hasValidReturnTime.
    rewrite Hd, Hr. cbn. now rewrite andb_false_r.
  - intros courses Hwf. unfold generateReturnCourses.
    destruct (generate_loop_total_on_expected courses Hwf (max_id courses) [])
      as [out Hout].
    destruct (generate_loop_spec _ _ _ _ Hout) as (gen & -> & Hids & Hret & _).
    rewrite filter_qualifies in Hids.
    exists gen. repeat split; auto.
    rewrite <- (length_map Trip.originalCourseId gen), Hids. apply length_map.
  - intros courses Hex. unfold generateReturnCourses.
    now apply generate_loop_raises.
  - intros courses expanded H. unfold processCoursesWithReturns in H.
    destruct (generateReturnCourses courses) as [returns|] eqn:Hg; [|discriminate].
    cbn in H. injection H as <-.
    unfold generateReturnCourses in Hg.
    destruct (generate_loop_spec _ _ _ _ Hg) as (gen & E & Hids & Hret & Hany).
    cbn in E. subst gen. rewrite filter_qualifies in Hids.
    destruct (Hany (max_id (courses ++ returns)) []) as (again & Ha & Hm).
    exists returns, again. repeat split.
    + unfold generateReturnCourses. now apply generate_loop_returns_only.
    + unfold generateReturnCourses. now rewrite generate_loop_app.
    + now rewrite Hm.
    + rewrite <- (length_map Trip.originalCourseId again), Hm. apply length_map.
Qed.

End ReturnCoursesFacts.

(* ================================================================== *)
(** * The order of the floats *)
(* ================================================================== *)

Module FloatOrder.

Import Props.

Lemma SFleb_key x y :
  SFleb x y = true <-> is_number x /\ is_number y /\ lex_le (key x) (key y).
Proof.
  unfold SFleb, SFcompare, is_number, lex_le, key.
  destruct x as [sx|sx| |sx mx ex], y as [sy|sy| |sy my ey];
    order_cases; cbn;
    (split; [intros Hcmp; try discriminate Hcmp; repeat split; try discriminate; lia
            |intros (Hn1 & Hn2 & Hlex); try reflexivity; try congruence; try lia]).
Qed.

Lemma SFltb_key x y :
  SFltb x y = true <-> is_number x /\ is_number y /\ lex_lt (key x) (key y).
Proof.
  unfold SFltb, SFcompare, is_number, lex_lt, key.
  destruct x as [sx|sx| |sx mx ex], y as [sy|sy| |sy my ey];
    order_cases; cbn;
    (split; [intros Hcmp; try discriminate Hcmp; repeat split; try discriminate; lia
            |intros (Hn1 & Hn2 & Hlex); try reflexivity; try congruence; try lia]).
Qed.

#[local] Open Scope float_scope.

Lemma leb_trans (a b c : float) :
  (a <=? b) = true -> (b <=? c) = true -> (a <=? c) = true.
Proof.
  rewrite !leb_spec, !SFleb_key. unfold lex_le.
  destruct (key (Prim2SF a)) as [[a1 a2] a3], (key (Prim2SF b)) as [[b1 b2] b3],
           (key (Prim2SF c)) as [[c1 c2] c3].
  intros (Ha & Hb & H1) (_ & Hc & H2). repeat split; auto. lia.
Qed.

Lemma ltb_not_leb (a b : float) : (a <? b) = true -> (b <=? a) = false.
Proof.
  rewrite ltb_spec, SFltb_key. intros (Ha & Hb & H).
  destruct (b <=? a) eqn:E; [|reflexivity].
  rewrite leb_spec, SFleb_key in E. destruct E as (_ & _ & E).
  unfold lex_lt, lex_le in *.
  destruct (key (Prim2SF a)) as [[a1 a2] a3], (key (Prim2SF b)) as [[b1 b2] b3]. lia.
Qed.

(** A value above a threshold is above every smaller threshold. *)
Lemma above_smaller (d c c' : float) :
  (c <? d) = true -> (c' <=? c) = true -> (d <=? c') = false.
Proof.
  intros H1 H2. destruct (d <=? c') eqn:E; [|reflexivity].
  pose proof (leb_trans _ _ _ E H2) as T.
  rewrite (ltb_not_leb _ _ H1) in T. discriminate.
Qed.

(** NaN is absorbing for the sum and the product. *)
Lemma add_nan_r (x : float) : x + nan = nan.
Proof.
  apply Prim2SF_inj. rewrite add_spec.
  change (Prim2SF nan) with S754_nan.
  destruct (Prim2SF x) as [s|s| |s m e]; reflexivity.
Qed.

Lemma add_nan_l (x : float) : nan + x = nan.
Proof.
  apply Prim2SF_inj. rewrite add_spec.
  change (Prim2SF nan) with S754_nan.
  destruct (Prim2SF x) as [s|s| |s m e]; reflexivity.
Qed.

Lemma mul_nan_r (x : float) : x * nan = nan.
Proof.
  apply Prim2SF_inj. rewrite mul_spec.
  change (Prim2SF nan) with S754_nan.
  destruct (Prim2SF x) as [s|s| |s m e]; reflexivity.
Qed.

Lemma mul_nan_l (x : float) : nan * x = nan.
Proof.
  apply Prim2SF_inj. rewrite mul_spec.
  change (Prim2SF nan) with S754_nan.
  destruct (Prim2SF x) as [s|s| |s m e]; reflexivity.
Qed.

End FloatOrder.

(* ================================================================== *)
(** * The scoring model and the assignment resolver *)
(* ================================================================== *)

Module ScoringFacts.

Import JS Engine Props FloatOrder.

#[local] Open Scope float_scope.

(** C9: [calculateDistanceScore] is the step function 100, 80, 60, 40, 20
    with steps at 10, 20, 40 and 60 km; it never increases when the distance
    increases, and it is never zero (it is at least 20). *)
Theorem calculateDistanceScore_steps :
  (forall d, (d <=? 10) = true -> calculateDistanceScore d = 100) /\
  (forall d, (10 <? d) = true -> (d <=? 20) = true -> calculateDistanceScore d = 80) /\
  (forall d, (20 <? d) = true -> (d <=? 40) = true -> calculateDistanceScore d = 60) /\
  (forall d, (40 <? d) = true -> (d <=? 60) = true -> calculateDistanceScore d = 40) /\
  (forall d, (60 <? d) = true -> calculateDistanceScore d = 20) /\
  (forall d1 d2, (d1 <=? d2) = true ->
     (calculateDistanceScore d2 <=? calculateDistanceScore d1) = true) /\
  (forall d, (20 <=? calculateDistanceScore d) = true /\
             (calculateDistanceScore d =? 0) = false).
Proof.
  unfold calculateDistanceScore. repeat split.
  - intros d ->. reflexivity.
  - intros d H1 ->. now rewrite (ltb_not_leb _ _ H1).
  - intros d H1 ->.
    rewrite (ltb_not_leb _ _ H1), (above_smaller d 20 10 H1 eq_refl). reflexivity.
  - intros d H1 ->.
    rewrite (ltb_not_leb _ _ H1), (above_smaller d 40 10 H1 eq_refl),
      (above_smaller d 40 20 H1 eq_refl).
    reflexivity.
  - intros d H1.
    rewrite (ltb_not_leb _ _ H1), (above_smaller d 60 10 H1 eq_refl),
      (above_smaller d 60 20 H1 eq_refl), (above_smaller d 60 40 H1 eq_refl).
    reflexivity.
  - intros d1 d2 H.
    destruct (d2 <=? 10) eqn:E1.
    { rewrite (leb_trans _ _ _ H E1). reflexivity. }
    destruct (d2 <=? 20) eqn:E2.
    { rewrite (leb_trans _ _ _ H E2). destruct (d1 <=? 10); reflexivity. }
    destruct (d2 <=? 40) eqn:E3.
    { rewrite (leb_trans _ _ _ H E3).
      destruct (d1 <=? 10); [reflexivity|]. destruct (d1 <=? 20); reflexivity. }
    destruct (d2 <=? 60) eqn:E4.
    { rewrite (leb_trans _ _ _ H E4).
      destruct (d1 <=? 10); [reflexivity|]. destruct (d1 <=? 20); [reflexivity|].
      destruct (d1 <=? 40); reflexivity. }
    destruct (d1 <=? 10); [reflexivity|]. destruct (d1 <=? 20); [reflexivity|].
    destruct (d1 <=? 40); [reflexivity|]. destruct (d1 <=? 60); reflexivity.
  - destruct (d <=? 10); [reflexivity|]. destruct (d <=? 20); [reflexivity|].
    destruct (d <=? 40); [reflexivity|]. destruct (d <=? 60); reflexivity.
  - destruct (d <=? 10); [reflexivity|]. destruct (d <=? 20); [reflexivity|].
    destruct (d <=? 40); [reflexivity|]. destruct (d <=? 60); reflexivity.
Qed.

Lemma forallb_apply {A : Type} (f : A -> bool) (l : list A) (x : A) :
  forallb f l = true -> In x l -> f x = true.
Proof. rewrite forallb_forall. auto. Qed.

Lemma percentage_in (l : list float) x :
  forallb is_percentage l = true -> In x l -> whole_between 0 100 x.
Proof.
  intros H Hin. pose proof (forallb_apply _ _ _ H Hin) as Hx.
  unfold is_percentage in Hx.
  destruct (Num.whole x) as [z|]; [|discriminate].
  apply andb_true_iff in Hx. destruct Hx as [Hx Heq].
  apply andb_true_iff in Hx. destruct Hx as [H1 H2].
  exists z. split; [lia|]. now apply FloatAxioms.Leibniz.eqb_spec.
Qed.

(** The weighted sum of any four sub-scores the model produces rounds to a
    whole number between 0 and 100. *)
Lemma weighted_sum_range v t d p :
  In v vehicleTypeScores -> In t timeSlotScores ->
  In d distanceScores -> In p priorityScores ->
  whole_between 0 100 (Num.Math_round (v * 0.3 + t * 0.25 + d * 0.25 + p * 0.2)).
Proof.
  intros Hv Ht Hd Hp.
  apply (percentage_in
    (flat_map (fun v => flat_map (fun t => flat_map (fun d => map (fun p =>
       Num.Math_round (v * 0.3 + t * 0.25 + d * 0.25 + p * 0.2))
       priorityScores) distanceScores) timeSlotScores) vehicleTypeScores)).
  - vm_compute. reflexivity.
  - apply in_flat_map. exists v. split; [exact Hv|].
    apply in_flat_map. exists t. split; [exact Ht|].
    apply in_flat_map. exists d. split; [exact Hd|].
    apply in_map_iff. exists p. split; [reflexivity|exact Hp].
Qed.

Lemma sort_insert_perm {A : Type} (cmp : A -> A -> float) x l :
  Permutation (sort_insert cmp x l) (x :: l).
Proof.
  induction l as [|y l IH]; cbn; [reflexivity|].
  destruct (0 <? cmp x y); [|reflexivity].
  rewrite IH. apply perm_swap.
Qed.

Lemma Array_sort_perm {A : Type} (cmp : A -> A -> float) l :
  Permutation (Array_sort cmp l) l.
Proof.
  induction l as [|x l IH]; cbn; [reflexivity|].
  rewrite sort_insert_perm. now constructor.
Qed.

Lemma in_slice {A : Type} (from to : nat) (l : list A) x :
  In x (slice from to l) -> In x l.
Proof.
  unfold slice. intros H.
  assert (Hs : In x (skipn from l)).
  { rewrite <- (firstn_skipn (to - from) (skipn from l)). apply in_or_app. now left. }
  rewrite <- (firstn_skipn from l). apply in_or_app. now right.
Qed.

Lemma base_scores_in z : (0 <= z <= 100)%Z -> In z base_scores.
Proof.
  intros Hz. unfold base_scores. apply in_map_iff.
  exists (Z.to_nat z). split; [lia|]. apply in_seq. lia.
Qed.

Lemma bools_in b : In b bools.
Proof. destruct b; cbn; auto. Qed.

(** Every combination of tests, cross-type factor and whole base score
    between 0 and 100 gives an enhanced score of at least 10. *)
Lemma enhanced_core_floor :
  forallb (fun z => forallb (fun c => forallb (fun s => forallb (fun u =>
    forallb (fun h => forallb (fun b => forallb (fun a =>
      let e := enhanced_core s c u h b a (Num.of_Z z) in
      (10 <=? e) && (5 <? e))
    bools) bools) bools) bools) bools) crossTypeFactors) base_scores = true.
Proof. vm_compute. reflexivity. Qed.

Lemma candidates_nil_iff vehicles :
  candidates vehicles = [] <->
  Forall (fun v => is_lit (Vehicle.status v) "maintenance" = true) vehicles.
Proof.
  unfold candidates. induction vehicles as [|v vs IH]; cbn.
  - split; auto.
  - destruct (is_lit (Vehicle.status v) "maintenance") eqn:E; cbn.
    + rewrite IH. split; intros H; [now constructor|now inversion H].
    + split; [discriminate|]. intros H. inversion H. congruence.
Qed.

Lemma candidates_in_service vehicles v :
  In v (candidates vehicles) -> In v vehicles /\ in_service v.
Proof.
  unfold candidates, in_service. intros H. apply filter_In in H.
  destruct H as [Hin Hm]. split; [exact Hin|]. now apply negb_true_iff in Hm.
Qed.

Section WithHost.

Context {host : Host}.

(** On a plain key a table reads its own property, or [undefined]. *)
Lemma get_plain {A : Type} (table : list (string * A)) (key : option string) :
  plain key ->
  get table key = match lookup table (property_key key) with
                  | Some v => own v
                  | None => missing
                  end.
Proof. unfold plain, get. cbv zeta. intros ->. reflexivity. Qed.

(** On an inherited name a table that does not define it reads what it
    inherits. *)
Lemma get_inherited {A : Type} (table : list (string * A)) (key : option string) :
  inherited_name key ->
  lookup table (property_key key) = None ->
  get table key = inherited (property_key key).
Proof. unfold inherited_name, get. cbv zeta. intros -> ->. reflexivity. Qed.

Lemma cross_factor_values a b :
  plain a -> plain b -> In (cross_factor a b) crossTypeFactors.
Proof.
  intros Ha Hb. unfold cross_factor, member2_or. rewrite (get_plain _ a Ha).
  destruct a as [r|]; split_keys; rewrite ?(get_plain _ b Hb);
    destruct b as [v|]; split_keys; in_list.
Qed.

Lemma calculateEnhancedCompatibilityScore_core trip vehicle baseScore :
  calculateEnhancedCompatibilityScore trip vehicle baseScore
  = enhanced_core (strict_eq (Trip.vehicleType trip) (Vehicle.type vehicle))
      (cross_factor (Trip.vehicleType trip) (Vehicle.type vehicle))
      (is_lit (Trip.priority trip) "urgent") (is_lit (Trip.priority trip) "high")
      (is_lit (Vehicle.status vehicle) "busy")
      (is_lit (Vehicle.status vehicle) "available") baseScore.
Proof. reflexivity. Qed.

Lemma calculateEnhancedCompatibilityScore_floor trip vehicle z :
  plain (Trip.vehicleType trip) -> plain (Vehicle.type vehicle) ->
  (0 <= z <= 100)%Z ->
  (10 <=? calculateEnhancedCompatibilityScore trip vehicle (Num.of_Z z)) = true /\
  (5 <? calculateEnhancedCompatibilityScore trip vehicle (Num.of_Z z)) = true.
Proof.
  intros Ht Hv Hz. rewrite calculateEnhancedCompatibilityScore_core.
  pose proof (forallb_apply _ _ z enhanced_core_floor (base_scores_in z Hz)) as H.
  cbv beta in H.
  apply (fun H => forallb_apply _ _ _ H
           (cross_factor_values (Trip.vehicleType trip) (Vehicle.type vehicle)
              Ht Hv)) in H.
  apply (fun H => forallb_apply _ _
           (strict_eq (Trip.vehicleType trip) (Vehicle.type vehicle)) H (bools_in _)) in H.
  apply (fun H => forallb_apply _ _
           (is_lit (Trip.priority trip) "urgent") H (bools_in _)) in H.
  apply (fun H => forallb_apply _ _
           (is_lit (Trip.priority trip) "high") H (bools_in _)) in H.
  apply (fun H => forallb_apply _ _
           (is_lit (Vehicle.status vehicle) "busy") H (bools_in _)) in H.
  apply (fun H => forallb_apply _ _
           (is_lit (Vehicle.status vehicle) "available") H (bools_in _)) in H.
  cbv zeta in H. now apply andb_true_iff in H.
Qed.

(** A type of the table against an inherited name: the two differ, and the
    cross-type factor is the inherited function, NaN as a number. *)
Lemma table_type_not_inherited (t v : option string) :
  (is_lit t "Ambulance" || is_lit t "VSL" || is_lit t "Taxi") = true ->
  inherited_name v ->
  strict_eq t v = false /\ cross_factor t v = nan.
Proof.
  unfold inherited_name, cross_factor, member2_or, get. intros Ht Hv.
  destruct v as [v|]; [|discriminate Hv]. cbn [property_key] in *.
  destruct t as [t|]; [|discriminate Ht]. cbn [is_lit property_key strict_eq] in *.
  assert (Hne : forall lit, is_prototype_name lit = false -> String.eqb lit v = false).
  { intros lit Hl. destruct (String.eqb lit v) eqn:E; [|reflexivity].
    apply String.eqb_eq in E. subst v. congruence. }
  assert (Hrow : forall row : list (string * float),
             Forall (fun kv => is_prototype_name (fst kv) = false) row ->
             lookup row v = None).
  { induction 1 as [|[k x] row Hk _ IH]; cbn; [reflexivity|].
    cbn in Hk. now rewrite (Hne k Hk). }
  match goal with
  | |- _ /\ match match lookup ?T t with _ => _ end with _ => _ end = _ =>
      assert (Hrows : exists row,
                 lookup T t = Some row /\ is_prototype_name t = false /\
                 Forall (fun kv => is_prototype_name (fst kv) = false) row)
  end.
  { destruct (String.eqb t "Ambulance") eqn:E1;
      [apply String.eqb_eq in E1; subst t
      |destruct (String.eqb t "VSL") eqn:E2;
         [apply String.eqb_eq in E2; subst t
         |destruct (String.eqb t "Taxi") eqn:E3;
            [apply String.eqb_eq in E3; subst t|discriminate Ht]]];
      eexists; (split; [reflexivity|]); (split; [reflexivity|]);
      repeat constructor. }
  destruct Hrows as (row & -> & Hn & Hr).
  split; [now apply Hne|].
  unfold member_or. now rewrite (Hrow row Hr), Hv.
Qed.

(** With NaN for cross-type factor the enhanced score is NaN, whatever the
    base score. *)
Lemma enhanced_core_nan (u h b a : bool) (baseScore : float) :
  enhanced_core false nan u h b a baseScore = nan.
Proof.
  unfold enhanced_core. cbn [negb]. rewrite mul_nan_r.
  destruct u, h, b, a; vm_compute; reflexivity.
Qed.

Lemma getVehicleTypeScore_values requiredType vehicleType :
  plain requiredType -> plain vehicleType ->
  In (getVehicleTypeScore requiredType vehicleType) vehicleTypeScores.
Proof.
  intros Hr Hv. unfold getVehicleTypeScore.
  destruct (strict_eq requiredType vehicleType); [in_list|].
  unfold member2_or. rewrite (get_plain _ requiredType Hr).
  destruct requiredType as [r|]; split_keys; rewrite ?(get_plain _ vehicleType Hv);
    destruct vehicleType as [v|]; split_keys; in_list.
Qed.

Lemma getPriorityScore_values priority :
  plain priority -> In (getPriorityScore priority) priorityScores.
Proof.
  intros Hp. unfold getPriorityScore. rewrite (get_plain _ priority Hp).
  destruct priority as [p|]; split_keys; in_list.
Qed.

Lemma getPriorityScore_inherited priority :
  inherited_name priority -> getPriorityScore priority = nan.
Proof.
  intros Hp. unfold getPriorityScore. rewrite get_inherited; [reflexivity|exact Hp|].
  unfold inherited_name in Hp. destruct priority as [p|]; [|discriminate Hp].
  cbn [property_key lookup] in *.
  repeat match goal with
  | |- context [String.eqb ?lit p] =>
      destruct (String.eqb lit p) eqn:E;
      [apply String.eqb_eq in E; subst p; discriminate Hp|clear E]
  end.
  reflexivity.
Qed.

Lemma calculateTimeSlotScore_values trip vehicle existingTrips :
  In (calculateTimeSlotScore trip vehicle existingTrips) timeSlotScores.
Proof.
  unfold calculateTimeSlotScore.
  destruct (List.length _) as [|[|[|n]]]; in_list.
Qed.

Lemma calculateDistanceScore_values d :
  In (calculateDistanceScore d) distanceScores.
Proof.
  unfold calculateDistanceScore.
  destruct (d <=? 10); [in_list|]. destruct (d <=? 20); [in_list|].
  destruct (d <=? 40); [in_list|]. destruct (d <=? 60); in_list.
Qed.

(** The outcome of the scorer: the rounded weighted sum of four sub-scores on
    the normal path, a zero score with an error detail otherwise. *)
Lemma calculateOptimizationScore_cases trip vehicle existingTrips :
  let r := calculateOptimizationScore trip vehicle existingTrips in
  (exists d,
     details r = DetailsOk d /\
     score_body trip vehicle existingTrips = Normal r /\
     score r = Num.Math_round (vehicleTypeScore d * 0.3 + timeSlotScore d * 0.25
                               + distanceScore d * 0.25 + priorityScore d * 0.2) /\
     vehicleTypeScore d
     = getVehicleTypeScore (Trip.vehicleType trip) (Vehicle.type vehicle) /\
     In (timeSlotScore d) timeSlotScores /\
     In (distanceScore d) distanceScores /\
     priorityScore d = getPriorityScore (Trip.priority trip))
  \/
  (exists e msg,
     score_body trip vehicle existingTrips = Throw e /\
     details r = DetailsError msg /\ score r = 0).
Proof.
  unfold calculateOptimizationScore, score_body.
  destruct (geocodeAddress (Trip.pickup trip)) as [pc|e]; cbn [bind];
    [|right; eexists _, _; repeat split].
  destruct (geocodeAddress (Trip.destination trip)) as [dc|e]; cbn [bind];
    [|right; eexists _, _; repeat split].
  destruct (geocodeAddress (Some _)) as [vc|e]; cbn [bind];
    [|right; eexists _, _; repeat split].
  left. eexists. split; [reflexivity|]. split; [reflexivity|]. split; [reflexivity|].
  cbn [score vehicleTypeScore timeSlotScore distanceScore priorityScore].
  repeat split.
  - apply calculateTimeSlotScore_values.
  - apply calculateDistanceScore_values.
Qed.

Lemma calculateOptimizationScore_range trip vehicle existingTrips :
  plain (Trip.priority trip) -> plain (Trip.vehicleType trip) ->
  plain (Vehicle.type vehicle) ->
  whole_between 0 100 (score (calculateOptimizationScore trip vehicle existingTrips)).
Proof.
  intros Hp Hr Hv.
  destruct (calculateOptimizationScore_cases trip vehicle existingTrips)
    as [(d & _ & _ & -> & -> & Ht & Hd & ->)|(e & msg & _ & _ & ->)].
  - apply weighted_sum_range; auto.
    + now apply getVehicleTypeScore_values.
    + now apply getPriorityScore_values.
  - exists 0%Z. split; [lia|reflexivity].
Qed.

Lemma calculateOptimizationScore_missing_pickup trip vehicle existingTrips :
  Trip.pickup trip = None ->
  exists msg,
    details (calculateOptimizationScore trip vehicle existingTrips) = DetailsError msg.
Proof.
  intros H. unfold calculateOptimizationScore, score_body. rewrite H. cbn. eauto.
Qed.

(** C3: the scorer always returns, with the rounded weighted sum
    [vehicleType*0.3 + timeSlot*0.25 + distance*0.25 + priority*0.2] on the
    normal path and the score 0 with an error detail when the body raises.
    Where the priority and the two types are not names of
    [Object.prototype], the score and the four sub-scores are whole numbers
    between 0 and 100.  Where the priority is such a name, the priority
    table reads an inherited function: the priority sub-score and the score
    are NaN. *)
Theorem calculateOptimizationScore_bounded_unless_inherited :
  forall (trip : Trip.t) (vehicle : Vehicle.t) (existingTrips : list Trip.t),
    let r := calculateOptimizationScore trip vehicle existingTrips in
    ((exists d,
        score_body trip vehicle existingTrips = Normal r /\
        details r = DetailsOk d /\
        score r = Num.Math_round (vehicleTypeScore d * 0.3 + timeSlotScore d * 0.25
                                  + distanceScore d * 0.25 + priorityScore d * 0.2))
     \/
     (exists e msg,
        score_body trip vehicle existingTrips = Throw e /\
        details r = DetailsError msg /\ score r = 0)) /\
    (plain (Trip.priority trip) -> plain (Trip.vehicleType trip) ->
     plain (Vehicle.type vehicle) ->
     whole_between 0 100 (score r) /\
     forall d, details r = DetailsOk d ->
       whole_between 0 100 (vehicleTypeScore d) /\
       whole_between 0 100 (timeSlotScore d) /\
       whole_between 0 100 (distanceScore d) /\
       whole_between 0 100 (priorityScore d)) /\
    (inherited_name (Trip.priority trip) ->
     forall d, details r = DetailsOk d ->
       is_nan (priorityScore d) = true /\ is_nan (score r) = true).
Proof.
  intros trip vehicle existingTrips r.
  pose proof (calculateOptimizationScore_cases trip vehicle existingTrips) as Hc.
  fold r in Hc. split; [|split].
  - destruct Hc as [(d & Hd & Hb & Hs & _)|H]; [left|right; exact H].
    exists d. auto.
  - intros Hp Hr Hv. split; [now apply calculateOptimizationScore_range|].
    intros d Hd.
    destruct Hc as [(d' & Hd' & _ & _ & Ev & Ht & Hdi & Ep)|(e & msg & _ & He & _)];
      [|congruence].
    assert (d' = d) as -> by congruence.
    rewrite Ev, Ep. repeat split.
    + apply (percentage_in vehicleTypeScores); [vm_compute; reflexivity|].
      now apply getVehicleTypeScore_values.
    + apply (percentage_in timeSlotScores); [vm_compute; reflexivity|exact Ht].
    + apply (percentage_in distanceScores); [vm_compute; reflexivity|exact Hdi].
    + apply (percentage_in priorityScores); [vm_compute; reflexivity|].
      now apply getPriorityScore_values.
  - intros Hp d Hd.
    destruct Hc as [(d' & Hd' & _ & Hs & _ & _ & _ & Ep)|(e & msg & _ & He & _)];
      [|congruence].
    assert (d' = d) as -> by congruence.
    rewrite Hs, Ep, (getPriorityScore_inherited _ Hp).
    rewrite mul_nan_l, add_nan_r. split; reflexivity.
Qed.

(** An evaluation as the loop body builds it: the [catch] block is never
    entered, the scorer and the enhanced score being total. *)
Lemma evaluate_vehicle_normal trip v :
  exists e,
    evaluate_vehicle trip v = Normal e /\ vehicle e = v /\ evaluated trip e.
Proof.
  unfold evaluate_vehicle, try_catch, evaluated. eexists. split; [reflexivity|].
  cbn [vehicle optimization score details]. auto.
Qed.

Lemma evaluate_all_normal trip vs :
  exists es,
    evaluate_all trip vs = Normal es /\
    map vehicle es = vs /\ Forall (evaluated trip) es.
Proof.
  induction vs as [|v vs (es & Hes & Hm & Hf)]; cbn [evaluate_all].
  - exists []. repeat split; constructor.
  - destruct (evaluate_vehicle_normal trip v) as (e & -> & Hv & He).
    rewrite Hes. cbn. exists (e :: es). repeat split.
    + cbn. now rewrite Hv, Hm.
    + constructor; auto.
Qed.

(** The two outcomes of the resolver: no candidate and a failure, or the
    sorted evaluations of the candidates and the acceptance of the first
    one, forced when its score is not above 5. *)
Lemma findBestVehicleAssignment_cases trip vehicles :
  (candidates vehicles = [] /\
   exists r, findBestVehicleAssignment trip vehicles = Normal r /\
             success r = false /\ recommended r = None /\ alternatives r = [] /\
             forced r = false /\ message r = msg_all_in_maintenance)
  \/
  (candidates vehicles <> [] /\
   exists r best others,
     findBestVehicleAssignment trip vehicles = Normal r /\
     success r = true /\ recommended r = Some best /\
     alternatives r = slice 1 5 (best :: others) /\
     forced r = negb (5 <? score (optimization best)) /\
     ((5 <? score (optimization best)) = true ->
      warning r = None /\
      message r = msg_assigned (Vehicle.name (vehicle best))
                               (score (optimization best))) /\
     ((5 <? score (optimization best)) = false ->
      warning r = Some "Cette assignation pourrait ne pas être optimale") /\
     Permutation (map vehicle (best :: others)) (candidates vehicles) /\
     Forall (evaluated trip) (best :: others)).
Proof.
  unfold findBestVehicleAssignment. fold (candidates vehicles).
  destruct (candidates vehicles) as [|c cs] eqn:Ec.
  - left. split; [reflexivity|]. eexists. split; [reflexivity|]. cbn. auto 10.
  - right. split; [discriminate|].
    destruct (evaluate_all_normal trip (c :: cs)) as (es & -> & Hm & Hf).
    cbn [bind].
    pose proof (Array_sort_perm compare_evaluations es) as Hp.
    destruct (Array_sort compare_evaluations es) as [|best others] eqn:Es.
    + apply Permutation_nil in Hp. subst es. discriminate.
    + assert (Hf' : Forall (evaluated trip) (best :: others)).
      { rewrite Forall_forall in *. intros e He. apply Hf.
        now apply (Permutation_in _ Hp). }
      assert (Hv : Permutation (map vehicle (best :: others)) (c :: cs)).
      { rewrite <- Hm. exact (Permutation_map vehicle Hp). }
      destruct (5 <? score (optimization best)) eqn:E5;
        eexists _, best, others; (split; [reflexivity|]); cbn;
        rewrite ?E5; repeat split; auto; congruence.
Qed.

(** C2: [findBestVehicleAssignment] returns, with [success = false] exactly
    when every vehicle of the list is in maintenance; as soon as one vehicle
    is not, it returns [success = true] with a recommended vehicle of the
    list that is not in maintenance. *)
Theorem findBestVehicleAssignment_fails_iff_all_in_maintenance :
  forall (trip : Trip.t) (vehicles : list Vehicle.t),
  exists r,
    findBestVehicleAssignment trip vehicles = Normal r /\
    (success r = false <->
     Forall (fun v => is_lit (Vehicle.status v) "maintenance" = true) vehicles) /\
    (Exists in_service vehicles ->
     success r = true /\
     exists best, recommended r = Some best /\ In (vehicle best) vehicles /\
                  in_service (vehicle best)).
Proof.
  intros trip vehicles.
  pose proof (candidates_nil_iff vehicles) as Hall.
  destruct (findBestVehicleAssignment_cases trip vehicles)
    as [(Hc & r & Hr & Hs & _)
       |(Hc & r & best & others & Hr & Hs & Hrec & _ & _ & _ & _ & Hp & _)];
    exists r; (split; [exact Hr|]); split.
  - rewrite Hs, <- Hall. tauto.
  - intros Hex. apply Hall in Hc. apply Exists_exists in Hex.
    destruct Hex as (v & Hv & Hm). rewrite Forall_forall in Hc.
    unfold in_service in Hm. rewrite (Hc v Hv) in Hm. discriminate.
  - rewrite Hs, <- Hall. split; [discriminate|]. intros H. now destruct Hc.
  - intros _. split; [exact Hs|]. exists best. split; [exact Hrec|].
    apply candidates_in_service. apply (Permutation_in _ Hp). now left.
Qed.

(** The score of an evaluation on plain keys is at least 10. *)
Lemma evaluated_floor trip e :
  plain (Trip.priority trip) -> plain (Trip.vehicleType trip) ->
  plain (Vehicle.type (vehicle e)) -> evaluated trip e ->
  (10 <=? score (optimization e)) = true /\ (5 <? score (optimization e)) = true.
Proof.
  intros Hp Ht Hv (Hs & _). rewrite Hs.
  destruct (calculateOptimizationScore_range trip (vehicle e) (trips_of (vehicle e))
              Hp Ht Hv) as (z & Hz & ->).
  now apply calculateEnhancedCompatibilityScore_floor.
Qed.

(** C10: where the types of the trip and of the vehicle are not names of
    [Object.prototype], the enhanced score of a whole base score between 0
    and 100 is at least 10; where the priority of the trip is not such a
    name either, [findBestVehicleAssignment] on vehicles of such types
    returns with [forced = false], and when a vehicle is not in maintenance
    the recommended evaluation has a score above 5 and the result is the one
    of the normal acceptance branch.  But for a trip of type Ambulance, VSL
    or Taxi and one vehicle, not in maintenance, whose type is a name of
    [Object.prototype], the cross-type table reads an inherited function,
    the enhanced score is NaN, and the result is the forced one, with its
    warning. *)
Theorem enhanced_score_floor_unless_inherited :
  (forall (trip : Trip.t) (vehicle : Vehicle.t) (z : Z),
      plain (Trip.vehicleType trip) -> plain (Vehicle.type vehicle) ->
      (0 <= z <= 100)%Z ->
      (10 <=? calculateEnhancedCompatibilityScore trip vehicle (Num.of_Z z)) = true)
  /\
  (forall (trip : Trip.t) (vehicles : list Vehicle.t),
      plain (Trip.priority trip) -> plain (Trip.vehicleType trip) ->
      Forall (fun v => plain (Vehicle.type v)) vehicles ->
      exists r,
        findBestVehicleAssignment trip vehicles = Normal r /\
        forced r = false /\
        (Exists in_service vehicles ->
         exists best,
           success r = true /\ recommended r = Some best /\
           (10 <=? score (optimization best)) = true /\
           (5 <? score (optimization best)) = true /\
           warning r = None /\
           message r = msg_assigned (Vehicle.name (vehicle best))
                                    (score (optimization best))))
  /\
  (forall (trip : Trip.t) (vehicle : Vehicle.t),
      (is_lit (Trip.vehicleType trip) "Ambulance"
       || is_lit (Trip.vehicleType trip) "VSL"
       || is_lit (Trip.vehicleType trip) "Taxi") = true ->
      inherited_name (Vehicle.type vehicle) ->
      in_service vehicle ->
      (forall baseScore,
          calculateEnhancedCompatibilityScore trip vehicle baseScore = nan) /\
      exists r best,
        findBestVehicleAssignment trip [vehicle] = Normal r /\
        success r = true /\ recommended r = Some best /\
        Engine.vehicle best = vehicle /\
        score (optimization best) = nan /\
        forced r = true /\
        warning r = Some "Cette assignation pourrait ne pas être optimale").
Proof.
  split; [|split].
  - intros trip vehicle z Ht Hv Hz.
    now destruct (calculateEnhancedCompatibilityScore_floor trip vehicle z Ht Hv Hz).
  - intros trip vehicles Hp Ht Hvs.
    destruct (findBestVehicleAssignment_cases trip vehicles)
      as [(Hc & r & Hr & Hs & _ & _ & Hf & _)
         |(Hc & r & best & others & Hr & Hs & Hrec & _ & Hf & Hok & _ & Hperm & Hall)];
      exists r; (split; [exact Hr|]).
    + split; [exact Hf|].
      intros Hex. apply candidates_nil_iff in Hc. apply Exists_exists in Hex.
      destruct Hex as (v & Hv & Hm). rewrite Forall_forall in Hc.
      unfold in_service in Hm. rewrite (Hc v Hv) in Hm. discriminate.
    + assert (Hbest : plain (Vehicle.type (vehicle best))).
      { rewrite Forall_forall in Hvs. apply Hvs.
        apply (candidates_in_service vehicles).
        apply (Permutation_in _ Hperm). now left. }
      destruct (evaluated_floor trip best Hp Ht Hbest (Forall_inv Hall))
        as [H10 H5].
      rewrite H5 in Hf. split; [exact Hf|].
      intros _. exists best. destruct (Hok H5) as [Hw Hmsg]. auto 10.
  - intros trip vehicle Ht Hv Hin.
    destruct (table_type_not_inherited _ _ Ht Hv) as [Hne Hcf].
    assert (Hnan : forall baseScore,
               calculateEnhancedCompatibilityScore trip vehicle baseScore = nan).
    { intros baseScore. rewrite calculateEnhancedCompatibilityScore_core, Hne, Hcf.
      apply enhanced_core_nan. }
    split; [exact Hnan|].
    unfold findBestVehicleAssignment. cbn [filter]. unfold in_service in Hin.
    rewrite Hin. cbn [negb evaluate_all].
    destruct (evaluate_vehicle_normal trip vehicle) as (e & -> & Ev & Hs & _).
    cbn [bind Array_sort fold_right sort_insert].
    rewrite Ev in Hs. rewrite Hnan in Hs. rewrite Hs.
    change (5 <? nan) with false. cbv iota.
    eexists _, e. split; [reflexivity|]. cbn. auto 10.
Qed.

(** The resolver never proposes a vehicle in maintenance. *)
Lemma findBestVehicleAssignment_in_service trip vehicles :
  exists r,
    findBestVehicleAssignment trip vehicles = Normal r /\
    (forall e, recommended r = Some e -> In (vehicle e) vehicles /\ in_service (vehicle e)) /\
    (forall e, In e (alternatives r) -> In (vehicle e) vehicles /\ in_service (vehicle e)).
Proof.
  destruct (findBestVehicleAssignment_cases trip vehicles)
    as [(Hc & r & Hr & Hs & Hrec & Halt & _)
       |(Hc & r & best & others & Hr & Hs & Hrec & Halt & _ & _ & _ & Hp & _)];
    exists r; (split; [exact Hr|]); split.
  - rewrite Hrec. discriminate.
  - rewrite Halt. intros e [].
  - rewrite Hrec. intros e [= <-]. apply candidates_in_service.
    apply (Permutation_in _ Hp). now left.
  - rewrite Halt. intros e He. apply in_slice in He.
    apply candidates_in_service. apply (Permutation_in _ Hp).
    now apply in_map.
Qed.

End WithHost.

End ScoringFacts.

(* ================================================================== *)
(** * The batch optimizer *)
(* ================================================================== *)

Module BatchFacts.

Import JS Engine Props ScoringFacts.

#[local] Open Scope float_scope.

Section WithHost.

Context {host : Host}.

Lemma candidates_updated vehicles m :
  candidates (updated_vehicles vehicles m) = [] -> candidates vehicles = [].
Proof.
  unfold candidates, updated_vehicles.
  induction vehicles as [|v vs IH]; cbn; [reflexivity|].
  destruct (is_lit (Vehicle.status v) "maintenance"); cbn; [exact IH|discriminate].
Qed.

(** The turn of the first pass for a trip without a pickup address raises as
    soon as one vehicle is not in maintenance: the resolver recommends an
    evaluation whose detail is the error detail, which has no [conflicts]. *)
Lemma first_pass_step_raises vehicles st trip :
  Trip.pickup trip = None -> candidates vehicles <> [] ->
  exists e, first_pass_step vehicles st trip = Throw e.
Proof.
  intros Hp Hc. unfold first_pass_step.
  destruct (findBestVehicleAssignment_cases trip
              (updated_vehicles vehicles (st_vehicleAssignments st)))
    as [(Hn & _)|(_ & r & best & others & -> & Hs & Hrec & _ & _ & _ & _ & _ & Hall)].
  - apply candidates_updated in Hn. contradiction.
  - cbn [bind]. rewrite Hs, Hrec.
    destruct (Forall_inv Hall) as (_ & Hd). rewrite Hd.
    destruct (calculateOptimizationScore_missing_pickup trip (vehicle best)
                (trips_of (vehicle best)) Hp) as [msg ->].
    cbn. eauto.
Qed.

Lemma for_each_raises {A S : Type} (body : S -> A -> completion S) l x :
  In x l -> (forall st, exists e, body st x = Throw e) ->
  forall st, exists e, for_each l body st = Throw e.
Proof.
  intros Hin Hx. induction l as [|y l IH]; [destruct Hin|]. intros st. cbn.
  destruct Hin as [->|Hin].
  - destruct (Hx st) as [e ->]. cbn. eauto.
  - destruct (body st y) as [st1|e]; cbn; [now apply IH|eauto].
Qed.

(** C1, as the code has it: a trip without a pickup address makes
    [optimizeMultipleTrips] raise, whatever the other trips are, as soon as
    one vehicle is not in maintenance. *)
Theorem optimizeMultipleTrips_raises_on_missing_pickup :
  forall (trips : list Trip.t) (vehicles : list Vehicle.t) (trip : Trip.t),
    In trip trips -> Trip.pickup trip = None -> Exists in_service vehicles ->
    exists e, optimizeMultipleTrips trips vehicles = Throw e.
Proof.
  intros trips vehicles trip Hin Hp Hex. unfold optimizeMultipleTrips.
  assert (Hc : candidates vehicles <> []).
  { intros Hn. apply candidates_nil_iff in Hn. apply Exists_exists in Hex.
    destruct Hex as (v & Hv & Hm). rewrite Forall_forall in Hn.
    unfold in_service in Hm. rewrite (Hn v Hv) in Hm. discriminate. }
  assert (Hs : In trip (Array_sort compare_trips trips)).
  { apply (Permutation_in _ (Permutation_sym (Array_sort_perm _ trips))). exact Hin. }
  destruct (for_each_raises (first_pass_step vehicles) _ trip Hs
              (fun st => first_pass_step_raises vehicles st trip Hp Hc)
              {| st_results := [];
                 st_vehicleAssignments :=
                   fold_left (fun m v => map_set (Vehicle.id v) (trips_of v) m)
                             vehicles [];
                 st_unresolvableConflicts := [] |}) as [e ->].
  cbn. eauto.
Qed.

Lemma first_pass_step_keeps vehicles st trip st' :
  first_pass_step vehicles st trip = Normal st' ->
  Permutation (settled st') (trip :: settled st).
Proof.
  unfold first_pass_step, settled.
  destruct (findBestVehicleAssignment trip _) as [a|]; [|discriminate]. cbn [bind].
  assert (Hdefer : forall st'',
    Normal {| st_results := st_results st;
              st_vehicleAssignments := st_vehicleAssignments st;
              st_unresolvableConflicts := (st_unresolvableConflicts st ++ [trip])%list |}
    = Normal st'' ->
    Permutation (map be_trip (st_results st'') ++ st_unresolvableConflicts st'')
                (trip :: map be_trip (st_results st) ++ st_unresolvableConflicts st)).
  { intros st'' [= <-]. cbn. rewrite app_assoc.
    rewrite <- Permutation_cons_append. reflexivity. }
  destruct (success a); [|apply Hdefer].
  destruct (recommended a) as [best|]; [|discriminate].
  destruct (conflicts_length _) as [n|]; [|discriminate]. cbn [bind].
  destruct (Nat.eqb n 0); [|apply Hdefer].
  destruct (map_push _ _ _) as [m|]; [|discriminate]. cbn [bind].
  intros [= <-]. cbn. rewrite map_app. cbn.
  rewrite <- app_assoc. cbn. symmetry. apply Permutation_middle.
Qed.

Lemma first_pass_keeps vehicles l st st' :
  for_each l (first_pass_step vehicles) st = Normal st' ->
  Permutation (settled st') (l ++ settled st).
Proof.
  revert st. induction l as [|trip l IH]; intros st; cbn [for_each].
  - intros [= <-]. reflexivity.
  - destruct (first_pass_step vehicles st trip) as [st1|] eqn:E; [|discriminate].
    cbn [bind]. intros H. apply IH in H. rewrite H.
    rewrite (first_pass_step_keeps _ _ _ _ E). cbn.
    symmetry. apply Permutation_middle.
Qed.

Lemma second_pass_step_adds trips vehicles st trip st' :
  second_pass_step trips vehicles st trip = Normal st' ->
  map be_trip (st_results st') = (map be_trip (st_results st) ++ [trip])%list.
Proof.
  unfold second_pass_step.
  destruct (resolveConflicts trip _ trips) as [cr|]; [|discriminate]. cbn [bind].
  destruct (recommendedStrategy cr) as [strategy|].
  - destruct (applyResolutionStrategy _ _ _ _) as [[ap m]|]; [|discriminate].
    cbn [bind fst snd]. destruct ap; intros [= <-]; cbn; now rewrite map_app.
  - intros [= <-]. cbn. now rewrite map_app.
Qed.

Lemma second_pass_adds trips vehicles l st st' :
  for_each l (second_pass_step trips vehicles) st = Normal st' ->
  map be_trip (st_results st') = (map be_trip (st_results st) ++ l)%list.
Proof.
  revert st. induction l as [|trip l IH]; intros st; cbn [for_each].
  - intros [= <-]. now rewrite app_nil_r.
  - destruct (second_pass_step trips vehicles st trip) as [st1|] eqn:E; [|discriminate].
    cbn [bind]. intros H. apply IH in H. rewrite H.
    rewrite (second_pass_step_adds _ _ _ _ _ E), <- app_assoc. reflexivity.
Qed.

(** Batch conservation: when the batch optimizer returns, its results hold
    every input trip exactly once, and the assigned and unassigned counts of
    its summary add up to the number of trips. *)
Theorem optimizeMultipleTrips_conservation :
  forall (trips : list Trip.t) (vehicles : list Vehicle.t) (r : BatchResult),
    optimizeMultipleTrips trips vehicles = Normal r ->
    Permutation (map be_trip (results r)) trips /\
    List.length (results r) = List.length trips /\
    (assignedTrips (summary r) + unassignedTrips (summary r))%nat = List.length trips.
Proof.
  intros trips vehicles r. unfold optimizeMultipleTrips.
  destruct (for_each (Array_sort compare_trips trips) _ _) as [st1|] eqn:E1;
    [|discriminate]. cbn [bind].
  destruct (for_each (st_unresolvableConflicts st1) _ st1) as [st2|] eqn:E2;
    [|discriminate]. cbn [bind].
  intros [= <-]. cbn [results summary assignedTrips unassignedTrips].
  apply first_pass_keeps in E1. apply second_pass_adds in E2.
  unfold settled in E1. cbn in E1. rewrite app_nil_r in E1.
  assert (Hp : Permutation (map be_trip (st_results st2)) trips).
  { rewrite E2, E1. apply Array_sort_perm. }
  split; [exact Hp|].
  assert (Hl : List.length (st_results st2) = List.length trips).
  { rewrite <- (length_map be_trip). now apply Permutation_length. }
  split; [exact Hl|].
  rewrite <- Hl. clear. induction (st_results st2) as [|e l IH]; cbn; [reflexivity|].
  destruct (is_assigned e); cbn; lia.
Qed.

End WithHost.

End BatchFacts.

(* ================================================================== *)
(** * The fallback solver *)
(* ================================================================== *)

Module FallbackFacts.

Import JS Fallback Props.

#[local] Open Scope float_scope.

Lemma buffer_for_sym config t1 t2 :
  buffer_for config t1 t2 = buffer_for config t2 t1.
Proof. destruct t1, t2; reflexivity. Qed.

Lemma checkTimeOverlap_sym time1 time2 config :
  hasOverlap (checkTimeOverlap time1 time2 config)
  = hasOverlap (checkTimeOverlap time2 time1 config).
Proof.
  unfold checkTimeOverlap.
  rewrite (buffer_for_sym _ (tb_type time2) (tb_type time1)).
  set (b := buffer_for _ _ _).
  rewrite (andb_comm (nlt (startTime time2) _)).
  destruct (nlt (startTime time1) (nadd (endTime time2) b)
            && nlt (startTime time2) (nadd (endTime time1) b)); reflexivity.
Qed.

(** C6: for every two trips and every time-window configuration (or none),
    [checkTimeConflicts(A, [B], config)] reports a conflict exactly when
    [checkTimeConflicts(B, [A], config)] does. *)
Theorem checkTimeConflicts_symmetric :
  forall (A B : Trip.t) (config : option TimeWindowConfig),
    hasConflict (checkTimeConflicts A [B] config)
    = hasConflict (checkTimeConflicts B [A] config).
Proof.
  intros A B config. unfold checkTimeConflicts, conflict_loop.
  destruct (getTimeBounds A) as [a|], (getTimeBounds B) as [b|]; try reflexivity.
  rewrite (checkTimeOverlap_sym b a).
  destruct (hasOverlap (checkTimeOverlap a b config)); reflexivity.
Qed.

(** ** Vehicles in maintenance *)

Section WithHost.

Context {host : Host}.

Lemma map_set_in_service k a m :
  in_service (va_vehicle a) -> map_in_service m ->
  map_in_service (Engine.map_set k a m).
Proof.
  intros Ha. induction 1 as [|[k' a'] m Hk Hm IH]; cbn.
  - repeat constructor. exact Ha.
  - destruct (k' =? k)%Z; constructor; auto.
Qed.

Lemma map_get_in_service k a m :
  map_in_service m -> Engine.map_get k m = Some a -> in_service (va_vehicle a).
Proof.
  induction 1 as [|[k' a'] m Hk _ IH]; cbn; [discriminate|].
  destruct (k' =? k)%Z; [|exact IH]. intros [= <-]. exact Hk.
Qed.

Lemma assign_step_in_service config rs m trip :
  results_in_service rs -> map_in_service m ->
  results_in_service (fst (assign_step config (rs, m) trip)) /\
  map_in_service (snd (assign_step config (rs, m) trip)).
Proof.
  intros Hr Hm. unfold assign_step.
  destruct (findBestVehicleForTrip trip m (Some config)) as [k s ad adu ea|b].
  - destruct (Engine.map_get k m) as [a|] eqn:Eg; cbn; [|auto].
    pose proof (map_get_in_service _ _ _ Hm Eg) as Ha. split.
    + apply Forall_app. split; [exact Hr|]. constructor; [|constructor].
      cbn. intros v s' d [= <- _ _]. exact Ha.
    + apply map_set_in_service; auto.
  - cbn. split; [|exact Hm].
    apply Forall_app. split; [exact Hr|]. constructor; [|constructor].
    cbn. discriminate.
Qed.

Lemma assign_all_in_service config trips rs m :
  results_in_service rs -> map_in_service m ->
  results_in_service (fst (fold_left (assign_step config) trips (rs, m))) /\
  map_in_service (snd (fold_left (assign_step config) trips (rs, m))).
Proof.
  revert rs m. induction trips as [|t ts IH]; intros rs m Hr Hm; cbn [fold_left];
    [auto|].
  destruct (assign_step_in_service config rs m t Hr Hm) as [Hr' Hm'].
  destruct (assign_step config (rs, m) t) as [rs' m']. now apply IH.
Qed.

Lemma initial_assignments_in_service vehicles :
  map_in_service (initial_assignments vehicles).
Proof.
  unfold initial_assignments. generalize (@nil (Z * VehicleAssignment)) (Forall_nil
    (fun kv : Z * VehicleAssignment => in_service (va_vehicle (snd kv)))).
  induction vehicles as [|v vs IH]; intros m Hm; cbn [fold_left]; [exact Hm|].
  apply IH. destruct (is_lit (Vehicle.status v) "maintenance") eqn:E; cbn; [exact Hm|].
  now apply map_set_in_service.
Qed.

Lemma improve_step_in_service random done entry n :
  map_in_service done -> in_service (va_vehicle (snd entry)) ->
  map_in_service (fst (improve_step random done entry n)).
Proof.
  intros Hd He. unfold improve_step.
  destruct (Nat.ltb 2 _).
  - destruct (apply2OptImprovement random _ n) as [imp n'].
    destruct (improved imp); cbn; apply Forall_app; split; auto;
      repeat constructor; exact He.
  - cbn. apply Forall_app. split; auto.
Qed.

Lemma improve_all_in_service random m done n :
  map_in_service done -> map_in_service m ->
  map_in_service (fst (rand_fold (improve_step random) m done n)).
Proof.
  revert done n. induction m as [|e m IH]; intros done n Hd Hm; cbn [rand_fold];
    [exact Hd|].
  inversion Hm as [|? ? He Hm']; subst.
  pose proof (improve_step_in_service random done e n Hd He) as H.
  destruct (improve_step random done e n) as [done' n']. now apply IH.
Qed.

(** ** The improvement pass and the random draws *)

Lemma swap_pairs_bounds len i j :
  In (i, j) (swap_pairs len) -> (i <= j /\ j < len)%nat.
Proof.
  unfold swap_pairs. intros H. apply in_flat_map in H.
  destruct H as (i' & Hi & H). apply in_map_iff in H.
  destruct H as (j' & [= <- <-] & Hj). apply in_seq in Hi, Hj. lia.
Qed.

Lemma reverse_segment_length {A : Type} i j (l : list A) :
  (i <= j /\ j < List.length l)%nat ->
  List.length (reverse_segment i j l) = List.length l.
Proof.
  intros H. unfold reverse_segment.
  rewrite !length_app, length_rev, !length_firstn, !length_skipn. lia.
Qed.

Lemma try_swap_length random trips st ij n :
  (fst ij <= snd ij /\ snd ij < List.length trips)%nat ->
  List.length (bestTrips st) = List.length trips ->
  List.length (bestTrips (fst (try_swap random trips st ij n))) = List.length trips.
Proof.
  intros Hij Hst. unfold try_swap, calculateRouteDistance.
  destruct (_ <? bestDistance st); cbn; [|exact Hst].
  now apply reverse_segment_length.
Qed.

Lemma try_swaps_length random trips pairs st n :
  Forall (fun ij => (fst ij <= snd ij /\ snd ij < List.length trips)%nat) pairs ->
  List.length (bestTrips st) = List.length trips ->
  List.length (bestTrips (fst (rand_fold (try_swap random trips) pairs st n)))
  = List.length trips.
Proof.
  intros Hp. revert st n. induction Hp as [|ij pairs Hij _ IH]; intros st n Hst;
    cbn [rand_fold]; [exact Hst|].
  pose proof (try_swap_length random trips st ij n Hij Hst) as H.
  destruct (try_swap random trips st ij n) as [st' n']. now apply IH.
Qed.

Lemma apply2OptImprovement_length random trips n :
  List.length (imp_trips (fst (apply2OptImprovement random trips n)))
  = List.length trips.
Proof.
  unfold apply2OptImprovement. destruct (Nat.leb _ 2); [reflexivity|].
  cbn [calculateRouteDistance].
  pose proof (try_swaps_length random trips (swap_pairs (List.length trips))
    {| bestTrips := trips;
       bestDistance := Engine.of_nat (List.length trips) * 10 + random n * 5;
       wasImproved := false |} (S n)) as H.
  destruct (rand_fold _ _ _ _) as [st n']. cbn in *. apply H; [|reflexivity].
  apply Forall_forall. intros [i j] Hin. cbn. now apply swap_pairs_bounds.
Qed.

Lemma improve_all_counts random m done n :
  trip_counts (fst (rand_fold (improve_step random) m done n))
  = trip_counts (done ++ m).
Proof.
  revert done n. induction m as [|e m IH]; intros done n; cbn [rand_fold].
  - now rewrite app_nil_r.
  - assert (H : trip_counts (fst (improve_step random done e n))
                = trip_counts (done ++ [e])).
    { unfold improve_step. destruct (Nat.ltb 2 _); [|reflexivity].
      pose proof (apply2OptImprovement_length random (va_trips (snd e)) n) as Hl.
      destruct (apply2OptImprovement random _ n) as [imp n'].
      destruct (improved imp); [|reflexivity].
      cbn [fst]. unfold trip_counts. rewrite !map_app. cbn. cbn in Hl. congruence. }
    destruct (improve_step random done e n) as [done' n']. rewrite IH.
    cbn [fst] in H. unfold trip_counts in *.
    rewrite map_app, H, !map_app. cbn. now rewrite <- app_assoc.
Qed.

(** Vehicles with at most two trips are left as they are, and no number is
    drawn for them. *)
Lemma improve_all_small random m done n :
  Forall (fun c => (c <= 2)%nat) (trip_counts m) ->
  rand_fold (improve_step random) m done n = ((done ++ m)%list, n).
Proof.
  revert done. induction m as [|e m IH]; intros done H; cbn [rand_fold].
  - now rewrite app_nil_r.
  - inversion H as [|? ? He Hm]; subst.
    assert (E : improve_step random done e n = ((done ++ [e])%list, n)).
    { unfold improve_step.
      destruct (Nat.ltb_spec 2 (List.length (va_trips (snd e)))); [lia|reflexivity]. }
    rewrite E, IH by exact Hm. now rewrite <- app_assoc.
Qed.

(** No trip is placed on a vehicle in maintenance, and no such vehicle has an
    entry among the assignments. *)
Lemma fallbackVRPSolver_in_service random trips vehicles dm durm config n :
  let res := fst (fallbackVRPSolver random trips vehicles dm durm config n) in
  results_in_service (results res) /\
  Forall (fun a => in_service (va_vehicle a)) (vehicleAssignments res).
Proof.
  unfold fallbackVRPSolver.
  set (cfg := match config with Some c => c | None => default_config end).
  destruct (assign_all_in_service cfg (Engine.Array_sort compare_trips trips) []
              (initial_assignments vehicles) (Forall_nil _)
              (initial_assignments_in_service vehicles)) as [Hr Hm].
  destruct (fold_left (assign_step cfg) _ _) as [rs m].
  pose proof (improve_all_in_service random m [] n (Forall_nil _) Hm) as Hi.
  destruct (rand_fold (improve_step random) m [] n) as [m' n'].
  cbn. split; [exact Hr|].
  cbn in Hi. apply Forall_map. exact Hi.
Qed.

(** C8, as the code has it: two invocations on the same trips, vehicles,
    matrices and configuration, whatever the random draws of each, return
    the same per-trip results, the same unassigned list and the same counts,
    rate and average score; they return the same result altogether when no
    vehicle receives more than two trips. *)
Theorem fallbackVRPSolver_same_up_to_random_draws :
  forall (random1 random2 : nat -> float) (n1 n2 : nat)
         (trips : list Trip.t) (vehicles : list Vehicle.t)
         (dm durm : list (list float)) (config : option TimeWindowConfig),
    let run1 := fst (fallbackVRPSolver random1 trips vehicles dm durm config n1) in
    let run2 := fst (fallbackVRPSolver random2 trips vehicles dm durm config n2) in
    results run1 = results run2 /\
    unassigned run1 = unassigned run2 /\
    totalTrips (summary run1) = totalTrips (summary run2) /\
    assignedTrips (summary run1) = assignedTrips (summary run2) /\
    unassignedTrips (summary run1) = unassignedTrips (summary run2) /\
    assignmentRate (summary run1) = assignmentRate (summary run2) /\
    averageOptimizationScore (summary run1) = averageOptimizationScore (summary run2) /\
    (Forall (fun a => (List.length (va_trips a) <= 2)%nat) (vehicleAssignments run1) ->
     run1 = run2).
Proof.
  intros random1 random2 n1 n2 trips vehicles dm durm config.
  unfold fallbackVRPSolver.
  destruct (fold_left _ (Engine.Array_sort compare_trips trips) _) as [rs m].
  pose proof (improve_all_counts random1 m [] n1) as Hc.
  destruct (rand_fold (improve_step random1) m [] n1) as [m1 k1] eqn:E1.
  destruct (rand_fold (improve_step random2) m [] n2) as [m2 k2] eqn:E2.
  cbn. repeat split.
  intros Hsmall.
  assert (Hm : Forall (fun c => (c <= 2)%nat) (trip_counts m)).
  { unfold trip_counts in *. cbn [fst app] in Hc. rewrite <- Hc.
    rewrite Forall_map in Hsmall. rewrite Forall_map. exact Hsmall. }
  rewrite (improve_all_small random1 m [] n1 Hm) in E1.
  rewrite (improve_all_small random2 m [] n2 Hm) in E2.
  injection E1 as <- <-. injection E2 as <- <-. reflexivity.
Qed.


End WithHost.

End FallbackFacts.

(* ================================================================== *)
(** * The statements at concrete inputs *)
(* ================================================================== *)

Module Instances.

Import JS Props Examples.

#[local] Open Scope float_scope.

(** C1 at the trip without a pickup address and one available vehicle. *)
Lemma optimizeMultipleTrips_raises_instance :
  exists e,
    @Engine.optimizeMultipleTrips example_host [trip_without_pickup] [vsl_1]
    = Throw e.
Proof.
  apply (@BatchFacts.optimizeMultipleTrips_raises_on_missing_pickup example_host
           [trip_without_pickup] [vsl_1] trip_without_pickup).
  - left. reflexivity.
  - reflexivity.
  - left. reflexivity.
Defined.

(** C1: the exception of that run, on every host. *)
Lemma optimizeMultipleTrips_raises_type_error :
  forall host : Host,
    @Engine.optimizeMultipleTrips host [trip_without_pickup] [vsl_1]
    = Throw "TypeError: cannot read properties of undefined (reading 'length')".
Proof. intros host. vm_compute. reflexivity. Qed.

(** The batch optimizer on the scenario trip returns one assigned result. *)
Lemma optimizeMultipleTrips_conservation_instance :
  exists r,
    @Engine.optimizeMultipleTrips example_host [trip_1] [vsl_1] = Normal r /\
    List.length (Engine.results r) = 1%nat.
Proof.
  destruct (@Engine.optimizeMultipleTrips example_host [trip_1] [vsl_1]) as [r|e] eqn:E.
  - exists r. split; [reflexivity|].
    now destruct (@BatchFacts.optimizeMultipleTrips_conservation example_host
                    [trip_1] [vsl_1] r E) as (_ & Hl & _).
  - vm_compute in E. discriminate E.
Defined.

(** C4 at the scenario trip: exit at 09:45, earliest pickup at 10:00. *)
Lemma generateReturnCourse_instance :
  exists (r : Trip.t) (exit earliest : string) (x : Z),
    ReturnCourses.generateReturnCourse trip_1 2 = Normal r /\
    Trip.id r = 2%Z /\
    Trip.pickup r = Trip.destination trip_1 /\
    Trip.destination r = Trip.pickup trip_1 /\
    Trip.coordinates r = Trip.destinationCoords trip_1 /\
    Trip.destinationCoords r = Trip.coordinates trip_1 /\
    Trip.isReturnTrip r = true /\
    Trip.originalCourseId r = Some (Trip.id trip_1) /\
    Trip.maxWaitTime r = Some 240%Z /\
    Trip.exitTime r = Some exit /\
    Trip.appointmentTime r = Some exit /\
    Trip.earliestPickupTime r = Some earliest /\
    (truthy (Trip.returnTime trip_1) = true ->
     Trip.returnTime trip_1 = Some exit) /\
    (truthy (Trip.returnTime trip_1) = false ->
     exists a, Trip.appointmentTime trip_1 = Some a /\
               Some x = nadd (clock_minutes a) (Trip.duration trip_1)) /\
    clock_minutes exit = Some x /\
    clock_minutes earliest = Some (x + 15)%Z.
Proof.
  apply (ReturnCoursesFacts.generateReturnCourse_swaps_and_times trip_1 2
           [6.1286; 43.1205] [5.9282; 43.1242]).
  - reflexivity.
  - reflexivity.
  - reflexivity.
  - discriminate.
  - intros _. exists "09:00"%string, 540%Z, 45%Z. repeat split.
Defined.

(** C5 at the trip with no return, and at a list of the scenario trip, a
    course with a return time only and the trip with no return: one return
    course for each of the first two. *)
Lemma generateReturnCourses_instance :
  ReturnCourses.generateReturnCourses [trip_no_return] = Normal [] /\
  exists returns,
    ReturnCourses.generateReturnCourses
      [trip_1; trip_with_return_time; trip_no_return] = Normal returns /\
    map Trip.originalCourseId returns = [Some 1%Z; Some 2%Z] /\
    List.length returns = 2%nat.
Proof.
  destruct ReturnCoursesFacts.generateReturnCourses_expansion
    as (Hnone & Hone & _).
  split.
  - apply Hnone; reflexivity.
  - destruct (Hone [trip_1; trip_with_return_time; trip_no_return])
      as (returns & Hr & Hids & Hlen & _).
    + constructor; [|constructor; [|constructor; [|constructor]]];
        intros H; try discriminate H; unfold has_return_data; cbn;
        (split; [discriminate|]); (split; [discriminate|]);
        first [left; reflexivity | right; discriminate].
    + exists returns. split; [exact Hr|]. split; [exact Hids|exact Hlen].
Defined.

(** C5, as stated, fails: the scenario trip without its coordinates is a
    course the specification expands (it is not a return trip and its
    duration is 45), and [generateReturnCourses] raises on it instead of
    yielding one return course. *)
Lemma generateReturnCourses_raises_without_coordinates :
  expects_return trip_without_coordinates = true /\
  ReturnCourses.generateReturnCourses [trip_without_coordinates]
  = Throw "TypeError: undefined is not iterable" /\
  ~ (exists returns,
       ReturnCourses.generateReturnCourses [trip_without_coordinates]
       = Normal returns /\ List.length returns = 1%nat).
Proof.
  split; [reflexivity|]. split; [reflexivity|].
  intros (returns & H & _). discriminate H.
Qed.

(** C3 at the scenario trip with the priority 'constructor': the detail is
    a full one, and the priority sub-score and the score are NaN. *)
Lemma calculateOptimizationScore_inherited_priority_instance :
  exists d,
    Engine.details
      (@Engine.calculateOptimizationScore example_host trip_inherited_priority
         vsl_1 []) = Engine.DetailsOk d /\
    is_nan (Engine.priorityScore d) = true /\
    is_nan (Engine.score
              (@Engine.calculateOptimizationScore example_host
                 trip_inherited_priority vsl_1 [])) = true.
Proof.
  destruct (@Engine.calculateOptimizationScore example_host trip_inherited_priority
              vsl_1 []) as [s o d] eqn:E.
  destruct d as [d|msg]; [|vm_compute in E; discriminate E].
  exists d. split; [reflexivity|].
  pose proof (@ScoringFacts.calculateOptimizationScore_bounded_unless_inherited
                example_host trip_inherited_priority vsl_1 []) as H.
  cbv zeta in H. rewrite E in H. destruct H as (_ & _ & H).
  apply (H eq_refl d eq_refl).
Defined.

(** C9 at 15 km and at 15 km against 45 km. *)
Lemma calculateDistanceScore_instance :
  Engine.calculateDistanceScore 15 = 80 /\
  (Engine.calculateDistanceScore 45 <=? Engine.calculateDistanceScore 15) = true.
Proof.
  destruct ScoringFacts.calculateDistanceScore_steps
    as (_ & H80 & _ & _ & _ & Hmono & _).
  split.
  - apply H80; reflexivity.
  - apply Hmono. reflexivity.
Defined.

(** C10 at the scenario trip, an available VSL and the base score 0; and at
    a trip for an ambulance and one available vehicle of type 'constructor':
    the enhanced score is NaN and the result is the forced one. *)
Lemma enhanced_score_floor_instance :
  (10 <=? @Engine.calculateEnhancedCompatibilityScore example_host trip_1 vsl_1
            (Num.of_Z 0)) = true /\
  exists r best,
    @Engine.findBestVehicleAssignment example_host ambulance_trip [unit_constructor]
    = Normal r /\
    Engine.success r = true /\ Engine.recommended r = Some best /\
    Engine.vehicle best = unit_constructor /\
    Engine.score (Engine.optimization best) = nan /\
    Engine.forced r = true /\
    Engine.warning r = Some "Cette assignation pourrait ne pas être optimale".
Proof.
  destruct (@ScoringFacts.enhanced_score_floor_unless_inherited example_host)
    as (Hfloor & _ & Hforced).
  split.
  - apply Hfloor; [reflexivity|reflexivity|lia].
  - apply (Hforced ambulance_trip unit_constructor); reflexivity.
Defined.

(** C8, as stated, fails: on three trips and one vehicle, the draws 0.9, 0.1
    make the improvement pass move trip 3 before trip 2 and report 30.5 km,
    the draws 0.1, 0.9 leave the order and report 33 km. *)
Lemma fallbackVRPSolver_depends_on_random_draws :
  trip_order (fallback_run draws_a) = [[1; 3; 2]%Z] /\
  trip_order (fallback_run draws_b) = [[1; 2; 3]%Z] /\
  Fallback.totalDistance (Fallback.summary (fallback_run draws_a)) = 30.5 /\
  Fallback.totalDistance (Fallback.summary (fallback_run draws_b)) = 33 /\
  fallback_run draws_a <> fallback_run draws_b.
Proof.
  assert (Ha : trip_order (fallback_run draws_a) = [[1; 3; 2]%Z])
    by (vm_compute; reflexivity).
  assert (Hb : trip_order (fallback_run draws_b) = [[1; 2; 3]%Z])
    by (vm_compute; reflexivity).
  repeat split; try assumption; try (vm_compute; reflexivity).
  intros E. rewrite E, Hb in Ha. discriminate Ha.
Qed.

(** C8, as the code has it, at two trips on one vehicle: the two runs of
    draws give the same result. *)
Lemma fallbackVRPSolver_two_trips_instance :
  fst (@Fallback.fallbackVRPSolver example_host draws_a
         [trip_at 1 (Some "Hyères") "08:00"; trip_at 2 (Some "Hyères") "11:00"]
         [vsl_1] [] [] None 0%nat)
  = fst (@Fallback.fallbackVRPSolver example_host draws_b
         [trip_at 1 (Some "Hyères") "08:00"; trip_at 2 (Some "Hyères") "11:00"]
         [vsl_1] [] [] None 0%nat).
Proof.
  apply (@FallbackFacts.fallbackVRPSolver_same_up_to_random_draws example_host
           draws_a draws_b 0%nat 0%nat).
  vm_compute. repeat constructor.
Defined.

End Instances.

(* ================================================================== *)
(** * Invariants of the fallback solver *)
(* ================================================================== *)

Module FallbackInvariants.

Import JS Fallback Props FallbackProps.

#[local] Open Scope float_scope.

(** ** The conflict gate *)

Lemma existsb_same {A : Type} (f g : A -> bool) l :
  (forall x, f x = g x) -> existsb f l = existsb g l.
Proof. intros E. induction l as [|x l IH]; cbn; [reflexivity|]. now rewrite E, IH. Qed.

Lemma find_same {A : Type} (f g : A -> bool) l :
  (forall x, f x = g x) -> find f l = find g l.
Proof. intros E. induction l as [|x l IH]; cbn; [reflexivity|]. now rewrite E, IH. Qed.

Lemma hasOverlap_test t b cfg :
  hasOverlap (checkTimeOverlap t b cfg)
  = (let config := match cfg with
                   | Some c => c
                   | None => {| bufferBetweenAppointments := Some 20%Z;
                                bufferBetweenReturns := Some 10%Z;
                                bufferMixed := Some 15%Z;
                                allowConflictPenalty := false;
                                conflictPenaltyScore := None;
                                minAssignmentScore := None |}
                   end in
     let buffer := buffer_for config (tb_type t) (tb_type b) in
     nlt (startTime t) (nadd (endTime b) buffer)
     && nlt (startTime b) (nadd (endTime t) buffer)).
Proof.
  unfold checkTimeOverlap. cbv zeta.
  match goal with |- hasOverlap (if ?c then _ else _) = _ => destruct c end; reflexivity.
Qed.

Lemma conflict_loop_first t l cfg :
  let test B := match getTimeBounds B with
                | Some b => hasOverlap (checkTimeOverlap t b cfg)
                | None => false
                end in
  hasConflict (conflict_loop t l cfg) = existsb test l /\
  conflictingTrip (conflict_loop t l cfg) = find test l.
Proof.
  cbv zeta. induction l as [|B l [IH1 IH2]]; cbn; [auto|].
  destruct (getTimeBounds B) as [b|]; cbn; [|auto].
  destruct (hasOverlap (checkTimeOverlap t b cfg)); cbn; auto.
Qed.

Lemma checkTimeConflicts_scan A l cfg :
  hasConflict (checkTimeConflicts A l cfg) = existsb (conflicts_with cfg A) l /\
  conflictingTrip (checkTimeConflicts A l cfg) = find (conflicts_with cfg A) l.
Proof.
  unfold conflicts_with, checkTimeConflicts.
  destruct (getTimeBounds A) as [t|].
  - destruct (conflict_loop_first t l cfg) as [H1 H2].
    assert (E : forall B,
      hasConflict (conflict_loop t [B] cfg)
      = match getTimeBounds B with
        | Some b => hasOverlap (checkTimeOverlap t b cfg)
        | None => false
        end).
    { intros B. cbn. destruct (getTimeBounds B) as [b|]; [|reflexivity].
      destruct (hasOverlap (checkTimeOverlap t b cfg)); reflexivity. }
    destruct l as [|B l]; [split; reflexivity|].
    rewrite H1, H2. split.
    + apply existsb_same. intros x. now rewrite E.
    + apply find_same. intros x. now rewrite E.
  - destruct l as [|B l]; [split; reflexivity|]. cbn [hasConflict conflictingTrip].
    split.
    + symmetry. apply not_true_is_false. intros H. apply existsb_exists in H.
      destruct H as (x & _ & H). discriminate H.
    + symmetry. induction (B :: l) as [|x r IH]; [reflexivity|]. cbn. exact IH.
Qed.

(** The conflict gate looks at the existing trips one by one: a trip
    conflicts with a list exactly when it conflicts with one of its members
    taken alone, and the trip it reports is the first such member. *)
Theorem checkTimeConflicts_one_by_one :
  forall (A : Trip.t) (existing : list Trip.t) (config : option TimeWindowConfig),
    hasConflict (checkTimeConflicts A existing config)
    = existsb (conflicts_with config A) existing /\
    conflictingTrip (checkTimeConflicts A existing config)
    = find (conflicts_with config A) existing.
Proof. intros A l cfg. apply checkTimeConflicts_scan. Qed.

Lemma conflicts_with_sym cfg A B : conflicts_with cfg A B = conflicts_with cfg B A.
Proof.
  unfold conflicts_with, checkTimeConflicts, conflict_loop.
  destruct (getTimeBounds A) as [a|], (getTimeBounds B) as [b|]; try reflexivity.
  rewrite (FallbackFacts.checkTimeOverlap_sym b a).
  destruct (hasOverlap (checkTimeOverlap a b cfg)); reflexivity.
Qed.

Lemma compatible_sym cfg A B : compatible cfg A B -> compatible cfg B A.
Proof. unfold compatible. tauto. Qed.

Lemma no_conflict_compatible cfg trip l :
  hasConflict (checkTimeConflicts trip l cfg) = false ->
  Forall (fun B => compatible cfg B trip) l.
Proof.
  intros H. destruct (checkTimeConflicts_scan trip l cfg) as [E _].
  rewrite E in H. apply Forall_forall. intros B HB.
  assert (Hc : conflicts_with cfg trip B = false).
  { destruct (conflicts_with cfg trip B) eqn:Ec; [|reflexivity].
    assert (existsb (conflicts_with cfg trip) l = true)
      by (apply existsb_exists; eauto).
    congruence. }
  split; [now rewrite conflicts_with_sym|exact Hc].
Qed.

(** ** Ordered pairs of a list *)

Lemma pairs_app_one {A : Type} (R : A -> A -> Prop) l x :
  ForallOrdPairs R l -> Forall (fun y => R y x) l -> ForallOrdPairs R (l ++ [x]).
Proof.
  induction 1 as [|a l Ha Hl IH]; intros Hx; cbn.
  - constructor; constructor.
  - inversion Hx; subst. constructor; [|auto].
    apply Forall_app. split; [exact Ha|]. constructor; [assumption|constructor].
Qed.

Lemma pairs_perm {A : Type} (R : A -> A -> Prop) l l' :
  (forall a b, R a b -> R b a) ->
  Permutation l l' -> ForallOrdPairs R l -> ForallOrdPairs R l'.
Proof.
  intros Hsym. induction 1 as [|x l l' Hp IH|x y l|l l' l'' _ IH1 _ IH2]; intros H.
  - exact H.
  - inversion H; subst. constructor; [|auto].
    rewrite Forall_forall in *. intros z Hz. apply H2.
    apply (Permutation_in _ (Permutation_sym Hp)). exact Hz.
  - inversion H as [|? ? Hy Hr]; subst. inversion Hr as [|? ? Hx Hl]; subst.
    inversion Hy; subst. constructor.
    + constructor; [now apply Hsym|assumption].
    + constructor; assumption.
  - auto.
Qed.

(** ** The assignment map *)

Lemma map_get_In {V : Type} k (m : Engine.IdMap V) a :
  Engine.map_get k m = Some a -> In (k, a) m.
Proof.
  induction m as [|[k' a'] m IH]; cbn; [discriminate|].
  destruct (Z.eqb_spec k' k); [intros [= <-]; subst; now left|right; auto].
Qed.

Lemma In_map_get {V : Type} k (m : Engine.IdMap V) a :
  NoDup (keys m) -> In (k, a) m -> Engine.map_get k m = Some a.
Proof.
  induction m as [|[k' a'] m IH]; cbn; [easy|]. intros Hnd [E|Hin].
  - injection E as -> ->. now rewrite Z.eqb_refl.
  - inversion Hnd as [|? ? Hk Hr]; subst. destruct (Z.eqb_spec k' k).
    + subst. exfalso. apply Hk. change k with (fst (k, a)). now apply in_map.
    + auto.
Qed.

Lemma map_set_split {V : Type} k a a' (m : Engine.IdMap V) :
  Engine.map_get k m = Some a ->
  exists m1 m2, m = (m1 ++ (k, a) :: m2)%list /\
                Engine.map_set k a' m = (m1 ++ (k, a') :: m2)%list.
Proof.
  induction m as [|[k0 a0] m IH]; cbn; [discriminate|].
  destruct (Z.eqb_spec k0 k).
  - intros [= <-]. subst. exists [], m. auto.
  - intros H. destruct (IH H) as (m1 & m2 & -> & ->).
    exists ((k0, a0) :: m1), m2. auto.
Qed.

Lemma map_set_new_keys {V : Type} k a (m : Engine.IdMap V) :
  NoDup (keys m) -> NoDup (keys (Engine.map_set k a m)) /\
  (forall x, In x (keys (Engine.map_set k a m)) <-> x = k \/ In x (keys m)).
Proof.
  unfold keys. induction m as [|[k0 a0] m IH]; cbn; intros Hnd.
  - split; [repeat constructor; easy|]. intros x. intuition.
  - inversion Hnd as [|? ? Hk Hr]; subst. destruct (Z.eqb_spec k0 k).
    + subst. cbn. split; [exact Hnd|]. intros x. intuition.
    + destruct (IH Hr) as [IH1 IH2]. cbn. split.
      * constructor; [|exact IH1]. rewrite IH2. intros [E|Hin]; [congruence|auto].
      * intros x. rewrite IH2. intuition.
Qed.

Section WithHost.

Context {host : Host}.

Lemma initial_assignments_invariant config vehicles :
  loop_invariant config vehicles [] ([], initial_assignments vehicles).
Proof.
  unfold initial_assignments.
  assert (G : forall vs m,
    (forall v, In v vs -> In v vehicles) ->
    NoDup (keys m) -> keyed_by_vehicle m ->
    Forall (fun kv => In (va_vehicle (snd kv)) vehicles) m ->
    Forall (fun kv => va_trips (snd kv) = []) m ->
    let m' := fold_left (fun m vehicle =>
      if negb (is_lit (Vehicle.status vehicle) "maintenance") then
        Engine.map_set (Vehicle.id vehicle)
          {| va_vehicle := vehicle; va_trips := [];
             va_totalDistance := 0; va_totalDuration := 0; va_route := [] |} m
      else m) vs m in
    NoDup (keys m') /\ keyed_by_vehicle m' /\
    Forall (fun kv => In (va_vehicle (snd kv)) vehicles) m' /\
    Forall (fun kv => va_trips (snd kv) = []) m').
  { induction vs as [|v vs IH]; intros m Hin Hnd Hk Hv He; cbn [fold_left]; [auto|].
    apply IH; [intros; apply Hin; now right| | | |];
      destruct (negb (is_lit (Vehicle.status v) "maintenance")); try assumption.
    - now apply map_set_new_keys.
    - clear - Hk. induction Hk as [|[k a] m H Hm IHm]; cbn.
      + repeat constructor.
      + destruct (k =? Vehicle.id v)%Z; constructor; auto.
    - assert (Hv0 : In v vehicles) by (apply Hin; now left).
      clear - Hv Hv0. induction Hv as [|[k a] m H Hm IHm]; cbn.
      + repeat constructor. exact Hv0.
      + destruct (k =? Vehicle.id v)%Z; constructor; auto.
    - clear - He. induction He as [|[k a] m H Hm IHm]; cbn.
      + repeat constructor.
      + destruct (k =? Vehicle.id v)%Z; constructor; auto. }
  destruct (G vehicles [] (fun v H => H) (NoDup_nil _) (Forall_nil _) (Forall_nil _)
              (Forall_nil _)) as (H1 & H2 & H3 & H4).
  cbv zeta in *. unfold loop_invariant. repeat split; try assumption; try constructor.
  - unfold carried, assigned_trips. cbn.
    match goal with |- Permutation ?l [] => assert (E : l = []) end.
    { clear - H4. induction H4 as [|[k a] m H Hm IHm]; cbn; [reflexivity|].
      cbn in H. now rewrite H. }
    rewrite E. constructor.
  - eapply Forall_impl; [|exact H4]. intros kv E _. exact E.
  - intros _. eapply Forall_impl; [|exact H4]. intros kv E. rewrite E. constructor.
Qed.

(** ** The search for the best vehicle *)

Lemma consider_cases trip cfg best entry :
  consider trip cfg best entry = best \/
  (bestVehicle (consider trip cfg best entry) = Some (fst entry) /\
   considered trip (va_vehicle (snd entry)) = true /\
   (hasConflict (checkTimeConflicts trip (va_trips (snd entry)) cfg) = false \/
    exists c, cfg = Some c /\ allowConflictPenalty c = true)).
Proof.
  unfold consider, considered. cbv zeta.
  destruct (_ <? 50) eqn:E1; [now left|].
  destruct (getTripRequiredSkills trip) as [requiredSkills|name]; [|now left].
  destruct (existsb _ _) eqn:E2; cbn [negb andb]; [|now left].
  destruct (hasConflict _) eqn:E3.
  - destruct cfg as [c|]; [|now left].
    destruct (allowConflictPenalty c) eqn:E4; [|now left].
    destruct (_ && _); [right|now left]. cbn. repeat split. right. eauto.
  - destruct (bestScore best <? _); [right|now left]. cbn. repeat split. now left.
Qed.

Lemma fold_consider trip cfg m0 m best :
  (forall e, In e m -> In e m0) ->
  picked_from trip cfg m0 best ->
  picked_from trip cfg m0 (fold_left (consider trip cfg) m best).
Proof.
  revert best. induction m as [|[k a] m IH]; intros best Hin Hb; cbn [fold_left];
    [exact Hb|].
  apply IH; [intros; apply Hin; now right|].
  destruct (consider_cases trip cfg best (k, a)) as [->|(Hk & Hc & Hf)]; [exact Hb|].
  intros k' Hk'. rewrite Hk in Hk'. injection Hk' as <-.
  exists a. split; [apply Hin; now left|]. split; assumption.
Qed.

Lemma findBestVehicleForTrip_found trip m cfg k s ad adu ea :
  findBestVehicleForTrip trip m cfg = found k s ad adu ea ->
  k <> 0%Z /\
  exists a, In (k, a) m /\
    considered trip (va_vehicle a) = true /\
    (hasConflict (checkTimeConflicts trip (va_trips a) cfg) = false \/
     exists c, cfg = Some c /\ allowConflictPenalty c = true).
Proof.
  unfold findBestVehicleForTrip.
  pose proof (fold_consider trip cfg m m
                {| bestVehicle := None; bestScore := -1; bestMetrics := None |}
                (fun e H => H)) as Hp.
  destruct (fold_left _ m _) as [bv bs bm]. cbn [bestVehicle bestScore bestMetrics] in *.
  destruct bv as [k0|]; [|discriminate]. destruct bm as [mt|]; [|discriminate].
  destruct (negb (k0 =? 0)%Z) eqn:E0; cbn [andb]; [|discriminate].
  destruct (15 <? bs); [|discriminate]. intros [= <- _ _ _ _].
  split.
  - intros ->. discriminate E0.
  - apply Hp; [|reflexivity]. intros k1 H1. discriminate H1.
Qed.

(** ** The assignment loop *)

Lemma carried_app l1 l2 : carried (l1 ++ l2) = (carried l1 ++ carried l2)%list.
Proof. unfold carried. now rewrite map_app, concat_app. Qed.

Lemma assigned_trips_app rs1 rs2 :
  assigned_trips (rs1 ++ rs2) = (assigned_trips rs1 ++ assigned_trips rs2)%list.
Proof. unfold assigned_trips. now rewrite filter_app, map_app. Qed.

Lemma assign_step_invariant config vehicles processed st trip :
  loop_invariant config vehicles processed st ->
  loop_invariant config vehicles (processed ++ [trip]) (assign_step config st trip).
Proof.
  destruct st as [rs m]. unfold loop_invariant.
  intros (Hnd & Hk & Hv & Hw & Hin & Hp & Hc & Hz & Hpair).
  unfold assign_step.
  destruct (findBestVehicleForTrip trip m (Some config)) as [k s ad adu ea|b] eqn:Ef.
  - destruct (findBestVehicleForTrip_found _ _ _ _ _ _ _ _ Ef)
      as (Hk0 & a & Ha & Hcons & Hfree).
    pose proof (In_map_get k m a Hnd Ha) as Hg. rewrite Hg.
    match goal with
    | |- context [Engine.map_set k ?x m] => set (a' := x)
    end.
    destruct (map_set_split k a a' m Hg) as (m1 & m2 & Em & Es). rewrite Es.
    subst m. unfold keys, keyed_by_vehicle in *.
    rewrite !map_app in *. cbn [map fst snd] in *.
    apply Forall_app in Hk. destruct Hk as [Hk1 Hk2].
    pose proof (Forall_inv Hk2) as Hka. pose proof (Forall_inv_tail Hk2) as Hk2'.
    cbn [fst snd] in Hka.
    apply Forall_app in Hv. destruct Hv as [Hv1 Hv2].
    pose proof (Forall_inv Hv2) as Hva. pose proof (Forall_inv_tail Hv2) as Hv2'.
    cbn [fst snd] in Hva.
    apply Forall_app in Hz. destruct Hz as [Hz1 Hz2].
    pose proof (Forall_inv_tail Hz2) as Hz2'.
    repeat split.
    + exact Hnd.
    + apply Forall_app. split; [exact Hk1|]. constructor; [exact Hka|exact Hk2'].
    + apply Forall_app. split; [exact Hv1|]. constructor; [exact Hva|exact Hv2'].
    + apply Forall_app. split; [exact Hw|]. constructor; [|constructor].
      unfold well_assigned. cbn. repeat split; [exact Hcons|]. now rewrite <- Hka.
    + apply Forall_app. split; [exact Hin|]. constructor; [|constructor].
      cbn. intros v s' d [= <- _ _]. exact Hva.
    + now rewrite Hp.
    + rewrite assigned_trips_app. unfold assigned_trips at 2. cbn.
      rewrite <- Permutation_cons_append. rewrite <- Hc.
      rewrite !carried_app. unfold carried at 2 4. cbn [map List.concat va_trips a'].
      rewrite <- !app_assoc. cbn [app].
      rewrite app_assoc, (app_assoc (carried (map snd m1)) (va_trips a)).
      symmetry. apply Permutation_middle.
    + apply Forall_app. split; [exact Hz1|]. constructor; [|exact Hz2'].
      cbn. intros E. rewrite <- Hka in E. contradiction.
    + intros Hoff. specialize (Hpair Hoff).
      apply Forall_app in Hpair. destruct Hpair as [Hp1 Hp2].
      pose proof (Forall_inv Hp2) as Hpa. pose proof (Forall_inv_tail Hp2) as Hp2'.
      cbn [snd] in Hpa.
      apply Forall_app. split; [exact Hp1|]. constructor; [|exact Hp2'].
      cbn. apply pairs_app_one; [exact Hpa|].
      destruct Hfree as [Hfree|(c & [= <-] & Hon)]; [|congruence].
      now apply no_conflict_compatible.
  - repeat split; try assumption.
    + apply Forall_app. split; [exact Hw|]. constructor; [|constructor].
      unfold well_assigned. cbn. reflexivity.
    + apply Forall_app. split; [exact Hin|]. constructor; [|constructor].
      cbn. discriminate.
    + now rewrite map_app, Hp.
    + rewrite assigned_trips_app. unfold assigned_trips at 2. cbn.
      now rewrite app_nil_r.
Qed.

Lemma assign_all_invariant config vehicles trips processed st :
  loop_invariant config vehicles processed st ->
  loop_invariant config vehicles (processed ++ trips)
                 (fold_left (assign_step config) trips st).
Proof.
  revert processed st. induction trips as [|t ts IH]; intros processed st H;
    cbn [fold_left].
  - now rewrite app_nil_r.
  - replace (processed ++ t :: ts)%list with ((processed ++ [t]) ++ ts)%list
      by now rewrite <- app_assoc.
    apply IH. now apply assign_step_invariant.
Qed.

(** ** The improvement pass *)

Lemma swap_pairs_from_one len i j :
  In (i, j) (swap_pairs len) -> (1 <= i /\ i < j /\ j < len)%nat.
Proof.
  unfold swap_pairs. intros H. apply in_flat_map in H.
  destruct H as (i' & Hi & H). apply in_map_iff in H.
  destruct H as (j' & [= <- <-] & Hj). apply in_seq in Hi, Hj. lia.
Qed.

Lemma reverse_segment_perm {A : Type} i j (l : list A) :
  (i <= j + 1)%nat -> Permutation (reverse_segment i j l) l.
Proof.
  intros H. unfold reverse_segment.
  rewrite <- (firstn_skipn i l) at 4.
  apply Permutation_app_head.
  rewrite <- (firstn_skipn (j + 1 - i) (skipn i l)) at 2.
  replace (skipn (j + 1) l) with (skipn (j + 1 - i) (skipn i l)).
  - apply Permutation_app_tail. symmetry. apply Permutation_rev.
  - rewrite skipn_skipn. f_equal. lia.
Qed.

Lemma reverse_segment_hd {A : Type} i j (l : list A) :
  (1 <= i)%nat -> hd_error (reverse_segment i j l) = hd_error l.
Proof.
  intros H. unfold reverse_segment. destruct i as [|i]; [lia|].
  destruct l as [|x l]; cbn.
  - rewrite firstn_nil. cbn. now rewrite skipn_nil.
  - reflexivity.
Qed.

Lemma try_swap_reorders random trips st ij n :
  (1 <= fst ij /\ fst ij < snd ij)%nat ->
  Permutation (bestTrips st) trips /\
  hd_error (bestTrips st) = hd_error trips /\
  (wasImproved st = false -> bestTrips st = trips) ->
  let st' := fst (try_swap random trips st ij n) in
  Permutation (bestTrips st') trips /\
  hd_error (bestTrips st') = hd_error trips /\
  (wasImproved st' = false -> bestTrips st' = trips).
Proof.
  intros Hij Hst. unfold try_swap, calculateRouteDistance. cbv zeta.
  destruct (_ <? bestDistance st); cbn; [|exact Hst].
  split; [apply reverse_segment_perm; lia|].
  split; [apply reverse_segment_hd; lia|discriminate].
Qed.

Lemma try_swaps_reorder random trips pairs st n :
  Forall (fun ij => (1 <= fst ij /\ fst ij < snd ij)%nat) pairs ->
  Permutation (bestTrips st) trips /\
  hd_error (bestTrips st) = hd_error trips /\
  (wasImproved st = false -> bestTrips st = trips) ->
  let st' := fst (rand_fold (try_swap random trips) pairs st n) in
  Permutation (bestTrips st') trips /\
  hd_error (bestTrips st') = hd_error trips /\
  (wasImproved st' = false -> bestTrips st' = trips).
Proof.
  intros Hp. revert st n. induction Hp as [|ij pairs Hij _ IH]; intros st n Hst;
    cbn [rand_fold]; [exact Hst|].
  pose proof (try_swap_reorders random trips st ij n Hij Hst) as H.
  destruct (try_swap random trips st ij n) as [st' n']. now apply IH.
Qed.

Lemma try_swaps_draws random trips pairs st n :
  snd (rand_fold (try_swap random trips) pairs st n) = (n + List.length pairs)%nat.
Proof.
  revert st n. induction pairs as [|ij pairs IH]; intros st n; cbn [rand_fold].
  - cbn. lia.
  - destruct (try_swap random trips st ij n) as [st' n'] eqn:E.
    assert (n' = S n).
    { unfold try_swap, calculateRouteDistance in E. cbv zeta in E.
      destruct (_ <? bestDistance st) in E; now injection E. }
    subst n'. rewrite IH. cbn. lia.
Qed.

Lemma apply2OptImprovement_reorders random trips n :
  let r := fst (apply2OptImprovement random trips n) in
  Permutation (imp_trips r) trips /\
  hd_error (imp_trips r) = hd_error trips /\
  (improved r = false -> imp_trips r = trips).
Proof.
  unfold apply2OptImprovement. destruct (Nat.leb _ 2); [cbn; auto|].
  cbn [calculateRouteDistance].
  pose proof (try_swaps_reorder random trips (swap_pairs (List.length trips))
    {| bestTrips := trips;
       bestDistance := Engine.of_nat (List.length trips) * 10 + random n * 5;
       wasImproved := false |} (S n)) as H.
  destruct (rand_fold _ _ _ _) as [st n']. cbn in *. apply H; [|auto].
  apply Forall_forall. intros [i j] Hin. cbn.
  apply swap_pairs_from_one in Hin. lia.
Qed.

Lemma improve_step_reordered random done e n :
  exists e', fst (improve_step random done e n) = (done ++ [e'])%list /\
             reordered e e'.
Proof.
  unfold improve_step, reordered. destruct (Nat.ltb 2 _).
  - pose proof (apply2OptImprovement_reorders random (va_trips (snd e)) n) as H.
    destruct (apply2OptImprovement random _ n) as [imp n']. cbn in H.
    destruct H as (H1 & H2 & _).
    destruct (improved imp); eexists; (split; [reflexivity|]); cbn; auto.
  - eexists. split; [reflexivity|]. auto.
Qed.

Lemma improve_all_reordered random m done n :
  exists m', fst (rand_fold (improve_step random) m done n) = (done ++ m')%list /\
             Forall2 reordered m m'.
Proof.
  revert done n. induction m as [|e m IH]; intros done n; cbn [rand_fold].
  - exists []. split; [now rewrite app_nil_r|constructor].
  - destruct (improve_step_reordered random done e n) as (e' & E & He).
    destruct (improve_step random done e n) as [done' n']. cbn in E. subst done'.
    destruct (IH (done ++ [e'])%list n') as (m' & Em & Hm).
    exists (e' :: m'). split; [|now constructor].
    rewrite Em, <- app_assoc. reflexivity.
Qed.

Lemma carried_reordered m m' :
  Forall2 reordered m m' ->
  Permutation (carried (map snd m')) (carried (map snd m)).
Proof.
  induction 1 as [|e e' m m' (_ & _ & Hp & _) _ IH]; [constructor|].
  unfold carried in *. cbn. now apply Permutation_app.
Qed.

(** ** Vehicle and trip types *)

Lemma literal_or_other (s : string) :
  s = "Ambulance" \/ s = "VSL" \/ s = "Taxi" \/
  (String.eqb s "Ambulance" = false /\ String.eqb "Ambulance" s = false /\
   String.eqb s "VSL" = false /\ String.eqb "VSL" s = false /\
   String.eqb s "Taxi" = false /\ String.eqb "Taxi" s = false).
Proof.
  destruct (String.eqb_spec s "Ambulance") as [|H1]; [auto|].
  destruct (String.eqb_spec s "VSL") as [|H2]; [auto|].
  destruct (String.eqb_spec s "Taxi") as [|H3]; [auto|].
  right. right. right.
  repeat split; try reflexivity;
    apply String.eqb_neq; congruence.
Qed.

Lemma considered_types trip v :
  considered trip v = true ->
  (is_lit (Vehicle.type v) "Ambulance" || is_lit (Vehicle.type v) "VSL"
   || is_lit (Vehicle.type v) "Taxi") = true /\
  (is_lit (Trip.vehicleType trip) "Ambulance" = true ->
   is_lit (Vehicle.type v) "Ambulance" = true) /\
  (is_lit (Trip.vehicleType trip) "VSL" = true ->
   is_lit (Vehicle.type v) "Taxi" = false).
Proof.
  unfold considered. intros H. apply andb_prop in H as [H1 H2].
  assert (Hv : (is_lit (Vehicle.type v) "Ambulance"
                || is_lit (Vehicle.type v) "VSL"
                || is_lit (Vehicle.type v) "Taxi") = true).
  { unfold getVehicleSkills in H2.
    destruct (is_lit (Vehicle.type v) "Ambulance"); [reflexivity|].
    destruct (is_lit (Vehicle.type v) "VSL"); [reflexivity|].
    destruct (is_lit (Vehicle.type v) "Taxi"); [reflexivity|].
    destruct (getTripRequiredSkills trip) as [l|name]; [|discriminate].
    exfalso. clear - H2. induction l as [|x l IH]; cbn in H2; [discriminate|].
    auto. }
  split; [exact Hv|].
  unfold getVehicleTypeCompatibility, getTripRequiredSkills, getVehicleSkills
    in H1, H2.
  destruct (Vehicle.type v) as [t|]; [|discriminate].
  destruct (Trip.vehicleType trip) as [r|]; [|split; discriminate].
  cbn [is_lit] in *.
  split; intros Hr; apply String.eqb_eq in Hr; subst r;
    destruct (literal_or_other t) as [->|[->|[->|(E1 & _ & E2 & _ & E3 & _)]]];
    try reflexivity;
    try (rewrite E1, E2, E3 in Hv; discriminate);
    vm_compute in H1, H2; first [discriminate H1 | discriminate H2].
Qed.

Lemma filter_split_length {A : Type} (f : A -> bool) l :
  (List.length (filter f l) + List.length (filter (fun x => negb (f x)) l))%nat
  = List.length l.
Proof.
  induction l as [|x l IH]; cbn; [reflexivity|]. destruct (f x); cbn; lia.
Qed.

(** What the solver returns, in terms of the state the assignment loop ends
    in and of the map the improvement pass leaves. *)
Lemma fallbackVRPSolver_run random trips vehicles dm durm config n :
  let cfg := match config with Some c => c | None => default_config end in
  exists rs m m',
    loop_invariant cfg vehicles (Engine.Array_sort compare_trips trips) (rs, m) /\
    Forall2 reordered m m' /\
    let res := fst (fallbackVRPSolver random trips vehicles dm durm config n) in
    results res = rs /\
    vehicleAssignments res = map snd m' /\
    totalTrips (summary res) = List.length trips /\
    assignedTrips (summary res) = List.length (filter is_assigned rs) /\
    unassignedTrips (summary res)
    = (List.length rs - List.length (filter is_assigned rs))%nat /\
    unassigned res
    = map (fun r => (Trip.id (fe_trip r), 1%Z, fe_reason r))
          (filter (fun r => negb (is_assigned r)) rs).
Proof.
  intros cfg. unfold fallbackVRPSolver. fold cfg.
  pose proof (assign_all_invariant cfg vehicles (Engine.Array_sort compare_trips trips)
                [] _ (initial_assignments_invariant cfg vehicles)) as Hinv.
  cbn [app] in Hinv.
  destruct (fold_left (assign_step cfg) _ _) as [rs m].
  destruct (improve_all_reordered random m [] n) as (m' & Em & Hm).
  destruct (rand_fold (improve_step random) m [] n) as [m1 n']. cbn in Em. subst m1.
  exists rs, m, m'. split; [exact Hinv|]. split; [exact Hm|].
  cbn. repeat split.
Qed.

(** Conservation in the fallback solver: the results hold every input trip
    exactly once, in the order of the priority sort; the assigned and
    unassigned counts add up to the number of trips, the unassigned list has
    one entry per unassigned trip, and the trip lists of the vehicles hold
    exactly the assigned trips, each once. *)
Theorem fallbackVRPSolver_conservation :
  forall (random : nat -> float) (trips : list Trip.t) (vehicles : list Vehicle.t)
         (dm durm : list (list float)) (config : option TimeWindowConfig) (n : nat),
    let res := fst (fallbackVRPSolver random trips vehicles dm durm config n) in
    map fe_trip (results res) = Engine.Array_sort compare_trips trips /\
    Permutation (map fe_trip (results res)) trips /\
    (assignedTrips (summary res) + unassignedTrips (summary res))%nat
    = totalTrips (summary res) /\
    List.length (unassigned res) = unassignedTrips (summary res) /\
    Permutation (carried (vehicleAssignments res)) (assigned_trips (results res)).
Proof.
  intros random trips vehicles dm durm config n.
  destruct (fallbackVRPSolver_run random trips vehicles dm durm config n)
    as (rs & m & m' & Hinv & Hm & Hres).
  cbv zeta in *. destruct Hres as (-> & -> & -> & -> & -> & ->).
  destruct Hinv as (_ & _ & _ & _ & _ & Hp & Hc & _).
  assert (Hl : List.length rs = List.length trips).
  { rewrite <- (length_map fe_trip), Hp.
    apply Permutation_length, ScoringFacts.Array_sort_perm. }
  pose proof (filter_split_length is_assigned rs) as Hf.
  repeat split.
  - exact Hp.
  - rewrite Hp. apply ScoringFacts.Array_sort_perm.
  - lia.
  - rewrite length_map. lia.
  - rewrite <- Hc. now apply carried_reordered.
Qed.

(** Vehicle types in the fallback solver: a trip is only ever placed on a
    vehicle of the input list whose type is Ambulance, VSL or Taxi; a trip
    that requires an Ambulance only on an Ambulance; a trip that requires a
    VSL never on a Taxi. *)
Theorem fallbackVRPSolver_respects_vehicle_types :
  forall (random : nat -> float) (trips : list Trip.t) (vehicles : list Vehicle.t)
         (dm durm : list (list float)) (config : option TimeWindowConfig) (n : nat),
    let res := fst (fallbackVRPSolver random trips vehicles dm durm config n) in
    Forall (fun entry =>
      forall v s d, fe_assignment entry = Some (v, s, d) ->
        In v vehicles /\
        (is_lit (Vehicle.type v) "Ambulance" || is_lit (Vehicle.type v) "VSL"
         || is_lit (Vehicle.type v) "Taxi") = true /\
        (is_lit (Trip.vehicleType (fe_trip entry)) "Ambulance" = true ->
         is_lit (Vehicle.type v) "Ambulance" = true) /\
        (is_lit (Trip.vehicleType (fe_trip entry)) "VSL" = true ->
         is_lit (Vehicle.type v) "Taxi" = false)) (results res).
Proof.
  intros random trips vehicles dm durm config n.
  destruct (fallbackVRPSolver_run random trips vehicles dm durm config n)
    as (rs & m & m' & Hinv & Hm & Hres).
  cbv zeta in *. destruct Hres as (-> & _).
  destruct Hinv as (_ & _ & _ & Hw & Hin & _).
  rewrite Forall_forall in *. intros e He v s d E.
  split; [exact (Hin e He v s d E)|].
  specialize (Hw e He). unfold well_assigned in Hw. rewrite E in Hw.
  destruct Hw as (_ & Hc & _). now apply considered_types.
Qed.

(** The vehicle with id 0: [findBestVehicleForTrip] tests the id of the best
    vehicle for truthiness, so the fallback solver never assigns a trip to a
    vehicle whose id is 0, and such a vehicle ends with an empty trip list. *)
Theorem fallbackVRPSolver_skips_vehicle_zero :
  forall (random : nat -> float) (trips : list Trip.t) (vehicles : list Vehicle.t)
         (dm durm : list (list float)) (config : option TimeWindowConfig) (n : nat),
    let res := fst (fallbackVRPSolver random trips vehicles dm durm config n) in
    Forall (fun entry =>
      forall v s d, fe_assignment entry = Some (v, s, d) -> Vehicle.id v <> 0%Z)
      (results res) /\
    Forall (fun a => Vehicle.id (va_vehicle a) = 0%Z -> va_trips a = [])
      (vehicleAssignments res).
Proof.
  intros random trips vehicles dm durm config n.
  destruct (fallbackVRPSolver_run random trips vehicles dm durm config n)
    as (rs & m & m' & Hinv & Hm & Hres).
  cbv zeta in *. destruct Hres as (-> & -> & _).
  destruct Hinv as (_ & _ & _ & Hw & _ & _ & _ & Hz & _).
  split.
  - rewrite Forall_forall in *. intros e He v s d E.
    specialize (Hw e He). unfold well_assigned in Hw. rewrite E in Hw. tauto.
  - clear - Hz Hm. induction Hm as [|e e' m m' (_ & Hv & Hp & _) _ IH]; cbn;
      [constructor|].
    pose proof (Forall_inv Hz) as Hz1. pose proof (Forall_inv_tail Hz) as Hz2.
    constructor; [|auto].
    intros E. rewrite Hv in E. rewrite (Hz1 E) in Hp.
    now apply Permutation_nil.
Qed.

(** Conflicts in the fallback solver: under a configuration that does not
    allow the conflict penalty, no vehicle ends with two trips that the
    conflict gate reports as conflicting, in either order. *)
Theorem fallbackVRPSolver_conflict_free_without_penalty :
  forall (random : nat -> float) (trips : list Trip.t) (vehicles : list Vehicle.t)
         (dm durm : list (list float)) (config : TimeWindowConfig) (n : nat),
    allowConflictPenalty config = false ->
    let res := fst (fallbackVRPSolver random trips vehicles dm durm (Some config) n) in
    Forall (fun a => ForallOrdPairs (compatible (Some config)) (va_trips a))
           (vehicleAssignments res).
Proof.
  intros random trips vehicles dm durm config n Hoff.
  destruct (fallbackVRPSolver_run random trips vehicles dm durm (Some config) n)
    as (rs & m & m' & Hinv & Hm & Hres).
  cbv zeta in *. destruct Hres as (_ & -> & _).
  destruct Hinv as (_ & _ & _ & _ & _ & _ & _ & _ & Hpair).
  specialize (Hpair Hoff).
  clear - Hpair Hm. induction Hm as [|e e' m m' (_ & _ & Hp & _) _ IH]; cbn;
    [constructor|].
  pose proof (Forall_inv Hpair) as H1. pose proof (Forall_inv_tail Hpair) as H2.
  constructor; [|auto].
  apply (pairs_perm _ (va_trips (snd e))); [apply compatible_sym| |exact H1].
  now symmetry.
Qed.

End WithHost.

(** The 2-opt pass of the fallback solver: the route it returns holds the
    trips it was given, each once, with the first trip in place; when it
    reports no improvement the route is the one it was given; and it draws
    one random number for the route and one per candidate swap, none for a
    route of at most two trips. *)
Theorem apply2OptImprovement_keeps_trips :
  forall (random : nat -> float) (trips : list Trip.t) (n : nat),
    let r := fst (apply2OptImprovement random trips n) in
    Permutation (imp_trips r) trips /\
    hd_error (imp_trips r) = hd_error trips /\
    (improved r = false -> imp_trips r = trips) /\
    snd (apply2OptImprovement random trips n)
    = (if Nat.leb (List.length trips) 2 then n
       else n + 1 + List.length (swap_pairs (List.length trips)))%nat.
Proof.
  intros random trips n.
  destruct (apply2OptImprovement_reorders random trips n) as (H1 & H2 & H3).
  repeat split; try assumption.
  unfold apply2OptImprovement. destruct (Nat.leb _ 2); [reflexivity|].
  cbn [calculateRouteDistance].
  pose proof (try_swaps_draws random trips (swap_pairs (List.length trips))
    {| bestTrips := trips;
       bestDistance := Engine.of_nat (List.length trips) * 10 + random n * 5;
       wasImproved := false |} (S n)) as H.
  destruct (rand_fold _ _ _ _) as [st n']. cbn in *. lia.
Qed.

(** Two trips ten minutes apart on one vehicle, penalties off: the second
    trip is left unassigned and the vehicle carries no conflicting pair. *)
Lemma fallbackVRPSolver_conflict_free_instance :
  Forall (fun a => ForallOrdPairs (compatible (Some Scenarios.strict_config)) (va_trips a))
    (vehicleAssignments
       (fst (@fallbackVRPSolver Examples.example_host Examples.draws_a
               Scenarios.close_trips [Examples.vsl_1] [] []
               (Some Scenarios.strict_config) 0%nat))).
Proof.
  apply (@fallbackVRPSolver_conflict_free_without_penalty Examples.example_host).
  reflexivity.
Defined.

End FallbackInvariants.

(* ================================================================== *)
(** * Identifiers and waiting times of return courses *)
(* ================================================================== *)

Module ReturnCoursesMore.

Import JS ReturnCourses Waiting Props ReturnCoursesFacts.

Lemma generateReturnCourse_id c k r :
  generateReturnCourse c k = Normal r -> Trip.id r = k.
Proof.
  unfold generateReturnCourse.
  destruct (if truthy (Trip.returnTime c) then _ else _) as [e|]; [|discriminate].
  destruct (spread (Trip.destinationCoords c)); [|discriminate].
  destruct (spread (Trip.coordinates c)); [|discriminate].
  cbn. now intros [= <-].
Qed.

Lemma generate_loop_ids cs :
  forall m acc out,
    generate_loop cs m acc = Normal out ->
    exists gen,
      out = (acc ++ gen)%list /\
      map Trip.id gen = map (fun i => m + 1 + Z.of_nat i) (seq 0 (List.length gen)).
Proof.
  induction cs as [|c cs IH]; intros m acc out H; cbn in H.
  - injection H as <-. exists []. now rewrite app_nil_r.
  - destruct (qualifies c).
    + destruct (generateReturnCourse c (m + 1)) as [r|] eqn:Er; [|discriminate].
      cbn in H. apply IH in H. destruct H as (gen & -> & Hids).
      exists (r :: gen). rewrite <- app_assoc. split; [reflexivity|].
      cbn. rewrite (generateReturnCourse_id _ _ _ Er). f_equal; [lia|].
      rewrite Hids, <- seq_shift, map_map. apply map_ext. intros i. lia.
    + apply IH in H. exact H.
Qed.

Lemma max_id_ge cs c : In c cs -> Trip.id c <= max_id cs.
Proof.
  unfold max_id. induction cs as [|x cs IH]; [easy|]. cbn.
  intros [->|H]; [lia|]. specialize (IH H). lia.
Qed.

(** Identifiers of the generated return courses: on courses whose return
    data is present, the k-th return course generated has the identifier
    [max + k], where [max] is the largest identifier of the input (0 when
    none is positive); so every generated identifier is above every input
    identifier, and the list [processCoursesWithReturns] returns has
    pairwise distinct identifiers whenever the input has. *)
Theorem generateReturnCourses_fresh_ids :
  forall courses : list Trip.t,
    Forall has_return_data courses ->
    exists returns,
      generateReturnCourses courses = Normal returns /\
      processCoursesWithReturns courses = Normal (courses ++ returns)%list /\
      map Trip.id returns
      = map (fun i => max_id courses + 1 + Z.of_nat i) (seq 0 (List.length returns)) /\
      (forall c r, In c courses -> In r returns -> Trip.id c < Trip.id r) /\
      NoDup (map Trip.id returns) /\
      (NoDup (map Trip.id courses) -> NoDup (map Trip.id (courses ++ returns))).
Proof.
  intros courses Hwf.
  destruct (generate_loop_total courses Hwf (max_id courses) []) as [out Hout].
  destruct (generate_loop_ids _ _ _ _ Hout) as (gen & E & Hids). cbn in E. subst out.
  exists gen. unfold processCoursesWithReturns, generateReturnCourses. rewrite Hout.
  split; [reflexivity|]. split; [reflexivity|]. split; [exact Hids|].
  assert (Habove : forall c r, In c courses -> In r gen -> Trip.id c < Trip.id r).
  { intros c r Hc Hr. apply (in_map Trip.id) in Hr. rewrite Hids in Hr.
    apply in_map_iff in Hr. destruct Hr as (i & <- & _).
    pose proof (max_id_ge _ _ Hc). lia. }
  assert (Hnd : NoDup (map Trip.id gen)).
  { rewrite Hids. apply Finite.Injective_map_NoDup; [|apply seq_NoDup].
    intros i j. lia. }
  split; [exact Habove|]. split; [exact Hnd|].
  intros Hc. rewrite map_app. apply NoDup_app; [exact Hc|exact Hnd|].
  intros x Hx Hy. apply in_map_iff in Hx, Hy.
  destruct Hx as (c & <- & Hc'), Hy as (r & Er & Hr).
  pose proof (Habove c r Hc' Hr). lia.
Qed.

(** The scenario trip: its return course gets the identifier 2. *)
Lemma generateReturnCourses_fresh_ids_instance :
  exists returns,
    generateReturnCourses [Examples.trip_1] = Normal returns /\
    processCoursesWithReturns [Examples.trip_1]
    = Normal ([Examples.trip_1] ++ returns)%list /\
    map Trip.id returns
    = map (fun i => max_id [Examples.trip_1] + 1 + Z.of_nat i)
          (seq 0 (List.length returns)) /\
    (forall c r, In c [Examples.trip_1] -> In r returns -> Trip.id c < Trip.id r) /\
    NoDup (map Trip.id returns) /\
    (NoDup (map Trip.id [Examples.trip_1]) ->
     NoDup (map Trip.id ([Examples.trip_1] ++ returns))).
Proof.
  apply (generateReturnCourses_fresh_ids [Examples.trip_1]).
  constructor; [|constructor]. unfold has_return_data. cbn.
  repeat split; try discriminate. right. discriminate.
Defined.

(** The times of a generated return course. *)
Lemma generateReturnCourse_clock c k r :
  generateReturnCourse c k = Normal r ->
  (truthy (Trip.returnTime c) = true ->
   exists x, clock_minutes (or_default (Trip.returnTime c) "") = Some x) ->
  (truthy (Trip.returnTime c) = false ->
   exists a x d, Trip.appointmentTime c = Some a /\
                 clock_minutes a = Some x /\ Trip.duration c = Some d /\ 0 <= d) ->
  exists exit earliest x,
    Trip.isReturnTrip r = true /\
    Trip.maxWaitTime r = Some 240 /\
    Trip.exitTime r = Some exit /\
    Trip.earliestPickupTime r = Some earliest /\
    clock_minutes exit = Some x /\
    clock_minutes earliest = Some (x + 15).
Proof.
  intros H Hrt Happt. unfold generateReturnCourse in H.
  assert (Hexit : forall e x, clock_minutes e = Some x ->
            clock_minutes (calculateReturnPickupTime e 15) = Some (x + 15)).
  { intros e x He. unfold calculateReturnPickupTime. rewrite He. cbn [nadd].
    apply clock_minutes_format. apply clock_minutes_nonneg in He. lia. }
  destruct (truthy (Trip.returnTime c)) eqn:Et.
  - destruct (Hrt eq_refl) as [x Hx]. cbn [bind] in H.
    destruct (spread (Trip.destinationCoords c)); [|discriminate].
    destruct (spread (Trip.coordinates c)); [|discriminate].
    cbn in H. injection H as <-. cbn.
    eexists _, _, x. repeat split; [exact Hx|]. now apply Hexit.
  - destruct (Happt eq_refl) as (a & x & d & Ha & Hx & Hd & Hd0).
    rewrite Ha, Hd in H. cbn [calculateExitTime bind] in H.
    destruct (spread (Trip.destinationCoords c)); [|discriminate].
    destruct (spread (Trip.coordinates c)); [|discriminate].
    cbn [bind] in H. injection H as <-. cbn [Trip.isReturnTrip Trip.maxWaitTime
      Trip.exitTime Trip.earliestPickupTime].
    rewrite Hx. cbn [nadd].
    pose proof (clock_minutes_nonneg _ _ Hx) as Hx0.
    assert (He : clock_minutes (format_clock (Some (x + d))) = Some (x + d))
      by (apply clock_minutes_format; lia).
    eexists _, _, (x + d). repeat split; [exact He|]. now apply Hexit.
Qed.

Lemma waiting_time_of rc exit x t :
  Trip.isReturnTrip rc = true -> Trip.exitTime rc = Some exit ->
  clock_minutes exit = Some x ->
  calculateWaitingTime rc t = Math_max (Some 0) (nsub (clock_minutes t) (Some x)).
Proof.
  intros Hr He Hx. unfold calculateWaitingTime. rewrite Hr, He.
  destruct exit as [|ch rest]; [discriminate Hx|]. cbn [truthy negb orb or_default].
  now rewrite Hx.
Qed.

(** Waiting times: a course that is not a return trip waits 0 minutes
    whatever the pickup text, and is not excessive unless its maximal wait
    is negative.  For the return course
    generated from a course with clock texts, a pickup at its earliest
    pickup time waits exactly 15 minutes and is not excessive; a pickup at
    a clock text [y] minutes into the day waits [max 0 (y - exit)] minutes
    and is excessive exactly when that exceeds 240. *)
Theorem calculateWaitingTime_of_generated_return :
  (forall (rc : Trip.t) (t : string),
      Trip.isReturnTrip rc = false ->
      calculateWaitingTime rc t = Some 0 /\
      ((forall m, Trip.maxWaitTime rc = Some m -> 0 <= m) ->
       isWaitTimeExcessive rc t = false))
  /\
  (forall (c : Trip.t) (k : Z) (r : Trip.t),
      generateReturnCourse c k = Normal r ->
      (truthy (Trip.returnTime c) = true ->
       exists x, clock_minutes (or_default (Trip.returnTime c) "") = Some x) ->
      (truthy (Trip.returnTime c) = false ->
       exists a x d, Trip.appointmentTime c = Some a /\
                     clock_minutes a = Some x /\ Trip.duration c = Some d /\ 0 <= d) ->
      exists exit earliest x,
        Trip.exitTime r = Some exit /\
        Trip.earliestPickupTime r = Some earliest /\
        clock_minutes exit = Some x /\
        calculateWaitingTime r earliest = Some 15 /\
        isWaitTimeExcessive r earliest = false /\
        (forall t y, clock_minutes t = Some y ->
           calculateWaitingTime r t = Some (Z.max 0 (y - x)) /\
           (isWaitTimeExcessive r t = true <-> 240 < y - x))).
Proof.
  split.
  - intros rc t Hr. unfold isWaitTimeExcessive, calculateWaitingTime. rewrite Hr. cbn.
    split; [reflexivity|]. unfold maxWaitTime_or_60. intros Hm.
    destruct (Trip.maxWaitTime rc) as [[|p|p]|]; cbn; try reflexivity.
    specialize (Hm _ eq_refl). lia.
  - intros c k r H Hrt Happt.
    destruct (generateReturnCourse_clock c k r H Hrt Happt)
      as (exit & earliest & x & Hr & Hmax & He & Hp & Hx & Hy).
    exists exit, earliest, x.
    assert (Hall : forall t y, clock_minutes t = Some y ->
              calculateWaitingTime r t = Some (Z.max 0 (y - x)) /\
              (isWaitTimeExcessive r t = true <-> 240 < y - x)).
    { intros t y Ht. unfold isWaitTimeExcessive.
      rewrite (waiting_time_of r exit x t Hr He Hx), Ht. cbn [nsub Math_max].
      split; [reflexivity|].
      unfold maxWaitTime_or_60. rewrite Hmax. cbn [nlt]. rewrite Z.ltb_lt. lia. }
    repeat split; try assumption.
    + destruct (Hall earliest (x + 15) Hy) as [E _]. rewrite E. f_equal. lia.
    + destruct (Hall earliest (x + 15) Hy) as [_ E].
      destruct (isWaitTimeExcessive r earliest); [|reflexivity].
      assert (240 < x + 15 - x) by now apply E. lia.
    + apply Hall; assumption.
    + apply Hall; assumption.
    + apply Hall; assumption.
Qed.

(** The scenario trip, an appointment at 09:00 for 45 minutes: its return
    course waits 15 minutes when picked up at its earliest pickup time. *)
Lemma calculateWaitingTime_instance :
  exists r,
    generateReturnCourse Examples.trip_1 2 = Normal r /\
    exists exit earliest x,
      Trip.exitTime r = Some exit /\
      Trip.earliestPickupTime r = Some earliest /\
      clock_minutes exit = Some x /\
      calculateWaitingTime r earliest = Some 15 /\
      isWaitTimeExcessive r earliest = false /\
      (forall t y, clock_minutes t = Some y ->
         calculateWaitingTime r t = Some (Z.max 0 (y - x)) /\
         (isWaitTimeExcessive r t = true <-> 240 < y - x)).
Proof.
  eexists. split; [vm_compute; reflexivity|].
  apply (proj2 calculateWaitingTime_of_generated_return Examples.trip_1 2).
  - vm_compute. reflexivity.
  - intros H. vm_compute in H. discriminate H.
  - intros _. exists "09:00", 540, 45.
    repeat split; try reflexivity; lia.
Defined.

End ReturnCoursesMore.

(* ================================================================== *)
(** * More on the scoring model and the batch optimizer *)
(* ================================================================== *)

Module EngineMore.

Import JS Engine Props EngineProps.

#[local] Open Scope float_scope.

Lemma detectConflicts_filter trip existing :
  map conflictingTrip (detectConflicts trip existing) = filter (within_30 trip) existing.
Proof.
  unfold detectConflicts, within_30.
  induction existing as [|e l IH]; cbn; [reflexivity|].
  destruct (nlt _ (Some 30%Z)); cbn; now rewrite IH.
Qed.


(** Every combination of tests, cross-type factor and whole base score
    between 0 and 100 gives an enhanced score that is a whole number
    between 10 and 125. *)
Lemma enhanced_core_range :
  forallb (fun z => forallb (fun c => forallb (fun s => forallb (fun u =>
    forallb (fun h => forallb (fun b => forallb (fun a =>
      whole_in 10 125 (enhanced_core s c u h b a (Num.of_Z z)))
    bools) bools) bools) bools) bools) crossTypeFactors) base_scores = true.
Proof. vm_compute. reflexivity. Qed.

Section WithHost.

Context {host : Host}.

(** The enhanced compatibility score is not a percentage.  Where the types
    of the trip and of the vehicle are not names of [Object.prototype], it
    is, for a whole base score between 0 and 100, a whole number between 10
    and 125; it is 125 for a base score of 100, a vehicle of the required
    type that is not busy, and an urgent trip; and for a trip of type
    Ambulance, VSL or Taxi and a vehicle whose type is a name of
    [Object.prototype] it is NaN whatever the base score. *)
Theorem calculateEnhancedCompatibilityScore_range :
  forall (trip : Trip.t) (vehicle : Vehicle.t),
    (plain (Trip.vehicleType trip) -> plain (Vehicle.type vehicle) ->
     forall z : Z, (0 <= z <= 100)%Z ->
       whole_between 10 125
         (calculateEnhancedCompatibilityScore trip vehicle (Num.of_Z z)))
    /\
    (strict_eq (Trip.vehicleType trip) (Vehicle.type vehicle) = true ->
     is_lit (Trip.priority trip) "urgent" = true ->
     is_lit (Vehicle.status vehicle) "busy" = false ->
     calculateEnhancedCompatibilityScore trip vehicle 100 = 125)
    /\
    ((is_lit (Trip.vehicleType trip) "Ambulance"
      || is_lit (Trip.vehicleType trip) "VSL"
      || is_lit (Trip.vehicleType trip) "Taxi") = true ->
     inherited_name (Vehicle.type vehicle) ->
     forall baseScore : float,
       calculateEnhancedCompatibilityScore trip vehicle baseScore = nan).
Proof.
  intros trip vehicle. split; [|split].
  - intros Ht Hv z Hz. rewrite ScoringFacts.calculateEnhancedCompatibilityScore_core.
    pose proof (ScoringFacts.forallb_apply _ _ z enhanced_core_range
                  (ScoringFacts.base_scores_in z Hz)) as H.
    cbv beta in H.
    pose proof (ScoringFacts.forallb_apply _ _ _ H
                  (ScoringFacts.cross_factor_values (Trip.vehicleType trip)
                     (Vehicle.type vehicle) Ht Hv)) as H'.
    cbv beta in H'. clear H. rename H' into H.
    apply (fun H => ScoringFacts.forallb_apply _ _
             (strict_eq (Trip.vehicleType trip) (Vehicle.type vehicle)) H
             (ScoringFacts.bools_in _)) in H.
    apply (fun H => ScoringFacts.forallb_apply _ _
             (is_lit (Trip.priority trip) "urgent") H (ScoringFacts.bools_in _)) in H.
    apply (fun H => ScoringFacts.forallb_apply _ _
             (is_lit (Trip.priority trip) "high") H (ScoringFacts.bools_in _)) in H.
    apply (fun H => ScoringFacts.forallb_apply _ _
             (is_lit (Vehicle.status vehicle) "busy") H (ScoringFacts.bools_in _)) in H.
    apply (fun H => ScoringFacts.forallb_apply _ _
             (is_lit (Vehicle.status vehicle) "available") H
             (ScoringFacts.bools_in _)) in H.
    unfold whole_in in H.
    destruct (Num.whole _) as [w|]; [|discriminate].
    apply andb_true_iff in H. destruct H as [H Heq].
    apply andb_true_iff in H. destruct H as [H1 H2].
    exists w. split; [lia|]. now apply FloatAxioms.Leibniz.eqb_spec.
  - intros Hs Hu Hb. rewrite ScoringFacts.calculateEnhancedCompatibilityScore_core.
    rewrite Hs, Hu, Hb.
    destruct (is_lit (Trip.priority trip) "high"),
             (is_lit (Vehicle.status vehicle) "available");
      vm_compute; reflexivity.
  - intros Ht Hv baseScore.
    destruct (ScoringFacts.table_type_not_inherited _ _ Ht Hv) as [Hne Hcf].
    rewrite ScoringFacts.calculateEnhancedCompatibilityScore_core, Hne, Hcf.
    apply ScoringFacts.enhanced_core_nan.
Qed.


(** ** The first pass of the batch optimizer *)

Lemma details_conflicts trip v existing d :
  details (calculateOptimizationScore trip v existing) = DetailsOk d ->
  conflicts d = detectConflicts trip existing.
Proof.
  unfold calculateOptimizationScore, score_body.
  destruct (geocodeAddress (Trip.pickup trip)); cbn [bind]; [|discriminate].
  destruct (geocodeAddress (Trip.destination trip)); cbn [bind]; [|discriminate].
  destruct (geocodeAddress (Some _)); cbn [bind]; [|discriminate].
  cbn. now intros [= <-].
Qed.

Lemma candidates_of_updated vehicles m w :
  In w (candidates (updated_vehicles vehicles m)) ->
  in_service w /\
  exists v, In v vehicles /\ Vehicle.id v = Vehicle.id w /\
            Vehicle.name v = Vehicle.name w.
Proof.
  unfold candidates, updated_vehicles. intros H. apply filter_In in H.
  destruct H as [Hin Hs]. apply in_map_iff in Hin. destruct Hin as (v & <- & Hv).
  split.
  - unfold in_service. cbn in *. now destruct (is_lit (Vehicle.status v) "maintenance").
  - exists v. cbn. auto.
Qed.

Lemma first_pass_step_entries vehicles st trip st' :
  first_pass_step vehicles st trip = Normal st' ->
  Forall (first_pass_entry vehicles) (st_results st) ->
  Forall (first_pass_entry vehicles) (st_results st').
Proof.
  unfold first_pass_step. intros H Hall.
  destruct (ScoringFacts.findBestVehicleAssignment_cases trip
              (updated_vehicles vehicles (st_vehicleAssignments st)))
    as [(_ & r & Hr & Hs & _)
       |(_ & r & best & others & Hr & Hs & Hrec & _ & _ & _ & _ & Hp & Hev)];
    rewrite Hr in H; cbn [bind] in H; rewrite Hs in H.
  - injection H as <-. exact Hall.
  - rewrite Hrec in H.
    destruct (details (optimization best)) as [d|msg] eqn:Ed; [|discriminate].
    cbn [conflicts_length bind] in H.
    destruct (Nat.eqb_spec (List.length (conflicts d)) 0) as [Hz|Hnz];
      [|injection H as <-; exact Hall].
    destruct (map_push _ _ _) as [m'|]; [|discriminate]. cbn [bind] in H.
    injection H as <-. cbn [st_results].
    apply Forall_app. split; [exact Hall|]. constructor; [|constructor].
    intros _ _. exists best, d. cbn [be_assignment be_trip].
    assert (Hin : In (vehicle best) (candidates
                     (updated_vehicles vehicles (st_vehicleAssignments st)))).
    { apply (Permutation_in _ Hp). now left. }
    destruct (candidates_of_updated _ _ _ Hin) as [Hs' Hv].
    apply length_zero_iff_nil in Hz.
    repeat split; auto.
    destruct (Forall_inv Hev) as (_ & Hd). rewrite Ed in Hd. symmetry in Hd.
    apply details_conflicts in Hd. rewrite Hz in Hd.
    pose proof (detectConflicts_filter trip (trips_of (vehicle best))) as Hf.
    rewrite <- Hd in Hf. cbn in Hf. symmetry in Hf.
    apply Forall_forall. intros t Ht.
    destruct (within_30 trip t) eqn:E; [|reflexivity].
    assert (In t (filter (within_30 trip) (trips_of (vehicle best))))
      by (apply filter_In; auto).
    rewrite Hf in H. destruct H.
Qed.

Lemma first_pass_entries vehicles l st st' :
  for_each l (first_pass_step vehicles) st = Normal st' ->
  Forall (first_pass_entry vehicles) (st_results st) ->
  Forall (first_pass_entry vehicles) (st_results st').
Proof.
  revert st. induction l as [|trip l IH]; intros st; cbn [for_each].
  - now intros [= <-].
  - destruct (first_pass_step vehicles st trip) as [st1|] eqn:E; [|discriminate].
    cbn [bind]. intros H Hall. apply (IH st1 H).
    now apply (first_pass_step_entries vehicles st trip).
Qed.

Lemma second_pass_step_entries trips vehicles st trip st' :
  second_pass_step trips vehicles st trip = Normal st' ->
  Forall (first_pass_entry vehicles) (st_results st) ->
  Forall (first_pass_entry vehicles) (st_results st').
Proof.
  unfold second_pass_step. intros H Hall.
  destruct (resolveConflicts trip _ trips) as [cr|]; [|discriminate]. cbn [bind] in H.
  destruct (recommendedStrategy cr) as [strategy|].
  - destruct (applyResolutionStrategy _ _ _ _) as [[ap m]|]; [|discriminate].
    cbn [bind fst snd] in H. destruct ap; injection H as <-; cbn [st_results];
      apply Forall_app; (split; [exact Hall|]); constructor; try constructor;
      unfold first_pass_entry; cbn; discriminate.
  - injection H as <-. cbn [st_results].
    apply Forall_app. split; [exact Hall|]. constructor; [|constructor].
    unfold first_pass_entry. cbn. discriminate.
Qed.

Lemma second_pass_entries trips vehicles l st st' :
  for_each l (second_pass_step trips vehicles) st = Normal st' ->
  Forall (first_pass_entry vehicles) (st_results st) ->
  Forall (first_pass_entry vehicles) (st_results st').
Proof.
  revert st. induction l as [|trip l IH]; intros st; cbn [for_each].
  - now intros [= <-].
  - destruct (second_pass_step trips vehicles st trip) as [st1|] eqn:E; [|discriminate].
    cbn [bind]. intros H Hall. apply (IH st1 H).
    now apply (second_pass_step_entries trips vehicles st trip).
Qed.

(** The first pass of the batch optimizer: in what [optimizeMultipleTrips]
    returns, every trip assigned without a resolution strategy carries the
    recommended evaluation of the resolver, on a vehicle of the fleet that is
    not in maintenance, with a full score detail that reports no conflict:
    no trip on that vehicle at that moment lies within 30 minutes of it. *)
Theorem optimizeMultipleTrips_first_pass_assignments :
  forall (trips : list Trip.t) (vehicles : list Vehicle.t) (r : BatchResult),
    optimizeMultipleTrips trips vehicles = Normal r ->
    Forall (first_pass_entry vehicles) (results r).
Proof.
  intros trips vehicles r. unfold optimizeMultipleTrips.
  destruct (for_each (Array_sort compare_trips trips) _ _) as [st1|] eqn:E1;
    [|discriminate]. cbn [bind].
  destruct (for_each (st_unresolvableConflicts st1) _ st1) as [st2|] eqn:E2;
    [|discriminate]. cbn [bind].
  intros [= <-]. cbn [results].
  apply (second_pass_entries _ _ _ _ _ E2).
  apply (first_pass_entries _ _ _ _ E1). constructor.
Qed.

(** ** Applying a rescheduling *)

Lemma map_get_set_same {V : Type} k (v : V) m : map_get k (map_set k v m) = Some v.
Proof.
  induction m as [|[k' v'] m IH]; cbn; [now rewrite Z.eqb_refl|].
  destruct (Z.eqb_spec k' k); cbn; [now rewrite Z.eqb_refl|].
  destruct (Z.eqb_spec k' k); [contradiction|exact IH].
Qed.

Lemma find_index_bound {A : Type} (f : A -> bool) l i :
  find_index f l = Some i -> (i < List.length l)%nat.
Proof.
  revert i. induction l as [|x l IH]; intros i; cbn; [discriminate|].
  destruct (f x); [intros [= <-]; lia|].
  destruct (find_index f l) as [j|]; [|discriminate].
  cbn. intros [= <-]. specialize (IH j eq_refl). lia.
Qed.

Lemma remove_at_length {A : Type} i (l : list A) :
  (i < List.length l)%nat -> S (List.length (remove_at i l)) = List.length l.
Proof.
  revert i. induction l as [|x l IH]; intros i; cbn; [lia|].
  destruct i as [|i]; [reflexivity|]. cbn. intros H. rewrite IH; lia.
Qed.

(** [applyRescheduling] applies what it is given without a check: as soon
    as the named vehicle is found and carries a trip of the named patient,
    it succeeds, whatever the status of the vehicle and whatever the score;
    the vehicle then carries one trip more, the moved trip and the new trip
    at the end.  The score it reports is computed against a list that holds
    the new trip itself, so when the detail is a full one and the time of
    the trip reads as a clock, the trip is reported in conflict with
    itself, at distance 0. *)
Theorem applyRescheduling_applies_unchecked :
  forall (trip : Trip.t) (option : ReschedulingOption) (vehicles : list Vehicle.t)
         (vehicleAssignments : IdMap (list Trip.t))
         (target : Vehicle.t) (current : list Trip.t) (i : nat),
    find_by_name vehicles (ro_vehicle option) = Some target ->
    map_get (Vehicle.id target) vehicleAssignments = Some current ->
    find_index (same_patient option) current = Some i ->
    let updated := rescheduled_trips trip option current i in
    let optimization := calculateOptimizationScore trip target updated in
    applyRescheduling trip option vehicles vehicleAssignments
    = Normal (applied (of_resolution target optimization)
                      (rd_rescheduling (ro_tripToReschedule option) "medium"),
              map_set (Vehicle.id target) updated vehicleAssignments) /\
    map_get (Vehicle.id target)
            (map_set (Vehicle.id target) updated vehicleAssignments) = Some updated /\
    List.length updated = S (List.length current) /\
    (forall d x,
        details optimization = DetailsOk d ->
        convertTimeToMinutes (trip_time trip) = Some x ->
        In {| conflictingTrip := with_estimatedDuration trip 1;
              timeDifference := Some 0%Z;
              severity := severity_high |} (conflicts d)).
Proof.
  intros trip option vehicles m target current i Hv Hc Hi updated optimization.
  split; [|split; [|split]].
  - unfold applyRescheduling. rewrite Hv, Hc.
    change (fun t => String.eqb (Trip.patient t)
                       (tr_patient (ro_tripToReschedule option)))
      with (same_patient option).
    rewrite Hi. reflexivity.
  - apply map_get_set_same.
  - unfold updated, rescheduled_trips. rewrite length_app. cbn.
    pose proof (remove_at_length i current (find_index_bound _ _ _ Hi)). lia.
  - intros d x Hd Hx. apply details_conflicts in Hd. rewrite Hd.
    unfold detectConflicts. apply in_flat_map.
    exists (with_estimatedDuration trip 1). split.
    + unfold updated, rescheduled_trips. apply in_or_app. right. cbn. auto.
    + assert (E : time_diff (convertTimeToMinutes (trip_time trip))
                            (with_estimatedDuration trip 1) = Some 0%Z).
      { unfold time_diff.
        change (trip_time (with_estimatedDuration trip 1)) with (trip_time trip).
        rewrite Hx. cbn. f_equal. lia. }
      rewrite E. cbn. auto.
Qed.

(** ** The empty batch *)

(** On an empty list of trips the batch optimizer returns no result, with
    all counts and totals 0 and a resolution rate of 0, but an assignment
    rate that is NaN (0 divided by 0), whatever the vehicles. *)
Theorem optimizeMultipleTrips_empty_batch :
  forall vehicles : list Vehicle.t,
  exists r,
    optimizeMultipleTrips [] vehicles = Normal r /\
    results r = [] /\
    totalTrips (summary r) = 0%nat /\
    assignedTrips (summary r) = 0%nat /\
    unassignedTrips (summary r) = 0%nat /\
    is_nan (assignmentRate (summary r)) = true /\
    resolutionRate (conflictResolution r) = 0 /\
    averageOptimizationScore (summary r) = 0 /\
    sum_totalDistance (summary r) = 0 /\
    estimatedFuelCost (summary r) = 0.
Proof.
  intros vehicles. unfold optimizeMultipleTrips. cbn.
  eexists. split; [reflexivity|]. cbn. repeat split; vm_compute; reflexivity.
Qed.

(** ** A fleet in maintenance *)

Lemma maintenance_not_other status :
  is_lit status "maintenance" = true ->
  is_lit status "available" = false /\ is_lit status "busy" = false.
Proof.
  destruct status as [s|]; [|discriminate]. cbn. intros H.
  apply String.eqb_eq in H. subst s. split; reflexivity.
Qed.

Lemma updated_all_in_maintenance vehicles m :
  all_in_maintenance vehicles -> all_in_maintenance (updated_vehicles vehicles m).
Proof.
  unfold all_in_maintenance, updated_vehicles. intros H.
  apply Forall_map. eapply Forall_impl; [|exact H]. intros v Hv. exact Hv.
Qed.

Lemma for_each_skip {A S : Type} (l : list A) (body : S -> A -> completion S) acc :
  (forall a x, In x l -> body a x = Normal a) -> for_each l body acc = Normal acc.
Proof.
  induction l as [|x l IH]; intros H; cbn; [reflexivity|].
  rewrite H by now left. cbn. apply IH. intros a y Hy. apply H. now right.
Qed.

Lemma findAlternativeTimeSlots_in_maintenance trip vehicles :
  all_in_maintenance vehicles -> findAlternativeTimeSlots trip vehicles = Normal [].
Proof.
  intros H. unfold findAlternativeTimeSlots.
  rewrite for_each_skip; [reflexivity|].
  intros a slot _. destruct (String.eqb slot (trip_time trip)); [reflexivity|].
  apply for_each_skip. intros a' v Hv.
  unfold all_in_maintenance in H. rewrite Forall_forall in H.
  destruct (maintenance_not_other _ (H v Hv)) as [-> ->]. reflexivity.
Qed.

Lemma findAlternativeVehicles_in_maintenance trip vehicles :
  all_in_maintenance vehicles -> findAlternativeVehicles trip vehicles = Normal [].
Proof.
  intros H. unfold findAlternativeVehicles.
  rewrite for_each_skip; [reflexivity|].
  intros a v Hv. unfold all_in_maintenance in H. rewrite Forall_forall in H.
  now rewrite (H v Hv).
Qed.

Lemma push_if_any_moves {A : Type} strategies (mk : list A -> ResolutionStrategy) options :
  (forall o, moves_or_combines (mk o)) ->
  Forall moves_or_combines strategies ->
  Forall moves_or_combines (push_if_any strategies mk options).
Proof.
  intros Hmk H. unfold push_if_any. destruct options; [exact H|].
  apply Forall_app. split; [exact H|]. constructor; [apply Hmk|constructor].
Qed.

Lemma resolveConflicts_in_maintenance trip vehicles allTrips cr :
  all_in_maintenance vehicles ->
  resolveConflicts trip vehicles allTrips = Normal cr ->
  forall s, recommendedStrategy cr = Some s -> moves_or_combines s.
Proof.
  intros H. unfold resolveConflicts.
  rewrite (findAlternativeTimeSlots_in_maintenance _ _ H). cbn [bind push_if_any].
  rewrite (findAlternativeVehicles_in_maintenance _ _ H). cbn [bind push_if_any].
  destruct (suggestRescheduling trip vehicles allTrips) as [ro|]; [|discriminate].
  cbn [bind].
  destruct (suggestTripOptimizations trip vehicles allTrips) as [oo|]; [|discriminate].
  cbn [bind]. intros [= <-] s. cbn [recommendedStrategy].
  assert (Hall : Forall moves_or_combines
            (push_if_any (push_if_any [] reschedule_existing ro) trip_optimization oo)).
  { apply push_if_any_moves; [intros; exact I|].
    apply push_if_any_moves; [intros; exact I|constructor]. }
  destruct (push_if_any _ trip_optimization oo) as [|s0 rest]; [discriminate|].
  cbn. intros [= <-]. exact (Forall_inv Hall).
Qed.

Lemma find_by_name_in vehicles name v :
  find_by_name vehicles name = Some v -> In v vehicles.
Proof. unfold find_by_name. intros H. now apply find_some in H. Qed.

Lemma applyResolutionStrategy_in_maintenance trip s vehicles m a rd m' :
  all_in_maintenance vehicles -> moves_or_combines s ->
  applyResolutionStrategy trip s vehicles m = Normal (applied a rd, m') ->
  exists v o, a = of_resolution v o /\ is_lit (Vehicle.status v) "maintenance" = true.
Proof.
  intros H Hs. unfold all_in_maintenance in H. rewrite Forall_forall in H.
  destruct s as [o|o|o|o]; try destruct Hs; cbn [applyResolutionStrategy].
  - destruct (first_option o) as [x|]; [|discriminate]. cbn [bind].
    unfold applyRescheduling.
    destruct (find_by_name vehicles (ro_vehicle x)) as [v|] eqn:Ev; [|discriminate].
    destruct (map_get (Vehicle.id v) m) as [cur|]; [|discriminate].
    destruct (find_index _ cur); [|discriminate].
    intros [= <- _ _]. eexists _, _. split; [reflexivity|].
    apply H. now apply (find_by_name_in _ _ _ Ev).
  - destruct (first_option o) as [x|]; [|discriminate]. cbn [bind].
    unfold applyTripOptimization. destruct x as [dsc c sv|dsc mv]; [|discriminate].
    destruct (find_by_name vehicles (ct_vehicle c)) as [v|] eqn:Ev; [|discriminate].
    destruct (40 <? _); [|discriminate].
    destruct (map_push _ _ m) as [m1|]; [|discriminate]. cbn [bind].
    intros [= <- _ _]. eexists _, _. split; [reflexivity|].
    apply H. now apply (find_by_name_in _ _ _ Ev).
Qed.

Lemma first_pass_in_maintenance vehicles l st :
  all_in_maintenance vehicles ->
  for_each l (first_pass_step vehicles) st
  = Normal {| st_results := st_results st;
              st_vehicleAssignments := st_vehicleAssignments st;
              st_unresolvableConflicts := (st_unresolvableConflicts st ++ l)%list |}.
Proof.
  intros H. revert st. induction l as [|trip l IH]; intros st; cbn [for_each].
  - rewrite app_nil_r. now destruct st.
  - assert (E : first_pass_step vehicles st trip
                = Normal {| st_results := st_results st;
                            st_vehicleAssignments := st_vehicleAssignments st;
                            st_unresolvableConflicts :=
                              (st_unresolvableConflicts st ++ [trip])%list |}).
    { unfold first_pass_step.
      destruct (ScoringFacts.findBestVehicleAssignment_cases trip
                  (updated_vehicles vehicles (st_vehicleAssignments st)))
        as [(_ & r & Hr & Hs & _)|(Hc & _)].
      - rewrite Hr. cbn [bind]. now rewrite Hs.
      - exfalso. apply Hc. apply ScoringFacts.candidates_nil_iff.
        now apply updated_all_in_maintenance. }
    rewrite E. cbn [bind]. rewrite IH. cbn. now rewrite <- app_assoc.
Qed.

Lemma second_pass_step_in_maintenance trips vehicles st trip st' :
  all_in_maintenance vehicles ->
  second_pass_step trips vehicles st trip = Normal st' ->
  Forall assigned_in_maintenance (st_results st) ->
  Forall assigned_in_maintenance (st_results st').
Proof.
  intros Hm. unfold second_pass_step. intros H Hall.
  pose proof (updated_all_in_maintenance vehicles (st_vehicleAssignments st) Hm) as Hu.
  destruct (resolveConflicts trip _ trips) as [cr|] eqn:Ecr; [|discriminate].
  cbn [bind] in H.
  pose proof (resolveConflicts_in_maintenance _ _ _ _ Hu Ecr) as Hrec.
  destruct (recommendedStrategy cr) as [strategy|].
  - destruct (applyResolutionStrategy _ _ _ _) as [[ap m]|] eqn:Eap; [|discriminate].
    cbn [bind fst snd] in H. destruct ap as [a rd|reason]; injection H as <-;
      cbn [st_results]; apply Forall_app; (split; [exact Hall|]);
      constructor; try constructor; unfold assigned_in_maintenance; cbn;
      [|discriminate].
    intros _.
    destruct (applyResolutionStrategy_in_maintenance _ _ _ _ _ _ _ Hu
                (Hrec _ eq_refl) Eap) as (v & o & -> & Hv).
    exists v, o, strategy. auto.
  - injection H as <-. cbn [st_results].
    apply Forall_app. split; [exact Hall|]. constructor; [|constructor].
    unfold assigned_in_maintenance. cbn. discriminate.
Qed.

Lemma second_pass_in_maintenance trips vehicles l st st' :
  all_in_maintenance vehicles ->
  for_each l (second_pass_step trips vehicles) st = Normal st' ->
  Forall assigned_in_maintenance (st_results st) ->
  Forall assigned_in_maintenance (st_results st').
Proof.
  intros Hm. revert st. induction l as [|trip l IH]; intros st; cbn [for_each].
  - now intros [= <-].
  - destruct (second_pass_step trips vehicles st trip) as [st1|] eqn:E; [|discriminate].
    cbn [bind]. intros H Hall. apply (IH st1 H).
    now apply (second_pass_step_in_maintenance trips vehicles st trip).
Qed.

(** A fleet in maintenance: when every vehicle is in maintenance the first
    pass of [optimizeMultipleTrips] assigns nothing, and the second pass
    finds no time adjustment and no vehicle change; but the rescheduling
    and the combination strategies do not look at the status of a vehicle,
    so a trip can still end assigned, and then it is on a vehicle in
    maintenance. *)
Theorem optimizeMultipleTrips_fleet_in_maintenance :
  forall (trips : list Trip.t) (vehicles : list Vehicle.t) (r : BatchResult),
    all_in_maintenance vehicles ->
    optimizeMultipleTrips trips vehicles = Normal r ->
    totalConflicts (conflictResolution r) = List.length trips /\
    Forall assigned_in_maintenance (results r).
Proof.
  intros trips vehicles r Hm. unfold optimizeMultipleTrips.
  rewrite (first_pass_in_maintenance vehicles _ _ Hm). cbn [bind st_results
    st_vehicleAssignments st_unresolvableConflicts app].
  destruct (for_each _ (second_pass_step trips vehicles) _) as [st2|] eqn:E2;
    [|discriminate]. cbn [bind].
  intros [= <-]. cbn [results conflictResolution totalConflicts]. split.
  - assert (Hk : forall l st st',
      for_each l (second_pass_step trips vehicles) st = Normal st' ->
      st_unresolvableConflicts st' = st_unresolvableConflicts st).
    { induction l as [|t l IH]; intros st st'; cbn [for_each]; [now intros [= <-]|].
      destruct (second_pass_step trips vehicles st t) as [st1|] eqn:E; [|discriminate].
      cbn [bind]. intros H. rewrite (IH _ _ H). clear - E.
      unfold second_pass_step in E.
      destruct (resolveConflicts t _ trips) as [cr|]; [|discriminate]. cbn [bind] in E.
      destruct (recommendedStrategy cr).
      - destruct (applyResolutionStrategy _ _ _ _) as [[ap m]|]; [|discriminate].
        cbn [bind fst snd] in E. destruct ap; now injection E as <-.
      - now injection E as <-. }
    rewrite (Hk _ _ _ E2). cbn.
    apply Permutation_length, ScoringFacts.Array_sort_perm.
  - apply (second_pass_in_maintenance _ _ _ _ _ Hm E2). constructor.
Qed.

End WithHost.

(** C7: the resolver and the fallback solver keep the vehicles in
    maintenance out, the rescheduling of the batch optimizer does not.
    [findBestVehicleAssignment] returns, and neither its recommended vehicle
    nor any of its alternatives is in maintenance; [fallbackVRPSolver]
    reports no assignment to a vehicle in maintenance and keeps no entry for
    one in its assignments.  But [optimizeMultipleTrips], given a trip at
    09:00 and one VSL in maintenance that carries a trip at 09:00, returns
    the trip assigned to that vehicle: the resolver finds no vehicle, and
    the second pass applies the rescheduling that [suggestRescheduling]
    proposes on the vehicle without a look at its status. *)
Theorem maintenance_vehicle_assigned_by_rescheduling :
  (forall (host : Host) (trip : Trip.t) (vehicles : list Vehicle.t),
   exists r,
     findBestVehicleAssignment trip vehicles = Normal r /\
     (forall e, recommended r = Some e ->
                In (vehicle e) vehicles /\ in_service (vehicle e)) /\
     (forall e, In e (alternatives r) ->
                In (vehicle e) vehicles /\ in_service (vehicle e)))
  /\
  (forall (host : Host) (random : nat -> float) (trips : list Trip.t)
          (vehicles : list Vehicle.t) (dm durm : list (list float))
          (config : option Fallback.TimeWindowConfig) (n : nat),
     let res :=
       fst (Fallback.fallbackVRPSolver random trips vehicles dm durm config n) in
     (forall entry v s d,
         In entry (Fallback.results res) ->
         Fallback.fe_assignment entry = Some (v, s, d) ->
         in_service v) /\
     (forall a, In a (Fallback.vehicleAssignments res) ->
                in_service (Fallback.va_vehicle a)))
  /\
  (exists r e o options,
     @optimizeMultipleTrips Examples.example_host [EngineScenarios.trip_2]
       [EngineScenarios.vsl_in_maintenance] = Normal r /\
     results r = [e] /\
     be_trip e = EngineScenarios.trip_2 /\
     be_status e = assigned /\
     be_assignment e = Some (of_resolution EngineScenarios.vsl_in_maintenance o) /\
     is_lit (Vehicle.status EngineScenarios.vsl_in_maintenance) "maintenance" = true /\
     be_resolutionApplied e = Some (reschedule_existing options) /\
     assignedTrips (summary r) = 1%nat).
Proof.
  split; [|split].
  - intros host trip vehicles. apply ScoringFacts.findBestVehicleAssignment_in_service.
  - intros host random trips vehicles dm durm config n res.
    destruct (FallbackFacts.fallbackVRPSolver_in_service random trips vehicles dm
                durm config n) as [Hr Ha].
    fold res in Hr, Ha. unfold Props.results_in_service in Hr.
    rewrite Forall_forall in Hr, Ha. split.
    + intros entry v s d Hin. now apply Hr.
    + exact Ha.
  - destruct (@optimizeMultipleTrips Examples.example_host [EngineScenarios.trip_2]
                [EngineScenarios.vsl_in_maintenance]) as [r|msg] eqn:E;
      vm_compute in E; [|discriminate E].
    injection E as <-. do 4 eexists. repeat split.
Qed.

(** The scenario trip on the scenario VSL with the base score 72: a whole
    number between 10 and 125; an Ambulance trip on a vehicle of type
    'constructor': NaN. *)
Lemma calculateEnhancedCompatibilityScore_range_instance :
  whole_between 10 125
    (@calculateEnhancedCompatibilityScore Examples.example_host Examples.trip_1
       Examples.vsl_1 (Num.of_Z 72)) /\
  @calculateEnhancedCompatibilityScore Examples.example_host
    Examples.ambulance_trip Examples.unit_constructor 100 = nan.
Proof.
  destruct (@calculateEnhancedCompatibilityScore_range Examples.example_host
              Examples.trip_1 Examples.vsl_1) as (H1 & _ & _).
  destruct (@calculateEnhancedCompatibilityScore_range Examples.example_host
              Examples.ambulance_trip Examples.unit_constructor) as (_ & _ & H3).
  split.
  - apply H1; [reflexivity|reflexivity|lia].
  - apply H3; reflexivity.
Defined.

(** The scenario trip alone: assigned in the first pass to the VSL. *)
Lemma optimizeMultipleTrips_first_pass_instance :
  exists r,
    @optimizeMultipleTrips Examples.example_host [Examples.trip_1] [Examples.vsl_1]
    = Normal r /\
    Forall (first_pass_entry [Examples.vsl_1]) (results r).
Proof.
  destruct (@optimizeMultipleTrips Examples.example_host [Examples.trip_1]
              [Examples.vsl_1]) as [r|e] eqn:E.
  - exists r. split; [reflexivity|].
    exact (@optimizeMultipleTrips_first_pass_assignments Examples.example_host
             [Examples.trip_1] [Examples.vsl_1] r E).
  - vm_compute in E. discriminate E.
Defined.

(** A rescheduling applied on a vehicle in maintenance. *)
Lemma applyRescheduling_instance :
  is_lit (Vehicle.status EngineScenarios.vsl_in_maintenance) "maintenance" = true /\
  exists a rd m',
    @applyRescheduling Examples.example_host EngineScenarios.trip_2
      EngineScenarios.move_to_7 [EngineScenarios.vsl_in_maintenance]
      [(1%Z, [Examples.trip_1])]
    = Normal (applied a rd, m') /\
    map_get 1 m'
    = Some [with_times Examples.trip_1 "07:00";
            with_estimatedDuration EngineScenarios.trip_2 1].
Proof.
  split; [reflexivity|].
  pose proof (@applyRescheduling_applies_unchecked Examples.example_host
                EngineScenarios.trip_2 EngineScenarios.move_to_7
                [EngineScenarios.vsl_in_maintenance] [(1%Z, [Examples.trip_1])]
                EngineScenarios.vsl_in_maintenance [Examples.trip_1] 0%nat
                eq_refl eq_refl eq_refl) as H.
  cbv zeta in H. destruct H as (H1 & H2 & _).
  eexists _, _, _. split; [exact H1|exact H2].
Defined.

(** One VSL in maintenance that carries a trip at 09:00, one new trip at
    09:00: the new trip ends assigned to that VSL by a rescheduling. *)
Lemma optimizeMultipleTrips_fleet_in_maintenance_instance :
  exists r,
    @optimizeMultipleTrips Examples.example_host [EngineScenarios.trip_2]
      [EngineScenarios.vsl_in_maintenance] = Normal r /\
    map is_assigned (results r) = [true] /\
    totalConflicts (conflictResolution r) = 1%nat /\
    Forall assigned_in_maintenance (results r).
Proof.
  destruct (@optimizeMultipleTrips Examples.example_host [EngineScenarios.trip_2]
              [EngineScenarios.vsl_in_maintenance]) as [r|e] eqn:E.
  - exists r. split; [reflexivity|]. split.
    + vm_compute in E. injection E as <-. reflexivity.
    + apply (@optimizeMultipleTrips_fleet_in_maintenance Examples.example_host
               [EngineScenarios.trip_2] [EngineScenarios.vsl_in_maintenance] r);
        [|exact E].
      constructor; [reflexivity|constructor].
  - vm_compute in E. discriminate E.
Defined.

End EngineMore.

(* ================================================================== *)
(** * Clock text: round trips and arrival times *)
(* ================================================================== *)

Module ClockFacts.

Import JS Clock ReturnCoursesFacts.

Lemma clock_text_reads h m :
  0 <= h -> 0 <= m ->
  hours_of (clock_text h m) = Some h /\
  minutes_of (clock_text h m) = Some m /\
  clock_minutes (clock_text h m) = Some (h * 60 + m).
Proof.
  intros Hh Hm. unfold clock_text, clock_minutes, hours_of, minutes_of.
  assert (Eh : Number (padStart2 (toString (Some h))) = Some h)
    by (rewrite Number_padStart2; now apply Number_toString).
  assert (Em : Number (padStart2 (toString (Some m))) = Some m)
    by (rewrite Number_padStart2; now apply Number_toString).
  rewrite split_colon_app by (rewrite Eh; discriminate).
  rewrite split_colon_digits by (rewrite Em; discriminate).
  rewrite Eh, Em. auto.
Qed.

Lemma clock_text_not_empty h m : clock_text h m <> "".
Proof.
  unfold clock_text. destruct (toString (Some h)) as [|c [|c' s]]; discriminate.
Qed.

Lemma day_minutes a :
  0 <= a -> (a / 60) mod 24 * 60 + a mod 60 = a mod 1440.
Proof.
  intros Ha.
  pose proof (Z.div_mod a 60 ltac:(lia)).
  pose proof (Z.div_mod (a / 60) 24 ltac:(lia)).
  pose proof (Z.mod_pos_bound a 60 ltac:(lia)).
  pose proof (Z.mod_pos_bound (a / 60) 24 ltac:(lia)).
  apply (Z.mod_unique_pos a 1440 (a / 60 / 24)); lia.
Qed.

Lemma arrival_text a :
  0 <= a ->
  padStart2 (toString (rem (floor_div (Some a) 60) 24)) ++ ":" ++
  padStart2 (toString (rem (Some a) 60))
  = clock_text ((a / 60) mod 24) (a mod 60).
Proof.
  intros Ha. unfold clock_text. cbn [floor_div rem option_map].
  rewrite !Z.rem_mod_nonneg; try lia; [reflexivity|].
  apply Z.div_pos; lia.
Qed.

(** The two conversions between clock text and minute counts are inverse
    of each other: a whole number of minutes that is not negative, printed
    by [convertMinutesToTime] and read by [convertTimeToMinutes], comes back
    unchanged (the hour is not reduced modulo 24); and the text of an hour
    and a minute below 60, each on two digits, read and printed, comes back
    unchanged. *)
Theorem convertMinutesToTime_round_trip :
  (forall m : Z, 0 <= m ->
     Engine.convertTimeToMinutes (convertMinutesToTime (Some m)) = Some m)
  /\
  (forall h m : Z, 0 <= h -> 0 <= m < 60 ->
     Engine.convertTimeToMinutes (clock_text h m) = Some (h * 60 + m) /\
     convertMinutesToTime (Engine.convertTimeToMinutes (clock_text h m))
     = clock_text h m).
Proof.
  assert (Hread : forall h m, 0 <= h -> 0 <= m ->
            Engine.convertTimeToMinutes (clock_text h m) = Some (h * 60 + m)).
  { intros h m Hh Hm. unfold Engine.convertTimeToMinutes.
    pose proof (clock_text_not_empty h m) as Hne.
    destruct (clock_text h m) eqn:E; [now destruct Hne|].
    rewrite <- E. now apply clock_text_reads. }
  split.
  - intros m Hm. unfold convertMinutesToTime. cbn [floor_div rem option_map].
    change (padStart2 (toString (Some (m / 60))) ++ ":" ++
            padStart2 (toString (Some (Z.rem m 60))))
      with (clock_text (m / 60) (Z.rem m 60)).
    rewrite Hread; [|apply Z.div_pos; lia|apply Z.rem_nonneg; lia].
    f_equal. rewrite Z.rem_mod_nonneg by lia.
    pose proof (Z.div_mod m 60). lia.
  - intros h m Hh Hm. split; [apply Hread; lia|].
    rewrite Hread by lia. unfold convertMinutesToTime, clock_text.
    cbn [floor_div rem option_map].
    replace ((h * 60 + m) / 60) with h.
    + replace (Z.rem (h * 60 + m) 60) with m; [reflexivity|].
      rewrite Z.rem_mod_nonneg by lia.
      apply (Z.mod_unique_pos _ 60 h); lia.
    + apply (Z.div_unique_pos _ 60 h m); lia.
Qed.

(** Arrival times wrap at midnight: for a start text that reads as a clock
    [x] minutes into the day and a whole travel time [t] with [x + t] not
    negative, both [calculateEstimatedArrival] functions print the clock
    text of minute [(x + t) mod 1440], its hour between 00 and 23. *)
Theorem calculateEstimatedArrival_wraps_at_midnight :
  (forall (startTime : string) (travelMinutes : float) (x t : Z),
      startTime <> "" ->
      Engine.convertTimeToMinutes startTime = Some x ->
      Num.whole travelMinutes = Some t ->
      0 <= x + t ->
      Engine.calculateEstimatedArrival startTime travelMinutes
      = Some (clock_text (((x + t) / 60) mod 24) ((x + t) mod 60)) /\
      option_map clock_minutes
        (Engine.calculateEstimatedArrival startTime travelMinutes)
      = Some (Some ((x + t) mod 1440)))
  /\
  (forall (pickupTime : string) (additionalMinutes x : Z),
      clock_minutes pickupTime = Some x ->
      0 <= x + additionalMinutes ->
      Fallback.calculateEstimatedArrival (Some pickupTime) additionalMinutes
      = Some (clock_text (((x + additionalMinutes) / 60) mod 24)
                         ((x + additionalMinutes) mod 60)) /\
      option_map clock_minutes
        (Fallback.calculateEstimatedArrival (Some pickupTime) additionalMinutes)
      = Some (Some ((x + additionalMinutes) mod 1440))).
Proof.
  assert (Hday : forall a, 0 <= a ->
            clock_minutes (clock_text ((a / 60) mod 24) (a mod 60))
            = Some (a mod 1440)).
  { intros a Ha.
    pose proof (Z.mod_pos_bound a 60 ltac:(lia)).
    pose proof (Z.mod_pos_bound (a / 60) 24 ltac:(lia)).
    destruct (clock_text_reads ((a / 60) mod 24) (a mod 60)) as (_ & _ & E); try lia.
    rewrite E. f_equal. now apply day_minutes. }
  split.
  - intros s travel x t Hne Hx Ht Ha.
    assert (E : Engine.calculateEstimatedArrival s travel
                = Some (clock_text (((x + t) / 60) mod 24) ((x + t) mod 60))).
    { unfold Engine.calculateEstimatedArrival.
      destruct s as [|c s']; [contradiction|]. rewrite Hx, Ht. cbn [nadd].
      f_equal. now apply arrival_text. }
    split; [exact E|]. rewrite E. cbn. f_equal. now apply Hday.
  - intros s add x Hx Ha.
    assert (Hne : truthy (Some s) = true).
    { destruct s; [discriminate Hx|reflexivity]. }
    assert (E : Fallback.calculateEstimatedArrival (Some s) add
                = Some (clock_text (((x + add) / 60) mod 24) ((x + add) mod 60))).
    { unfold Fallback.calculateEstimatedArrival. rewrite Hne.
      assert (Es : or_default (Some s) "" = s) by (destruct s; [discriminate|reflexivity]).
      rewrite Es. change (nadd (nmul (hours_of s) (Some 60)) (minutes_of s))
        with (clock_minutes s). rewrite Hx. cbn [nadd].
      f_equal. now apply arrival_text. }
    split; [exact E|]. rewrite E. cbn. f_equal. now apply Hday.
Qed.

(** Ten minutes to midnight plus half an hour: 00:20. *)
Lemma calculateEstimatedArrival_instance :
  Engine.calculateEstimatedArrival "23:50" 30
  = Some (clock_text (((1430 + 30) / 60) mod 24) ((1430 + 30) mod 60)) /\
  option_map clock_minutes (Engine.calculateEstimatedArrival "23:50" 30)
  = Some (Some ((1430 + 30) mod 1440)).
Proof.
  destruct calculateEstimatedArrival_wraps_at_midnight as [H _].
  apply H; [discriminate|reflexivity|reflexivity|lia].
Defined.

(** The impact of a time change does not depend on its direction: the shift
    from one text to the other is the opposite of the shift back, and both
    have the same impact; for texts that read as clocks the impact is
    'minimal', 'low', 'medium' or 'high' as the distance is at most 30, 60,
    120 minutes or more. *)
Theorem calculateTimeChangeImpact_symmetric :
  forall originalTime newTime : string,
    Engine.calculateTimeShift newTime originalTime
    = option_map Z.opp (Engine.calculateTimeShift originalTime newTime) /\
    Engine.calculateTimeChangeImpact originalTime newTime
    = Engine.calculateTimeChangeImpact newTime originalTime /\
    (forall x y,
        Engine.convertTimeToMinutes originalTime = Some x ->
        Engine.convertTimeToMinutes newTime = Some y ->
        Engine.calculateTimeChangeImpact originalTime newTime
        = if Z.abs (y - x) <=? 30 then "minimal"
          else if Z.abs (y - x) <=? 60 then "low"
          else if Z.abs (y - x) <=? 120 then "medium"
          else "high").
Proof.
  intros a b. unfold Engine.calculateTimeChangeImpact, Engine.calculateTimeShift.
  destruct (Engine.convertTimeToMinutes a) as [x|],
           (Engine.convertTimeToMinutes b) as [y|]; cbn.
  - replace (Z.abs (x - y)) with (Z.abs (y - x)) by lia.
    split; [f_equal; lia|]. split; [reflexivity|].
    intros x' y' [= <-] [= <-]. reflexivity.
  - split; [reflexivity|]. split; [reflexivity|].
    intros x' y' _ H. discriminate H.
  - split; [reflexivity|]. split; [reflexivity|].
    intros x' y' H. discriminate H.
  - split; [reflexivity|]. split; [reflexivity|].
    intros x' y' H. discriminate H.
Qed.

End ClockFacts.

(* ================================================================== *)
(** * The helpers of the VROOM format conversion *)
(* ================================================================== *)

Module VroomFacts.

Import JS Vroom.

#[local] Open Scope float_scope.

(** [validateVRPData] accepts exactly the problems with 1 to 20 vehicles,
    at least one job or shipment, and at most 100 jobs and 100 shipments;
    a missing or empty vehicle list is the first thing it reports. *)
Theorem validateVRPData_accepts :
  forall (V J S : Type) (vrpData : VRPData V J S),
    (validateVRPData vrpData = Normal tt <->
     (1 <= size (vehicles vrpData) <= 20)%nat /\
     (1 <= size (jobs vrpData) \/ 1 <= size (shipments vrpData))%nat /\
     (size (jobs vrpData) <= 100)%nat /\ (size (shipments vrpData) <= 100)%nat) /\
    (size (vehicles vrpData) = 0%nat ->
     validateVRPData vrpData = Throw "At least one vehicle is required").
Proof.
  intros V J S d. unfold validateVRPData, maxJobs, maxVehicles.
  destruct (Nat.eqb_spec (size (vehicles d)) 0) as [Hv|Hv].
  - split; [|reflexivity]. split; [discriminate|]. intros (H & _). lia.
  - split; [|intros H; contradiction].
    destruct (Nat.ltb_spec 0 (size (jobs d))) as [Hj|Hj];
    destruct (Nat.ltb_spec 0 (size (shipments d))) as [Hs|Hs]; cbn [negb andb];
    try destruct (Nat.ltb_spec 100 (size (jobs d)));
    try destruct (Nat.ltb_spec 100 (size (shipments d)));
    try destruct (Nat.ltb_spec 20 (size (vehicles d)));
    cbn [negb andb]; split; try discriminate; try (intros; lia); try reflexivity;
    intros _; lia.
Qed.

(** ** The coordinate search *)

Lemma find_index_spec {A : Type} (f : A -> bool) l :
  match Engine.find_index f l with
  | Some i =>
      (i < List.length l)%nat /\
      (exists x, nth_error l i = Some x /\ f x = true) /\
      (forall k x, (k < i)%nat -> nth_error l k = Some x -> f x = false)
  | None => forall x, In x l -> f x = false
  end.
Proof.
  induction l as [|y l IH]; cbn; [intros x []|].
  destruct (f y) eqn:Ey.
  - split; [lia|]. split; [exists y; auto|]. intros k x Hk. lia.
  - destruct (Engine.find_index f l) as [i|]; cbn.
    + destruct IH as (H1 & (x & Hx & Hf) & H3). split; [lia|].
      split; [exists x; auto|]. intros [|k] x' Hk; cbn.
      * now intros [= <-].
      * apply H3. lia.
    + intros x [<-|Hx]; auto.
Qed.

(** [findCoordinateIndex] returns an index of the list whenever the list
    is not empty; a result above 0 is the first coordinate within 0.001 of
    the one looked for on both axes; and the result is 0 when no coordinate
    is within tolerance, as it is when the first one is. *)
Theorem findCoordinateIndex_first_match :
  forall (coordinate : list float) (coordinates : list (list float)),
    let i := findCoordinateIndex coordinate coordinates in
    (coordinates <> [] -> (i < List.length coordinates)%nat) /\
    (forall k, i = S k ->
       (exists coord, nth_error coordinates i = Some coord /\
                      close_to coordinate coord = true) /\
       (forall j coord, (j < i)%nat -> nth_error coordinates j = Some coord ->
                        close_to coordinate coord = false)) /\
    ((forall coord, In coord coordinates -> close_to coordinate coord = false) ->
     i = 0%nat) /\
    (forall coord rest, coordinates = coord :: rest ->
       close_to coordinate coord = true -> i = 0%nat).
Proof.
  intros c cs i. subst i. unfold findCoordinateIndex.
  pose proof (find_index_spec (close_to c) cs) as H.
  destruct (Engine.find_index (close_to c) cs) as [i|] eqn:E.
  - destruct H as (H1 & H2 & H3). repeat split; auto.
    + intros Hnone. destruct H2 as (x & Hx & Hf).
      apply nth_error_In in Hx. rewrite (Hnone x Hx) in Hf. discriminate.
    + intros coord rest -> Hc. cbn in E. rewrite Hc in E. now injection E as <-.
  - repeat split; try discriminate.
    + intros Hne. destruct cs; [contradiction|cbn; lia].
Qed.

(** ** Padding a matrix *)

Lemma set_at_length i v row : List.length (set_at i v row) = List.length row.
Proof.
  revert i. induction row as [|x r IH]; intros [|i]; cbn; auto.
Qed.

Lemma set_at_nth i v row j :
  (i < List.length row)%nat ->
  nth_error (set_at i v row) j = if Nat.eqb j i then Some v else nth_error row j.
Proof.
  revert i j. induction row as [|x r IH]; intros [|i] [|j]; cbn; try lia; auto.
  intros H. apply IH. lia.
Qed.

Lemma zero_diagonal_length i rows :
  List.length (zero_diagonal i rows) = List.length rows.
Proof. revert i. induction rows as [|r rows IH]; intros i; cbn; auto. Qed.

Lemma zero_diagonal_nth i rows k :
  nth_error (zero_diagonal i rows) k
  = option_map (set_at (i + k) 0) (nth_error rows k).
Proof.
  revert i k. induction rows as [|r rows IH]; intros i [|k]; cbn; try reflexivity.
  - now rewrite Nat.add_0_r.
  - rewrite IH. now replace (S i + k)%nat with (i + S k)%nat by lia.
Qed.

Lemma nth_error_repeat {A : Type} (x : A) n k :
  (k < n)%nat -> nth_error (repeat x n) k = Some x.
Proof.
  revert k. induction n as [|n IH]; intros [|k] H; cbn; try lia; auto.
  apply IH. lia.
Qed.

Lemma padded_row row n j :
  (j < n)%nat ->
  nth_error (row ++ repeat unknown (n - List.length row)) j
  = Some (match nth_error row j with Some x => x | None => unknown end).
Proof.
  intros Hj. destruct (Nat.lt_ge_cases j (List.length row)) as [H|H].
  - rewrite nth_error_app1 by exact H.
    destruct (nth_error row j) eqn:E; [reflexivity|].
    apply nth_error_None in E. lia.
  - rewrite nth_error_app2 by exact H.
    rewrite nth_error_repeat by lia.
    replace (nth_error row j) with (@None float); [reflexivity|].
    symmetry. now apply nth_error_None.
Qed.

(** [ensureMatrixSize]: a missing or empty matrix becomes a square matrix
    of the target size filled with 999999, the diagonal included; a matrix
    with at least as many rows as the target size is returned as it is,
    whatever the length of its rows; a smaller one is padded to exactly the
    target number of rows, each with at least the target number of entries,
    with 0 on the diagonal and, off the diagonal, the original entry where
    there was one and 999999 elsewhere. *)
Theorem ensureMatrixSize_shape :
  forall (matrix : list (list float)) (targetSize : nat),
    ensureMatrixSize None targetSize = repeat (repeat unknown targetSize) targetSize /\
    ensureMatrixSize (Some []) targetSize
    = repeat (repeat unknown targetSize) targetSize /\
    (matrix <> [] -> (targetSize <= List.length matrix)%nat ->
     ensureMatrixSize (Some matrix) targetSize = matrix) /\
    (matrix <> [] -> (List.length matrix < targetSize)%nat ->
     let padded := ensureMatrixSize (Some matrix) targetSize in
     List.length padded = targetSize /\
     Forall (fun row => (targetSize <= List.length row)%nat) padded /\
     (forall i, (i < targetSize)%nat -> entry padded i i = Some 0) /\
     (forall i j, (i < targetSize)%nat -> (j < targetSize)%nat -> i <> j ->
        entry padded i j
        = Some (match entry matrix i j with Some x => x | None => unknown end))).
Proof.
  intros m n. split; [reflexivity|]. split; [reflexivity|]. split.
  - intros Hne Hle. unfold ensureMatrixSize. destruct m as [|r m]; [contradiction|].
    apply Nat.leb_le in Hle. now rewrite Hle.
  - intros Hne Hlt padded. subst padded. unfold ensureMatrixSize.
    destruct m as [|r0 m0]; [contradiction|].
    set (m := r0 :: m0) in *.
    destruct (Nat.leb_spec n (List.length m)) as [H|_]; [lia|].
    set (pm := (map (fun row => (row ++ repeat unknown (n - List.length row))%list) m
                ++ repeat (repeat unknown n) (n - List.length m))%list).
    assert (Hlen : List.length pm = n).
    { unfold pm. rewrite length_app, length_map, repeat_length. lia. }
    assert (Hrow : forall i, (i < n)%nat ->
              exists row, nth_error pm i = Some row /\
                (n <= List.length row)%nat /\
                forall j, (j < n)%nat ->
                  nth_error row j
                  = Some (match entry m i j with Some x => x | None => unknown end)).
    { intros i Hi. unfold pm, entry.
      destruct (Nat.lt_ge_cases i (List.length m)) as [Him|Him].
      - rewrite nth_error_app1 by (now rewrite length_map).
        rewrite nth_error_map.
        destruct (nth_error m i) as [row|] eqn:E;
          [|apply nth_error_None in E; lia].
        cbn. eexists. split; [reflexivity|]. split.
        + rewrite length_app, repeat_length. lia.
        + intros j Hj. now apply padded_row.
      - rewrite nth_error_app2 by (now rewrite length_map).
        rewrite length_map. rewrite nth_error_repeat by lia.
        replace (nth_error m i) with (@None (list float))
          by (symmetry; now apply nth_error_None).
        eexists. split; [reflexivity|]. split; [now rewrite repeat_length|].
        intros j Hj. now apply nth_error_repeat. }
    split; [now rewrite zero_diagonal_length|]. split; [|split].
    + apply Forall_forall. intros row Hin. apply In_nth_error in Hin.
      destruct Hin as [i Hi]. rewrite zero_diagonal_nth in Hi.
      destruct (nth_error pm i) as [row0|] eqn:E; cbn in Hi; [|discriminate Hi].
      injection Hi as <-. rewrite set_at_length.
      assert (i < n)%nat.
      { rewrite <- Hlen. apply nth_error_Some. now rewrite E. }
      destruct (Hrow i H) as (row' & E' & Hl & _). rewrite E in E'. now injection E' as ->.
    + intros i Hi. unfold entry. rewrite zero_diagonal_nth.
      destruct (Hrow i Hi) as (row & E & Hl & _). rewrite E.
      cbn [option_map Nat.add]. rewrite set_at_nth by lia. now rewrite Nat.eqb_refl.
    + intros i j Hi Hj Hij. unfold entry at 1. rewrite zero_diagonal_nth.
      destruct (Hrow i Hi) as (row & E & Hl & Hnth). rewrite E.
      cbn [option_map Nat.add]. rewrite set_at_nth by lia.
      destruct (Nat.eqb_spec j i); [congruence|]. now apply Hnth.
Qed.

(** A 1 x 1 matrix padded to size 2. *)
Lemma ensureMatrixSize_instance :
  ensureMatrixSize (Some [[7]]) 2 = [[0; unknown]; [unknown; 0]] /\
  List.length (ensureMatrixSize (Some [[7]]) 2) = 2%nat.
Proof.
  split; [reflexivity|].
  destruct (ensureMatrixSize_shape [[7]] 2) as (_ & _ & _ & H).
  apply H; [discriminate|cbn; lia].
Defined.

End VroomFacts.

(* ================================================================== *)
(** * The conversion to the VROOM format never returns *)
(* ================================================================== *)

Module VroomFormatFacts.

Import JS VroomFormat.

Lemma map_indexed_total {A B : Type} (f : nat -> A -> completion B) l :
  (forall i x, In x l -> exists y, f i x = Normal y) ->
  forall i, exists ys, map_indexed f i l = Normal ys.
Proof.
  induction l as [|x l IH]; intros H i; cbn; [eauto|].
  destruct (H i x (or_introl eq_refl)) as [y ->]. cbn.
  destruct (IH (fun i x Hx => H i x (or_intror Hx)) (S i)) as [ys ->]. cbn. eauto.
Qed.

Lemma shipment_of_total config m i trip :
  workingHours config <> None ->
  exists s, shipment_of config m i trip = Normal s.
Proof.
  intros Hw. unfold shipment_of, windows.
  destruct (Trip.isReturnTrip trip).
  - destruct (truthy (Trip.exitTime trip) && truthy (Trip.earliestPickupTime trip));
      [|cbn; eauto].
    destruct (_ && _); cbn; eauto.
  - destruct (truthy (Trip.appointmentTime trip)); [|cbn; eauto].
    destruct (workingHours config); [cbn; eauto|contradiction].
Qed.

(** [convertToVROOMFormat] never returns: every call raises.  When the
    coordinates and the distance matrix are given, the routing data either
    does not provide the coordinates or lists its addresses, and the
    configuration is the default one or has working hours, the exception is
    the ReferenceError on [uniqueAddresses], whatever the trips and the
    vehicles. *)
Theorem convertToVROOMFormat_always_raises :
  forall (trips : list Trip.t) (vehicles : list Vehicle.t)
         (distanceMatrix durationMatrix coordinates : option (list (list float)))
         (routingData : option RoutingData) (timeWindowConfig : option Config),
    (exists e,
       convertToVROOMFormat trips vehicles distanceMatrix durationMatrix
         coordinates routingData timeWindowConfig = Throw e) /\
    (coordinates <> None -> distanceMatrix <> None ->
     (forall rd, routingData = Some rd ->
                 coordinatesProvided rd = true -> addresses rd <> None) ->
     (forall c, timeWindowConfig = Some c -> workingHours c <> None) ->
     convertToVROOMFormat trips vehicles distanceMatrix durationMatrix
       coordinates routingData timeWindowConfig
     = Throw "ReferenceError: uniqueAddresses is not defined").
Proof.
  intros trips vehicles dm durm coords rd cfg. split.
  - unfold convertToVROOMFormat.
    destruct (length_of coords); cbn [bind]; [|eauto].
    destruct (length_of dm); cbn [bind]; [|eauto].
    match goal with
    | |- exists e, bind ?c _ = _ => destruct c; cbn [bind]; [|eauto]
    end.
    destruct (map_indexed _ 0 trips); cbn [bind]; eauto.
  - intros Hc Hd Hrd Hcfg. unfold convertToVROOMFormat.
    destruct coords as [cs|]; [|contradiction].
    destruct dm as [ds|]; [|contradiction]. cbn [length_of bind].
    set (config := match cfg with Some c => c | None => default_timeWindowConfig end).
    assert (Hw : workingHours config <> None).
    { unfold config. destruct cfg as [c|]; [now apply Hcfg|discriminate]. }
    assert (Hs : forall m, exists ss,
               map_indexed (shipment_of config m) 0 trips = Normal ss).
    { intros m. apply map_indexed_total. intros i x _.
      now apply shipment_of_total. }
    cbv zeta.
    destruct rd as [r|];
      [destruct (coordinatesProvided r) eqn:Ep;
       [destruct (addresses r) as [l|] eqn:Ea;
        [|exfalso; now apply (Hrd r eq_refl Ep)]|]|];
      cbn [bind];
      match goal with
      | |- bind (map_indexed (shipment_of config ?m) _ _) _ = _ =>
          destruct (Hs m) as [ss ->]
      end;
    reflexivity.
Qed.

(** The scenario trip and vehicle, a 1 x 1 matrix and no routing data. *)
Lemma convertToVROOMFormat_instance :
  convertToVROOMFormat [Examples.trip_1] [Examples.vsl_1]
    (Some [[0%float]]) (Some [[0%float]]) (Some [[6.1286%float; 43.1205%float]])
    None None
  = Throw "ReferenceError: uniqueAddresses is not defined".
Proof.
  apply convertToVROOMFormat_always_raises; try discriminate.
Defined.

End VroomFormatFacts.

(* ================================================================== *)
(** * The savings heuristic: swaps, the 2-opt loop, compatible vehicles *)
(* ================================================================== *)

Module RoutesFacts.

Import JS Engine Routes Props.

#[local] Open Scope float_scope.

Lemma ltb_irrefl (a : float) : (a <? a) = false.
Proof.
  destruct (a <? a) eqn:E; [|reflexivity].
  rewrite ltb_spec, FloatOrder.SFltb_key in E. destruct E as (_ & _ & E).
  unfold lex_lt in E. destruct (key (Prim2SF a)) as [[a1 a2] a3]. lia.
Qed.

Lemma ltb_trans (a b c : float) :
  (a <? b) = true -> (b <? c) = true -> (a <? c) = true.
Proof.
  rewrite !ltb_spec, !FloatOrder.SFltb_key. unfold lex_lt.
  destruct (key (Prim2SF a)) as [[a1 a2] a3], (key (Prim2SF b)) as [[b1 b2] b3],
           (key (Prim2SF c)) as [[c1 c2] c3].
  intros (Ha & Hb & H1) (_ & Hc & H2). repeat split; auto. lia.
Qed.

(** ** The swap *)

Lemma two_opt_pairs_bounds len i j :
  In (i, j) (two_opt_pairs len) -> (i + 2 <= j /\ j < len)%nat.
Proof.
  unfold two_opt_pairs. intros H. apply in_flat_map in H.
  destruct H as (i' & Hi & H). apply in_map_iff in H.
  destruct H as (j' & [= <- <-] & Hj). apply in_seq in Hi, Hj. lia.
Qed.

Lemma reverse_segment_twice {A : Type} i j (l : list A) :
  (i <= j /\ j < List.length l)%nat ->
  Fallback.reverse_segment i j (Fallback.reverse_segment i j l) = l.
Proof.
  intros H. unfold Fallback.reverse_segment.
  set (a := firstn i l). set (b := rev (firstn (j + 1 - i) (skipn i l))).
  set (c := skipn (j + 1) l).
  assert (La : List.length a = i) by (unfold a; rewrite length_firstn; lia).
  assert (Lb : List.length b = (j + 1 - i)%nat).
  { unfold b. rewrite length_rev, length_firstn, length_skipn. lia. }
  assert (E1 : firstn i (a ++ b ++ c) = a).
  { rewrite firstn_app, La, Nat.sub_diag. cbn.
    rewrite app_nil_r. rewrite <- La. apply firstn_all. }
  assert (E2 : skipn i (a ++ b ++ c) = (b ++ c)%list).
  { rewrite skipn_app, La, Nat.sub_diag. cbn.
    rewrite <- La, skipn_all. reflexivity. }
  assert (E3 : firstn (j + 1 - i) (b ++ c) = b).
  { rewrite firstn_app, Lb, Nat.sub_diag. cbn.
    rewrite app_nil_r. rewrite <- Lb. apply firstn_all. }
  assert (E4 : skipn (j + 1) (a ++ b ++ c) = c).
  { replace (j + 1)%nat with ((j + 1 - i) + i)%nat by lia.
    rewrite <- skipn_skipn, E2, skipn_app, Lb, Nat.sub_diag. cbn.
    rewrite <- Lb, skipn_all. reflexivity. }
  rewrite E1, E2, E3, E4. unfold b. rewrite rev_involutive.
  unfold a, c.
  replace (skipn (j + 1) l) with (skipn (j + 1 - i) (skipn i l))
    by (rewrite skipn_skipn; f_equal; lia).
  now rewrite firstn_skipn, firstn_skipn.
Qed.

(** [twoOptSwap] on indices [i < j] within the list: the result holds the
    same trips, each once; its first [i + 1] trips are in place; and the
    swap applied twice gives the list back. *)
Theorem twoOptSwap_reverses_a_segment :
  forall (trips : list Trip.t) (i j : nat),
    (i < j)%nat -> (j < List.length trips)%nat ->
    Permutation (twoOptSwap trips i j) trips /\
    List.length (twoOptSwap trips i j) = List.length trips /\
    firstn (S i) (twoOptSwap trips i j) = firstn (S i) trips /\
    skipn (S j) (twoOptSwap trips i j) = skipn (S j) trips /\
    twoOptSwap (twoOptSwap trips i j) i j = trips.
Proof.
  intros l i j Hij Hj. unfold twoOptSwap.
  assert (Hp : Permutation (Fallback.reverse_segment (S i) j l) l)
    by (apply FallbackInvariants.reverse_segment_perm; lia).
  split; [exact Hp|]. split; [now apply Permutation_length|].
  split; [|split].
  - unfold Fallback.reverse_segment.
    rewrite firstn_app, length_firstn.
    replace (Nat.min (S i) (List.length l)) with (S i) by lia.
    rewrite Nat.sub_diag, firstn_O, app_nil_r.
    rewrite firstn_firstn, Nat.min_id. reflexivity.
  - unfold Fallback.reverse_segment. rewrite app_assoc.
    rewrite skipn_app.
    assert (L : List.length (firstn (S i) l
                  ++ rev (firstn (j + 1 - S i) (skipn (S i) l))) = S j).
    { rewrite length_app, length_rev, !length_firstn, length_skipn. lia. }
    rewrite L, Nat.sub_diag, skipn_O.
    rewrite skipn_all2 by (rewrite L; lia).
    cbn [app]. f_equal. lia.
  - apply reverse_segment_twice. lia.
Qed.

(** ** The 2-opt loop *)

Section WithHost.

Context {host : Host}.

Lemma try_pair_keeps m route st ij :
  (fst ij + 2 <= snd ij /\ snd ij < List.length (trips route))%nat ->
  vehicle (fst st) = vehicle route /\ savings (fst st) = savings route /\
  Permutation (trips (fst st)) (trips route) /\
  hd_error (trips (fst st)) = hd_error (trips route) /\
  (fst st = route \/
   exists i j, In (i, j) (two_opt_pairs (List.length (trips route))) /\
               trips (fst st) = twoOptSwap (trips route) i j /\
               totalDistance (fst st)
               = Some (calculateRouteDistance (trips (fst st)) m)) ->
  In ij (two_opt_pairs (List.length (trips route))) ->
  let st' := try_pair m route st ij in
  vehicle (fst st') = vehicle route /\ savings (fst st') = savings route /\
  Permutation (trips (fst st')) (trips route) /\
  hd_error (trips (fst st')) = hd_error (trips route) /\
  (fst st' = route \/
   exists i j, In (i, j) (two_opt_pairs (List.length (trips route))) /\
               trips (fst st') = twoOptSwap (trips route) i j /\
               totalDistance (fst st')
               = Some (calculateRouteDistance (trips (fst st')) m)).
Proof.
  intros Hb (Hv & Hs & Hp & Hh & Hor) Hin. unfold try_pair. cbv zeta.
  destruct (_ <? number_of _); cbn [fst vehicle savings trips totalDistance];
    [|auto].
  repeat split; auto.
  - unfold twoOptSwap. apply FallbackInvariants.reverse_segment_perm. lia.
  - unfold twoOptSwap. apply FallbackInvariants.reverse_segment_hd. lia.
  - right. exists (fst ij), (snd ij). destruct ij. auto.
Qed.

(** After a sweep no candidate is below the best distance. *)
Lemma sweep_minimum m route l seen st :
  (forall ij, In ij seen ->
     (calculateRouteDistance (twoOptSwap (trips route) (fst ij) (snd ij)) m
      <? number_of (totalDistance (fst st))) = false) ->
  forall ij, In ij (seen ++ l) ->
    (calculateRouteDistance (twoOptSwap (trips route) (fst ij) (snd ij)) m
     <? number_of (totalDistance (fst (fold_left (try_pair m route) l st)))) = false.
Proof.
  revert seen st. induction l as [|p l IH]; intros seen st Hseen ij Hin;
    cbn [fold_left].
  - rewrite app_nil_r in Hin. now apply Hseen.
  - apply (IH (seen ++ [p])%list); [|now rewrite <- app_assoc].
    intros q Hq. apply in_app_or in Hq.
    unfold try_pair. cbv zeta.
    set (dp := calculateRouteDistance (twoOptSwap (trips route) (fst p) (snd p)) m).
    set (dq := calculateRouteDistance (twoOptSwap (trips route) (fst q) (snd q)) m).
    destruct (dp <? number_of (totalDistance (fst st))) eqn:E;
      cbn [fst totalDistance number_of].
    + destruct Hq as [Hq|[<-|[]]]; [|apply ltb_irrefl].
      destruct (dq <? dp) eqn:E'; [|reflexivity].
      pose proof (Hseen q Hq) as Hs. fold dq in Hs.
      rewrite (ltb_trans _ _ _ E' E) in Hs. discriminate Hs.
    + destruct Hq as [Hq|[<-|[]]]; [now apply Hseen|exact E].
Qed.

(** A sweep that finds no candidate below the best distance changes
    nothing. *)
Lemma sweep_stable m route l st :
  (forall ij, In ij l ->
     (calculateRouteDistance (twoOptSwap (trips route) (fst ij) (snd ij)) m
      <? number_of (totalDistance (fst st))) = false) ->
  fold_left (try_pair m route) l st = st.
Proof.
  revert st. induction l as [|p l IH]; intros st H; cbn [fold_left]; [reflexivity|].
  assert (E : try_pair m route st p = st).
  { unfold try_pair. cbv zeta. now rewrite (H p (or_introl eq_refl)). }
  rewrite E. apply IH. intros ij Hij. apply H. now right.
Qed.

Lemma sweep_keeps m route l st :
  Forall (fun ij => In ij (two_opt_pairs (List.length (trips route)))) l ->
  vehicle (fst st) = vehicle route /\ savings (fst st) = savings route /\
  Permutation (trips (fst st)) (trips route) /\
  hd_error (trips (fst st)) = hd_error (trips route) /\
  (fst st = route \/
   exists i j, In (i, j) (two_opt_pairs (List.length (trips route))) /\
               trips (fst st) = twoOptSwap (trips route) i j /\
               totalDistance (fst st)
               = Some (calculateRouteDistance (trips (fst st)) m)) ->
  let st' := fold_left (try_pair m route) l st in
  vehicle (fst st') = vehicle route /\ savings (fst st') = savings route /\
  Permutation (trips (fst st')) (trips route) /\
  hd_error (trips (fst st')) = hd_error (trips route) /\
  (fst st' = route \/
   exists i j, In (i, j) (two_opt_pairs (List.length (trips route))) /\
               trips (fst st') = twoOptSwap (trips route) i j /\
               totalDistance (fst st')
               = Some (calculateRouteDistance (trips (fst st')) m)).
Proof.
  intros Hl. revert st. induction Hl as [|p l Hp _ IH]; intros st H;
    cbn [fold_left]; [exact H|].
  apply IH. apply try_pair_keeps; [|exact H|exact Hp].
  destruct p as [i j]. apply two_opt_pairs_bounds in Hp. cbn. lia.
Qed.

(** The [while (improved)] loop of [twoOptImprovement] ends: two turns are
    always enough.  What it returns keeps the vehicle and the trips of the
    route, the first trip in place; it is the route itself or one swap of
    it, with the distance of that order; and no candidate swap has a
    distance below the one it reports. *)
Theorem twoOptImprovement_loop_ends :
  forall (distanceMatrix : Matrix) (route : Route) (fuel : nat),
    (2 <= fuel)%nat ->
    exists best,
      improve fuel distanceMatrix route route = Some best /\
      improve 2 distanceMatrix route route = Some best /\
      improved_from distanceMatrix route best.
Proof.
  intros m route fuel Hfuel.
  set (pairs := two_opt_pairs (List.length (trips route))).
  assert (Hall : Forall (fun ij => In ij pairs) pairs)
    by (apply Forall_forall; auto).
  assert (Hstart : vehicle (fst (route, false)) = vehicle route /\
                   savings (fst (route, false)) = savings route /\
                   Permutation (trips (fst (route, false))) (trips route) /\
                   hd_error (trips (fst (route, false))) = hd_error (trips route) /\
                   (fst (route, false) = route \/
                    exists i j, In (i, j) pairs /\
                      trips (fst (route, false)) = twoOptSwap (trips route) i j /\
                      totalDistance (fst (route, false))
                      = Some (calculateRouteDistance (trips (fst (route, false))) m)))
    by (cbn; auto 10).
  pose proof (sweep_keeps m route pairs (route, false) Hall Hstart) as Hk.
  pose proof (sweep_minimum m route pairs [] (route, false)
                (fun ij (H : In ij []) => match H with end)) as Hmin.
  cbn [app] in Hmin. cbv zeta in Hk.
  assert (Hsweep : sweep m route route = fold_left (try_pair m route) pairs (route, false))
    by reflexivity.
  destruct (fold_left (try_pair m route) pairs (route, false)) as [b1 imp1] eqn:E1.
  cbn [fst] in Hk, Hmin.
  assert (Hstable : sweep m route b1 = (b1, false)).
  { unfold sweep. fold pairs. apply sweep_stable. intros ij Hij. cbn [fst].
    now apply Hmin. }
  assert (Hres : forall f, (2 <= f)%nat -> improve f m route route = Some b1).
  { intros [|[|f]] Hf; try lia. cbn [improve]. rewrite Hsweep.
    destruct imp1; [|reflexivity]. now rewrite Hstable. }
  exists b1. split; [now apply Hres|]. split; [now apply Hres|].
  unfold improved_from. destruct Hk as (H1 & H2 & H3 & H4 & H5).
  repeat split; auto.
  intros _ i j Hij. exact (Hmin (i, j) Hij).
Qed.

(** ** Compatible vehicles *)

Lemma handles_all_test trips v :
  forallb (fun trip =>
             80 <? getVehicleTypeScore (Trip.vehicleType trip) (Vehicle.type v))
          trips = true <-> handles_all trips v.
Proof.
  unfold handles_all. rewrite forallb_forall, Forall_forall. reflexivity.
Qed.

Lemma findCompatibleVehicle_first trips vehicles v :
  findCompatibleVehicle trips vehicles = Some v <->
  exists before after,
    vehicles = (before ++ v :: after)%list /\
    handles_all trips v /\
    Forall (fun w => ~ handles_all trips w) before.
Proof.
  unfold findCompatibleVehicle.
  induction vehicles as [|w ws IH]; cbn [find].
  - split; [discriminate|]. intros (before & after & E & _).
    destruct before; discriminate E.
  - destruct (forallb _ trips) eqn:Ew.
    + split.
      * intros [= <-]. exists [], ws. split; [reflexivity|].
        split; [now apply handles_all_test|constructor].
      * intros (before & after & E & Hv & Hb).
        destruct before as [|b before]; cbn in E; injection E as <- E.
        -- reflexivity.
        -- apply Forall_inv in Hb. apply handles_all_test in Ew. contradiction.
    + rewrite IH. split.
      * intros (before & after & -> & Hv & Hb). exists (w :: before), after.
        split; [reflexivity|]. split; [exact Hv|]. constructor; [|exact Hb].
        intros H. apply handles_all_test in H. congruence.
      * intros (before & after & E & Hv & Hb).
        destruct before as [|b before]; cbn in E; injection E as <- E.
        -- apply handles_all_test in Hv. congruence.
        -- exists before, after. split; [exact E|]. split; [exact Hv|].
           now apply Forall_inv_tail in Hb.
Qed.

(** [findCompatibleVehicle] returns the first vehicle of the list whose
    type scores above 80 for every trip: it returns a vehicle exactly when
    the list splits at it into vehicles that do not suit, the vehicle, which
    suits, and a rest; it returns [undefined] exactly when no vehicle of the
    list suits; and it does not look at the status of a vehicle, so the same
    vehicle is found when the whole fleet is put in maintenance. *)
Theorem findCompatibleVehicle_ignores_status :
  forall (trips : list Trip.t) (vehicles : list Vehicle.t),
    (forall v,
       findCompatibleVehicle trips vehicles = Some v <->
       exists before after,
         vehicles = (before ++ v :: after)%list /\
         handles_all trips v /\
         Forall (fun w => ~ handles_all trips w) before) /\
    (findCompatibleVehicle trips vehicles = None <->
     Forall (fun w => ~ handles_all trips w) vehicles) /\
    (forall s : option string,
       findCompatibleVehicle trips (map (with_status s) vehicles)
       = option_map (with_status s) (findCompatibleVehicle trips vehicles)).
Proof.
  intros ts vs. split; [|split].
  - intros v. apply findCompatibleVehicle_first.
  - unfold findCompatibleVehicle. split.
    + intros H. apply Forall_forall. intros w Hw Hs.
      apply handles_all_test in Hs.
      pose proof (find_none _ _ H w Hw) as Hn. cbv beta in Hn. congruence.
    + intros H. destruct (find _ vs) as [v|] eqn:E; [|reflexivity].
      apply find_some in E. destruct E as [Hin Hv].
      rewrite Forall_forall in H. apply handles_all_test in Hv.
      now destruct (H v Hin).
  - intros s. unfold findCompatibleVehicle.
    induction vs as [|v vs IH]; cbn [map find]; [reflexivity|].
    cbn [with_status Vehicle.type].
    destruct (forallb _ ts); [reflexivity|exact IH].
Qed.

(** ** The savings heuristic *)

Lemma has_In (assigned : list Z) (id : Z) : has assigned id = true <-> In id assigned.
Proof.
  unfold has. rewrite existsb_exists. split.
  - intros (x & Hx & E). apply Z.eqb_eq in E. now subst.
  - intros H. exists id. split; [exact H|apply Z.eqb_refl].
Qed.

Lemma has_not_In (assigned : list Z) (id : Z) :
  has assigned id = false <-> ~ In id assigned.
Proof.
  rewrite <- has_In. destruct (has assigned id); split; congruence.
Qed.

Lemma add_In (assigned : list Z) (id z : Z) :
  In z (add assigned id) <-> In z assigned \/ z = id.
Proof.
  unfold add. destruct (has assigned id) eqn:E.
  - apply has_In in E. split; [auto|]. intros [H| ->]; assumption.
  - rewrite in_app_iff. cbn. intuition.
Qed.

Lemma route_trips_app (a b : list Route) :
  route_trips (a ++ b) = (route_trips a ++ route_trips b)%list.
Proof. unfold route_trips. now rewrite map_app, concat_app. Qed.

(** Dropping trips keeps their identifiers distinct. *)
Lemma filter_keeps_distinct_ids (keep : Trip.t -> bool) (trips : list Trip.t) :
  NoDup (map Trip.id trips) -> NoDup (map Trip.id (filter keep trips)).
Proof.
  induction trips as [|trip rest IH]; cbn [map filter]; [auto|]. intros Hd.
  destruct (proj1 (NoDup_cons_iff (Trip.id trip) (map Trip.id rest)) Hd)
    as [Hfresh Hrest].
  destruct (keep trip); cbn [map]; [|auto].
  constructor; [|auto]. intros Hin. apply Hfresh.
  apply in_map_iff in Hin. destruct Hin as (other & Eo & Ho).
  apply filter_In in Ho. apply in_map_iff. exists other. tauto.
Qed.

(** Among trips with distinct identifiers, the identifier names the trip. *)
Lemma same_id_same_trip (trips : list Trip.t) (x y : Trip.t) :
  NoDup (map Trip.id trips) -> In x trips -> In y trips ->
  Trip.id x = Trip.id y -> x = y.
Proof.
  induction trips as [|trip rest IH]; cbn [map In]; [tauto|]. intros Hd Hx Hy E.
  destruct (proj1 (NoDup_cons_iff (Trip.id trip) (map Trip.id rest)) Hd)
    as [Hfresh Hrest].
  destruct Hx as [->|Hx], Hy as [->|Hy]; auto.
  - exfalso. apply Hfresh. rewrite E. now apply in_map.
  - exfalso. apply Hfresh. rewrite <- E. now apply in_map.
Qed.

Lemma savings_row_spec trip1 i rest j distanceMatrix :
  Forall (fun s =>
            Saving.trip1 s = trip1 /\ In (Saving.trip2 s) rest /\
            Saving.saving s = calculateSavings trip1 (Saving.trip2 s) distanceMatrix /\
            (0 <? Saving.saving s) = true)
         (savings_row trip1 i rest j distanceMatrix).
Proof.
  revert j. induction rest as [|trip2 rest IH]; intros j; cbn [savings_row].
  - constructor.
  - apply Forall_app. split.
    + destruct (0 <? calculateSavings trip1 trip2 distanceMatrix) eqn:E;
        constructor; [|constructor]. cbn. auto with datatypes.
    + eapply Forall_impl; [|apply IH]. cbn. intros s (H1 & H2 & H3 & H4).
      auto with datatypes.
Qed.

Lemma savings_from_spec trips i distanceMatrix :
  Forall (fun s =>
            In (Saving.trip1 s) trips /\ In (Saving.trip2 s) trips /\
            Saving.saving s
            = calculateSavings (Saving.trip1 s) (Saving.trip2 s) distanceMatrix /\
            (0 <? Saving.saving s) = true /\
            (NoDup (map Trip.id trips) ->
             Trip.id (Saving.trip1 s) <> Trip.id (Saving.trip2 s)))
         (savings_from trips i distanceMatrix).
Proof.
  revert i. induction trips as [|trip1 rest IH]; intros i; cbn [savings_from].
  - constructor.
  - apply Forall_app. split.
    + eapply Forall_impl; [|apply savings_row_spec]. cbn.
      intros s (H1 & H2 & H3 & H4). rewrite H1.
      split; [now left|]. split; [now right|]. split; [exact H3|].
      split; [exact H4|]. intros Hn E.
      pose proof (NoDup_cons_iff (Trip.id trip1) (map Trip.id rest)) as [Hc _].
      destruct (Hc Hn) as [Hx _]. apply Hx. rewrite E. now apply in_map.
    + eapply Forall_impl; [|apply IH]. cbn.
      intros s (H1 & H2 & H3 & H4 & H5).
      split; [now right|]. split; [now right|]. split; [exact H3|].
      split; [exact H4|]. intros Hn. apply H5.
      pose proof (NoDup_cons_iff (Trip.id trip1) (map Trip.id rest)) as [Hc _].
      now destruct (Hc Hn).
Qed.

(** The loop over the sorted savings: the routes are pair routes, the set
    holds exactly the identifiers of their trips, and no identifier is
    routed twice when the identifiers of the trips are distinct. *)
Lemma pair_loop all vehicles distanceMatrix l :
  Forall (fun s =>
            In (Saving.trip1 s) all /\ In (Saving.trip2 s) all /\
            Saving.saving s
            = calculateSavings (Saving.trip1 s) (Saving.trip2 s) distanceMatrix /\
            (0 <? Saving.saving s) = true /\
            (NoDup (map Trip.id all) ->
             Trip.id (Saving.trip1 s) <> Trip.id (Saving.trip2 s))) l ->
  forall routes assigned,
    Forall (pair_route all vehicles distanceMatrix) routes ->
    (forall z, In z assigned <-> In z (map Trip.id (route_trips routes))) ->
    (NoDup (map Trip.id all) -> NoDup (map Trip.id (route_trips routes))) ->
    let st := fold_left (pair_step vehicles distanceMatrix) l (routes, assigned) in
    Forall (pair_route all vehicles distanceMatrix) (fst st) /\
    (forall z, In z (snd st) <-> In z (map Trip.id (route_trips (fst st)))) /\
    (NoDup (map Trip.id all) -> NoDup (map Trip.id (route_trips (fst st)))).
Proof.
  induction 1 as [|s l (H1 & H2 & H3 & H4 & H5) Hl IH];
    intros routes assigned Hr Ha Hn; cbn [fold_left].
  - cbn. auto.
  - cbv zeta.
    destruct (pair_step vehicles distanceMatrix (routes, assigned) s)
      as [routes' assigned'] eqn:Est.
    enough (Forall (pair_route all vehicles distanceMatrix) routes' /\
            (forall z, In z assigned' <-> In z (map Trip.id (route_trips routes'))) /\
            (NoDup (map Trip.id all) -> NoDup (map Trip.id (route_trips routes'))))
      as (S1 & S2 & S3) by (now apply IH).
    unfold pair_step in Est.
    destruct (has assigned (Trip.id (Saving.trip1 s))) eqn:E1; cbn [negb andb] in Est;
      [injection Est as <- <-; auto|].
    destruct (has assigned (Trip.id (Saving.trip2 s))) eqn:E2; cbn [negb andb] in Est;
      [injection Est as <- <-; auto|].
    destruct (findCompatibleVehicle [Saving.trip1 s; Saving.trip2 s] vehicles)
      as [v|] eqn:Ev; injection Est as <- <-; [|auto].
    apply has_not_In in E1, E2.
    split; [|split].
    + apply Forall_app. split; [exact Hr|]. constructor; [|constructor].
      exists (Saving.trip1 s), (Saving.trip2 s). cbn.
      repeat split; auto.
    + intros z. rewrite route_trips_app, map_app, in_app_iff, !add_In, Ha.
      unfold route_trips. cbn. intuition.
    + intros Hd. rewrite route_trips_app, map_app. apply NoDup_app.
      * now apply Hn.
      * unfold route_trips. cbn. constructor.
        -- cbn. intros [E|[]]. apply (H5 Hd). now symmetry.
        -- constructor; [intros []|constructor].
      * intros z Hz. unfold route_trips. cbn. apply Ha in Hz.
        intros [<-|[<-|[]]]; contradiction.
Qed.

Lemma twoOptImprovement_short (fuel : nat) (routes : list Route) distanceMatrix :
  Forall (fun r => (List.length (trips r) <= 2)%nat) routes ->
  twoOptImprovement fuel routes distanceMatrix = Some routes.
Proof.
  induction 1 as [|r rs Hr Hrs IH]; cbn [twoOptImprovement]; [reflexivity|].
  apply Nat.leb_le in Hr. now rewrite Hr, IH.
Qed.

(** The loop over the remaining trips: one route per trip that is not in
    the set, as soon as one vehicle is not in maintenance; none otherwise. *)
Lemma single_loop all vehicles assigned l :
  incl l all ->
  forall routes,
  exists singles,
    for_each l (single_step vehicles assigned) routes = Normal (routes ++ singles)%list /\
    Forall (single_route all vehicles) singles /\
    route_trips singles
    = match candidates vehicles with
      | [] => []
      | _ => filter (fun t => negb (has assigned (Trip.id t))) l
      end.
Proof.
  induction l as [|t l IH]; intros Hi routes; cbn [for_each].
  - exists []. rewrite app_nil_r. split; [reflexivity|]. split; [constructor|].
    cbn. now destruct (candidates vehicles).
  - assert (Hi' : incl l all) by (intros x Hx; apply Hi; now right).
    assert (Ht : In t all) by (apply Hi; now left).
    unfold single_step at 1. cbn [filter].
    destruct (has assigned (Trip.id t)) eqn:E; cbn [negb bind].
    + apply (IH Hi').
    + destruct (ScoringFacts.findBestVehicleAssignment_cases t vehicles)
        as [(Hc & r & Hr & Hs & _)
           |(Hc & r & best & others & Hr & Hs & Hrec & _ & _ & _ & _ & Hp & _)];
        rewrite Hr; cbn [bind]; rewrite Hs; cbn [bind].
      * destruct (IH Hi' routes) as (singles & E1 & E2 & E3).
        exists singles. rewrite Hc in *. auto.
      * rewrite Hrec. cbn [bind].
        set (route := {| vehicle := Engine.vehicle best; trips := [t];
                         totalDistance :=
                           details_totalDistance (details (optimization best));
                         savings := 0 |}).
        destruct (IH Hi' (routes ++ [route])%list) as (singles & E1 & E2 & E3).
        exists (route :: singles). rewrite E1, <- app_assoc. cbn [app].
        split; [reflexivity|]. split.
        -- constructor; [|exact E2]. exists t. cbn.
           assert (Hv : In (Engine.vehicle best) (candidates vehicles)).
           { eapply Permutation_in; [exact Hp|]. now left. }
           apply ScoringFacts.candidates_in_service in Hv. tauto.
        -- unfold route_trips in *. cbn [map List.concat trips route app].
           rewrite E3. destruct (candidates vehicles); [now elim Hc|reflexivity].
Qed.

(** What the savings heuristic returns, in two parts. *)
Lemma clarkeWrightOptimization_parts trips vehicles distanceMatrix :
  exists pairs singles assigned,
    clarkeWrightOptimization trips vehicles distanceMatrix
    = Normal (pairs ++ singles)%list /\
    Forall (pair_route trips vehicles distanceMatrix) pairs /\
    Forall (single_route trips vehicles) singles /\
    (forall z, In z assigned <-> In z (map Trip.id (route_trips pairs))) /\
    (NoDup (map Trip.id trips) -> NoDup (map Trip.id (route_trips pairs))) /\
    route_trips singles
    = match candidates vehicles with
      | [] => []
      | _ => filter (fun t => negb (has assigned (Trip.id t))) trips
      end.
Proof.
  unfold clarkeWrightOptimization.
  set (sorted := Array_sort _ _).
  assert (Hs : Forall (fun s =>
            In (Saving.trip1 s) trips /\ In (Saving.trip2 s) trips /\
            Saving.saving s
            = calculateSavings (Saving.trip1 s) (Saving.trip2 s) distanceMatrix /\
            (0 <? Saving.saving s) = true /\
            (NoDup (map Trip.id trips) ->
             Trip.id (Saving.trip1 s) <> Trip.id (Saving.trip2 s))) sorted).
  { apply Forall_forall. intros s Hin.
    pose proof (savings_from_spec trips 0 distanceMatrix) as Hf.
    rewrite Forall_forall in Hf. apply Hf.
    eapply Permutation_in; [apply ScoringFacts.Array_sort_perm|exact Hin]. }
  pose proof (pair_loop trips vehicles distanceMatrix sorted Hs [] []
                (Forall_nil _) (fun z => conj (fun H => H) (fun H => H))
                (fun _ => NoDup_nil _)) as (P1 & P2 & P3).
  destruct (fold_left (pair_step vehicles distanceMatrix) sorted ([], []))
    as [pairs assigned]. cbn [fst snd] in *.
  destruct (single_loop trips vehicles assigned trips (incl_refl _) pairs)
    as (singles & E1 & E2 & E3).
  exists pairs, singles, assigned. auto 10.
Qed.

Lemma pair_route_trips all vehicles distanceMatrix pairs :
  Forall (pair_route all vehicles distanceMatrix) pairs ->
  incl (route_trips pairs) all.
Proof.
  induction 1 as [|r rs (t1 & t2 & E & H1 & H2 & _) _ IH]; [intros x []|].
  unfold route_trips in *. cbn. rewrite E. intros x [<-|[<-|Hx]]; auto.
Qed.

(** The routes of [clarkeWrightOptimization]: the function always returns;
    a route holds a pair of input trips with a saving above 0, on the first
    vehicle whose type suits both, whatever its status, or one input trip
    on a vehicle that is not in maintenance; when the identifiers of the
    trips are pairwise distinct no trip is in two routes, and then every
    trip is in exactly one route as soon as one vehicle is not in
    maintenance; with every vehicle in maintenance only pair routes are
    left. *)
Theorem clarkeWrightOptimization_routes :
  forall (trips : list Trip.t) (vehicles : list Vehicle.t) (distanceMatrix : Matrix),
  exists routes,
    clarkeWrightOptimization trips vehicles distanceMatrix = Normal routes /\
    Forall (fun r => pair_route trips vehicles distanceMatrix r \/
                     single_route trips vehicles r) routes /\
    (NoDup (map Trip.id trips) -> NoDup (map Trip.id (route_trips routes))) /\
    (NoDup (map Trip.id trips) -> candidates vehicles <> [] ->
     Permutation (route_trips routes) trips) /\
    (candidates vehicles = [] ->
     Forall (pair_route trips vehicles distanceMatrix) routes).
Proof.
  intros trips vehicles dm.
  destruct (clarkeWrightOptimization_parts trips vehicles dm)
    as (pairs & singles & assigned & E & Hp & Hs & Ha & Hn & Hr).
  exists (pairs ++ singles)%list. split; [exact E|].
  assert (Hd : NoDup (map Trip.id trips) ->
               NoDup (map Trip.id (route_trips (pairs ++ singles)))).
  { intros Hd. rewrite route_trips_app, map_app. apply NoDup_app.
    - now apply Hn.
    - rewrite Hr. destruct (candidates vehicles) as [|c cs]; [constructor|].
      now apply filter_keeps_distinct_ids.
    - intros z Hz. apply Ha in Hz. rewrite Hr.
      destruct (candidates vehicles) as [|c cs]; [intros []|].
      intros Hin. apply in_map_iff in Hin. destruct Hin as (x & <- & Ht).
      apply filter_In in Ht. destruct Ht as [_ Ht].
      apply negb_true_iff, has_not_In in Ht. contradiction. }
  split; [|split; [exact Hd|split]].
  - apply Forall_app. split.
    + eapply Forall_impl; [|exact Hp]. now left.
    + eapply Forall_impl; [|exact Hs]. now right.
  - intros Hnd Hc. apply NoDup_Permutation.
    + eapply NoDup_map_inv. now apply Hd.
    + eapply NoDup_map_inv. exact Hnd.
    + intros x. rewrite route_trips_app, in_app_iff, Hr.
      pose proof (pair_route_trips _ _ _ _ Hp) as Hi.
      destruct (candidates vehicles) as [|c cs]; [now elim Hc|].
      rewrite filter_In. split.
      * intros [H|[H _]]; auto.
      * intros Hx. destruct (has assigned (Trip.id x)) eqn:Eh.
        -- left. apply has_In, Ha, in_map_iff in Eh.
           destruct Eh as (y & Ey & Hy).
           rewrite <- (same_id_same_trip trips y x Hnd (Hi y Hy) Hx Ey).
           exact Hy.
        -- right. split; [exact Hx|reflexivity].
  - intros Hc. rewrite Hc in Hr.
    assert (singles = []) as ->.
    { destruct Hs as [|r rs (t1 & Et & _) _]; [reflexivity|].
      unfold route_trips in Hr. cbn in Hr. rewrite Et in Hr. discriminate Hr. }
    now rewrite app_nil_r.
Qed.

(** In [optimizeWithVRP] the 2-opt pass changes nothing: every route of
    [clarkeWrightOptimization] holds one or two trips, and
    [twoOptImprovement] returns such routes as they are, without entering
    its loop. *)
Theorem twoOptImprovement_after_clarkeWright :
  forall (trips : list Trip.t) (vehicles : list Vehicle.t) (distanceMatrix : Matrix)
         (fuel : nat),
  exists routes,
    clarkeWrightOptimization trips vehicles distanceMatrix = Normal routes /\
    Forall (fun r => List.length (Routes.trips r) = 1%nat \/
                     List.length (Routes.trips r) = 2%nat) routes /\
    twoOptImprovement fuel routes distanceMatrix = Some routes.
Proof.
  intros trips vehicles dm fuel.
  destruct (clarkeWrightOptimization_parts trips vehicles dm)
    as (pairs & singles & assigned & E & Hp & Hs & _).
  exists (pairs ++ singles)%list. split; [exact E|].
  assert (Hl : Forall (fun r => List.length (Routes.trips r) = 1%nat \/
                                List.length (Routes.trips r) = 2%nat)
                      (pairs ++ singles)).
  { apply Forall_app. split.
    - eapply Forall_impl; [|exact Hp]. intros r (t1 & t2 & -> & _). now right.
    - eapply Forall_impl; [|exact Hs]. intros r (t1 & -> & _). now left. }
  split; [exact Hl|]. apply twoOptImprovement_short.
  eapply Forall_impl; [|exact Hl]. cbn. intros r [->| ->]; lia.
Qed.

End WithHost.

(** A route of four trips with an empty matrix: every distance is 0 and
    the loop ends at its first turn. *)
Lemma twoOptImprovement_loop_instance :
  exists best,
    @improve Examples.example_host 5 [] {| vehicle := Examples.vsl_1;
                    trips := Examples.three_trips ++ [Examples.trip_1];
                    totalDistance := Some 0;
                    savings := 0 |}
            {| vehicle := Examples.vsl_1;
               trips := Examples.three_trips ++ [Examples.trip_1];
               totalDistance := Some 0;
               savings := 0 |} = Some best /\
    Permutation (trips best) (Examples.three_trips ++ [Examples.trip_1]).
Proof.
  destruct (@twoOptImprovement_loop_ends Examples.example_host []
              {| vehicle := Examples.vsl_1;
                 trips := Examples.three_trips ++ [Examples.trip_1];
                 totalDistance := Some 0;
                 savings := 0 |} 5 ltac:(lia)) as (best & H & _ & Hi).
  exists best. split; [exact H|]. now destruct Hi as (_ & _ & Hp & _).
Defined.

(** Three trips, the segment after the first one reversed. *)
Lemma twoOptSwap_instance :
  Permutation (twoOptSwap Examples.three_trips 0 2) Examples.three_trips /\
  List.length (twoOptSwap Examples.three_trips 0 2) = 3%nat /\
  firstn 1 (twoOptSwap Examples.three_trips 0 2) = firstn 1 Examples.three_trips /\
  skipn 3 (twoOptSwap Examples.three_trips 0 2) = skipn 3 Examples.three_trips /\
  twoOptSwap (twoOptSwap Examples.three_trips 0 2) 0 2 = Examples.three_trips.
Proof.
  apply (twoOptSwap_reverses_a_segment Examples.three_trips 0 2); cbn; lia.
Defined.

(** The scenario trip and two VSL, the first one in maintenance: the first
    one is found. *)
Lemma findCompatibleVehicle_instance :
  @findCompatibleVehicle Examples.example_host [Examples.trip_1]
    [EngineScenarios.vsl_in_maintenance; Examples.vsl_1]
  = Some EngineScenarios.vsl_in_maintenance.
Proof.
  destruct (@findCompatibleVehicle_ignores_status Examples.example_host
              [Examples.trip_1]
              [EngineScenarios.vsl_in_maintenance; Examples.vsl_1]) as (H & _ & _).
  apply H. exists [], [Examples.vsl_1]. split; [reflexivity|].
  split; [|constructor]. constructor; [reflexivity|constructor].
Defined.

(** Three trips from Hyères, 10 km from the base: with a vehicle in service
    every trip is in exactly one route; with the only vehicle in maintenance
    the routes left are pair routes, on that vehicle. *)
Lemma clarkeWrightOptimization_instance :
  (exists routes,
     @clarkeWrightOptimization Examples.example_host Examples.three_trips
       [Examples.vsl_1] RouteScenarios.base_to_hyeres = Normal routes /\
     Permutation (route_trips routes) Examples.three_trips) /\
  (exists routes,
     @clarkeWrightOptimization Examples.example_host Examples.three_trips
       [EngineScenarios.vsl_in_maintenance] RouteScenarios.base_to_hyeres
     = Normal routes /\
     routes <> [] /\
     Forall (@pair_route Examples.example_host Examples.three_trips
               [EngineScenarios.vsl_in_maintenance]
               RouteScenarios.base_to_hyeres) routes).
Proof.
  split.
  - destruct (@clarkeWrightOptimization_routes Examples.example_host
                Examples.three_trips [Examples.vsl_1] RouteScenarios.base_to_hyeres)
      as (routes & E & _ & _ & Hp & _).
    exists routes. split; [exact E|]. apply Hp.
    + cbn. repeat constructor; cbn; intuition discriminate.
    + cbn. discriminate.
  - destruct (@clarkeWrightOptimization_routes Examples.example_host
                Examples.three_trips [EngineScenarios.vsl_in_maintenance]
                RouteScenarios.base_to_hyeres)
      as (routes & E & _ & _ & _ & Hm).
    exists routes. split; [exact E|]. split.
    + intros ->. vm_compute in E. discriminate E.
    + apply Hm. reflexivity.
Defined.

End RoutesFacts.


(* ================================================================== *)
(** * The fitness of the genetic algorithm never counts a conflict *)
(* ================================================================== *)

Module GeneticFacts.

Import JS Engine Genetic.

#[local] Open Scope float_scope.

Section WithHost.

Context {host : Host}.

Lemma score_of_no_conflict (a : GeneAssignment) (d : ScoreDetails) :
  details (score_of a) = DetailsOk d -> Engine.conflicts d = [].
Proof.
  unfold score_of. destruct (ga_vehicle a) as [v|]; [|discriminate].
  unfold calculateOptimizationScore, score_body.
  destruct (geocodeAddress (Trip.pickup (ga_trip a))); cbn [bind]; [|discriminate].
  destruct (geocodeAddress (Trip.destination (ga_trip a))); cbn [bind];
    [|discriminate].
  destruct (geocodeAddress _); cbn [bind]; [|discriminate].
  cbn [details]. intros [= <-]. reflexivity.
Qed.

Lemma fitness_loop_scored (l : list GeneAssignment) :
  Forall scored l ->
  forall s d,
    for_each l fitness_step {| totalScore := s; Genetic.conflicts := 0;
                               totalDistance := d |}
    = Normal {| totalScore := sum_scores l s; Genetic.conflicts := 0;
                totalDistance := sum_distances l d |}.
Proof.
  induction 1 as [|a l (sd & Ha) _ IH]; intros s d; cbn [for_each]; [reflexivity|].
  unfold fitness_step at 1. cbn [totalScore Genetic.conflicts totalDistance].
  rewrite Ha. cbn [conflicts_length bind].
  rewrite (score_of_no_conflict a sd Ha). cbn [List.length].
  replace (0 + of_nat 0) with 0 by (vm_compute; reflexivity).
  rewrite <- Ha. unfold sum_scores, sum_distances. cbn [fold_left].
  apply IH.
Qed.

Lemma fitness_loop_raises (l : list GeneAssignment) :
  Exists (fun a => ~ scored a) l ->
  forall t,
    for_each l fitness_step t
    = Throw "TypeError: cannot read properties of undefined (reading 'length')".
Proof.
  induction l as [|a l IH]; intros He t; [inversion He|].
  cbn [for_each]. unfold fitness_step at 1.
  destruct (details (score_of a)) as [sd|e] eqn:Ea; cbn [conflicts_length bind].
  - apply IH. inversion He as [? ? Hn|]; [|assumption].
    exfalso. apply Hn. now exists sd.
  - reflexivity.
Qed.

(** The fitness of a solution of the genetic algorithm: every assignment is
    scored against an empty list of existing trips, so no conflict is ever
    counted and the conflict penalty is always 0; the fitness is the average
    score less a tenth of the total distance, or 0 when that is negative.
    When one assignment cannot be scored (its detail is the error detail),
    the function raises; and on no assignment at all the fitness is NaN. *)
Theorem calculateSolutionFitness_never_counts_conflicts :
  forall assignments : list GeneAssignment,
    (Forall scored assignments ->
     calculateSolutionFitness assignments
     = Normal (Num.Math_max 0
                 (sum_scores assignments 0 / of_nat (List.length assignments)
                  - 0 * 10 - sum_distances assignments 0 * 0.1))) /\
    (Exists (fun a => ~ scored a) assignments ->
     calculateSolutionFitness assignments
     = Throw "TypeError: cannot read properties of undefined (reading 'length')") /\
    (assignments = [] ->
     exists x, calculateSolutionFitness assignments = Normal x /\ is_nan x = true).
Proof.
  intros l. split; [|split].
  - intros H. unfold calculateSolutionFitness.
    rewrite (fitness_loop_scored l H). reflexivity.
  - intros H. unfold calculateSolutionFitness.
    rewrite (fitness_loop_raises l H). reflexivity.
  - intros ->. eexists. split; [reflexivity|]. vm_compute. reflexivity.
Qed.

End WithHost.

(** The scenario trip on the scenario vehicle has a fitness; with the trip
    that has no pickup address beside it, the function raises. *)
Lemma calculateSolutionFitness_instance :
  (exists x,
     @calculateSolutionFitness Examples.example_host [GeneticScenarios.good]
     = Normal x /\ (0 <=? x) = true) /\
  @calculateSolutionFitness Examples.example_host
    [GeneticScenarios.good; GeneticScenarios.without_pickup]
  = Throw "TypeError: cannot read properties of undefined (reading 'length')".
Proof.
  split.
  - eexists. split.
    + apply (@calculateSolutionFitness_never_counts_conflicts Examples.example_host
               [GeneticScenarios.good]).
      constructor; [|constructor]. eexists. vm_compute. reflexivity.
    + vm_compute. reflexivity.
  - apply (@calculateSolutionFitness_never_counts_conflicts Examples.example_host
             [GeneticScenarios.good; GeneticScenarios.without_pickup]).
    apply Exists_cons_tl, Exists_cons_hd. intros (d & Hd). vm_compute in Hd.
    discriminate Hd.
Defined.

End GeneticFacts.

